(** * Zombieslicer: the slice geometry engine of [src/main.js]

    A shallow embedding of the slicing core of the game: the fragment
    shader's per-pixel discard test, the ray/unit-square intersection, the
    two gesture resolvers, the slice executor, the blood-particle pool and
    the per-tick physics of the sliced pieces; and around it the walk of
    the zombies, the lives, the asset loaders, the spawn timer and the
    texts of the score and of the hearts.

    Numbers.  JavaScript numbers and GLSL floats are modelled as the real
    numbers of the Standard Library: every arithmetic operation is exact and
    there is no NaN.  [Infinity] and [-Infinity], which the intersection
    routine uses as initial bounds, are modelled by the type [ER].

    Environment.  [performance.now()], [clock.getDelta()], [Math.random()],
    the camera's aspect ratio and the three.js raycaster are inputs of the
    model: a time stamp, an elapsed time, a sequence of draws, a real number
    and a function that picks a hit among the meshes it is given. *)

From Stdlib Require Import Reals Lra Psatz List Bool Arith Lia ZArith.
From Stdlib Require String Ascii DecimalString DecimalFacts DecimalPos.
Import ListNotations.
Open Scope R_scope.

(** * Part I: the model *)

(** ** Comparisons of numbers as booleans *)

Definition Rltb (a b : R) : bool := if Rlt_dec a b then true else false.
Definition Rleb (a b : R) : bool := if Rle_dec a b then true else false.
Definition Rgtb (a b : R) : bool := Rltb b a.
Definition Rgeb (a b : R) : bool := Rleb b a.

(** ** Vectors: the operations of [THREE.Vector2] and [THREE.Vector3]
    that the program calls *)

Record Vector2 : Type := V2 { x2 : R; y2 : R }.
Record Vector3 : Type := V3 { x3 : R; y3 : R; z3 : R }.

Module Vec.

Definition subVectors (a b : Vector2) : Vector2 :=
  V2 (x2 a - x2 b) (y2 a - y2 b).

Definition addVectors (a b : Vector2) : Vector2 :=
  V2 (x2 a + x2 b) (y2 a + y2 b).

Definition multiplyScalar (v : Vector2) (s : R) : Vector2 :=
  V2 (x2 v * s) (y2 v * s).

Definition dot (a b : Vector2) : R := x2 a * x2 b + y2 a * y2 b.

Definition lengthSq (v : Vector2) : R := x2 v * x2 v + y2 v * y2 v.

Definition length (v : Vector2) : R := sqrt (lengthSq v).

(** [divideScalar (length () || 1)]: the zero vector is left as it is. *)
Definition normalize (v : Vector2) : Vector2 :=
  if Req_dec_T (length v) 0 then multiplyScalar v (1 / 1)
  else multiplyScalar v (1 / length v).

Definition distanceTo (a b : Vector2) : R := length (subVectors a b).

Definition clamp (lo hi v : R) : R := Rmax lo (Rmin hi v).

Definition clampScalar (v : Vector2) (lo hi : R) : Vector2 :=
  V2 (clamp lo hi (x2 v)) (clamp lo hi (y2 v)).

(** [Vector3.addScaledVector]. *)
Definition addScaledVector (p v : Vector3) (s : R) : Vector3 :=
  V3 (x3 p + x3 v * s) (y3 p + y3 v * s) (z3 p + z3 v * s).

End Vec.

(** A point of the texture square [[0,1] x [0,1]]. *)
Definition inUnitSquare (p : Vector2) : Prop :=
  0 <= x2 p <= 1 /\ 0 <= y2 p <= 1.

(** ** The fragment shader ([fragmentShader], main.js 125-164) *)

Module Shader.

(** GLSL built-ins on [vec2]. *)
Definition distance (a b : Vector2) : R := Vec.length (Vec.subVectors a b).

Definition normalize (v : Vector2) : Vector2 :=
  V2 (x2 v / Vec.length v) (y2 v / Vec.length v).

(** [normal]: the unit normal of the line from [uSliceStart] to
    [uSliceEnd]. *)
Definition normal (uSliceStart uSliceEnd : Vector2) : Vector2 :=
  let lineVec := Vec.subVectors uSliceEnd uSliceStart in
  normalize (V2 (- y2 lineVec) (x2 lineVec)).

(** [side]: the signed perpendicular distance of [vUv] from that line. *)
Definition side (uSliceStart uSliceEnd vUv : Vector2) : R :=
  let pointVec := Vec.subVectors vUv uSliceStart in
  Vec.dot pointVec (normal uSliceStart uSliceEnd).

(** The slicing block: [true] when the pixel gets past it, [false] when
    it is discarded there. *)
Definition sliceKeeps (uSliceStart uSliceEnd : Vector2) (uSideToKeep : R)
           (vUv : Vector2) : bool :=
  if Req_dec_T uSideToKeep 0 then true
  else if Rltb (distance uSliceStart uSliceEnd) 0.0001 then
         if Rgtb uSideToKeep 0 then false else true
       else
         if Rltb (side uSliceStart uSliceEnd vUv * uSideToKeep) 0 then false
         else true.

(** The whole shader: [true] when [gl_FragColor] is written.  [uTexture]
    gives the alpha channel of the texel at a UV point. *)
Definition fragmentVisible (uTexture : Vector2 -> R)
           (uSliceStart uSliceEnd : Vector2) (uSideToKeep : R)
           (vUv : Vector2) : bool :=
  if sliceKeeps uSliceStart uSliceEnd uSideToKeep vUv then
    if Rltb (uTexture vUv) 0.1 then false else true
  else false.

End Shader.

(** The 2D cross product of the direction of the line from [a] to [b] with
    the vector from [a] to [p]: zero exactly when [p] is on the infinite
    line through [a] and [b]. *)
Definition cross (a b p : Vector2) : R :=
  (x2 b - x2 a) * (y2 p - y2 a) - (y2 b - y2 a) * (x2 p - x2 a).

Definition onLine (a b p : Vector2) : Prop := cross a b p = 0.

(** ** Line-square intersection ([intersectUVSquare], main.js 337-377) *)

(** The values of [tMin] and [tMax]: a number, [Infinity] or [-Infinity]. *)
Inductive ER : Type :=
| NegInf : ER
| Fin : R -> ER
| PosInf : ER.

(** [Math.max(tMin, t)] and [Math.min(tMax, t)] for a finite [t]. *)
Definition ERmax (a : ER) (t : R) : ER :=
  match a with
  | NegInf => Fin t
  | Fin r => Fin (Rmax r t)
  | PosInf => PosInf
  end.

Definition ERmin (a : ER) (t : R) : ER :=
  match a with
  | NegInf => NegInf
  | Fin r => Fin (Rmin r t)
  | PosInf => Fin t
  end.

(** [a > b], [a < c] and [a > c] on extended numbers. *)
Definition ERgtb (a b : ER) : bool :=
  match a, b with
  | NegInf, _ => false
  | Fin _, NegInf => true
  | Fin x, Fin y => Rgtb x y
  | Fin _, PosInf => false
  | PosInf, PosInf => false
  | PosInf, _ => true
  end.

Definition ERltR (a : ER) (c : R) : bool :=
  match a with
  | NegInf => true
  | Fin x => Rltb x c
  | PosInf => false
  end.

Definition ERgtR (a : ER) (c : R) : bool :=
  match a with
  | NegInf => false
  | Fin x => Rgtb x c
  | PosInf => true
  end.

Definition ERgeR (a : ER) (c : R) : bool :=
  match a with
  | NegInf => false
  | Fin x => Rgeb x c
  | PosInf => true
  end.

(** One axis pass of the slab method; the source writes this block twice,
    for [x] and for [y].  [None] is the early [return null]. *)
Definition axisPass (start dir : R) (tMin tMax : ER) : option (ER * ER) :=
  if Rltb (Rabs dir) 1e-6 then
    if Rltb start 0 || Rgtb start 1 then None else Some (tMin, tMax)
  else
    let t1 := (0 - start) / dir in
    let t2 := (1 - start) / dir in
    let (t1', t2') := if Rgtb t1 t2 then (t2, t1) else (t1, t2) in
    Some (ERmax tMin t1', ERmin tMax t2').

(** The time chosen along the ray, or [None] where the source returns
    [null]. *)
Definition intersectionTime (startPoint direction : Vector2) : option R :=
  match axisPass (x2 startPoint) (x2 direction) NegInf PosInf with
  | None => None
  | Some (tMin, tMax) =>
    match axisPass (y2 startPoint) (y2 direction) tMin tMax with
    | None => None
    | Some (tMin, tMax) =>
      if ERgtb tMin tMax || ERltR tMax 1e-6 then None
      else
        let tIntersection := if ERgeR tMin 1e-6 then tMin else tMax in
        if ERltR tIntersection 1e-6 || ERgtR tIntersection 1e6 then None
        else match tIntersection with
             | Fin t => Some t
             | _ => None
             end
    end
  end.

Definition intersectUVSquare (startPoint direction : Vector2) : option Vector2 :=
  match intersectionTime startPoint direction with
  | None => None
  | Some t => Some (Vec.addVectors startPoint (Vec.multiplyScalar direction t))
  end.

(** ** Constants (main.js 13-36, 1335-1336) *)

Definition SLICE_GESTURE_THRESHOLD : R := 0.03.
Definition FLOOR_Y : R := -2.5.
Definition MAX_BLOOD_PARTICLES : nat := 50.
Definition ZOMBIE_START_Z : R := -20.
Definition ZOMBIE_END_Z : R := 3.
Definition ZOMBIE_WALK_SPEED : R := 2.2.
Definition ZOMBIE_ANIM_FPS : R := 10.
Definition DAMPING : R := 0.95.
Definition ZOMBIE_FRAME_COUNT : nat := 16.
Definition DESPAWN_TIME : R := 10.0.
Definition PERSPECTIVE_FLOOR_FACTOR : R := 0.015.
Definition PATH_WIDTH_START : R := 8.0.
Definition PATH_WIDTH_END : R := 2.0.
Definition RED_LINE_Y_OFFSET : R := 0.0.
Definition ZOMBIE_KILL_COOLDOWN : R := 0.2.
Definition BLOOD_TEXTURE_FILES : nat := 7.
Definition CAMERA_Z : R := 5.

(** ** The objects of the game *)

(** A zombie mesh.  [zmwPosition] and [zmwScale] are its [matrixWorld],
    the position and scale it had when the scene was last rendered (the
    identity for a mesh never rendered); zombies are never rotated.
    [zuTexture] is the index of the animation frame in its [uTexture]
    uniform; [zwidth] and [zheight] are its geometry's parameters. *)
Record Zombie : Type := mkZombie {
  zposition : Vector3;
  zscale : Vector3;
  zmwPosition : Vector3;
  zmwScale : Vector3;
  zuTexture : nat;
  zwidth : R;
  zheight : R;
  zvelocity : Vector3;
  zisSliced : bool;
  zanimFrame : nat;
  zanimTimer : R;
  zbaseScale : R
}.

(** A sliced piece: the mesh made by [createSlicedMesh] with its shader
    uniforms and its [userData]. *)
Record Piece : Type := mkPiece {
  pposition : Vector3;
  protationZ : R;
  pscale : Vector3;
  puTexture : nat;
  puSliceStart : Vector2;
  puSliceEnd : Vector2;
  puSideToKeep : R;
  pvelocity : Vector2;
  protation : R;
  pisOnFloor : bool;
  pdespawnTimer : R
}.

(** An entry of [bloodParticlePool] with its sprite.  A floor-bound
    particle's velocity is a [Vector2]; it is kept here with [z3 = 0],
    which that branch never reads.  [isWallBlood] and [stuckToWall] are
    undefined, hence falsy, in a fresh entry. *)
Record Particle : Type := mkParticle {
  visible : bool;
  sposition : Vector3;
  sscale : R;
  mapIndex : Z;
  opacity : R;
  materialRotation : R;
  lifetime : R;
  velocity : Vector3;
  rotationSpeed : R;
  isOnFloor : bool;
  despawnTimer : R;
  isWallBlood : bool;
  stuckToWall : bool
}.

(** The variables of the mouse gesture (main.js 217-228). *)
Record MouseState : Type := mkMouse {
  mouseNDC : Vector2;
  sliceStartNDC : Vector2;
  sliceEndNDC : Vector2;
  sliceStartUV : Vector2;
  sliceEndUV : Vector2;
  sliceStartValid : bool;
  sliceEndValid : bool;
  zombieToSlice : option nat;
  isSlicing : bool
}.

(** The state of the program.  Zombie meshes are JavaScript objects that
    several variables refer to and that [animate] mutates in place:
    [heap] holds them, and [activeZombies], [sceneZombies] and
    [zombieToSlice] hold references, which are indices into [heap].
    [loadedBloodCount] and [loadedZombieFrameCount] are the counters of the
    top-level loaders, [assetsBloodCount] and [assetsZombieFrameCount]
    those of [loadAssets].  [sliceLog] is a history variable, not a
    variable of the program: the targets of the slices executed so far. *)
Record State : Type := mkState {
  heap : list Zombie;
  activeZombies : list nat;
  sceneZombies : list nat;
  slicedPieces : list Piece;
  bloodParticlePool : list Particle;
  bloodTextures : nat;
  bloodTexturesLoaded : bool;
  loadedBloodCount : nat;
  assetsBloodCount : nat;
  zombieGeometry : option (R * R);
  allZombieFramesLoaded : bool;
  loadedZombieFrameCount : nat;
  assetsZombieFrameCount : nat;
  score : Z;
  lives : nat;
  gameOver : bool;
  lastZombieKillTime : R;
  cameraAspect : R;
  mouse : MouseState;
  previousFingerTipNDC : option Vector2;
  sliceLog : list nat
}.

Definition zero2 : Vector2 := V2 0 0.
Definition zero3 : Vector3 := V3 0 0 0.

(** The state when the script has run to its end, in a window of the
    given aspect ratio. *)
Definition initialState (aspect : R) : State :=
  {| heap := [];
     activeZombies := [];
     sceneZombies := [];
     slicedPieces := [];
     bloodParticlePool := [];
     bloodTextures := 0;
     bloodTexturesLoaded := false;
     loadedBloodCount := 0;
     assetsBloodCount := 0;
     zombieGeometry := None;
     allZombieFramesLoaded := false;
     loadedZombieFrameCount := 0;
     assetsZombieFrameCount := 0;
     score := 0%Z;
     lives := 3;
     gameOver := false;
     lastZombieKillTime := 0;
     cameraAspect := aspect;
     mouse := mkMouse zero2 zero2 zero2 zero2 zero2 false false None false;
     previousFingerTipNDC := None;
     sliceLog := [] |}.

(** ** Lists as JavaScript arrays *)

(** [a[i] = v] for an index in range. *)
Fixpoint list_set {A : Type} (i : nat) (v : A) (l : list A) : list A :=
  match l, i with
  | [], _ => []
  | _ :: r, O => v :: r
  | a :: r, S j => a :: list_set j v r
  end.

(** [a.splice(i, 1)]. *)
Fixpoint splice1 {A : Type} (i : nat) (l : list A) : list A :=
  match l, i with
  | [], _ => []
  | _ :: r, O => r
  | a :: r, S j => a :: splice1 j r
  end.

(** [a.indexOf(x)] on an array of references; [None] is [-1]. *)
Fixpoint indexOf (x : nat) (l : list nat) : option nat :=
  match l with
  | [] => None
  | a :: r => if Nat.eqb a x then Some O else option_map S (indexOf x r)
  end.

(** Removes the first occurrence of a reference, if there is one:
    [scene.remove], and [indexOf] followed by [splice]. *)
Definition removeRef (x : nat) (l : list nat) : list nat :=
  match indexOf x l with
  | Some i => splice1 i l
  | None => l
  end.

(** The index of the first entry that [find(p => !p.sprite.visible)]
    returns. *)
Fixpoint findFree (pool : list Particle) : option nat :=
  match pool with
  | [] => None
  | p :: r => if visible p then option_map S (findFree r) else Some O
  end.

(** The number of live particles. *)
Definition liveCount (pool : list Particle) : nat :=
  List.length (filter visible pool).

Definition freeCount (pool : list Particle) : nat :=
  List.length (filter (fun p => negb (visible p)) pool).

(** ** The slice executor ([performSlice], main.js 426-585) *)

(** [Math.atan2], without signed zeros. *)
Definition atan2 (y x : R) : R :=
  if Rltb 0 x then atan (y / x)
  else if Rltb x 0 then
         if Rleb 0 y then atan (y / x) + PI else atan (y / x) - PI
       else if Rltb 0 y then PI / 2
            else if Rltb y 0 then - PI / 2 else 0.

(** A pool entry as the loaders create it. *)
Definition freshParticle : Particle :=
  {| visible := false;
     sposition := zero3;
     sscale := 1;
     mapIndex := 0%Z;
     opacity := 0;
     materialRotation := 0;
     lifetime := 0;
     velocity := zero3;
     rotationSpeed := 0;
     isOnFloor := false;
     despawnTimer := 0;
     isWallBlood := false;
     stuckToWall := false |}.

Definition numBloodParticles : nat := 18.

(** The particle that iteration [i] of the emission loop writes into the
    entry it found.  [rnd k], [rnd (k+1)], ... are the results of the calls
    of [Math.random()] in the order the iteration makes them. *)
Definition emitParticle (i : nat) (rnd : nat -> R) (k : nat) (textures : nat)
           (spawnPosition : Vector3) (scaleX : R)
           (sliceVectorUV normalVectorWorld : Vector2) : Particle :=
  let map := Int_part (rnd k * INR textures) in
  let position :=
    V3 (x3 spawnPosition) (y3 spawnPosition)
       (z3 spawnPosition + (rnd (k + 1)%nat - 0.5) * 0.1) in
  let rotation := rnd (k + 2)%nat * PI * 2 in
  let scale := (0.3 + rnd (k + 3)%nat * 0.5) * scaleX in
  if Nat.ltb i (Nat.div numBloodParticles 3) then
    let cutAngle := atan2 (y2 sliceVectorUV) (x2 sliceVectorUV) in
    let angleOffset := (rnd (k + 4)%nat - 0.5) * PI * 0.25 in
    let finalAngle := cutAngle + angleOffset in
    let speed := (0.09 + rnd (k + 5)%nat * 0.08) * scaleX in
    {| visible := true;
       sposition := position;
       sscale := scale;
       mapIndex := map;
       opacity := 1.0;
       materialRotation := rotation;
       lifetime := 1.2 + rnd (k + 8)%nat * 0.7;
       velocity := V3 (cos finalAngle * speed) (sin finalAngle * speed)
                      (-0.18 - rnd (k + 6)%nat * 0.12);
       rotationSpeed := (rnd (k + 7)%nat - 0.5) * 0.1;
       isOnFloor := false;
       despawnTimer := 0;
       isWallBlood := true;
       stuckToWall := false |}
  else
    let angleOffset := (rnd (k + 4)%nat - 0.5) * PI * 0.8 in
    let angle1 :=
      atan2 (y2 normalVectorWorld) (x2 normalVectorWorld) + angleOffset in
    let angle2 :=
      atan2 (- y2 normalVectorWorld) (- x2 normalVectorWorld) + angleOffset in
    let finalAngle := if Rgtb (rnd (k + 5)%nat) 0.5 then angle1 else angle2 in
    let speed := (0.03 + rnd (k + 6)%nat * 0.05) * scaleX in
    {| visible := true;
       sposition := position;
       sscale := scale;
       mapIndex := map;
       opacity := 1.0;
       materialRotation := rotation;
       lifetime := 1.0 + rnd (k + 8)%nat * 1.0;
       velocity := V3 (cos finalAngle * speed) (sin finalAngle * speed) 0;
       rotationSpeed := (rnd (k + 7)%nat - 0.5) * 0.1;
       isOnFloor := false;
       despawnTimer := 0;
       isWallBlood := false;
       stuckToWall := false |}.

(** One iteration of the emission loop: the pool and the number of draws
    made so far.  Without a free entry the iteration is skipped
    ([continue]) and draws nothing. *)
Definition emitStep (rnd : nat -> R) (textures : nat)
           (spawnPosition : Vector3) (scaleX : R)
           (sliceVectorUV normalVectorWorld : Vector2)
           (acc : list Particle * nat) (i : nat) : list Particle * nat :=
  let (pool, k) := acc in
  match findFree pool with
  | None => (pool, k)
  | Some j =>
    (list_set j (emitParticle i rnd k textures spawnPosition scaleX
                              sliceVectorUV normalVectorWorld) pool,
     (k + 9)%nat)
  end.

(** The loop [for (let i = 0; i < numBloodParticles; i++)]. *)
Definition emitBlood (rnd : nat -> R) (textures : nat)
           (spawnPosition : Vector3) (scaleX : R)
           (sliceVectorUV normalVectorWorld : Vector2)
           (pool : list Particle) (k : nat) : list Particle * nat :=
  fold_left (emitStep rnd textures spawnPosition scaleX
                      sliceVectorUV normalVectorWorld)
            (seq 0 numBloodParticles) (pool, k).

(** The cut normal of [performSlice]. *)
Definition sliceVectorUV (startUV endUV : Vector2) : Vector2 :=
  Vec.normalize (Vec.subVectors endUV startUV).

Definition normalVectorWorld (startUV endUV : Vector2) : Vector2 :=
  let sv := sliceVectorUV startUV endUV in
  Vec.normalize (V2 (- y2 sv) (x2 sv)).

(** [createSlicedMesh (sideToKeep)] followed by the physics set-up of step
    4: [sign] is [+1] for [piece1] and [-1] for [piece2], [draw] the
    result of the piece's call of [Math.random()]. *)
Definition makePiece (z : Zombie) (startUV endUV : Vector2)
           (sideToKeep sign draw : R) : Piece :=
  let n := normalVectorWorld startUV endUV in
  let forceMagnitude := 0.02 * x3 (zscale z) in
  let rotationSpeed := 0.02 in
  let separation := 0.05 * x3 (zscale z) in
  {| pposition := V3 (x3 (zposition z) + sign * (x2 n * separation))
                     (y3 (zposition z) + sign * (y2 n * separation))
                     (z3 (zposition z));
     protationZ := 0;
     pscale := zscale z;
     puTexture := zuTexture z;
     puSliceStart := startUV;
     puSliceEnd := endUV;
     puSideToKeep := sideToKeep;
     pvelocity := V2 (sign * x2 n * forceMagnitude) (sign * y2 n * forceMagnitude);
     protation := rotationSpeed * (if Rgtb draw 0.5 then 1 else -1);
     pisOnFloor := false;
     pdespawnTimer := 0 |}.

(** Where the blood is spawned: the midpoint of the cut, taken through the
    target's [matrixWorld]. *)
Definition spawnPosition (z : Zombie) (startUV endUV : Vector2) : Vector3 :=
  let centerUV := Vec.multiplyScalar (Vec.addVectors startUV endUV) 0.5 in
  let localX := (x2 centerUV - 0.5) * zwidth z in
  let localY := (y2 centerUV - 0.5) * zheight z in
  V3 (x3 (zmwPosition z) + x3 (zmwScale z) * localX)
     (y3 (zmwPosition z) + y3 (zmwScale z) * localY)
     (z3 (zmwPosition z) + z3 (zmwScale z) * 0).

(** [performSlice] past its two guards, for the target [id] whose mesh
    is [z]. *)
Definition executeSlice (s : State) (now : R) (rnd : nat -> R)
           (id : nat) (z : Zombie) (startUV endUV : Vector2) : State :=
  let piece1 := makePiece z startUV endUV 1.0 1 (rnd 0%nat) in
  let piece2 := makePiece z startUV endUV (-1.0) (-1) (rnd 1%nat) in
  let pool :=
    if bloodTexturesLoaded s then
      fst (emitBlood rnd (bloodTextures s) (spawnPosition z startUV endUV)
                     (x3 (zscale z)) (sliceVectorUV startUV endUV)
                     (normalVectorWorld startUV endUV)
                     (bloodParticlePool s) 2)
    else bloodParticlePool s in
  {| heap := heap s;
     activeZombies := removeRef id (activeZombies s);
     sceneZombies := removeRef id (sceneZombies s);
     slicedPieces := slicedPieces s ++ [piece1; piece2];
     bloodParticlePool := pool;
     bloodTextures := bloodTextures s;
     bloodTexturesLoaded := bloodTexturesLoaded s;
     loadedBloodCount := loadedBloodCount s;
     assetsBloodCount := assetsBloodCount s;
     zombieGeometry := zombieGeometry s;
     allZombieFramesLoaded := allZombieFramesLoaded s;
     loadedZombieFrameCount := loadedZombieFrameCount s;
     assetsZombieFrameCount := assetsZombieFrameCount s;
     score := (score s + 50)%Z;
     lives := lives s;
     gameOver := gameOver s;
     lastZombieKillTime := now;
     cameraAspect := cameraAspect s;
     mouse := mouse s;
     previousFingerTipNDC := previousFingerTipNDC s;
     sliceLog := sliceLog s ++ [id] |}.

(** [performSlice (targetZombie, startUV, endUV)].  [now] is
    [performance.now() / 1000]; [None] is a null target.  A reference
    always points into the heap. *)
Definition performSlice (s : State) (now : R) (rnd : nat -> R)
           (targetZombie : option nat) (startUV endUV : Vector2) : State :=
  match targetZombie with
  | None => s
  | Some id =>
    match nth_error (heap s) id with
    | None => s
    | Some z =>
      if zisSliced z then s
      else if Rltb (now - lastZombieKillTime s) ZOMBIE_KILL_COOLDOWN then s
           else executeSlice s now rnd id z startUV endUV
    end
  end.

(** ** The gesture resolvers and the input handlers *)

Section Handlers.

(** [raycaster.setFromCamera (ndc, camera)] followed by
    [raycaster.intersectObjects (meshes)]: the UV point and the mesh of the
    nearest intersection, [None] for an empty result. *)
Variable raycast : Vector2 -> list (nat * Zombie) -> option (Vector2 * nat).

(** [activeZombies.filter(z => !z.userData.isSliced)]. *)
Definition zombiesToTest (s : State) : list (nat * Zombie) :=
  flat_map (fun id =>
              match nth_error (heap s) id with
              | Some z => if zisSliced z then [] else [(id, z)]
              | None => []
              end) (activeZombies s).

(** [getUVCoordsFromNDC], and [getUVCoords] for the point [ndc] that it
    computes from the mouse event (main.js 231-259, 1265-1275). *)
Definition getUVCoordsFromNDC (s : State) (ndc : Vector2) : option (Vector2 * nat) :=
  match activeZombies s with
  | [] => None
  | _ :: _ => raycast ndc (zombiesToTest s)
  end.

Definition getUVCoords (s : State) (ndc : Vector2) : option (Vector2 * nat) :=
  getUVCoordsFromNDC s ndc.

(** The direction of a gesture in texture space. *)
Definition directionNDC (startNDC endNDC : Vector2) : Vector2 :=
  Vec.normalize (Vec.subVectors endNDC startNDC).

Definition directionUVApprox (aspect : R) (d : Vector2) : Vector2 :=
  Vec.normalize (V2 (x2 d) (y2 d * aspect)).

(** The last two steps of both resolvers: the distance check and the
    clamp. *)
Definition checkAndClamp (finalStartUV finalEndUV : Vector2) : option (Vector2 * Vector2) :=
  if Rltb (Vec.distanceTo finalStartUV finalEndUV) 0.001 then None
  else Some (Vec.clampScalar finalStartUV 0 1, Vec.clampScalar finalEndUV 0 1).

(** [calculateAndPerformSlice] up to its call of [performSlice]: the two
    points it passes, [None] where it returns before (main.js 383-419). *)
Definition resolveSliceUV (s : State) : option (Vector2 * Vector2) :=
  let m := mouse s in
  let dNDC := directionNDC (sliceStartNDC m) (sliceEndNDC m) in
  let dUV := directionUVApprox (cameraAspect s) dNDC in
  if sliceStartValid m && sliceEndValid m then
    checkAndClamp (sliceStartUV m) (sliceEndUV m)
  else if sliceStartValid m && negb (sliceEndValid m) then
    match intersectUVSquare (sliceStartUV m) dUV with
    | None => None
    | Some extendedEnd => checkAndClamp (sliceStartUV m) extendedEnd
    end
  else None.

Definition calculateAndPerformSlice (s : State) (now : R) (rnd : nat -> R)
           (targetZombie : option nat) : State :=
  match targetZombie with
  | None => s
  | Some _ =>
    match resolveSliceUV s with
    | None => s
    | Some (finalStartUV, finalEndUV) =>
      performSlice s now rnd targetZombie finalStartUV finalEndUV
    end
  end.

(** [calculateAndPerformSliceHand] between its first guard and its call of
    [performSlice] (main.js 1281-1318). *)
Definition resolveSliceUVHand (aspect : R) (startUV startNDC endNDC : Vector2)
           (endUVIfValid : option Vector2) : option (Vector2 * Vector2) :=
  let dNDC := directionNDC startNDC endNDC in
  if Rltb (Vec.lengthSq dNDC) 1e-6 then None
  else
    let dUV := directionUVApprox aspect dNDC in
    if Rltb (Vec.lengthSq dUV) 1e-6 then None
    else
      match endUVIfValid with
      | Some endUV => checkAndClamp startUV endUV
      | None =>
        match intersectUVSquare startUV dUV with
        | None => None
        | Some extendedEnd => checkAndClamp startUV extendedEnd
        end
      end.

Definition calculateAndPerformSliceHand (s : State) (now : R) (rnd : nat -> R)
           (targetZombie : option nat) (startUV startNDC endNDC : Vector2)
           (endUVIfValid : option Vector2) : State :=
  match targetZombie with
  | None => s
  | Some id =>
    match nth_error (heap s) id with
    | None => s
    | Some z =>
      if zisSliced z then s
      else
        match resolveSliceUVHand (cameraAspect s) startUV startNDC endNDC
                                 endUVIfValid with
        | None => s
        | Some (finalStartUV, finalEndUV) =>
          performSlice s now rnd targetZombie finalStartUV finalEndUV
        end
    end
  end.

Definition setMouse (s : State) (m : MouseState) : State :=
  {| heap := heap s;
     activeZombies := activeZombies s;
     sceneZombies := sceneZombies s;
     slicedPieces := slicedPieces s;
     bloodParticlePool := bloodParticlePool s;
     bloodTextures := bloodTextures s;
     bloodTexturesLoaded := bloodTexturesLoaded s;
     loadedBloodCount := loadedBloodCount s;
     assetsBloodCount := assetsBloodCount s;
     zombieGeometry := zombieGeometry s;
     allZombieFramesLoaded := allZombieFramesLoaded s;
     loadedZombieFrameCount := loadedZombieFrameCount s;
     assetsZombieFrameCount := assetsZombieFrameCount s;
     score := score s;
     lives := lives s;
     gameOver := gameOver s;
     lastZombieKillTime := lastZombieKillTime s;
     cameraAspect := cameraAspect s;
     mouse := m;
     previousFingerTipNDC := previousFingerTipNDC s;
     sliceLog := sliceLog s |}.

Definition setPreviousFingerTipNDC (s : State) (p : option Vector2) : State :=
  {| heap := heap s;
     activeZombies := activeZombies s;
     sceneZombies := sceneZombies s;
     slicedPieces := slicedPieces s;
     bloodParticlePool := bloodParticlePool s;
     bloodTextures := bloodTextures s;
     bloodTexturesLoaded := bloodTexturesLoaded s;
     loadedBloodCount := loadedBloodCount s;
     assetsBloodCount := assetsBloodCount s;
     zombieGeometry := zombieGeometry s;
     allZombieFramesLoaded := allZombieFramesLoaded s;
     loadedZombieFrameCount := loadedZombieFrameCount s;
     assetsZombieFrameCount := assetsZombieFrameCount s;
     score := score s;
     lives := lives s;
     gameOver := gameOver s;
     lastZombieKillTime := lastZombieKillTime s;
     cameraAspect := cameraAspect s;
     mouse := mouse s;
     previousFingerTipNDC := p;
     sliceLog := sliceLog s |}.

(** The [mousedown] listener (main.js 262-282); [ndc] is the point that
    [updateMousePosition] computes from the event. *)
Definition mousedown (s : State) (ndc : Vector2) : State :=
  match zombieGeometry s with
  | None => s
  | Some _ =>
    let m := mouse s in
    match getUVCoords s ndc with
    | Some (uv, object) =>
      setMouse s (mkMouse ndc ndc (sliceEndNDC m) uv (sliceEndUV m)
                          true false (Some object) true)
    | None =>
      setMouse s (mkMouse ndc ndc (sliceEndNDC m) (sliceStartUV m) (sliceEndUV m)
                          false false None false)
    end
  end.

(** The [mousemove] listener (main.js 284-289). *)
Definition mousemove (s : State) (ndc : Vector2) : State :=
  let m := mouse s in
  if isSlicing m then
    setMouse s (mkMouse ndc (sliceStartNDC m) (sliceEndNDC m) (sliceStartUV m)
                        (sliceEndUV m) (sliceStartValid m) (sliceEndValid m)
                        (zombieToSlice m) (isSlicing m))
  else s.

(** The reset at the end of the [mouseup] listener. *)
Definition resetMouse (s : State) : State :=
  let m := mouse s in
  setMouse s (mkMouse (mouseNDC m) (sliceStartNDC m) (sliceEndNDC m)
                      (sliceStartUV m) (sliceEndUV m) false false None false).

(** The [mouseup] listener (main.js 291-318). *)
Definition mouseup (s : State) (ndc : Vector2) (now : R) (rnd : nat -> R) : State :=
  let m := mouse s in
  match isSlicing m, zombieToSlice m with
  | true, Some target =>
    let m1 :=
      match getUVCoords s ndc with
      | Some (uv, object) =>
        if Nat.eqb object target then
          mkMouse ndc (sliceStartNDC m) ndc (sliceStartUV m) uv
                  (sliceStartValid m) true (zombieToSlice m) (isSlicing m)
        else
          mkMouse ndc (sliceStartNDC m) ndc (sliceStartUV m) (sliceEndUV m)
                  (sliceStartValid m) false (zombieToSlice m) (isSlicing m)
      | None =>
        mkMouse ndc (sliceStartNDC m) ndc (sliceStartUV m) (sliceEndUV m)
                (sliceStartValid m) false (zombieToSlice m) (isSlicing m)
      end in
    let s1 := setMouse s m1 in
    let s2 :=
      if Rgtb (Vec.distanceTo (sliceStartNDC m1) (sliceEndNDC m1)) 0.02 then
        calculateAndPerformSlice s1 now rnd (zombieToSlice m1)
      else s1 in
    resetMouse s2
  | _, _ => resetMouse s
  end.

(** What the hand landmarker hands to [processHandData]: no hand, or the
    landmarks of the first hand with its index finger tip, which may be
    missing. *)
Inductive HandResults : Type :=
| NoHands : HandResults
| Hands : option Vector2 -> HandResults.

(** The frame-to-frame slicing check of [processHandData]
    (main.js 1225-1250). *)
Definition frameToFrameCheck (s : State) (now : R) (rnd : nat -> R)
           (currentFingerTipNDC : Vector2) : State :=
  match previousFingerTipNDC s with
  | None => s
  | Some previous =>
    let distance := Vec.distanceTo currentFingerTipNDC previous in
    if Rgtb distance SLICE_GESTURE_THRESHOLD then
      match getUVCoordsFromNDC s previous with
      | None => s
      | Some (startUV, targetZombie) =>
        let endUVIfValid :=
          match getUVCoordsFromNDC s currentFingerTipNDC with
          | Some (uv, object) =>
            if Nat.eqb object targetZombie then Some uv else None
          | None => None
          end in
        calculateAndPerformSliceHand s now rnd (Some targetZombie) startUV
                                     previous currentFingerTipNDC endUVIfValid
      end
    else s
  end.

(** [processHandData] (main.js 1206-1260). *)
Definition processHandData (s : State) (now : R) (rnd : nat -> R)
           (results : HandResults) : State :=
  if gameOver s then s
  else
    match results with
    | NoHands => setPreviousFingerTipNDC s None
    | Hands None => setPreviousFingerTipNDC s None
    | Hands (Some fingerTipRaw) =>
      let currentFingerTipNDC :=
        V2 ((x2 fingerTipRaw * 2 - 1) * -1) (y2 fingerTipRaw * -2 + 1) in
      setPreviousFingerTipNDC (frameToFrameCheck s now rnd currentFingerTipNDC)
                              (Some currentFingerTipNDC)
    end.

End Handlers.

(** ** Spawning and the animation loop *)

(** [calculateFloorY] and [calculatePathWidth] (main.js 923-938);
    [THREE.MathUtils.lerp (x, y, t)] is [(1 - t) * x + t * y]. *)
Definition calculateFloorY (z : R) : R :=
  FLOOR_Y + (CAMERA_Z - z) * PERSPECTIVE_FLOOR_FACTOR.

Definition calculatePathWidth (z : R) : R :=
  let totalZDistance := ZOMBIE_END_Z - ZOMBIE_START_Z in
  if Rltb (Rabs totalZDistance) 0.01 then PATH_WIDTH_END
  else
    let fraction := (z - ZOMBIE_START_Z) / totalZDistance in
    let width := (1 - fraction) * PATH_WIDTH_START + fraction * PATH_WIDTH_END in
    Rmax 0.1 width.

Definition setWorld (s : State) (h : list Zombie) (active scene : list nat)
           (l : nat) (g : bool) : State :=
  {| heap := h;
     activeZombies := active;
     sceneZombies := scene;
     slicedPieces := slicedPieces s;
     bloodParticlePool := bloodParticlePool s;
     bloodTextures := bloodTextures s;
     bloodTexturesLoaded := bloodTexturesLoaded s;
     loadedBloodCount := loadedBloodCount s;
     assetsBloodCount := assetsBloodCount s;
     zombieGeometry := zombieGeometry s;
     allZombieFramesLoaded := allZombieFramesLoaded s;
     loadedZombieFrameCount := loadedZombieFrameCount s;
     assetsZombieFrameCount := assetsZombieFrameCount s;
     score := score s;
     lives := l;
     gameOver := g;
     lastZombieKillTime := lastZombieKillTime s;
     cameraAspect := cameraAspect s;
     mouse := mouse s;
     previousFingerTipNDC := previousFingerTipNDC s;
     sliceLog := sliceLog s |}.

(** [spawnZombie] (main.js 849-905).  The new mesh is allocated at the end
    of the heap; the rescheduling of the spawn timer is left to the
    environment. *)
Definition spawnZombie (s : State) (rnd : nat -> R) : State :=
  if gameOver s then s
  else
    match allZombieFramesLoaded s, zombieGeometry s with
    | true, Some (width, height) =>
      let baseScale := 0.8 + rnd 0%nat * 0.7 in
      let initialScaleFactor := Rmax 0.1 (CAMERA_Z / (CAMERA_Z - ZOMBIE_START_Z)) in
      let initialScale := baseScale * initialScaleFactor in
      let startPathWidth := calculatePathWidth ZOMBIE_START_Z in
      let startX := (rnd 1%nat - 0.5) * startPathWidth in
      let startFloorY := calculateFloorY ZOMBIE_START_Z in
      let zombieHeight := height * initialScale in
      let startY := startFloorY + zombieHeight / 2 + RED_LINE_Y_OFFSET in
      let newZombie :=
        {| zposition := V3 startX startY ZOMBIE_START_Z;
           zscale := V3 initialScale initialScale 1;
           zmwPosition := zero3;
           zmwScale := V3 1 1 1;
           zuTexture := 0;
           zwidth := width;
           zheight := height;
           zvelocity := V3 0 0 ZOMBIE_WALK_SPEED;
           zisSliced := false;
           zanimFrame := 0;
           zanimTimer := 0;
           zbaseScale := baseScale |} in
      let id := List.length (heap s) in
      setWorld s (heap s ++ [newZombie]) (activeZombies s ++ [id])
               (sceneZombies s ++ [id]) (lives s) (gameOver s)
    | _, _ => s
    end.

(** The movement block of [animate] for one zombie (main.js 644-662). *)
Definition moveZombie (deltaTime : R) (z : Zombie) : Zombie :=
  let p := Vec.addScaledVector (zposition z) (zvelocity z) deltaTime in
  let currentZ := z3 p in
  let scaleFactor := Rmax 0.1 (CAMERA_Z / (CAMERA_Z - currentZ)) in
  let currentScale := zbaseScale z * scaleFactor in
  let currentFloorY := calculateFloorY currentZ in
  let currentHeight := zheight z * currentScale in
  let halfWidth := calculatePathWidth currentZ / 2 in
  {| zposition := V3 (Rmax (- halfWidth) (Rmin halfWidth (x3 p)))
                     (currentFloorY + currentHeight / 2)
                     currentZ;
     zscale := V3 currentScale currentScale 1;
     zmwPosition := zmwPosition z;
     zmwScale := zmwScale z;
     zuTexture := zuTexture z;
     zwidth := zwidth z;
     zheight := zheight z;
     zvelocity := zvelocity z;
     zisSliced := zisSliced z;
     zanimFrame := zanimFrame z;
     zanimTimer := zanimTimer z;
     zbaseScale := zbaseScale z |}.

(** The animation block of [animate] for one zombie (main.js 685-694). *)
Definition animateFrame (deltaTime : R) (z : Zombie) : Zombie :=
  let frameDuration := 1 / ZOMBIE_ANIM_FPS in
  let timer := zanimTimer z + deltaTime in
  if Rgeb timer frameDuration then
    let frame := Nat.modulo (zanimFrame z + 1) ZOMBIE_FRAME_COUNT in
    {| zposition := zposition z;
       zscale := zscale z;
       zmwPosition := zmwPosition z;
       zmwScale := zmwScale z;
       zuTexture := frame;
       zwidth := zwidth z;
       zheight := zheight z;
       zvelocity := zvelocity z;
       zisSliced := zisSliced z;
       zanimFrame := frame;
       zanimTimer := timer - frameDuration;
       zbaseScale := zbaseScale z |}
  else
    {| zposition := zposition z;
       zscale := zscale z;
       zmwPosition := zmwPosition z;
       zmwScale := zmwScale z;
       zuTexture := zuTexture z;
       zwidth := zwidth z;
       zheight := zheight z;
       zvelocity := zvelocity z;
       zisSliced := zisSliced z;
       zanimFrame := zanimFrame z;
       zanimTimer := timer;
       zbaseScale := zbaseScale z |}.

(** Losing a life when a zombie gets past the player (main.js 670-678);
    [showGameOver] sets [gameOver]. *)
Definition loseLife (l : nat) (g : bool) : nat * bool :=
  if negb g && Nat.ltb 0 l then
    (Nat.pred l, if Nat.eqb (Nat.pred l) 0 then true else g)
  else (l, g).

(** The loop over [activeZombies], from index [i - 1] down to [0]. *)
Fixpoint animateZombies (deltaTime : R) (i : nat) (s : State) : State :=
  match i with
  | O => s
  | S j =>
    match nth_error (activeZombies s) j with
    | None => animateZombies deltaTime j s
    | Some id =>
      match nth_error (heap s) id with
      | None => animateZombies deltaTime j s
      | Some z =>
        let z1 := moveZombie deltaTime z in
        if Rgeb (z3 (zposition z1)) ZOMBIE_END_Z then
          let (l, g) := loseLife (lives s) (gameOver s) in
          animateZombies deltaTime j
            (setWorld s (list_set id z1 (heap s)) (splice1 j (activeZombies s))
                      (removeRef id (sceneZombies s)) l g)
        else
          animateZombies deltaTime j
            (setWorld s (list_set id (animateFrame deltaTime z1) (heap s))
                      (activeZombies s) (sceneZombies s) (lives s) (gameOver s))
      end
    end
  end.

(** One tick of a sliced piece (main.js 702-736); [None] when the piece is
    despawned. *)
Definition stepPiece (deltaTime : R) (p : Piece) : option Piece :=
  if negb (pisOnFloor p) then
    let x := x3 (pposition p) + x2 (pvelocity p) in
    let y := y3 (pposition p) + y2 (pvelocity p) in
    let vy := y2 (pvelocity p) - 0.001 in
    let rz := protationZ p + protation p in
    if Rleb y FLOOR_Y then
      Some {| pposition := V3 x FLOOR_Y (z3 (pposition p));
              protationZ := rz;
              pscale := pscale p;
              puTexture := puTexture p;
              puSliceStart := puSliceStart p;
              puSliceEnd := puSliceEnd p;
              puSideToKeep := puSideToKeep p;
              pvelocity := V2 (x2 (pvelocity p)) 0;
              protation := protation p;
              pisOnFloor := true;
              pdespawnTimer := 0 |}
    else
      Some {| pposition := V3 x y (z3 (pposition p));
              protationZ := rz;
              pscale := pscale p;
              puTexture := puTexture p;
              puSliceStart := puSliceStart p;
              puSliceEnd := puSliceEnd p;
              puSideToKeep := puSideToKeep p;
              pvelocity := V2 (x2 (pvelocity p)) vy;
              protation := protation p;
              pisOnFloor := pisOnFloor p;
              pdespawnTimer := pdespawnTimer p |}
  else
    let vx := x2 (pvelocity p) * DAMPING in
    let rot := protation p * DAMPING in
    let x := x3 (pposition p) + vx in
    let rz := protationZ p + rot in
    let vx' := if Rltb (Rabs vx) 0.001 then 0 else vx in
    let rot' := if Rltb (Rabs rot) 0.001 then 0 else rot in
    let timer := pdespawnTimer p + deltaTime in
    if Rgeb timer DESPAWN_TIME then None
    else
      Some {| pposition := V3 x (y3 (pposition p)) (z3 (pposition p));
              protationZ := rz;
              pscale := pscale p;
              puTexture := puTexture p;
              puSliceStart := puSliceStart p;
              puSliceEnd := puSliceEnd p;
              puSideToKeep := puSideToKeep p;
              pvelocity := V2 vx' (y2 (pvelocity p));
              protation := rot';
              pisOnFloor := pisOnFloor p;
              pdespawnTimer := timer |}.

(** The loop over [slicedPieces], from index [i - 1] down to [0], with
    [splice (i, 1)] for a despawned piece. *)
Fixpoint animatePieces (deltaTime : R) (i : nat) (pieces : list Piece) : list Piece :=
  match i with
  | O => pieces
  | S j =>
    match nth_error pieces j with
    | None => animatePieces deltaTime j pieces
    | Some p =>
      match stepPiece deltaTime p with
      | None => animatePieces deltaTime j (splice1 j pieces)
      | Some p' => animatePieces deltaTime j (list_set j p' pieces)
      end
    end
  end.

(** One tick of a pool entry (main.js 741-820), with the number of draws
    of [Math.random()] made so far. *)
Definition stepParticle (deltaTime : R) (rnd : nat -> R)
           (acc : list Particle * nat) (p : Particle) : list Particle * nat :=
  let (done, k) := acc in
  if negb (visible p) then (done ++ [p], k)
  else if isWallBlood p then
    (* wall blood: flight, or stuck to the wall *)
    let '(p1, k1) :=
      if negb (stuckToWall p) then
        let x := x3 (sposition p) + x3 (velocity p) in
        let y := y3 (sposition p) + y3 (velocity p) in
        let z := z3 (sposition p) + z3 (velocity p) in
        let vy := y3 (velocity p) - 0.003 in
        let op := if Rltb (lifetime p) 0.5 then lifetime p * 2 else opacity p in
        if Rleb z ZOMBIE_START_Z then
          ({| visible := visible p;
              sposition := V3 x y (ZOMBIE_START_Z + 0.01 * (rnd k - 0.5));
              sscale := sscale p;
              mapIndex := mapIndex p;
              opacity := 0.7 + rnd (k + 1)%nat * 0.2;
              materialRotation := materialRotation p;
              lifetime := lifetime p;
              velocity := zero3;
              rotationSpeed := rotationSpeed p;
              isOnFloor := isOnFloor p;
              despawnTimer := 0;
              isWallBlood := isWallBlood p;
              stuckToWall := true |}, (k + 2)%nat)
        else
          ({| visible := visible p;
              sposition := V3 x y z;
              sscale := sscale p;
              mapIndex := mapIndex p;
              opacity := op;
              materialRotation := materialRotation p;
              lifetime := lifetime p;
              velocity := V3 (x3 (velocity p)) vy (z3 (velocity p));
              rotationSpeed := rotationSpeed p;
              isOnFloor := isOnFloor p;
              despawnTimer := despawnTimer p;
              isWallBlood := isWallBlood p;
              stuckToWall := stuckToWall p |}, k)
      else
        let timer := despawnTimer p + deltaTime in
        if Rgtb timer 4.5 then
          ({| visible := false;
              sposition := sposition p;
              sscale := sscale p;
              mapIndex := mapIndex p;
              opacity := 0;
              materialRotation := materialRotation p;
              lifetime := lifetime p;
              velocity := velocity p;
              rotationSpeed := rotationSpeed p;
              isOnFloor := isOnFloor p;
              despawnTimer := timer;
              isWallBlood := isWallBlood p;
              stuckToWall := false |}, k)
        else
          ({| visible := visible p;
              sposition := sposition p;
              sscale := sscale p;
              mapIndex := mapIndex p;
              opacity := opacity p;
              materialRotation := materialRotation p;
              lifetime := lifetime p;
              velocity := velocity p;
              rotationSpeed := rotationSpeed p;
              isOnFloor := isOnFloor p;
              despawnTimer := timer;
              isWallBlood := isWallBlood p;
              stuckToWall := stuckToWall p |}, k) in
    let life := lifetime p1 - deltaTime in
    let expired := Rleb life 0 && negb (stuckToWall p1) in
    (done ++ [{| visible := if expired then false else visible p1;
                 sposition := sposition p1;
                 sscale := sscale p1;
                 mapIndex := mapIndex p1;
                 opacity := if expired then 0 else opacity p1;
                 materialRotation := materialRotation p1;
                 lifetime := life;
                 velocity := velocity p1;
                 rotationSpeed := rotationSpeed p1;
                 isOnFloor := isOnFloor p1;
                 despawnTimer := despawnTimer p1;
                 isWallBlood := isWallBlood p1;
                 stuckToWall := stuckToWall p1 |}], k1)
  else if negb (isOnFloor p) then
    (* floor blood in the air *)
    let life := lifetime p - deltaTime in
    if Rleb life 0 then
      (done ++ [{| visible := false;
                   sposition := sposition p;
                   sscale := sscale p;
                   mapIndex := mapIndex p;
                   opacity := 0;
                   materialRotation := materialRotation p;
                   lifetime := life;
                   velocity := velocity p;
                   rotationSpeed := rotationSpeed p;
                   isOnFloor := isOnFloor p;
                   despawnTimer := despawnTimer p;
                   isWallBlood := isWallBlood p;
                   stuckToWall := stuckToWall p |}], k)
    else
      let x := x3 (sposition p) + x3 (velocity p) in
      let y := y3 (sposition p) + y3 (velocity p) in
      let vy := y3 (velocity p) - 0.005 in
      let rot := materialRotation p + rotationSpeed p in
      if Rleb y FLOOR_Y then
        (done ++ [{| visible := visible p;
                     sposition := V3 x (FLOOR_Y + rnd k * 0.01) (z3 (sposition p));
                     sscale := sscale p;
                     mapIndex := mapIndex p;
                     opacity := 0.6 + rnd (k + 1)%nat * 0.2;
                     materialRotation := 0;
                     lifetime := life;
                     velocity := V3 0 0 (z3 (velocity p));
                     rotationSpeed := 0;
                     isOnFloor := true;
                     despawnTimer := 0;
                     isWallBlood := isWallBlood p;
                     stuckToWall := stuckToWall p |}], (k + 2)%nat)
      else
        (done ++ [{| visible := visible p;
                     sposition := V3 x y (z3 (sposition p));
                     sscale := sscale p;
                     mapIndex := mapIndex p;
                     opacity := if Rltb life 0.5 then life * 2 else opacity p;
                     materialRotation := rot;
                     lifetime := life;
                     velocity := V3 (x3 (velocity p)) vy (z3 (velocity p));
                     rotationSpeed := rotationSpeed p;
                     isOnFloor := isOnFloor p;
                     despawnTimer := despawnTimer p;
                     isWallBlood := isWallBlood p;
                     stuckToWall := stuckToWall p |}], k)
  else
    (* a puddle on the floor *)
    let timer := despawnTimer p + deltaTime in
    if Rgeb timer DESPAWN_TIME then
      (done ++ [{| visible := false;
                   sposition := sposition p;
                   sscale := sscale p;
                   mapIndex := mapIndex p;
                   opacity := 0;
                   materialRotation := materialRotation p;
                   lifetime := lifetime p;
                   velocity := velocity p;
                   rotationSpeed := rotationSpeed p;
                   isOnFloor := false;
                   despawnTimer := 0;
                   isWallBlood := isWallBlood p;
                   stuckToWall := stuckToWall p |}], k)
    else
      (done ++ [{| visible := visible p;
                   sposition := sposition p;
                   sscale := sscale p;
                   mapIndex := mapIndex p;
                   opacity := opacity p;
                   materialRotation := materialRotation p;
                   lifetime := lifetime p;
                   velocity := velocity p;
                   rotationSpeed := rotationSpeed p;
                   isOnFloor := isOnFloor p;
                   despawnTimer := timer;
                   isWallBlood := isWallBlood p;
                   stuckToWall := stuckToWall p |}], k).

(** [bloodParticlePool.forEach (...)]. *)
Definition animateParticles (deltaTime : R) (rnd : nat -> R)
           (pool : list Particle) : list Particle :=
  fst (fold_left (stepParticle deltaTime rnd) pool ([], 0%nat)).

(** [renderer.render (scene, camera)] brings the [matrixWorld] of every
    mesh of the scene up to date. *)
Definition updateMatrixWorld (z : Zombie) : Zombie :=
  {| zposition := zposition z;
     zscale := zscale z;
     zmwPosition := zposition z;
     zmwScale := zscale z;
     zuTexture := zuTexture z;
     zwidth := zwidth z;
     zheight := zheight z;
     zvelocity := zvelocity z;
     zisSliced := zisSliced z;
     zanimFrame := zanimFrame z;
     zanimTimer := zanimTimer z;
     zbaseScale := zbaseScale z |}.

Definition render (scene : list nat) (h : list Zombie) : list Zombie :=
  map (fun iz : nat * Zombie =>
         if existsb (Nat.eqb (fst iz)) scene then updateMatrixWorld (snd iz)
         else snd iz)
      (combine (seq 0 (List.length h)) h).

(** [animate] (main.js 634-842); [deltaTime] is [clock.getDelta ()].  The
    zombie groans, which only play a sound, are left out. *)
Definition animate (s : State) (deltaTime : R) (rnd : nat -> R) : State :=
  let s1 := animateZombies deltaTime (List.length (activeZombies s)) s in
  let pieces :=
    animatePieces deltaTime (List.length (slicedPieces s1)) (slicedPieces s1) in
  let pool :=
    if bloodTexturesLoaded s1 then
      animateParticles deltaTime rnd (bloodParticlePool s1)
    else bloodParticlePool s1 in
  {| heap := render (sceneZombies s1) (heap s1);
     activeZombies := activeZombies s1;
     sceneZombies := sceneZombies s1;
     slicedPieces := pieces;
     bloodParticlePool := pool;
     bloodTextures := bloodTextures s1;
     bloodTexturesLoaded := bloodTexturesLoaded s1;
     loadedBloodCount := loadedBloodCount s1;
     assetsBloodCount := assetsBloodCount s1;
     zombieGeometry := zombieGeometry s1;
     allZombieFramesLoaded := allZombieFramesLoaded s1;
     loadedZombieFrameCount := loadedZombieFrameCount s1;
     assetsZombieFrameCount := assetsZombieFrameCount s1;
     score := score s1;
     lives := lives s1;
     gameOver := gameOver s1;
     lastZombieKillTime := lastZombieKillTime s1;
     cameraAspect := cameraAspect s1;
     mouse := mouse s1;
     previousFingerTipNDC := previousFingerTipNDC s1;
     sliceLog := sliceLog s1 |}.

(** ** Asset loading (main.js 72-107, 166-198 and [loadAssets], 1021-1079)

    The script loads the blood textures and the zombie frames at top level,
    and [loadAssets], called when the hand landmarker is ready, loads them
    once more.  Each loader counts its own callbacks; both push to
    [bloodTextures] and to [bloodParticlePool]. *)

Inductive Loader : Type :=
| TopLevel : Loader
| LoadAssets : Loader.

Definition setBlood (s : State) (pool : list Particle) (textures : nat)
           (loaded : bool) (top assets : nat) : State :=
  {| heap := heap s;
     activeZombies := activeZombies s;
     sceneZombies := sceneZombies s;
     slicedPieces := slicedPieces s;
     bloodParticlePool := pool;
     bloodTextures := textures;
     bloodTexturesLoaded := loaded;
     loadedBloodCount := top;
     assetsBloodCount := assets;
     zombieGeometry := zombieGeometry s;
     allZombieFramesLoaded := allZombieFramesLoaded s;
     loadedZombieFrameCount := loadedZombieFrameCount s;
     assetsZombieFrameCount := assetsZombieFrameCount s;
     score := score s;
     lives := lives s;
     gameOver := gameOver s;
     lastZombieKillTime := lastZombieKillTime s;
     cameraAspect := cameraAspect s;
     mouse := mouse s;
     previousFingerTipNDC := previousFingerTipNDC s;
     sliceLog := sliceLog s |}.

(** The callback of one blood texture. *)
Definition bloodTextureLoaded (s : State) (l : Loader) : State :=
  let top := match l with
             | TopLevel => S (loadedBloodCount s)
             | LoadAssets => loadedBloodCount s
             end in
  let assets := match l with
                | TopLevel => assetsBloodCount s
                | LoadAssets => S (assetsBloodCount s)
                end in
  let count := match l with
               | TopLevel => top
               | LoadAssets => assets
               end in
  if Nat.eqb count BLOOD_TEXTURE_FILES then
    setBlood s (bloodParticlePool s ++ repeat freshParticle MAX_BLOOD_PARTICLES)
             (S (bloodTextures s)) true top assets
  else
    setBlood s (bloodParticlePool s) (S (bloodTextures s))
             (bloodTexturesLoaded s) top assets.

Definition setFrames (s : State) (geometry : option (R * R)) (all : bool)
           (top assets : nat) : State :=
  {| heap := heap s;
     activeZombies := activeZombies s;
     sceneZombies := sceneZombies s;
     slicedPieces := slicedPieces s;
     bloodParticlePool := bloodParticlePool s;
     bloodTextures := bloodTextures s;
     bloodTexturesLoaded := bloodTexturesLoaded s;
     loadedBloodCount := loadedBloodCount s;
     assetsBloodCount := assetsBloodCount s;
     zombieGeometry := geometry;
     allZombieFramesLoaded := all;
     loadedZombieFrameCount := top;
     assetsZombieFrameCount := assets;
     score := score s;
     lives := lives s;
     gameOver := gameOver s;
     lastZombieKillTime := lastZombieKillTime s;
     cameraAspect := cameraAspect s;
     mouse := mouse s;
     previousFingerTipNDC := previousFingerTipNDC s;
     sliceLog := sliceLog s |}.

(** The callback of the zombie frame [index], an image of the given width
    and height.  The top-level loader starts the spawner on its last frame,
    which spawns a zombie at once. *)
Definition zombieFrameLoaded (s : State) (l : Loader) (index : nat)
           (width height : R) (rnd : nat -> R) : State :=
  let top := match l with
             | TopLevel => S (loadedZombieFrameCount s)
             | LoadAssets => loadedZombieFrameCount s
             end in
  let assets := match l with
                | TopLevel => assetsZombieFrameCount s
                | LoadAssets => S (assetsZombieFrameCount s)
                end in
  let count := match l with
               | TopLevel => top
               | LoadAssets => assets
               end in
  let geometry :=
    if Nat.eqb index 0 then
      let aspectRatio := width / height in
      let planeHeight := 5 in
      Some (planeHeight * aspectRatio, planeHeight)
    else zombieGeometry s in
  if Nat.eqb count ZOMBIE_FRAME_COUNT then
    match l with
    | TopLevel => spawnZombie (setFrames s geometry true top assets) rnd
    | LoadAssets => setFrames s geometry true top assets
    end
  else setFrames s geometry (allZombieFramesLoaded s) top assets.

Definition setCameraAspect (s : State) (aspect : R) : State :=
  {| heap := heap s;
     activeZombies := activeZombies s;
     sceneZombies := sceneZombies s;
     slicedPieces := slicedPieces s;
     bloodParticlePool := bloodParticlePool s;
     bloodTextures := bloodTextures s;
     bloodTexturesLoaded := bloodTexturesLoaded s;
     loadedBloodCount := loadedBloodCount s;
     assetsBloodCount := assetsBloodCount s;
     zombieGeometry := zombieGeometry s;
     allZombieFramesLoaded := allZombieFramesLoaded s;
     loadedZombieFrameCount := loadedZombieFrameCount s;
     assetsZombieFrameCount := assetsZombieFrameCount s;
     score := score s;
     lives := lives s;
     gameOver := gameOver s;
     lastZombieKillTime := lastZombieKillTime s;
     cameraAspect := aspect;
     mouse := mouse s;
     previousFingerTipNDC := previousFingerTipNDC s;
     sliceLog := sliceLog s |}.

(** ** The program as a transition system *)

(** The results of [Math.random()]. *)
Definition validDraws (rnd : nat -> R) : Prop := forall k : nat, 0 <= rnd k < 1.

(** The callbacks that the browser runs, with what they read from the
    environment: the point of a mouse event in normalized device
    coordinates, the time, the draws of [Math.random()]. *)
Inductive Event : Type :=
| BloodTextureLoaded (l : Loader)
| ZombieFrameLoaded (l : Loader) (index : nat) (width height : R) (rnd : nat -> R)
| SpawnTimer (rnd : nat -> R)
| Resize (width height : R)
| MouseDown (ndc : Vector2)
| MouseMove (ndc : Vector2)
| MouseUp (ndc : Vector2) (now : R) (rnd : nat -> R)
| HandFrame (results : HandResults) (now : R) (rnd : nat -> R)
| AnimationFrame (deltaTime : R) (rnd : nat -> R).

Section Run.

Variable raycast : Vector2 -> list (nat * Zombie) -> option (Vector2 * nat).

Definition handle (s : State) (e : Event) : State :=
  match e with
  | BloodTextureLoaded l => bloodTextureLoaded s l
  | ZombieFrameLoaded l index width height rnd =>
    zombieFrameLoaded s l index width height rnd
  | SpawnTimer rnd => spawnZombie s rnd
  | Resize width height => setCameraAspect s (width / height)
  | MouseDown ndc => mousedown raycast s ndc
  | MouseMove ndc => mousemove s ndc
  | MouseUp ndc now rnd => mouseup raycast s ndc now rnd
  | HandFrame results now rnd => processHandData raycast s now rnd results
  | AnimationFrame deltaTime rnd => animate s deltaTime rnd
  end.

(** A loader requests seven blood textures and sixteen zombie frames, so
    it gets at most that many callbacks; [Math.random()] returns numbers in
    [[0, 1)] and [clock.getDelta ()] is not negative; apart from that every
    event can come at any time. *)
Definition enabled (s : State) (e : Event) : Prop :=
  match e with
  | BloodTextureLoaded TopLevel => (loadedBloodCount s < BLOOD_TEXTURE_FILES)%nat
  | BloodTextureLoaded LoadAssets => (assetsBloodCount s < BLOOD_TEXTURE_FILES)%nat
  | ZombieFrameLoaded TopLevel _ _ _ rnd =>
    (loadedZombieFrameCount s < ZOMBIE_FRAME_COUNT)%nat /\ validDraws rnd
  | ZombieFrameLoaded LoadAssets _ _ _ rnd =>
    (assetsZombieFrameCount s < ZOMBIE_FRAME_COUNT)%nat /\ validDraws rnd
  | SpawnTimer rnd => validDraws rnd
  | MouseUp _ _ rnd => validDraws rnd
  | HandFrame _ _ rnd => validDraws rnd
  | AnimationFrame deltaTime rnd => 0 <= deltaTime /\ validDraws rnd
  | Resize _ _ | MouseDown _ | MouseMove _ => True
  end.

(** The states the program can be in. *)
Inductive reachable (aspect : R) : State -> Prop :=
| reach_init : reachable aspect (initialState aspect)
| reach_step : forall s e,
    reachable aspect s -> enabled s e -> reachable aspect (handle s e).

Definition run (s : State) (events : list Event) : State :=
  fold_left handle events s.

End Run.

(** A raycaster answers with one of the meshes it was given and with a
    point of that mesh's texture square. *)
Definition raycastSound
           (raycast : Vector2 -> list (nat * Zombie) -> option (Vector2 * nat)) : Prop :=
  forall ndc meshes uv id,
    raycast ndc meshes = Some (uv, id) ->
    In id (map fst meshes) /\ inUnitSquare uv.


(** ** Predicates of the specification *)





(** The time at which the ray leaves [(0,1)] along one axis. *)
Definition exitTime (start dir : R) : R :=
  if Rltb 0 dir then (1 - start) / dir else (0 - start) / dir.

Definition entryTime (start dir : R) : R :=
  if Rltb 0 dir then (0 - start) / dir else (1 - start) / dir.

(** What the last two steps of a resolver guarantee about the cut line
    [(a, b)] that they make of the resolved points [(x, y)]. *)
Definition acceptedCut (x y a b : Vector2) : Prop :=
  0.001 <= Vec.distanceTo x y
  /\ a = Vec.clampScalar x 0 1 /\ b = Vec.clampScalar y 0 1
  /\ inUnitSquare a /\ inUnitSquare b
  /\ (inUnitSquare x -> inUnitSquare y ->
      a = x /\ b = y /\ 0.001 <= Vec.distanceTo a b).

(** ** Concrete inputs *)

(** A hand motion that is almost vertical: from the centre of the screen
    to (2e-7, 1 - 1e-14), of length 1 + 1e-14, so that its direction is the
    unit vector [(steepX, steepY)]. *)
Definition steepEndNDC : Vector2 := V2 2e-7 (1 - 1e-14).
Definition steepX : R := 2e-7 / (1 + 1e-14).
Definition steepY : R := (1 - 1e-14) / (1 + 1e-14).

(** A start point on the right edge of the texture, 0.001 below the top
    edge along that direction. *)
Definition edgeStartUV : Vector2 := V2 1 (1 - 0.001 * steepY).

(** The pieces that stay after a tick, each one stepped once. *)
Definition stepAllPieces (deltaTime : R) (pieces : list Piece) : list Piece :=
  flat_map (fun p => match stepPiece deltaTime p with
                     | Some p' => [p']
                     | None => []
                     end) pieces.

(** The snap to zero of a damped speed. *)
Definition snap (v : R) : R := if Rltb (Rabs v) 0.001 then 0 else v.

(** A raycaster for the scenarios: the mesh it is given first fills the
    middle of the screen, and a point within 1/2 of the centre on both
    axes hits it at the UV point (x + 1/2, y + 1/2). *)
Definition raycastFirst (ndc : Vector2) (meshes : list (nat * Zombie)) :
  option (Vector2 * nat) :=
  match meshes with
  | [] => None
  | (id, _) :: _ =>
    if Rleb (Rabs (x2 ndc)) 0.5 && Rleb (Rabs (y2 ndc)) 0.5 then
      Some (V2 (x2 ndc + 0.5) (y2 ndc + 0.5), id)
    else None
  end.

(** Every draw of [Math.random()] is 0. *)
Definition rnd0 : nat -> R := fun _ => 0.

(** The sixteen callbacks of the top-level frame loader, for images of
    100 by 200 pixels; the last one starts the spawner. *)
Definition framesLoaded : list Event :=
  map (fun i => ZombieFrameLoaded TopLevel i 100 200 rnd0) (seq 0 16).

(** The seven callbacks of one blood-texture loader. *)
Definition bloodLoaded (l : Loader) : list Event :=
  repeat (BloodTextureLoaded l) 7.

(** The game with its first zombie, in a square window. *)
Definition firstZombieSpawned : State :=
  run raycastFirst (initialState 1) framesLoaded.

(** ** Frames in which nothing is despawned *)

(** A zombie that walks towards the player and is not beyond depth [B]. *)
Definition zombieFar (B : R) (z : Zombie) : Prop :=
  z3 (zposition z) <= B /\ zvelocity z = V3 0 0 ZOMBIE_WALK_SPEED.

(** A live particle with at least [L] seconds to live and a despawn timer
    of at most [T] seconds. *)
Definition lasting (L T : R) (p : Particle) : Prop :=
  visible p = true -> L <= lifetime p /\ 0 <= despawnTimer p <= T.

(** Every active zombie is not beyond depth [B], every piece has a despawn
    timer of at most [T], every live particle is [lasting L T]. *)
Definition calm (B T L : R) (s : State) : Prop :=
  (forall id, In id (activeZombies s) ->
              exists z, nth_error (heap s) id = Some z /\ zombieFar B z)
  /\ Forall (fun p => pdespawnTimer p <= T) (slicedPieces s)
  /\ Forall (lasting L T) (bloodParticlePool s).

(** The variables that a frame does not write, unless it loses a life. *)
Definition controls (s : State) :=
  (zombieGeometry s, lastZombieKillTime s, bloodTexturesLoaded s, score s,
   sliceLog s, mouse s, previousFingerTipNDC s, gameOver s, cameraAspect s).

(** [n] animation frames of a fortieth of a second. *)
Definition ticks (n : nat) : list Event := repeat (AnimationFrame 0.025 rnd0) n.

(** A run of events is possible when each event is enabled in the state
    it comes in. *)
Fixpoint enabledAll
         (raycast : Vector2 -> list (nat * Zombie) -> option (Vector2 * nat))
         (s : State) (events : list Event) : Prop :=
  match events with
  | [] => True
  | e :: rest => enabled s e /\ enabledAll raycast (handle raycast s e) rest
  end.

(** Half a second into the game the mouse button goes down on the zombie
    in the middle of the screen; while it is down, a hand swipes over the
    same zombie, in two consecutive samples just before time 1; the button
    is released to the right of the zombie at time 2.  The frames are
    drawn every fortieth of a second all along. *)
Definition mouseAndHand : list Event :=
  ticks 20
  ++ [MouseDown (V2 0 0)]
  ++ ticks 19
  ++ [HandFrame (Hands (Some (V2 0.5 0.5))) 0.975 rnd0]
  ++ ticks 1
  ++ [HandFrame (Hands (Some (V2 0.4 0.5))) 1 rnd0]
  ++ ticks 40
  ++ [MouseUp (V2 0.9 0) 2 rnd0].

(** A drag of the mouse over the zombie in the middle of the screen, two
    frames long and released at time [now]. *)
Definition drag (now : R) : list Event :=
  [MouseDown (V2 0 0)] ++ ticks 2 ++ [MouseUp (V2 0.25 0) now rnd0].

(** Both loaders finish and three zombies are spawned; then the zombies
    are sliced with the mouse at the times 1, 1.25 and 1.5, with the frames
    drawn every fortieth of a second. *)
Definition threeSlices : list Event :=
  bloodLoaded TopLevel ++ bloodLoaded LoadAssets ++ framesLoaded
  ++ [SpawnTimer rnd0; SpawnTimer rnd0]
  ++ ticks 38 ++ drag 1
  ++ ticks 8 ++ drag 1.25
  ++ ticks 8 ++ drag 1.5
  ++ ticks 10.

(** The game when both loaders are done and three zombies walk. *)
Definition threeZombies : State :=
  run raycastFirst (initialState 1)
      (bloodLoaded TopLevel ++ bloodLoaded LoadAssets ++ framesLoaded
       ++ [SpawnTimer rnd0; SpawnTimer rnd0]).

(** The fingertip of a hand landmark in normalized device coordinates, as
    [processHandData] computes it. *)
Definition fingerTipNDC (fingerTipRaw : Vector2) : Vector2 :=
  V2 ((x2 fingerTipRaw * 2 - 1) * -1) (y2 fingerTipRaw * -2 + 1).

(** The mouse variables of the [mouseup] listener after its hit test:
    [hit] is the UV point of the release when it is on the target. *)
Definition mouseAtRelease (m : MouseState) (ndc : Vector2) (hit : option Vector2) :
  MouseState :=
  match hit with
  | Some uv =>
    mkMouse ndc (sliceStartNDC m) ndc (sliceStartUV m) uv
            (sliceStartValid m) true (zombieToSlice m) (isSlicing m)
  | None =>
    mkMouse ndc (sliceStartNDC m) ndc (sliceStartUV m) (sliceEndUV m)
            (sliceStartValid m) false (zombieToSlice m) (isSlicing m)
  end.

(** [s'] is [s] up to the variables that track the gestures: the zombies,
    the pieces, the particles, the score, the lives, the cooldown and the
    loaders' variables are the same. *)
Definition sameGame (s s' : State) : Prop :=
  s' = setPreviousFingerTipNDC (setMouse s (mouse s')) (previousFingerTipNDC s').

(** The references of the program are sound: [activeZombies] has no
    reference twice, every reference it holds and every target of an
    executed slice points into the heap, and no target of an executed slice
    is active. *)
Definition referencesSound (s : State) : Prop :=
  NoDup (activeZombies s)
  /\ (forall id, In id (activeZombies s) -> id < List.length (heap s))%nat
  /\ (forall id, In id (sliceLog s) -> id < List.length (heap s))%nat
  /\ (forall id, In id (sliceLog s) -> ~ In id (activeZombies s)).

(** The size of the pool: [MAX_BLOOD_PARTICLES] entries for each loader
    that has had its seventh callback. *)
Definition poolSized (s : State) : Prop :=
  (loadedBloodCount s <= BLOOD_TEXTURE_FILES)%nat
  /\ (assetsBloodCount s <= BLOOD_TEXTURE_FILES)%nat
  /\ List.length (bloodParticlePool s)
     = ((if Nat.eqb (loadedBloodCount s) BLOOD_TEXTURE_FILES
         then MAX_BLOOD_PARTICLES else 0)
        + (if Nat.eqb (assetsBloodCount s) BLOOD_TEXTURE_FILES
           then MAX_BLOOD_PARTICLES else 0))%nat.

(** What [poolSized] is about. *)
Definition poolShape (s : State) : nat * nat * nat :=
  (loadedBloodCount s, assetsBloodCount s, List.length (bloodParticlePool s)).

(** A zombie of scale 1 at the origin, and a state with two such
    zombies. *)
Definition plainZombie : Zombie :=
  {| zposition := zero3;
     zscale := V3 1 1 1;
     zmwPosition := zero3;
     zmwScale := V3 1 1 1;
     zuTexture := 0;
     zwidth := 2.5;
     zheight := 5;
     zvelocity := V3 0 0 ZOMBIE_WALK_SPEED;
     zisSliced := false;
     zanimFrame := 0;
     zanimTimer := 0;
     zbaseScale := 1 |}.

Definition plainState : State :=
  setWorld (initialState 1) [plainZombie; plainZombie] [0; 1]%nat [0; 1]%nat 3 false.

(** The same state when a mouse drag from (0, 0) to (0.25, 0) has hit the
    first zombie with both ends, at the UV points (0.2, 0.5) and
    (0.8, 0.5). *)
Definition draggedState : State :=
  setMouse plainState
           (mkMouse (V2 0.25 0) (V2 0 0) (V2 0.25 0) (V2 0.2 0.5) (V2 0.8 0.5)
                    true true (Some 0%nat) true).

(** A piece that has been on the floor for a second and still slides. *)
Definition restingPiece : Piece :=
  {| pposition := V3 1 FLOOR_Y 0;
     protationZ := 0;
     pscale := V3 1 1 1;
     puTexture := 0;
     puSliceStart := V2 0.2 0.5;
     puSliceEnd := V2 0.8 0.5;
     puSideToKeep := 1;
     pvelocity := V2 0.02 0;
     protation := 0.001;
     pisOnFloor := true;
     pdespawnTimer := 1 |}.

(** What holds of every zombie mesh the program ever makes: its
    [isSliced] flag is false and its scale is positive. *)
Definition zombieSound (z : Zombie) : Prop :=
  zisSliced z = false /\ 0 < zbaseScale z /\ 0 < x3 (zscale z).

Definition heapSound (s : State) : Prop := Forall zombieSound (heap s).


(** ** The zombies in a frame *)

(** Whether the mesh [id] gets to the end line in a frame of [deltaTime]
    seconds. *)
Definition arrives (deltaTime : R) (h : list Zombie) (id : nat) : bool :=
  match nth_error h id with
  | Some z => Rgeb (z3 (zposition (moveZombie deltaTime z))) ZOMBIE_END_Z
  | None => false
  end.

Definition stays (deltaTime : R) (h : list Zombie) (id : nat) : bool :=
  negb (arrives deltaTime h id).

(** What the loop over [activeZombies] makes of one mesh: it is moved,
    and its animation is advanced unless it is removed. *)
Definition walked (deltaTime : R) (z : Zombie) : Zombie :=
  let z1 := moveZombie deltaTime z in
  if Rgeb (z3 (zposition z1)) ZOMBIE_END_Z then z1
  else animateFrame deltaTime z1.

(** [k] zombies, one after the other, get past the player. *)
Definition loseLives (k : nat) (lg : nat * bool) : nat * bool :=
  Nat.iter k (fun lg => loseLife (fst lg) (snd lg)) lg.

(** ** What the program keeps of its state *)

(** Where [spawnZombie] and the movement block of [animate] put a zombie:
    its scale is its base scale times the perspective factor at its depth,
    its feet are on the perspective floor, it is within the path, it walks
    towards the camera at [ZOMBIE_WALK_SPEED] and has not been behind the
    start line; its base scale is one that [spawnZombie] draws and its
    plane is 5 units high. *)
Definition zombiePlaced (z : Zombie) : Prop :=
  let currentZ := z3 (zposition z) in
  let scale := zbaseScale z * Rmax 0.1 (CAMERA_Z / (CAMERA_Z - currentZ)) in
  zscale z = V3 scale scale 1
  /\ y3 (zposition z) = calculateFloorY currentZ + zheight z * scale / 2
  /\ Rabs (x3 (zposition z)) <= calculatePathWidth currentZ / 2
  /\ zvelocity z = V3 0 0 ZOMBIE_WALK_SPEED
  /\ ZOMBIE_START_Z <= currentZ
  /\ 0.8 <= zbaseScale z < 1.5
  /\ zheight z = 5.

Definition worldPlaced (s : State) : Prop :=
  Forall zombiePlaced (heap s)
  /\ (forall w h, zombieGeometry s = Some (w, h) -> h = 5).

(** Every active zombie is in front of the end line. *)
Definition activeAhead (s : State) : Prop :=
  forall id z, In id (activeZombies s) -> nth_error (heap s) id = Some z ->
               z3 (zposition z) < ZOMBIE_END_Z.

(** The lives, the end of the game, the score and the pieces. *)
Definition tallySound (s : State) : Prop :=
  (lives s <= 3)%nat
  /\ (gameOver s = true <-> lives s = 0%nat)
  /\ score s = (50 * Z.of_nat (List.length (sliceLog s)))%Z
  /\ (List.length (slicedPieces s) <= 2 * List.length (sliceLog s))%nat.

(** [s'] is not before [s] in the game: no life has come back, the game
    has not started again, the score has not gone down, no mesh and no
    executed slice has been forgotten. *)
Definition notBefore (s s' : State) : Prop :=
  (lives s' <= lives s)%nat
  /\ (gameOver s = true -> gameOver s' = true)
  /\ (score s <= score s')%Z
  /\ (List.length (heap s) <= List.length (heap s'))%nat
  /\ (exists l, sliceLog s' = sliceLog s ++ l).

(** ** The pool in a frame and at the loaders *)

(** What a frame may do to a pool entry: it leaves a hidden entry as it is,
    it never shows one, and it keeps the texture, the size and the kind of
    the particle. *)
Definition particleStepped (p p' : Particle) : Prop :=
  mapIndex p' = mapIndex p /\ sscale p' = sscale p
  /\ isWallBlood p' = isWallBlood p
  /\ (visible p = false -> p' = p)
  /\ (visible p' = true -> visible p = true).

(** The loaders' counters and flags, and the textures of the particles. *)
Definition loadersSound (s : State) : Prop :=
  (loadedBloodCount s <= BLOOD_TEXTURE_FILES)%nat
  /\ (assetsBloodCount s <= BLOOD_TEXTURE_FILES)%nat
  /\ bloodTextures s = (loadedBloodCount s + assetsBloodCount s)%nat
  /\ (bloodTexturesLoaded s = true
      <-> loadedBloodCount s = BLOOD_TEXTURE_FILES
          \/ assetsBloodCount s = BLOOD_TEXTURE_FILES)
  /\ (loadedZombieFrameCount s <= ZOMBIE_FRAME_COUNT)%nat
  /\ (assetsZombieFrameCount s <= ZOMBIE_FRAME_COUNT)%nat
  /\ (allZombieFramesLoaded s = true
      <-> loadedZombieFrameCount s = ZOMBIE_FRAME_COUNT
          \/ assetsZombieFrameCount s = ZOMBIE_FRAME_COUNT)
  /\ (heap s <> [] ->
      allZombieFramesLoaded s = true /\ zombieGeometry s <> None)
  /\ Forall (fun p => (0 <= mapIndex p < Z.of_nat (bloodTextures s))%Z)
            (bloodParticlePool s).

(** ** The variables of the mouse gesture between two events *)

(** A drag is in progress exactly when its start is valid; then the press
    hit a mesh of the heap at a point of its texture square, which
    [zombieToSlice] and [sliceStartUV] hold; without a drag there is no
    target; and the end of a gesture is valid only inside the [mouseup]
    listener. *)
Definition mouseSound (s : State) : Prop :=
  let m := mouse s in
  sliceStartValid m = isSlicing m
  /\ sliceEndValid m = false
  /\ (isSlicing m = true ->
      exists id, zombieToSlice m = Some id
                 /\ (id < List.length (heap s))%nat
                 /\ inUnitSquare (sliceStartUV m))
  /\ (isSlicing m = false -> zombieToSlice m = None).

(** ** A piece over several frames *)

(** The piece after the frames whose elapsed times are [deltaTimes];
    [None] when it has been despawned. *)
Fixpoint stepsPiece (deltaTimes : list R) (p : Piece) : option Piece :=
  match deltaTimes with
  | [] => Some p
  | deltaTime :: rest =>
    match stepPiece deltaTime p with
    | Some p' => stepsPiece rest p'
    | None => None
    end
  end.

(** ** The spawn timer ([spawnZombie], [startZombieSpawner],
    [stopZombieSpawner] and [enableCam], main.js 19-22, 847-917,
    1083-1104) *)

Definition INITIAL_SPAWN_INTERVAL : R := 2200.
Definition MIN_SPAWN_INTERVAL : R := 700.
Definition SPAWN_ACCELERATION : R := 0.995.

(** The variables of the spawner, with the interval timers of the page
    that call [spawnZombie], each with its identifier and its period.
    [setInterval] adds a timer under an identifier that has not been used,
    [clearInterval] removes the timer of the given identifier if it is
    there.  [spawnIntervalId] is [None] for [null]. *)
Record Spawner : Type := mkSpawner {
  currentSpawnInterval : R;
  spawnIntervalId : option nat;
  timers : list (nat * R);
  nextTimerId : nat
}.

Definition initialSpawner : Spawner := mkSpawner INITIAL_SPAWN_INTERVAL None [] 1.

Definition clearInterval (id : nat) (t : Spawner) : Spawner :=
  mkSpawner (currentSpawnInterval t) (spawnIntervalId t)
            (filter (fun x => negb (Nat.eqb (fst x) id)) (timers t))
            (nextTimerId t).

(** [if (spawnIntervalId) clearInterval (spawnIntervalId)]. *)
Definition clearSpawnInterval (t : Spawner) : Spawner :=
  match spawnIntervalId t with
  | Some id => clearInterval id t
  | None => t
  end.

(** [spawnIntervalId = setInterval (spawnZombie, currentSpawnInterval)]. *)
Definition setSpawnInterval (t : Spawner) : Spawner :=
  mkSpawner (currentSpawnInterval t) (Some (nextTimerId t))
            (timers t ++ [(nextTimerId t, currentSpawnInterval t)])
            (S (nextTimerId t)).

(** The end of [spawnZombie] (main.js 899-904), which it reaches when it
    has made a zombie. *)
Definition accelerateSpawner (t : Spawner) : Spawner :=
  let t1 :=
    mkSpawner (Rmax MIN_SPAWN_INTERVAL
                    (currentSpawnInterval t * SPAWN_ACCELERATION))
              (spawnIntervalId t) (timers t) (nextTimerId t) in
  match spawnIntervalId t1 with
  | Some id => setSpawnInterval (clearInterval id t1)
  | None => t1
  end.

(** Whether [spawnZombie] gets past its guards (main.js 850-852). *)
Definition spawnReady (s : State) : bool :=
  negb (gameOver s) && allZombieFramesLoaded s
  && match zombieGeometry s with
     | Some _ => true
     | None => false
     end.

(** What a call of [spawnZombie] in the state [s] does to the spawner. *)
Definition spawnZombieTimer (s : State) (t : Spawner) : Spawner :=
  if spawnReady s then accelerateSpawner t else t.

Definition startZombieSpawner (s : State) (t : Spawner) : Spawner :=
  let t1 := clearSpawnInterval t in
  let t2 := mkSpawner INITIAL_SPAWN_INTERVAL (spawnIntervalId t1) (timers t1)
                      (nextTimerId t1) in
  setSpawnInterval (spawnZombieTimer s t2).

Definition stopZombieSpawner (t : Spawner) : Spawner :=
  let t1 := clearSpawnInterval t in
  mkSpawner (currentSpawnInterval t1) None (timers t1) (nextTimerId t1).

(** What [enableCam] does to the spawner, once the hand landmarker is
    there: it stops it when the webcam was running and starts it when it
    was not, if the frames and the geometry are loaded. *)
Definition enableCam (s : State) (webcamRunning : bool) (t : Spawner) :
  bool * Spawner :=
  if webcamRunning then
    (false, match spawnIntervalId t with
            | Some _ => stopZombieSpawner t
            | None => t
            end)
  else
    (true, if allZombieFramesLoaded s
              && match zombieGeometry s with
                 | Some _ => true
                 | None => false
                 end
           then startZombieSpawner s t else t).

(** Every identifier in use is below the next one to be given out. *)
Definition timersFresh (t : Spawner) : Prop :=
  Forall (fun x => (fst x < nextTimerId t)%nat) (timers t).

(** ** The hearts ([updateHeartsDisplay], main.js 1344-1353) *)

(** Whether the image of heart [i] is the full heart. *)
Definition heartFull (lives i : nat) : bool := Nat.leb (4 - i) lives.

(** The three hearts, from the top. *)
Definition heartsDisplay (lives : nat) : list bool :=
  map (heartFull lives) [1; 2; 3]%nat.

(** The spawner has one timer, the one [spawnIntervalId] names, and its
    period is [currentSpawnInterval]. *)
Definition oneTimer (t : Spawner) : Prop :=
  exists id,
    spawnIntervalId t = Some id
    /\ timers t = [(id, currentSpawnInterval t)]
    /\ (id < nextTimerId t)%nat.

(** The frames and the geometry are loaded, with a first frame of 100 by
    200 pixels, and nothing else has happened. *)
Definition framesReady : State :=
  setFrames (initialState 1) (Some (5 * (100 / 200), 5)) true 16 0.

(** ** The score on the screen (main.js 1338-1343)

    [score.toString ()] is the decimal numeral of an integer, with its
    sign; [padStart (n, '0')] puts zeros before a text shorter than [n]. *)

Definition toString (n : Z) : String.string :=
  DecimalString.NilZero.string_of_int (Z.to_int n).

Definition zeroChar : Ascii.ascii := Ascii.ascii_of_nat 48.

Fixpoint zeros (k : nat) (text : String.string) : String.string :=
  match k with
  | O => text
  | S j => String.String zeroChar (zeros j text)
  end.

Definition padStart (targetLength : nat) (text : String.string) : String.string :=
  zeros (targetLength - String.length text) text.

(** The text that [updateScoreDisplay] writes into [scoreDisplay]. *)
Definition scoreText (score : Z) : String.string := padStart 6 (toString score).

(** ** The meshes and the particles on the screen *)

(** A zombie mesh shows the animation frame that its [animFrame] counts,
    one of the 16 frames. *)
Definition zombieAnimated (z : Zombie) : Prop :=
  zombieSound z
  /\ zuTexture z = zanimFrame z
  /\ (zanimFrame z < ZOMBIE_FRAME_COUNT)%nat
  /\ 0 <= zanimTimer z.

(** A piece keeps one side of a cut line that lies in the texture square
    and shows one of the 16 frames; it has been on the floor for less than
    [DESPAWN_TIME], where it lies at [FLOOR_Y] and does not fall. *)
Definition pieceSound (p : Piece) : Prop :=
  (puSideToKeep p = 1 \/ puSideToKeep p = -1)
  /\ inUnitSquare (puSliceStart p) /\ inUnitSquare (puSliceEnd p)
  /\ (puTexture p < ZOMBIE_FRAME_COUNT)%nat
  /\ 0 < x3 (pscale p)
  /\ 0 <= pdespawnTimer p < DESPAWN_TIME
  /\ (pisOnFloor p = true -> y3 (pposition p) = FLOOR_Y /\ y2 (pvelocity p) = 0)
  /\ (pisOnFloor p = false -> pdespawnTimer p = 0).

(** The states of a pool entry: hidden, with no opacity; in the air, with
    time to live; a puddle on the floor, younger than [DESPAWN_TIME]; or
    stuck to the wall, for at most 4.5 seconds. *)
Definition particleSound (p : Particle) : Prop :=
  0 <= opacity p <= 1
  /\ (visible p = false ->
      opacity p = 0 /\ isOnFloor p = false /\ stuckToWall p = false)
  /\ (visible p = true -> isOnFloor p = false -> stuckToWall p = false ->
      0 < lifetime p)
  /\ (isOnFloor p = true ->
      isWallBlood p = false
      /\ FLOOR_Y <= y3 (sposition p) < FLOOR_Y + 0.01
      /\ x3 (velocity p) = 0 /\ y3 (velocity p) = 0
      /\ materialRotation p = 0 /\ rotationSpeed p = 0
      /\ 0.6 <= opacity p < 0.8
      /\ 0 <= despawnTimer p < DESPAWN_TIME)
  /\ (stuckToWall p = true ->
      isWallBlood p = true
      /\ ZOMBIE_START_Z - 0.005 <= z3 (sposition p) < ZOMBIE_START_Z + 0.005
      /\ velocity p = zero3
      /\ 0.7 <= opacity p < 0.9
      /\ 0 <= despawnTimer p <= 4.5).

Definition screenSound (s : State) : Prop :=
  Forall zombieAnimated (heap s)
  /\ Forall pieceSound (slicedPieces s)
  /\ Forall particleSound (bloodParticlePool s).

(** ** The cut lines that are executed *)

(** The greatest lower bound of the lengths of the cut lines that a
    resolver makes from a start point in the texture square: an extension
    along a unit direction with a component below 1e-6 is clamped along
    that component only. *)
Definition minExecutedCut : R := 0.001 * sqrt (1 - 1e-12).

(** The cut line of a piece: two points of the texture square, further
    apart than [minExecutedCut]. *)
Definition cutSound (p : Piece) : Prop :=
  inUnitSquare (puSliceStart p) /\ inUnitSquare (puSliceEnd p)
  /\ minExecutedCut < Vec.distanceTo (puSliceStart p) (puSliceEnd p).
(** * Part II: properties *)

(** ** Comparisons *)

Lemma Rltb_true (a b : R) : Rltb a b = true <-> a < b.
Proof. unfold Rltb; destruct (Rlt_dec a b); split; intros; auto; discriminate. Qed.

Lemma Rltb_false (a b : R) : Rltb a b = false <-> b <= a.
Proof.
  unfold Rltb; destruct (Rlt_dec a b); split; intros; auto; try discriminate; lra.
Qed.

Lemma Rleb_true (a b : R) : Rleb a b = true <-> a <= b.
Proof. unfold Rleb; destruct (Rle_dec a b); split; intros; auto; discriminate. Qed.

Lemma Rleb_false (a b : R) : Rleb a b = false <-> b < a.
Proof.
  unfold Rleb; destruct (Rle_dec a b); split; intros; auto; try discriminate; lra.
Qed.

Lemma Rgtb_true (a b : R) : Rgtb a b = true <-> a > b.
Proof. unfold Rgtb; rewrite Rltb_true; lra. Qed.

Lemma Rgtb_false (a b : R) : Rgtb a b = false <-> a <= b.
Proof. unfold Rgtb; rewrite Rltb_false; lra. Qed.

Lemma Rgeb_true (a b : R) : Rgeb a b = true <-> a >= b.
Proof. unfold Rgeb; rewrite Rleb_true; lra. Qed.

Lemma Rgeb_false (a b : R) : Rgeb a b = false <-> a < b.
Proof. unfold Rgeb; rewrite Rleb_false; lra. Qed.

(** Settles the comparisons of the goal that linear arithmetic decides
    from the context. *)
Ltac cmp :=
  repeat first
    [ rewrite (proj2 (Rltb_true _ _)) by lra
    | rewrite (proj2 (Rltb_false _ _)) by lra
    | rewrite (proj2 (Rleb_true _ _)) by lra
    | rewrite (proj2 (Rleb_false _ _)) by lra
    | rewrite (proj2 (Rgtb_true _ _)) by lra
    | rewrite (proj2 (Rgtb_false _ _)) by lra
    | rewrite (proj2 (Rgeb_true _ _)) by lra
    | rewrite (proj2 (Rgeb_false _ _)) by lra ].

(** ** Vectors *)

Lemma lengthSq_nonneg v : 0 <= Vec.lengthSq v.
Proof. unfold Vec.lengthSq; nra. Qed.

Lemma length_nonneg v : 0 <= Vec.length v.
Proof. apply sqrt_pos. Qed.

Lemma length_sq v : Vec.length v * Vec.length v = Vec.lengthSq v.
Proof. apply sqrt_sqrt, lengthSq_nonneg. Qed.

Lemma length_zero_iff v : Vec.length v = 0 <-> (x2 v = 0 /\ y2 v = 0).
Proof.
  split.
  - intros H. pose proof (length_sq v) as E. rewrite H in E.
    unfold Vec.lengthSq in E. split; nra.
  - intros [Hx Hy]. unfold Vec.length, Vec.lengthSq. rewrite Hx, Hy.
    replace (0 * 0 + 0 * 0) with 0 by lra. apply sqrt_0.
Qed.

Lemma length_pos v : (x2 v <> 0 \/ y2 v <> 0) -> 0 < Vec.length v.
Proof.
  intros H. destruct (Req_dec (Vec.length v) 0) as [E|E].
  - apply length_zero_iff in E. tauto.
  - pose proof (length_nonneg v). lra.
Qed.

Lemma length_lt_iff v (c : R) :
  0 <= c -> (Vec.length v < c <-> Vec.lengthSq v < c * c).
Proof.
  intros Hc. pose proof (length_nonneg v) as Hl. pose proof (length_sq v) as E.
  split; intros H; nra.
Qed.

Lemma length_of_square v (c : R) :
  0 <= c -> Vec.lengthSq v = c * c -> Vec.length v = c.
Proof.
  intros Hc E. unfold Vec.length. rewrite E. apply sqrt_square, Hc.
Qed.

Lemma sub_nonzero (a b : Vector2) :
  a <> b -> x2 (Vec.subVectors b a) <> 0 \/ y2 (Vec.subVectors b a) <> 0.
Proof.
  intros Hab. destruct a as [ax ay], b as [bx by_]; cbn.
  destruct (Req_dec (bx - ax) 0) as [Ex|Ex]; [|now left].
  destruct (Req_dec (by_ - ay) 0) as [Ey|Ey]; [|now right].
  exfalso; apply Hab; f_equal; lra.
Qed.

Lemma distance_pos_neq (a b : Vector2) : 0 < Vec.distanceTo a b -> a <> b.
Proof.
  intros H E. subst b. unfold Vec.distanceTo in H.
  assert (Z : Vec.length (Vec.subVectors a a) = 0).
  { apply length_zero_iff; cbn; split; lra. }
  lra.
Qed.

Lemma distanceTo_sym (a b : Vector2) : Vec.distanceTo a b = Vec.distanceTo b a.
Proof.
  unfold Vec.distanceTo, Vec.length, Vec.lengthSq, Vec.subVectors; cbn [x2 y2].
  f_equal; ring.
Qed.

Lemma normalize_nonzero v :
  Vec.length v <> 0 ->
  Vec.normalize v = V2 (x2 v / Vec.length v) (y2 v / Vec.length v).
Proof.
  intros H. unfold Vec.normalize. destruct (Req_dec_T (Vec.length v) 0); [tauto|].
  unfold Vec.multiplyScalar. f_equal; field; exact H.
Qed.

Lemma normalize_unit v : Vec.length v = 1 -> Vec.normalize v = v.
Proof.
  intros H. rewrite normalize_nonzero by lra. rewrite H.
  destruct v; cbn; f_equal; field.
Qed.

Lemma length_scaled v (c : R) :
  0 <= c -> Vec.length (V2 (x2 v * c) (y2 v * c)) = Vec.length v * c.
Proof.
  intros Hc. apply length_of_square.
  - pose proof (length_nonneg v). nra.
  - unfold Vec.lengthSq; cbn [x2 y2].
    replace (Vec.length v * c * (Vec.length v * c))
      with (Vec.length v * Vec.length v * (c * c)) by ring.
    rewrite length_sq. unfold Vec.lengthSq. ring.
Qed.

Lemma normalize_length v : Vec.length v <> 0 -> Vec.length (Vec.normalize v) = 1.
Proof.
  intros H. rewrite normalize_nonzero by exact H.
  pose proof (length_nonneg v) as Hl.
  change (V2 (x2 v / Vec.length v) (y2 v / Vec.length v))
    with (V2 (x2 v * / Vec.length v) (y2 v * / Vec.length v)).
  rewrite length_scaled.
  - field; exact H.
  - left. apply Rinv_0_lt_compat. lra.
Qed.

Lemma perp_length (v : Vector2) : Vec.length (V2 (- y2 v) (x2 v)) = Vec.length v.
Proof. unfold Vec.length, Vec.lengthSq; cbn [x2 y2]. f_equal; ring. Qed.

Lemma clamp_range v : 0 <= Vec.clamp 0 1 v <= 1.
Proof.
  unfold Vec.clamp, Rmax, Rmin.
  destruct (Rle_dec 1 v); destruct (Rle_dec 0 _); lra.
Qed.

Lemma clamp_id v : 0 <= v <= 1 -> Vec.clamp 0 1 v = v.
Proof.
  intros H. unfold Vec.clamp, Rmax, Rmin.
  destruct (Rle_dec 1 v); destruct (Rle_dec 0 _); lra.
Qed.

Lemma clampScalar_id p : inUnitSquare p -> Vec.clampScalar p 0 1 = p.
Proof.
  intros [Hx Hy]. destruct p as [x y]; cbn in *.
  unfold Vec.clampScalar; cbn. rewrite !clamp_id by assumption. reflexivity.
Qed.

Lemma clampScalar_in p : inUnitSquare (Vec.clampScalar p 0 1).
Proof. split; apply clamp_range. Qed.

(** ** The per-pixel visibility test *)

Lemma shader_distance_eq a b : Shader.distance a b = Vec.distanceTo a b.
Proof. reflexivity. Qed.

Lemma side_cross a b p :
  a <> b ->
  Shader.side a b p = cross a b p / Vec.length (Vec.subVectors b a).
Proof.
  intros Hab. unfold Shader.side, Shader.normal, Shader.normalize, Vec.dot, cross.
  cbn [x2 y2]. rewrite perp_length.
  pose proof (length_pos _ (sub_nonzero a b Hab)) as Hpos.
  unfold Vec.subVectors in *; cbn [x2 y2] in *. field. lra.
Qed.

Lemma side_zero_iff a b p : a <> b -> (Shader.side a b p = 0 <-> onLine a b p).
Proof.
  intros Hab. rewrite side_cross by exact Hab. unfold onLine.
  pose proof (length_pos _ (sub_nonzero a b Hab)) as Hpos.
  split; intros H.
  - apply (Rmult_eq_compat_r (Vec.length (Vec.subVectors b a))) in H.
    unfold Rdiv in H. rewrite Rmult_assoc, Rinv_l in H by lra. lra.
  - rewrite H. unfold Rdiv. ring.
Qed.

Lemma sliceKeeps_side a b (k : R) p :
  k <> 0 -> 0.0001 <= Vec.distanceTo a b ->
  (Shader.sliceKeeps a b k p = true <-> Shader.side a b p * k >= 0).
Proof.
  intros Hk Hd. unfold Shader.sliceKeeps.
  destruct (Req_dec_T k 0); [tauto|].
  rewrite shader_distance_eq. cmp.
  destruct (Rlt_dec (Shader.side a b p * k) 0) as [L|L].
  - rewrite (proj2 (Rltb_true _ _)) by exact L. split; [discriminate|lra].
  - rewrite (proj2 (Rltb_false _ _)) by lra. split; [lra|reflexivity].
Qed.

(** C1. For a valid cut line (both ends in the unit square, more than
    0.001 apart) and a UV point off the infinite line through them, each of
    the two visibility tests accepts the point exactly when the signed
    perpendicular distance times its [sideToKeep] is non-negative, and
    exactly one of the two accepts it; the same holds for the whole shader
    wherever the texture is not transparent. *)
Theorem visibility_partition (lineStart lineEnd p : Vector2) :
  inUnitSquare lineStart -> inUnitSquare lineEnd ->
  Vec.distanceTo lineStart lineEnd > 0.001 ->
  ~ onLine lineStart lineEnd p ->
  (Shader.sliceKeeps lineStart lineEnd 1 p = true
   <-> Shader.side lineStart lineEnd p * 1 >= 0)
  /\ (Shader.sliceKeeps lineStart lineEnd (-1) p = true
      <-> Shader.side lineStart lineEnd p * (-1) >= 0)
  /\ xorb (Shader.sliceKeeps lineStart lineEnd 1 p)
          (Shader.sliceKeeps lineStart lineEnd (-1) p) = true
  /\ (forall uTexture : Vector2 -> R,
         uTexture p >= 0.1 ->
         xorb (Shader.fragmentVisible uTexture lineStart lineEnd 1 p)
              (Shader.fragmentVisible uTexture lineStart lineEnd (-1) p) = true).
Proof.
  intros _ _ Hd Hoff.
  assert (Hab : lineStart <> lineEnd) by (apply distance_pos_neq; lra).
  assert (Hs : Shader.side lineStart lineEnd p <> 0).
  { intros E. apply Hoff. apply side_zero_iff; assumption. }
  pose proof (sliceKeeps_side lineStart lineEnd 1 p ltac:(lra) ltac:(lra)) as K1.
  pose proof (sliceKeeps_side lineStart lineEnd (-1) p ltac:(lra) ltac:(lra)) as K2.
  assert (X : xorb (Shader.sliceKeeps lineStart lineEnd 1 p)
                   (Shader.sliceKeeps lineStart lineEnd (-1) p) = true).
  { destruct (Shader.sliceKeeps lineStart lineEnd 1 p);
      destruct (Shader.sliceKeeps lineStart lineEnd (-1) p); cbn; try reflexivity.
    - pose proof (proj1 K1 eq_refl). pose proof (proj1 K2 eq_refl). lra.
    - destruct (Rle_dec 0 (Shader.side lineStart lineEnd p)) as [L|L].
      + assert (F : false = true) by (apply K1; lra). discriminate.
      + assert (F : false = true) by (apply K2; lra). discriminate. }
  repeat split; try apply K1; try apply K2; try exact X.
  intros uTexture Ha. unfold Shader.fragmentVisible.
  rewrite (proj2 (Rltb_false _ _)) by lra.
  destruct (Shader.sliceKeeps lineStart lineEnd 1 p);
    destruct (Shader.sliceKeeps lineStart lineEnd (-1) p); cbn in *; congruence.
Qed.

(** ** Line-square intersection *)

Lemma length_gt_iff v (c : R) :
  0 <= c -> (c < Vec.length v <-> c * c < Vec.lengthSq v).
Proof.
  intros Hc. pose proof (length_nonneg v) as Hl. pose proof (length_sq v) as E.
  split; intros H; nra.
Qed.

Lemma length_ge_iff v (c : R) :
  0 <= c -> (c <= Vec.length v <-> c * c <= Vec.lengthSq v).
Proof.
  intros Hc. pose proof (length_nonneg v) as Hl. pose proof (length_sq v) as E.
  split; intros H; nra.
Qed.

Lemma axisPass_zero (s : R) (tMin tMax : ER) :
  0 <= s <= 1 -> axisPass s 0 tMin tMax = Some (tMin, tMax).
Proof.
  intros Hs. unfold axisPass. rewrite Rabs_R0. cmp. reflexivity.
Qed.

Lemma exit_times (s d : R) :
  0 < s < 1 -> d <> 0 ->
  entryTime s d < 0 < exitTime s d
  /\ entryTime s d * d = (if Rltb 0 d then 0 - s else 1 - s)
  /\ exitTime s d * d = (if Rltb 0 d then 1 - s else 0 - s).
Proof.
  intros Hs Hd. unfold entryTime, exitTime.
  destruct (Rlt_dec 0 d) as [P|N].
  - rewrite (proj2 (Rltb_true _ _)) by exact P.
    assert (E1 : (0 - s) / d * d = 0 - s) by (field; lra).
    assert (E2 : (1 - s) / d * d = 1 - s) by (field; lra).
    repeat split; try assumption; nra.
  - rewrite (proj2 (Rltb_false _ _)) by lra.
    assert (E1 : (0 - s) / d * d = 0 - s) by (field; lra).
    assert (E2 : (1 - s) / d * d = 1 - s) by (field; lra).
    repeat split; try assumption; nra.
Qed.

Lemma axisPass_sizeable (s d : R) (tMin tMax : ER) :
  0 < s < 1 -> 1e-6 <= Rabs d ->
  axisPass s d tMin tMax
  = Some (ERmax tMin (entryTime s d), ERmin tMax (exitTime s d)).
Proof.
  intros Hs Hd. unfold axisPass. cmp.
  assert (Hd0 : d <> 0).
  { intros E. rewrite E, Rabs_R0 in Hd. lra. }
  destruct (exit_times s d Hs Hd0) as [[Hen Hex] _].
  unfold entryTime, exitTime in *.
  destruct (Rlt_dec 0 d) as [P|N].
  - rewrite (proj2 (Rltb_true 0 d)) in * by exact P. cmp. reflexivity.
  - rewrite (proj2 (Rltb_false 0 d)) in * by lra. cmp. reflexivity.
Qed.






(** A second failure of C4 as stated: a direction that is not zero but
    smaller than 1e-6 on both axes is parallel to both pairs of sides for
    the routine, the exit time stays infinite and is rejected. *)
Lemma intersect_tiny_direction_none :
  intersectUVSquare (V2 0.5 0.5) (V2 1e-7 0) = None.
Proof.
  unfold intersectUVSquare, intersectionTime, axisPass. cbn [x2 y2].
  rewrite Rabs_R0. rewrite (Rabs_right 1e-7) by lra. cmp.
  reflexivity.
Qed.

(** ** The slice executor *)

Lemma performSlice_executes s now rnd id z a b :
  nth_error (heap s) id = Some z -> zisSliced z = false ->
  now - lastZombieKillTime s >= ZOMBIE_KILL_COOLDOWN ->
  performSlice s now rnd (Some id) a b = executeSlice s now rnd id z a b.
Proof.
  intros Hz Hs Hc. unfold performSlice. rewrite Hz, Hs. cmp. reflexivity.
Qed.

Lemma performSlice_cooldown s now rnd target a b :
  now - lastZombieKillTime s < ZOMBIE_KILL_COOLDOWN ->
  performSlice s now rnd target a b = s.
Proof.
  intros Hc. unfold performSlice. destruct target as [id|]; [|reflexivity].
  destruct (nth_error (heap s) id) as [z|]; [|reflexivity].
  destruct (zisSliced z); [reflexivity|]. cmp. reflexivity.
Qed.

Lemma normalVectorWorld_shader a b :
  a <> b -> normalVectorWorld a b = Shader.normal a b.
Proof.
  intros Hab. pose proof (length_pos _ (sub_nonzero a b Hab)) as Hpos.
  unfold normalVectorWorld, sliceVectorUV.
  assert (Hu : Vec.length (Vec.normalize (Vec.subVectors b a)) = 1)
    by (apply normalize_length; lra).
  rewrite normalize_unit by (rewrite perp_length; exact Hu).
  rewrite normalize_nonzero by lra. cbn [x2 y2].
  unfold Shader.normal, Shader.normalize. rewrite perp_length. cbn [x2 y2].
  f_equal. field. lra.
Qed.

Lemma shader_normal_unit a b : a <> b -> Vec.length (Shader.normal a b) = 1.
Proof.
  intros Hab. rewrite <- normalVectorWorld_shader by exact Hab.
  pose proof (length_pos _ (sub_nonzero a b Hab)) as Hpos.
  unfold normalVectorWorld, sliceVectorUV.
  apply normalize_length. rewrite perp_length.
  rewrite normalize_length; lra.
Qed.

Lemma shader_normal_normalize a b :
  a <> b ->
  Shader.normal a b = Vec.normalize (V2 (- (y2 b - y2 a)) (x2 b - x2 a)).
Proof.
  intros Hab. pose proof (length_pos _ (sub_nonzero a b Hab)) as Hpos.
  unfold Shader.normal, Shader.normalize.
  change (V2 (- (y2 b - y2 a)) (x2 b - x2 a))
    with (V2 (- y2 (Vec.subVectors b a)) (x2 (Vec.subVectors b a))).
  rewrite normalize_nonzero by (rewrite perp_length; lra). reflexivity.
Qed.

Lemma shader_normal_perpendicular a b :
  a <> b -> Vec.dot (Shader.normal a b) (Vec.subVectors b a) = 0.
Proof.
  intros Hab. pose proof (length_pos _ (sub_nonzero a b Hab)) as Hpos.
  unfold Shader.normal, Shader.normalize, Vec.dot. rewrite perp_length.
  cbn [x2 y2]. field. lra.
Qed.

(** Moving a point by [c] times the shader's normal adds [c] to its signed
    distance from the line. *)
Lemma side_shift a b q (c : R) :
  a <> b ->
  Shader.side a b (V2 (x2 q + c * x2 (Shader.normal a b))
                      (y2 q + c * y2 (Shader.normal a b)))
  = Shader.side a b q + c.
Proof.
  intros Hab. pose proof (shader_normal_unit a b Hab) as Hu.
  pose proof (length_sq (Shader.normal a b)) as Hsq. rewrite Hu in Hsq.
  unfold Shader.side, Vec.dot, Vec.subVectors. cbn [x2 y2].
  unfold Vec.lengthSq in Hsq.
  set (nx := x2 (Shader.normal a b)) in *. set (ny := y2 (Shader.normal a b)) in *.
  replace ((x2 q + c * nx - x2 a) * nx + (y2 q + c * ny - y2 a) * ny)
    with ((x2 q - x2 a) * nx + (y2 q - y2 a) * ny + c * (nx * nx + ny * ny))
    by ring.
  rewrite <- Hsq. ring.
Qed.

(** C6. A slice that gets past the guards of [performSlice] appends two
    pieces, with [sideToKeep] +1 and -1 and the cut line in their uniforms.
    The normal it computes is the normal of the visibility test, the
    normalization of (-(end-start).y, (end-start).x), of length one and
    perpendicular to the cut.  The pieces are moved from the target's
    position by +0.05 and -0.05 times the target's scale along it and get
    the velocities +0.02 and -0.02 times the scale along it; for a
    positive scale, moving any point by a piece's offset or velocity
    takes it further into the side that this piece keeps. *)
Theorem pieces_pushed_apart s now rnd id z startUV endUV :
  nth_error (heap s) id = Some z -> zisSliced z = false ->
  now - lastZombieKillTime s >= ZOMBIE_KILL_COOLDOWN ->
  startUV <> endUV -> 0 < x3 (zscale z) ->
  let n := Shader.normal startUV endUV in
  let scale := x3 (zscale z) in
  exists piece1 piece2 : Piece,
    slicedPieces (performSlice s now rnd (Some id) startUV endUV)
    = slicedPieces s ++ [piece1; piece2]
    /\ (puSideToKeep piece1 = 1 /\ puSideToKeep piece2 = -1)
    /\ (puSliceStart piece1 = startUV /\ puSliceEnd piece1 = endUV
        /\ puSliceStart piece2 = startUV /\ puSliceEnd piece2 = endUV)
    /\ (normalVectorWorld startUV endUV = n
        /\ n = Vec.normalize (V2 (- (y2 endUV - y2 startUV)) (x2 endUV - x2 startUV))
        /\ Vec.length n = 1
        /\ Vec.dot n (Vec.subVectors endUV startUV) = 0)
    /\ (pposition piece1
        = V3 (x3 (zposition z) + 0.05 * scale * x2 n)
             (y3 (zposition z) + 0.05 * scale * y2 n) (z3 (zposition z))
        /\ pposition piece2
           = V3 (x3 (zposition z) - 0.05 * scale * x2 n)
                (y3 (zposition z) - 0.05 * scale * y2 n) (z3 (zposition z)))
    /\ (pvelocity piece1 = V2 (0.02 * scale * x2 n) (0.02 * scale * y2 n)
        /\ pvelocity piece2 = V2 (- (0.02 * scale * x2 n)) (- (0.02 * scale * y2 n)))
    /\ (forall q : Vector2,
           Shader.side startUV endUV
             (V2 (x2 q + x2 (pvelocity piece1)) (y2 q + y2 (pvelocity piece1)))
           * puSideToKeep piece1
           > Shader.side startUV endUV q * puSideToKeep piece1
           /\ Shader.side startUV endUV
                (V2 (x2 q + x2 (pvelocity piece2)) (y2 q + y2 (pvelocity piece2)))
              * puSideToKeep piece2
              > Shader.side startUV endUV q * puSideToKeep piece2
           /\ Shader.side startUV endUV
                (V2 (x2 q + (x3 (pposition piece1) - x3 (zposition z)))
                    (y2 q + (y3 (pposition piece1) - y3 (zposition z))))
              * puSideToKeep piece1
              > Shader.side startUV endUV q * puSideToKeep piece1
           /\ Shader.side startUV endUV
                (V2 (x2 q + (x3 (pposition piece2) - x3 (zposition z)))
                    (y2 q + (y3 (pposition piece2) - y3 (zposition z))))
              * puSideToKeep piece2
              > Shader.side startUV endUV q * puSideToKeep piece2).
Proof.
  intros Hz Hs Hc Hab Hscale n scale.
  rewrite (performSlice_executes s now rnd id z startUV endUV Hz Hs Hc).
  pose proof (normalVectorWorld_shader startUV endUV Hab) as Hn.
  exists (makePiece z startUV endUV 1.0 1 (rnd 0%nat)),
         (makePiece z startUV endUV (-1.0) (-1) (rnd 1%nat)).
  split; [reflexivity|].
  split; [cbn; split; lra|].
  split; [cbn; auto|].
  split.
  { repeat split.
    - exact Hn.
    - apply shader_normal_normalize, Hab.
    - apply shader_normal_unit, Hab.
    - apply shader_normal_perpendicular, Hab. }
  split.
  { unfold makePiece; cbn [pposition]. rewrite Hn. fold n. fold scale.
    split; f_equal; ring. }
  split.
  { unfold makePiece; cbn [pvelocity]. rewrite Hn. fold n. fold scale.
    split; f_equal; ring. }
  intros q. unfold makePiece.
  cbn [pvelocity pposition puSideToKeep x2 y2 x3 y3]. rewrite Hn. fold n. fold scale.
  assert (E : forall c u v, u = x2 q + c * x2 n -> v = y2 q + c * y2 n ->
                            Shader.side startUV endUV (V2 u v)
                            = Shader.side startUV endUV q + c).
  { intros c u v -> ->. apply side_shift, Hab. }
  rewrite (E (0.02 * scale)) by ring.
  rewrite (E (- (0.02 * scale))) by ring.
  rewrite (E (0.05 * scale)) by ring.
  rewrite (E (- (0.05 * scale))) by ring.
  unfold scale. repeat split; lra.
Qed.

(** Both resolvers reach the executor or leave the state as it is. *)
Lemma calculateAndPerformSlice_cooldown s now rnd target :
  now - lastZombieKillTime s < ZOMBIE_KILL_COOLDOWN ->
  calculateAndPerformSlice s now rnd target = s.
Proof.
  intros Hc. unfold calculateAndPerformSlice.
  destruct target; [|reflexivity].
  destruct (resolveSliceUV s) as [[a b]|]; [|reflexivity].
  apply performSlice_cooldown, Hc.
Qed.

Lemma calculateAndPerformSliceHand_cooldown s now rnd target uv p q e :
  now - lastZombieKillTime s < ZOMBIE_KILL_COOLDOWN ->
  calculateAndPerformSliceHand s now rnd target uv p q e = s.
Proof.
  intros Hc. unfold calculateAndPerformSliceHand.
  destruct target as [id|]; [|reflexivity].
  destruct (nth_error (heap s) id) as [z|]; [|reflexivity].
  destruct (zisSliced z); [reflexivity|].
  destruct (resolveSliceUVHand _ _ _ _ _) as [[a b]|]; [|reflexivity].
  apply performSlice_cooldown, Hc.
Qed.

Lemma calculateAndPerformSlice_executes s now rnd id z a b :
  nth_error (heap s) id = Some z -> zisSliced z = false ->
  now - lastZombieKillTime s >= ZOMBIE_KILL_COOLDOWN ->
  resolveSliceUV s = Some (a, b) ->
  calculateAndPerformSlice s now rnd (Some id) = executeSlice s now rnd id z a b.
Proof.
  intros Hz Hs Hc Hr. unfold calculateAndPerformSlice. rewrite Hr.
  apply performSlice_executes; assumption.
Qed.

Lemma calculateAndPerformSliceHand_executes s now rnd id z uv p q e a b :
  nth_error (heap s) id = Some z -> zisSliced z = false ->
  now - lastZombieKillTime s >= ZOMBIE_KILL_COOLDOWN ->
  resolveSliceUVHand (cameraAspect s) uv p q e = Some (a, b) ->
  calculateAndPerformSliceHand s now rnd (Some id) uv p q e
  = executeSlice s now rnd id z a b.
Proof.
  intros Hz Hs Hc Hr. unfold calculateAndPerformSliceHand. rewrite Hz, Hs, Hr.
  apply performSlice_executes; assumption.
Qed.

(** C3. After a slice executed at time [now1], a request on another
    fresh target at a time [now2] less than 0.2 s later changes nothing,
    whether it is made to [performSlice] or comes through the mouse or the
    hand resolver; more than 0.2 s later it executes, through
    [performSlice] and through either resolver whenever that one resolves
    a cut line: the score has then grown by 100 and four pieces have been
    added over both slices. *)
Theorem cooldown_serializes s now1 rnd1 id1 z1 a1 b1 :
  nth_error (heap s) id1 = Some z1 -> zisSliced z1 = false ->
  now1 - lastZombieKillTime s >= ZOMBIE_KILL_COOLDOWN ->
  let s1 := performSlice s now1 rnd1 (Some id1) a1 b1 in
  s1 = executeSlice s now1 rnd1 id1 z1 a1 b1
  /\ forall now2 rnd2 id2 z2,
      id2 <> id1 -> nth_error (heap s1) id2 = Some z2 -> zisSliced z2 = false ->
      (now2 - now1 < 0.2 ->
       (forall a2 b2, performSlice s1 now2 rnd2 (Some id2) a2 b2 = s1)
       /\ calculateAndPerformSlice s1 now2 rnd2 (Some id2) = s1
       /\ (forall uv p q e,
              calculateAndPerformSliceHand s1 now2 rnd2 (Some id2) uv p q e = s1))
      /\ (now2 - now1 > 0.2 ->
          (forall a2 b2,
              let s2 := performSlice s1 now2 rnd2 (Some id2) a2 b2 in
              s2 = executeSlice s1 now2 rnd2 id2 z2 a2 b2
              /\ score s2 = (score s + 100)%Z
              /\ List.length (slicedPieces s2) = (List.length (slicedPieces s) + 4)%nat
              /\ sliceLog s2 = sliceLog s ++ [id1; id2])
          /\ (forall a2 b2,
                 resolveSliceUV s1 = Some (a2, b2) ->
                 calculateAndPerformSlice s1 now2 rnd2 (Some id2)
                 = executeSlice s1 now2 rnd2 id2 z2 a2 b2)
          /\ (forall uv p q e a2 b2,
                 resolveSliceUVHand (cameraAspect s1) uv p q e = Some (a2, b2) ->
                 calculateAndPerformSliceHand s1 now2 rnd2 (Some id2) uv p q e
                 = executeSlice s1 now2 rnd2 id2 z2 a2 b2)).
Proof.
  intros Hz1 Hs1 Hc1 s1.
  assert (E1 : s1 = executeSlice s now1 rnd1 id1 z1 a1 b1)
    by (apply performSlice_executes; assumption).
  split; [exact E1|].
  assert (Hlast : lastZombieKillTime s1 = now1) by (rewrite E1; reflexivity).
  intros now2 rnd2 id2 z2 Hne Hz2 Hs2. split.
  - intros Hlt.
    assert (Hc : now2 - lastZombieKillTime s1 < ZOMBIE_KILL_COOLDOWN)
      by (rewrite Hlast; unfold ZOMBIE_KILL_COOLDOWN; lra).
    split; [|split]; intros.
    + apply performSlice_cooldown, Hc.
    + apply calculateAndPerformSlice_cooldown, Hc.
    + apply calculateAndPerformSliceHand_cooldown, Hc.
  - intros Hgt.
    assert (Hc : now2 - lastZombieKillTime s1 >= ZOMBIE_KILL_COOLDOWN)
      by (rewrite Hlast; unfold ZOMBIE_KILL_COOLDOWN; lra).
    split; [|split]; intros.
    + assert (E2 : s2 = executeSlice s1 now2 rnd2 id2 z2 a2 b2)
        by (apply performSlice_executes; assumption).
      split; [exact E2|]. rewrite E2, E1. cbn [score slicedPieces sliceLog executeSlice].
      split; [lia|]. split.
      * rewrite !length_app. cbn. lia.
      * rewrite <- app_assoc. reflexivity.
    + apply calculateAndPerformSlice_executes; assumption.
    + apply calculateAndPerformSliceHand_executes; assumption.
Qed.

(** The executor never marks its target: a second call on the same
    reference, once the cooldown is over, executes again. *)
Lemma performSlice_twice s now1 now2 rnd1 rnd2 id z a1 b1 a2 b2 :
  nth_error (heap s) id = Some z -> zisSliced z = false ->
  now1 - lastZombieKillTime s >= ZOMBIE_KILL_COOLDOWN ->
  now2 - now1 >= ZOMBIE_KILL_COOLDOWN ->
  let s1 := performSlice s now1 rnd1 (Some id) a1 b1 in
  let s2 := performSlice s1 now2 rnd2 (Some id) a2 b2 in
  s2 = executeSlice (executeSlice s now1 rnd1 id z a1 b1) now2 rnd2 id z a2 b2
  /\ score s2 = (score s + 100)%Z
  /\ List.length (slicedPieces s2) = (List.length (slicedPieces s) + 4)%nat
  /\ sliceLog s2 = sliceLog s ++ [id; id].
Proof.
  intros Hz Hs Hc1 Hc2. cbv zeta.
  rewrite (performSlice_executes s now1 rnd1 id z a1 b1 Hz Hs Hc1).
  rewrite (performSlice_executes _ now2 rnd2 id z a2 b2)
    by (cbn [heap lastZombieKillTime executeSlice]; assumption).
  split; [reflexivity|].
  cbn [score slicedPieces sliceLog executeSlice].
  split; [lia|]. split.
  - rewrite !length_app. cbn. lia.
  - rewrite <- app_assoc. reflexivity.
Qed.

(** ** The gesture resolvers *)

Lemma checkAndClamp_some x y a b :
  checkAndClamp x y = Some (a, b) -> acceptedCut x y a b.
Proof.
  unfold checkAndClamp, acceptedCut.
  destruct (Rlt_dec (Vec.distanceTo x y) 0.001) as [L|L].
  - rewrite (proj2 (Rltb_true _ _)) by exact L. discriminate.
  - rewrite (proj2 (Rltb_false _ _)) by lra. intros E. inversion E; subst.
    split; [lra|]. split; [reflexivity|]. split; [reflexivity|].
    split; [apply clampScalar_in|]. split; [apply clampScalar_in|].
    intros Hx Hy. rewrite !clampScalar_id by assumption.
    split; [reflexivity|]. split; [reflexivity|lra].
Qed.

Lemma checkAndClamp_none x y :
  Vec.distanceTo x y < 0.001 -> checkAndClamp x y = None.
Proof. intros H. unfold checkAndClamp. cmp. reflexivity. Qed.

Lemma checkAndClamp_accepts x y :
  0.001 <= Vec.distanceTo x y ->
  checkAndClamp x y = Some (Vec.clampScalar x 0 1, Vec.clampScalar y 0 1).
Proof. intros H. unfold checkAndClamp. cmp. reflexivity. Qed.

(** What the two resolvers return, step by step: the resolved points of
    a cut line they return, the three ways in which they return nothing,
    and what their callers do with either answer. *)
Lemma resolver_outcomes (s : State) :
  (* the mouse resolver *)
  (forall a b,
      resolveSliceUV s = Some (a, b) ->
      sliceStartValid (mouse s) = true
      /\ exists e,
          ((sliceEndValid (mouse s) = true /\ e = sliceEndUV (mouse s))
           \/ (sliceEndValid (mouse s) = false
               /\ intersectUVSquare
                    (sliceStartUV (mouse s))
                    (directionUVApprox (cameraAspect s)
                       (directionNDC (sliceStartNDC (mouse s))
                                     (sliceEndNDC (mouse s)))) = Some e))
          /\ acceptedCut (sliceStartUV (mouse s)) e a b)
  /\ (sliceStartValid (mouse s) = false -> resolveSliceUV s = None)
  /\ (sliceEndValid (mouse s) = false ->
      intersectUVSquare
        (sliceStartUV (mouse s))
        (directionUVApprox (cameraAspect s)
           (directionNDC (sliceStartNDC (mouse s)) (sliceEndNDC (mouse s))))
      = None ->
      resolveSliceUV s = None)
  /\ (sliceEndValid (mouse s) = true ->
      Vec.distanceTo (sliceStartUV (mouse s)) (sliceEndUV (mouse s)) < 0.001 ->
      resolveSliceUV s = None)
  /\ (forall e,
         sliceEndValid (mouse s) = false ->
         intersectUVSquare
           (sliceStartUV (mouse s))
           (directionUVApprox (cameraAspect s)
              (directionNDC (sliceStartNDC (mouse s)) (sliceEndNDC (mouse s))))
         = Some e ->
         Vec.distanceTo (sliceStartUV (mouse s)) e < 0.001 ->
         resolveSliceUV s = None)
  /\ (forall now rnd target,
         resolveSliceUV s = None ->
         calculateAndPerformSlice s now rnd target = s)
  /\ (forall now rnd id a b,
         resolveSliceUV s = Some (a, b) ->
         calculateAndPerformSlice s now rnd (Some id)
         = performSlice s now rnd (Some id) a b)
  (* the hand resolver *)
  /\ (forall startUV startNDC endNDC endUVIfValid a b,
         resolveSliceUVHand (cameraAspect s) startUV startNDC endNDC endUVIfValid
         = Some (a, b) ->
         exists e,
           (endUVIfValid = Some e
            \/ (endUVIfValid = None
                /\ intersectUVSquare
                     startUV
                     (directionUVApprox (cameraAspect s)
                        (directionNDC startNDC endNDC)) = Some e))
           /\ acceptedCut startUV e a b)
  /\ (forall startUV startNDC endNDC,
         intersectUVSquare
           startUV
           (directionUVApprox (cameraAspect s) (directionNDC startNDC endNDC))
         = None ->
         resolveSliceUVHand (cameraAspect s) startUV startNDC endNDC None = None)
  /\ (forall startUV startNDC endNDC e,
         Vec.distanceTo startUV e < 0.001 ->
         resolveSliceUVHand (cameraAspect s) startUV startNDC endNDC (Some e) = None)
  /\ (forall startUV startNDC endNDC e,
         intersectUVSquare
           startUV
           (directionUVApprox (cameraAspect s) (directionNDC startNDC endNDC))
         = Some e ->
         Vec.distanceTo startUV e < 0.001 ->
         resolveSliceUVHand (cameraAspect s) startUV startNDC endNDC None = None)
  /\ (forall now rnd target startUV startNDC endNDC endUVIfValid,
         resolveSliceUVHand (cameraAspect s) startUV startNDC endNDC endUVIfValid
         = None ->
         calculateAndPerformSliceHand s now rnd target startUV startNDC endNDC
                                      endUVIfValid = s)
  /\ (forall now rnd id z startUV startNDC endNDC endUVIfValid a b,
         nth_error (heap s) id = Some z -> zisSliced z = false ->
         resolveSliceUVHand (cameraAspect s) startUV startNDC endNDC endUVIfValid
         = Some (a, b) ->
         calculateAndPerformSliceHand s now rnd (Some id) startUV startNDC endNDC
                                      endUVIfValid
         = performSlice s now rnd (Some id) a b)
  /\ (forall raycast now rnd previous currentFingerTipNDC,
         previousFingerTipNDC s = Some previous ->
         getUVCoordsFromNDC raycast s previous = None ->
         frameToFrameCheck raycast s now rnd currentFingerTipNDC = s).
Proof.
  repeat apply conj.
  - intros a b. unfold resolveSliceUV.
    destruct (sliceStartValid (mouse s)); [|cbn; discriminate].
    destruct (sliceEndValid (mouse s)); cbn [andb negb].
    + intros H. split; [reflexivity|]. exists (sliceEndUV (mouse s)).
      split; [left; auto|]. apply checkAndClamp_some, H.
    + destruct (intersectUVSquare _ _) as [e|] eqn:Ei; [|discriminate].
      intros H. split; [reflexivity|]. exists e.
      split; [right; auto|]. apply checkAndClamp_some, H.
  - intros H. unfold resolveSliceUV. rewrite H. reflexivity.
  - intros He Hi. unfold resolveSliceUV. rewrite He, Hi.
    destruct (sliceStartValid (mouse s)); reflexivity.
  - intros He Hd. unfold resolveSliceUV. rewrite He.
    destruct (sliceStartValid (mouse s)); cbn [andb negb]; [|reflexivity].
    apply checkAndClamp_none, Hd.
  - intros e He Hi Hd. unfold resolveSliceUV. rewrite He, Hi.
    destruct (sliceStartValid (mouse s)); cbn [andb negb]; [|reflexivity].
    apply checkAndClamp_none, Hd.
  - intros now rnd target H. unfold calculateAndPerformSlice. rewrite H.
    destruct target; reflexivity.
  - intros now rnd id a b H. unfold calculateAndPerformSlice. rewrite H.
    reflexivity.
  - intros startUV startNDC endNDC endUVIfValid a b. unfold resolveSliceUVHand.
    destruct (Rltb _ _); [discriminate|].
    destruct (Rltb _ _); [discriminate|].
    destruct endUVIfValid as [e|].
    + intros H. exists e. split; [left; reflexivity|].
      apply checkAndClamp_some, H.
    + destruct (intersectUVSquare _ _) as [e|] eqn:Ei; [|discriminate].
      intros H. exists e. split; [right; auto|]. apply checkAndClamp_some, H.
  - intros startUV startNDC endNDC Hi. unfold resolveSliceUVHand. rewrite Hi.
    destruct (Rltb _ _); [reflexivity|]. destruct (Rltb _ _); reflexivity.
  - intros startUV startNDC endNDC e Hd. unfold resolveSliceUVHand.
    rewrite (checkAndClamp_none _ _ Hd).
    destruct (Rltb _ _); [reflexivity|]. destruct (Rltb _ _); reflexivity.
  - intros startUV startNDC endNDC e Hi Hd. unfold resolveSliceUVHand.
    rewrite Hi, (checkAndClamp_none _ _ Hd).
    destruct (Rltb _ _); [reflexivity|]. destruct (Rltb _ _); reflexivity.
  - intros now rnd target startUV startNDC endNDC endUVIfValid H.
    unfold calculateAndPerformSliceHand. rewrite H.
    destruct target as [id|]; [|reflexivity].
    destruct (nth_error (heap s) id) as [z|]; [|reflexivity].
    destruct (zisSliced z); reflexivity.
  - intros now rnd id z startUV startNDC endNDC endUVIfValid a b Hz Hs H.
    unfold calculateAndPerformSliceHand. rewrite Hz, Hs, H. reflexivity.
  - intros raycast now rnd previous currentFingerTipNDC Hp Hh.
    unfold frameToFrameCheck. rewrite Hp, Hh.
    destruct (Rgtb _ _); reflexivity.
Qed.

Lemma normalize_of_square v (c : R) :
  0 < c -> Vec.lengthSq v = c * c -> Vec.normalize v = V2 (x2 v / c) (y2 v / c).
Proof.
  intros Hc E. assert (L : Vec.length v = c) by (apply length_of_square; lra).
  rewrite normalize_nonzero by lra. rewrite L. reflexivity.
Qed.

Lemma div_bounds (a c lo hi : R) :
  0 < c -> lo * c <= a -> a < hi * c -> lo <= a / c < hi.
Proof.
  intros Hc Hlo Hhi. assert (E : a / c * c = a) by (field; lra).
  set (q := a / c) in *. split; nra.
Qed.

Lemma steep_facts :
  0 < steepX < 1e-6 /\ 1e-6 <= steepY < 1 /\ steepX * steepX + steepY * steepY = 1.
Proof.
  unfold steepX, steepY.
  assert (P : 0 < 1 + 1e-14) by lra.
  split; [|split].
  - split.
    + apply Rdiv_lt_0_compat; lra.
    + apply (div_bounds 2e-7 (1 + 1e-14) 0 1e-6); lra.
  - apply div_bounds; lra.
  - field; lra.
Qed.

Lemma steep_directionNDC : directionNDC zero2 steepEndNDC = V2 steepX steepY.
Proof.
  unfold directionNDC.
  rewrite (normalize_of_square _ (1 + 1e-14)).
  - unfold steepX, steepY, steepEndNDC, zero2; cbn. f_equal; field; lra.
  - lra.
  - unfold Vec.lengthSq, steepEndNDC, zero2; cbn. lra.
Qed.

Lemma steep_direction :
  directionUVApprox 1 (directionNDC zero2 steepEndNDC) = V2 steepX steepY.
Proof.
  destruct steep_facts as [Hx [Hy Hu]].
  rewrite steep_directionNDC. unfold directionUVApprox. cbn [x2 y2].
  rewrite (normalize_of_square _ 1).
  - cbn [x2 y2]. f_equal; field.
  - lra.
  - unfold Vec.lengthSq; cbn [x2 y2]. lra.
Qed.

Lemma steep_extension :
  intersectUVSquare edgeStartUV (V2 steepX steepY)
  = Some (V2 (1 + steepX * 0.001) (1 - 0.001 * steepY + steepY * 0.001)).
Proof.
  destruct steep_facts as [Hx [Hy Hu]].
  assert (T : (1 - (1 - 0.001 * steepY)) / steepY = 0.001) by (field; lra).
  assert (T0 : (0 - (1 - 0.001 * steepY)) / steepY < 0).
  { apply (div_bounds _ steepY (-1000) 0); nra. }
  unfold intersectUVSquare, intersectionTime, axisPass, edgeStartUV. cbn [x2 y2].
  rewrite (Rabs_right steepX) by lra. rewrite (Rabs_right steepY) by lra.
  rewrite T. cmp.
  repeat (progress (cbn [orb ERmax ERmin ERltR ERgtR ERgeR ERgtb]; cmp)).
  reflexivity.
Qed.

(** C5 as the specification states it fails: the distance is checked
    before the clamp, not after it.  For an almost vertical hand motion
    that starts on the right edge of the texture and misses the target
    with its end, the extension ends just outside the square, exactly
    0.001 away, which passes the check; the clamp then pulls the end point
    back onto the corner, and the cut line handed to the executor is
    shorter than 0.001. *)
Lemma clamp_shortens_cut :
  inUnitSquare edgeStartUV
  /\ exists a b,
      resolveSliceUVHand 1 edgeStartUV zero2 steepEndNDC None = Some (a, b)
      /\ Vec.distanceTo a b < 0.001.
Proof.
  destruct steep_facts as [Hx [Hy Hu]].
  assert (Hin : inUnitSquare edgeStartUV).
  { unfold inUnitSquare, edgeStartUV; cbn. nra. }
  split; [exact Hin|].
  exists edgeStartUV, (V2 1 1).
  split.
  - unfold resolveSliceUVHand.
    rewrite steep_direction, steep_directionNDC.
    unfold Vec.lengthSq at 1 2. cbn [x2 y2]. rewrite Hu. cmp.
    rewrite steep_extension.
    rewrite checkAndClamp_accepts.
    + rewrite (clampScalar_id _ Hin). f_equal. f_equal.
      unfold Vec.clampScalar, Vec.clamp; cbn [x2 y2].
      f_equal.
      * unfold Rmin, Rmax.
        destruct (Rle_dec 1 (1 + steepX * 0.001)); [|nra].
        destruct (Rle_dec 0 1); lra.
      * replace (1 - 0.001 * steepY + steepY * 0.001) with 1 by ring.
        unfold Rmin, Rmax.
        destruct (Rle_dec 1 1); [|lra]. destruct (Rle_dec 0 1); lra.
    + apply length_ge_iff; [lra|].
      unfold Vec.lengthSq, Vec.subVectors, edgeStartUV; cbn [x2 y2]. nra.
  - apply length_lt_iff; [lra|].
    unfold Vec.lengthSq, Vec.subVectors, edgeStartUV; cbn [x2 y2]. nra.
Qed.

(** The check itself accepts a distance of exactly 0.001, here for a
    mouse gesture with both ends on the target. *)
Lemma check_accepts_equal_distance :
  checkAndClamp (V2 0.5 0.5) (V2 0.501 0.5) = Some (V2 0.5 0.5, V2 0.501 0.5)
  /\ Vec.distanceTo (V2 0.5 0.5) (V2 0.501 0.5) = 0.001.
Proof.
  assert (D : Vec.distanceTo (V2 0.5 0.5) (V2 0.501 0.5) = 0.001).
  { apply length_of_square; [lra|].
    unfold Vec.lengthSq, Vec.subVectors; cbn [x2 y2]. lra. }
  split; [|exact D].
  rewrite checkAndClamp_accepts by lra.
  rewrite !clampScalar_id by (unfold inUnitSquare; cbn; lra). reflexivity.
Qed.

(** ** Lists as arrays *)

Lemma nth_error_middle {A} (l1 l2 : list A) (a : A) :
  nth_error (l1 ++ a :: l2) (List.length l1) = Some a.
Proof. induction l1; cbn; auto. Qed.

Lemma splice1_middle {A} (l1 l2 : list A) (a : A) :
  splice1 (List.length l1) (l1 ++ a :: l2) = l1 ++ l2.
Proof. induction l1; cbn; [reflexivity|]. f_equal; assumption. Qed.

Lemma list_set_middle {A} (l1 l2 : list A) (a b : A) :
  list_set (List.length l1) b (l1 ++ a :: l2) = l1 ++ b :: l2.
Proof. induction l1; cbn; [reflexivity|]. f_equal; assumption. Qed.

Lemma list_set_length {A} (i : nat) (v : A) (l : list A) :
  List.length (list_set i v l) = List.length l.
Proof.
  revert i; induction l as [|a l IH]; intros [|i]; cbn; auto.
Qed.

(** ** The physics of the sliced pieces *)

Lemma animatePieces_prefix (deltaTime : R) (l1 l2 : list Piece) :
  animatePieces deltaTime (List.length l1) (l1 ++ l2)
  = stepAllPieces deltaTime l1 ++ l2.
Proof.
  revert l2. induction l1 as [|p l IH] using rev_ind; intros l2.
  - reflexivity.
  - rewrite length_app, Nat.add_comm. cbn [List.length Nat.add animatePieces].
    rewrite <- app_assoc. cbn [app]. rewrite nth_error_middle.
    unfold stepAllPieces. rewrite flat_map_app. cbn [flat_map].
    fold (stepAllPieces deltaTime l).
    destruct (stepPiece deltaTime p) as [p'|].
    + rewrite list_set_middle, IH. rewrite <- !app_assoc. reflexivity.
    + rewrite splice1_middle, IH. rewrite app_nil_r. reflexivity.
Qed.

Lemma animatePieces_all (deltaTime : R) (pieces : list Piece) :
  animatePieces deltaTime (List.length pieces) pieces
  = stepAllPieces deltaTime pieces.
Proof.
  rewrite <- (app_nil_r pieces) at 2.
  rewrite animatePieces_prefix. apply app_nil_r.
Qed.

Lemma animateZombies_slicedPieces deltaTime i s :
  slicedPieces (animateZombies deltaTime i s) = slicedPieces s.
Proof.
  revert s. induction i as [|j IH]; intros s; cbn [animateZombies]; [reflexivity|].
  destruct (nth_error (activeZombies s) j) as [id|]; [|apply IH].
  destruct (nth_error (heap s) id) as [z|]; [|apply IH].
  destruct (Rgeb _ _).
  - destruct (loseLife _ _). rewrite IH. reflexivity.
  - rewrite IH. reflexivity.
Qed.

Lemma animate_slicedPieces s deltaTime rnd :
  slicedPieces (animate s deltaTime rnd)
  = stepAllPieces deltaTime (slicedPieces s).
Proof.
  unfold animate. cbn [slicedPieces].
  rewrite animatePieces_all, animateZombies_slicedPieces. reflexivity.
Qed.

(** C8. In a tick of [deltaTime] seconds a piece that rests on the floor
    has its horizontal velocity and its rotation speed multiplied by 0.95,
    each of them set to zero when its magnitude is then below 0.001, and
    the elapsed time added to its despawn timer; it moves and turns by the
    damped values and stays on the floor.  When the timer has reached 10
    seconds the piece is despawned.  The tick of the whole program steps
    every piece once in this way and keeps exactly the pieces that are not
    despawned. *)
Theorem resting_piece_tick (deltaTime : R) (p : Piece) :
  pisOnFloor p = true ->
  let vx := x2 (pvelocity p) * 0.95 in
  let rot := protation p * 0.95 in
  let timer := pdespawnTimer p + deltaTime in
  (timer >= 10 -> stepPiece deltaTime p = None)
  /\ (timer < 10 ->
      exists p',
        stepPiece deltaTime p = Some p'
        /\ x2 (pvelocity p') = snap vx
        /\ protation p' = snap rot
        /\ pdespawnTimer p' = timer
        /\ pisOnFloor p' = true
        /\ y2 (pvelocity p') = y2 (pvelocity p)
        /\ pposition p' = V3 (x3 (pposition p) + vx) (y3 (pposition p))
                             (z3 (pposition p))
        /\ protationZ p' = protationZ p + rot)
  /\ (forall s rnd,
         slicedPieces (animate s deltaTime rnd)
         = stepAllPieces deltaTime (slicedPieces s))
  /\ (forall pieces,
         In p pieces ->
         match stepPiece deltaTime p with
         | Some p' => In p' (stepAllPieces deltaTime pieces)
         | None =>
           List.length (stepAllPieces deltaTime pieces) < List.length pieces
         end)%nat.
Proof.
  intros Hf vx rot timer. repeat apply conj.
  - intros Ht. unfold stepPiece. rewrite Hf. cbn [negb].
    fold timer. unfold DESPAWN_TIME. cmp. reflexivity.
  - intros Ht. unfold stepPiece. rewrite Hf. cbn [negb].
    fold timer. unfold DESPAWN_TIME, DAMPING. cmp.
    eexists. split; [reflexivity|]. cbn.
    unfold snap. repeat split; reflexivity.
  - intros s rnd. apply animate_slicedPieces.
  - intros pieces Hin. unfold stepAllPieces.
    destruct (stepPiece deltaTime p) as [p'|] eqn:E.
    + apply in_flat_map. exists p. split; [exact Hin|]. rewrite E. now left.
    + induction pieces as [|q l IH]; [destruct Hin|].
      cbn [flat_map]. rewrite length_app.
      assert (Hle : forall l0 : list Piece,
                 (List.length
                    (flat_map (fun p0 => match stepPiece deltaTime p0 with
                                         | Some p' => [p']
                                         | None => []
                                         end) l0) <= List.length l0)%nat).
      { induction l0 as [|r l0 IH0]; cbn; [lia|].
        rewrite length_app. destruct (stepPiece deltaTime r); cbn; lia. }
      destruct Hin as [->|Hin].
      * rewrite E. cbn. specialize (Hle l). lia.
      * specialize (IH Hin). destruct (stepPiece deltaTime q); cbn; lia.
Qed.

(** ** The blood-particle pool *)

Lemma live_free_length (pool : list Particle) :
  (liveCount pool + freeCount pool = List.length pool)%nat.
Proof.
  unfold liveCount, freeCount. induction pool as [|p l IH]; cbn; [reflexivity|].
  destruct (visible p); cbn; lia.
Qed.

Lemma liveCount_le_length (pool : list Particle) :
  (liveCount pool <= List.length pool)%nat.
Proof. pose proof (live_free_length pool). lia. Qed.

Lemma findFree_none (pool : list Particle) :
  findFree pool = None <-> freeCount pool = 0%nat.
Proof.
  unfold freeCount. induction pool as [|p l IH]; cbn; [tauto|].
  destruct (visible p); cbn.
  - destruct (findFree l); cbn.
    + split; [discriminate|]. intros H. apply IH in H. discriminate.
    + split; [|reflexivity]. intros _. apply IH. reflexivity.
  - split; discriminate.
Qed.

(** Writing a live particle into the entry that [find] returned. *)
Lemma spawn_in_free (pool : list Particle) (j : nat) (p : Particle) :
  findFree pool = Some j -> visible p = true ->
  liveCount (list_set j p pool) = S (liveCount pool)
  /\ S (freeCount (list_set j p pool)) = freeCount pool.
Proof.
  unfold liveCount, freeCount. revert j.
  induction pool as [|q l IH]; intros j Hf Hp; cbn in Hf; [discriminate|].
  destruct (visible q) eqn:Vq.
  - destruct (findFree l) as [i|]; [|discriminate]. inversion Hf; subst j.
    cbn. rewrite Vq. cbn. destruct (IH i eq_refl Hp) as [A B]. lia.
  - inversion Hf; subst j. cbn. rewrite Hp, Vq. cbn. lia.
Qed.

Lemma emitParticle_visible i rnd k textures pos scaleX sv n :
  visible (emitParticle i rnd k textures pos scaleX sv n) = true.
Proof. unfold emitParticle. destruct (Nat.ltb _ _); reflexivity. Qed.

Lemma emitStep_counts rnd textures pos scaleX sv n pool k i :
  let pool' := fst (emitStep rnd textures pos scaleX sv n (pool, k) i) in
  List.length pool' = List.length pool
  /\ liveCount pool' = (liveCount pool + Nat.min 1 (freeCount pool))%nat
  /\ freeCount pool' = (freeCount pool - 1)%nat.
Proof.
  cbn [emitStep]. destruct (findFree pool) as [j|] eqn:Ef; cbn [fst].
  - destruct (spawn_in_free pool j _ Ef
                (emitParticle_visible i rnd k textures pos scaleX sv n)) as [A B].
    rewrite list_set_length. rewrite A. split; [reflexivity|]. lia.
  - apply findFree_none in Ef. rewrite Ef. cbn. lia.
Qed.

Lemma emitLoop_counts rnd textures pos scaleX sv n (l : list nat) pool k :
  let pool' := fst (fold_left (emitStep rnd textures pos scaleX sv n) l (pool, k)) in
  List.length pool' = List.length pool
  /\ liveCount pool'
     = (liveCount pool + Nat.min (List.length l) (freeCount pool))%nat.
Proof.
  revert pool k. induction l as [|i l IH]; intros pool k.
  - cbv zeta. cbn [fold_left fst List.length].
    split; [reflexivity|]. rewrite Nat.min_0_l. lia.
  - cbn [fold_left List.length].
    pose proof (emitStep_counts rnd textures pos scaleX sv n pool k i) as H.
    destruct (emitStep rnd textures pos scaleX sv n (pool, k) i) as [pool1 k1].
    cbn [fst] in H. destruct H as [Hl [Hv Hf]].
    specialize (IH pool1 k1). cbv zeta in *. destruct IH as [IHl IHv].
    rewrite IHl, IHv, Hl, Hv, Hf. split; [reflexivity|]. lia.
Qed.

(** An emission activates as many particles as it asks for or as there
    are free entries, whichever is less, and keeps the pool's size. *)
Lemma emitBlood_counts rnd textures pos scaleX sv n pool k :
  let pool' := fst (emitBlood rnd textures pos scaleX sv n pool k) in
  List.length pool' = List.length pool
  /\ liveCount pool'
     = (liveCount pool + Nat.min numBloodParticles (freeCount pool))%nat
  /\ (liveCount pool' <= List.length pool)%nat.
Proof.
  unfold emitBlood.
  pose proof (emitLoop_counts rnd textures pos scaleX sv n
                              (seq 0 numBloodParticles) pool k) as H.
  cbv zeta in *. rewrite length_seq in H. destruct H as [Hl Hv].
  split; [exact Hl|]. split; [exact Hv|].
  rewrite <- Hl. apply liveCount_le_length.
Qed.

(** Scenario D: with five free entries, eighteen requested particles
    make five live ones. *)
Lemma emitBlood_five_free rnd textures pos scaleX sv n pool k :
  freeCount pool = 5%nat ->
  liveCount (fst (emitBlood rnd textures pos scaleX sv n pool k))
  = (liveCount pool + 5)%nat.
Proof.
  intros H. destruct (emitBlood_counts rnd textures pos scaleX sv n pool k) as [_ [E _]].
  rewrite E, H. reflexivity.
Qed.

Lemma executeSlice_pool s now rnd id z a b :
  bloodTexturesLoaded s = true ->
  List.length (bloodParticlePool (executeSlice s now rnd id z a b))
  = List.length (bloodParticlePool s)
  /\ liveCount (bloodParticlePool (executeSlice s now rnd id z a b))
     = (liveCount (bloodParticlePool s)
        + Nat.min numBloodParticles (freeCount (bloodParticlePool s)))%nat.
Proof.
  intros Hl. cbn [bloodParticlePool executeSlice]. rewrite Hl.
  destruct (emitBlood_counts rnd (bloodTextures s) (spawnPosition z a b)
              (x3 (zscale z)) (sliceVectorUV a b) (normalVectorWorld a b)
              (bloodParticlePool s) 2) as [A [B _]].
  split; assumption.
Qed.

Lemma freeCount_repeat_fresh (n : nat) :
  freeCount (repeat freshParticle n) = n /\ liveCount (repeat freshParticle n) = 0%nat.
Proof.
  unfold freeCount, liveCount. induction n as [|n [A B]]; cbn; [auto|].
  rewrite A, B. auto.
Qed.

(** ** Hit tests and retired targets *)

Lemma splice1_In {A} (i : nat) (l : list A) (x : A) :
  In x (splice1 i l) -> In x l.
Proof.
  revert i; induction l as [|a l IH]; intros [|i]; cbn; auto.
  intros [H|H]; auto. right. eapply IH, H.
Qed.

Lemma splice1_NoDup {A} (i : nat) (l : list A) : NoDup l -> NoDup (splice1 i l).
Proof.
  revert i; induction l as [|a l IH]; intros [|i] H; cbn; auto.
  - inversion H; assumption.
  - inversion H; subst. constructor; [|apply IH; assumption].
    intros Hin. apply splice1_In in Hin. contradiction.
Qed.

Lemma removeRef_In x y l : In y (removeRef x l) -> In y l.
Proof.
  unfold removeRef. destruct (indexOf x l); [apply splice1_In|auto].
Qed.

Lemma removeRef_NoDup x l : NoDup l -> NoDup (removeRef x l).
Proof.
  unfold removeRef. destruct (indexOf x l); [apply splice1_NoDup|auto].
Qed.

Lemma removeRef_gone x l : NoDup l -> ~ In x (removeRef x l).
Proof.
  unfold removeRef. induction l as [|a l IH]; intros Hn; cbn; [tauto|].
  inversion Hn; subst.
  destruct (Nat.eqb a x) eqn:E; cbn.
  - apply Nat.eqb_eq in E. subst. assumption.
  - apply Nat.eqb_neq in E. specialize (IH H2).
    destruct (indexOf x l) as [i|]; cbn.
    + intros [H|H]; [congruence|]. apply IH, H.
    + intros [H|H]; [congruence|]. apply IH, H.
Qed.

Lemma executeSlice_sound s now rnd id z a b :
  nth_error (heap s) id = Some z ->
  referencesSound s -> referencesSound (executeSlice s now rnd id z a b).
Proof.
  intros Hz [Hn [Ha [Hl Hd]]]. unfold referencesSound.
  cbn [activeZombies heap sliceLog executeSlice].
  assert (Hid : (id < List.length (heap s))%nat).
  { apply nth_error_Some. rewrite Hz. discriminate. }
  repeat split.
  - apply removeRef_NoDup, Hn.
  - intros i Hi. apply Ha. eapply removeRef_In, Hi.
  - intros i Hi. apply in_app_or in Hi. destruct Hi as [Hi|[Hi|[]]].
    + apply Hl, Hi.
    + subst. exact Hid.
  - intros i Hi Hact. apply in_app_or in Hi. destruct Hi as [Hi|[Hi|[]]].
    + apply (Hd i Hi). eapply removeRef_In, Hact.
    + subst. revert Hact. apply removeRef_gone, Hn.
Qed.

Lemma performSlice_sound s now rnd target a b :
  referencesSound s -> referencesSound (performSlice s now rnd target a b).
Proof.
  intros H. unfold performSlice. destruct target as [id|]; [|exact H].
  destruct (nth_error (heap s) id) as [z|] eqn:Hz; [|exact H].
  destruct (zisSliced z); [exact H|].
  destruct (Rltb _ _); [exact H|].
  apply executeSlice_sound; assumption.
Qed.

Lemma setMouse_sound s m : referencesSound s -> referencesSound (setMouse s m).
Proof. intros H. exact H. Qed.

Lemma setPrevious_sound s p :
  referencesSound s -> referencesSound (setPreviousFingerTipNDC s p).
Proof. intros H. exact H. Qed.

Lemma calculateAndPerformSlice_sound s now rnd target :
  referencesSound s -> referencesSound (calculateAndPerformSlice s now rnd target).
Proof.
  intros H. unfold calculateAndPerformSlice. destruct target; [|exact H].
  destruct (resolveSliceUV s) as [[a b]|]; [|exact H].
  apply performSlice_sound, H.
Qed.

Lemma calculateAndPerformSliceHand_sound s now rnd target uv p q e :
  referencesSound s ->
  referencesSound (calculateAndPerformSliceHand s now rnd target uv p q e).
Proof.
  intros H. unfold calculateAndPerformSliceHand.
  destruct target as [id|]; [|exact H].
  destruct (nth_error (heap s) id) as [z|]; [|exact H].
  destruct (zisSliced z); [exact H|].
  destruct (resolveSliceUVHand _ _ _ _ _) as [[a b]|]; [|exact H].
  apply performSlice_sound, H.
Qed.

Lemma spawnZombie_sound s rnd : referencesSound s -> referencesSound (spawnZombie s rnd).
Proof.
  intros H. unfold spawnZombie. destruct (gameOver s); [exact H|].
  destruct (allZombieFramesLoaded s); [|exact H].
  destruct (zombieGeometry s) as [[w h]|]; [|exact H].
  destruct H as [Hn [Ha [Hl Hd]]]. unfold referencesSound.
  cbn [activeZombies heap sliceLog setWorld]. rewrite length_app. cbn [List.length].
  repeat split.
  - apply NoDup_app; [exact Hn | constructor; [intros []|constructor] |].
    intros i Hi [E|[]]. subst. apply Ha in Hi. lia.
  - intros i Hi. apply in_app_or in Hi. destruct Hi as [Hi|[Hi|[]]].
    + apply Ha in Hi. lia.
    + subst. lia.
  - intros i Hi. apply Hl in Hi. lia.
  - intros i Hi Hact. apply in_app_or in Hact. destruct Hact as [Hact|[E|[]]].
    + apply (Hd i Hi Hact).
    + subst. apply Hl in Hi. lia.
Qed.

Lemma animateZombies_sound deltaTime i s :
  referencesSound s -> referencesSound (animateZombies deltaTime i s).
Proof.
  revert s. induction i as [|j IH]; intros s H; cbn [animateZombies]; [exact H|].
  destruct (nth_error (activeZombies s) j) as [id|]; [|apply IH, H].
  destruct (nth_error (heap s) id) as [z|]; [|apply IH, H].
  destruct H as [Hn [Ha [Hl Hd]]].
  destruct (Rgeb _ _).
  - destruct (loseLife _ _) as [l g]. apply IH. unfold referencesSound.
    cbn [activeZombies heap sliceLog setWorld]. rewrite list_set_length.
    repeat split.
    + apply splice1_NoDup, Hn.
    + intros i Hi. apply Ha. eapply splice1_In, Hi.
    + exact Hl.
    + intros i Hi Hact. apply (Hd i Hi). eapply splice1_In, Hact.
  - apply IH. unfold referencesSound.
    cbn [activeZombies heap sliceLog setWorld]. rewrite list_set_length.
    repeat split; assumption.
Qed.

Lemma render_length scene h : List.length (render scene h) = List.length h.
Proof.
  unfold render. rewrite length_map, length_combine, length_seq. lia.
Qed.

Lemma animate_sound s deltaTime rnd :
  referencesSound s -> referencesSound (animate s deltaTime rnd).
Proof.
  intros H.
  pose proof (animateZombies_sound deltaTime (List.length (activeZombies s)) s H)
    as [Hn [Ha [Hl Hd]]].
  unfold animate, referencesSound. cbn [activeZombies heap sliceLog].
  rewrite render_length. repeat split; assumption.
Qed.

Lemma handle_sound raycast s e :
  referencesSound s -> referencesSound (handle raycast s e).
Proof.
  intros H. destruct e; cbn [handle].
  - unfold bloodTextureLoaded. destruct (Nat.eqb _ _); exact H.
  - unfold zombieFrameLoaded. destruct (Nat.eqb _ ZOMBIE_FRAME_COUNT).
    + destruct l; [apply spawnZombie_sound|]; exact H.
    + exact H.
  - apply spawnZombie_sound, H.
  - exact H.
  - unfold mousedown. destruct (zombieGeometry s); [|exact H].
    destruct (getUVCoords raycast s ndc) as [[uv object]|]; exact H.
  - unfold mousemove. destruct (isSlicing (mouse s)); exact H.
  - unfold mouseup. destruct (isSlicing (mouse s)); [|exact H].
    destruct (zombieToSlice (mouse s)) as [target|]; [|exact H].
    unfold resetMouse. apply setMouse_sound.
    destruct (Rgtb _ _); [apply calculateAndPerformSlice_sound|]; exact H.
  - unfold processHandData. destruct (gameOver s); [exact H|].
    destruct results as [|[raw|]]; try exact H.
    apply setPrevious_sound. unfold frameToFrameCheck.
    destruct (previousFingerTipNDC s) as [previous|]; [|exact H].
    destruct (Rgtb _ _); [|exact H].
    destruct (getUVCoordsFromNDC raycast s previous) as [[uv id]|]; [|exact H].
    apply calculateAndPerformSliceHand_sound, H.
  - apply animate_sound, H.
Qed.

Lemma reachable_sound raycast aspect s :
  reachable raycast aspect s -> referencesSound s.
Proof.
  induction 1 as [|s e Hr IH He].
  - unfold referencesSound; cbn. repeat split; try constructor; intros i [].
  - apply handle_sound, IH.
Qed.

Lemma zombiesToTest_active s id :
  In id (map fst (zombiesToTest s)) -> In id (activeZombies s).
Proof.
  unfold zombiesToTest. induction (activeZombies s) as [|a l IH]; cbn; [tauto|].
  rewrite map_app, in_app_iff. intros [H|H]; [|right; apply IH, H].
  destruct (nth_error (heap s) a) as [z|]; [|destruct H].
  destruct (zisSliced z); [destruct H|]. destruct H as [H|[]]. left. exact H.
Qed.

(** The part of C9 that holds: in every state the program can reach, a
    hit test of either input path answers with an active zombie, never
    with the target of an executed slice, and with a point of the texture
    square. *)
Lemma hit_test_never_returns_sliced raycast aspect s ndc uv id :
  raycastSound raycast -> reachable raycast aspect s ->
  getUVCoordsFromNDC raycast s ndc = Some (uv, id)
  \/ getUVCoords raycast s ndc = Some (uv, id) ->
  In id (activeZombies s) /\ ~ In id (sliceLog s) /\ inUnitSquare uv.
Proof.
  intros Hs Hr Hh.
  assert (H : getUVCoordsFromNDC raycast s ndc = Some (uv, id))
    by (destruct Hh; assumption).
  clear Hh. unfold getUVCoordsFromNDC in H.
  destruct (activeZombies s) eqn:Ea; [discriminate|]. rewrite <- Ea in *.
  destruct (Hs _ _ _ _ H) as [Hin Huv].
  apply zombiesToTest_active in Hin.
  destruct (reachable_sound raycast aspect s Hr) as [_ [_ [_ Hd]]].
  split; [exact Hin|]. split; [|exact Huv].
  intros Hl. apply (Hd id Hl Hin).
Qed.

(** ** The size of the pool in the states the program reaches *)

Lemma stepParticle_length deltaTime rnd p done k :
  List.length (fst (stepParticle deltaTime rnd (done, k) p))
  = S (List.length done).
Proof.
  unfold stepParticle.
  repeat match goal with
         | |- context [if ?b then _ else _] => destruct b
         end;
    cbn [fst]; rewrite length_app; cbn; lia.
Qed.

Lemma animateParticles_loop_length deltaTime rnd l done k :
  List.length (fst (fold_left (stepParticle deltaTime rnd) l (done, k)))
  = (List.length done + List.length l)%nat.
Proof.
  revert done k. induction l as [|p l IH]; intros done k; cbn [fold_left].
  - cbn. lia.
  - pose proof (stepParticle_length deltaTime rnd p done k) as H.
    destruct (stepParticle deltaTime rnd (done, k) p) as [done1 k1].
    cbn [fst] in H. rewrite IH, H. cbn. lia.
Qed.

Lemma animateParticles_length deltaTime rnd pool :
  List.length (animateParticles deltaTime rnd pool) = List.length pool.
Proof. unfold animateParticles. apply animateParticles_loop_length. Qed.

Lemma executeSlice_shape s now rnd id z a b :
  poolShape (executeSlice s now rnd id z a b) = poolShape s.
Proof.
  unfold poolShape. cbn [loadedBloodCount assetsBloodCount bloodParticlePool executeSlice].
  destruct (bloodTexturesLoaded s); [|reflexivity].
  destruct (emitBlood_counts rnd (bloodTextures s) (spawnPosition z a b)
              (x3 (zscale z)) (sliceVectorUV a b) (normalVectorWorld a b)
              (bloodParticlePool s) 2) as [E _].
  rewrite E. reflexivity.
Qed.

Lemma executeSlice_pool_length s now rnd id z a b :
  List.length (bloodParticlePool (executeSlice s now rnd id z a b))
  = List.length (bloodParticlePool s).
Proof.
  pose proof (executeSlice_shape s now rnd id z a b) as H.
  unfold poolShape in H. apply (f_equal snd) in H. exact H.
Qed.

Lemma performSlice_shape s now rnd target a b :
  poolShape (performSlice s now rnd target a b) = poolShape s.
Proof.
  unfold performSlice. destruct target as [id|]; [|reflexivity].
  destruct (nth_error (heap s) id) as [z|]; [|reflexivity].
  destruct (zisSliced z); [reflexivity|].
  destruct (Rltb _ _); [reflexivity|]. apply executeSlice_shape.
Qed.

Lemma calculateAndPerformSlice_shape s now rnd target :
  poolShape (calculateAndPerformSlice s now rnd target) = poolShape s.
Proof.
  unfold calculateAndPerformSlice. destruct target; [|reflexivity].
  destruct (resolveSliceUV s) as [[a b]|]; [|reflexivity].
  apply performSlice_shape.
Qed.

Lemma calculateAndPerformSliceHand_shape s now rnd target uv p q e :
  poolShape (calculateAndPerformSliceHand s now rnd target uv p q e) = poolShape s.
Proof.
  unfold calculateAndPerformSliceHand. destruct target as [id|]; [|reflexivity].
  destruct (nth_error (heap s) id) as [z|]; [|reflexivity].
  destruct (zisSliced z); [reflexivity|].
  destruct (resolveSliceUVHand _ _ _ _ _) as [[a b]|]; [|reflexivity].
  apply performSlice_shape.
Qed.

Lemma spawnZombie_shape s rnd : poolShape (spawnZombie s rnd) = poolShape s.
Proof.
  unfold spawnZombie. destruct (gameOver s); [reflexivity|].
  destruct (allZombieFramesLoaded s); [|reflexivity].
  destruct (zombieGeometry s) as [[w h]|]; reflexivity.
Qed.

Lemma animateZombies_shape deltaTime i s :
  poolShape (animateZombies deltaTime i s) = poolShape s
  /\ bloodTexturesLoaded (animateZombies deltaTime i s) = bloodTexturesLoaded s.
Proof.
  revert s. induction i as [|j IH]; intros s; cbn [animateZombies]; [auto|].
  destruct (nth_error (activeZombies s) j) as [id|]; [|apply IH].
  destruct (nth_error (heap s) id) as [z|]; [|apply IH].
  destruct (Rgeb _ _).
  - destruct (loseLife _ _) as [l g].
    destruct (IH (setWorld s (list_set id (moveZombie deltaTime z) (heap s))
                           (splice1 j (activeZombies s))
                           (removeRef id (sceneZombies s)) l g)) as [A B].
    rewrite A, B. auto.
  - destruct (IH (setWorld s (list_set id (animateFrame deltaTime
                                             (moveZombie deltaTime z)) (heap s))
                           (activeZombies s) (sceneZombies s) (lives s)
                           (gameOver s))) as [A B].
    rewrite A, B. auto.
Qed.

Lemma animate_shape s deltaTime rnd : poolShape (animate s deltaTime rnd) = poolShape s.
Proof.
  destruct (animateZombies_shape deltaTime (List.length (activeZombies s)) s)
    as [A B].
  unfold poolShape in *. unfold animate.
  cbn [loadedBloodCount assetsBloodCount bloodParticlePool].
  injection A as A1 A2 A3. rewrite A1, A2.
  destruct (bloodTexturesLoaded _); [rewrite animateParticles_length|];
    rewrite A3; reflexivity.
Qed.

Lemma handle_shape raycast s e :
  (forall l, e <> BloodTextureLoaded l) ->
  poolShape (handle raycast s e) = poolShape s.
Proof.
  intros Hne. destruct e; cbn [handle].
  - exfalso. apply (Hne l). reflexivity.
  - unfold zombieFrameLoaded. destruct (Nat.eqb _ ZOMBIE_FRAME_COUNT).
    + destruct l; [rewrite spawnZombie_shape|]; reflexivity.
    + reflexivity.
  - apply spawnZombie_shape.
  - reflexivity.
  - unfold mousedown. destruct (zombieGeometry s); [|reflexivity].
    destruct (getUVCoords raycast s ndc) as [[uv object]|]; reflexivity.
  - unfold mousemove. destruct (isSlicing (mouse s)); reflexivity.
  - unfold mouseup. destruct (isSlicing (mouse s)); [|reflexivity].
    destruct (zombieToSlice (mouse s)) as [target|]; [|reflexivity].
    unfold resetMouse.
    match goal with
    | |- poolShape (setMouse ?x _) = _ => change (poolShape x = poolShape s)
    end.
    destruct (Rgtb _ _); [|reflexivity].
    rewrite calculateAndPerformSlice_shape. reflexivity.
  - unfold processHandData. destruct (gameOver s); [reflexivity|].
    destruct results as [|[raw|]]; try reflexivity.
    match goal with
    | |- poolShape (setPreviousFingerTipNDC ?x _) = _ =>
      change (poolShape x = poolShape s)
    end.
    unfold frameToFrameCheck.
    destruct (previousFingerTipNDC s) as [previous|]; [|reflexivity].
    destruct (Rgtb _ _); [|reflexivity].
    destruct (getUVCoordsFromNDC raycast s previous) as [[uv id]|]; [|reflexivity].
    apply calculateAndPerformSliceHand_shape.
  - apply animate_shape.
Qed.

Lemma shape_poolSized s s' : poolShape s' = poolShape s -> poolSized s -> poolSized s'.
Proof.
  unfold poolShape, poolSized. intros E H. injection E as E1 E2 E3.
  rewrite E1, E2, E3. exact H.
Qed.

Lemma bloodTextureLoaded_poolSized raycast s l :
  enabled s (BloodTextureLoaded l) -> poolSized s ->
  poolSized (handle raycast s (BloodTextureLoaded l)).
Proof.
  intros He [It [Ia Il]]. unfold poolSized.
  unfold BLOOD_TEXTURE_FILES, MAX_BLOOD_PARTICLES in *.
  destruct l; cbn [handle enabled] in *; unfold bloodTextureLoaded;
    unfold BLOOD_TEXTURE_FILES, MAX_BLOOD_PARTICLES in *.
  - destruct (Nat.eqb (S (loadedBloodCount s)) 7) eqn:E;
      cbn [loadedBloodCount assetsBloodCount bloodParticlePool setBlood];
      rewrite E; rewrite ?length_app, ?repeat_length, Il;
      destruct (Nat.eqb (loadedBloodCount s) 7) eqn:E0;
      try (apply Nat.eqb_eq in E0); lia.
  - destruct (Nat.eqb (S (assetsBloodCount s)) 7) eqn:E;
      cbn [loadedBloodCount assetsBloodCount bloodParticlePool setBlood];
      rewrite E; rewrite ?length_app, ?repeat_length, Il;
      destruct (Nat.eqb (assetsBloodCount s) 7) eqn:E0;
      try (apply Nat.eqb_eq in E0); lia.
Qed.

Lemma reachable_poolSized raycast aspect s :
  reachable raycast aspect s -> poolSized s.
Proof.
  induction 1 as [|s e Hr IH He].
  - unfold poolSized, BLOOD_TEXTURE_FILES; cbn. lia.
  - destruct e as [l| | | | | | | |];
      [ apply bloodTextureLoaded_poolSized; assumption | .. ];
      (apply (shape_poolSized s); [|exact IH]);
      apply handle_shape; intros l0; discriminate.
Qed.

(** The part of C7 that holds.  In every state the program can reach, the
    live particles are at most as many as the pool has entries, which is
    [MAX_BLOOD_PARTICLES] for each loader that has finished: at most 50
    while one of the two loaders has not had its seventh callback, at most
    100 otherwise. *)
Lemma live_particles_bound raycast aspect s :
  reachable raycast aspect s ->
  (liveCount (bloodParticlePool s) <= List.length (bloodParticlePool s))%nat
  /\ (List.length (bloodParticlePool s) <= 2 * MAX_BLOOD_PARTICLES)%nat
  /\ ((loadedBloodCount s < BLOOD_TEXTURE_FILES
       \/ assetsBloodCount s < BLOOD_TEXTURE_FILES)%nat ->
      (liveCount (bloodParticlePool s) <= MAX_BLOOD_PARTICLES)%nat).
Proof.
  intros Hr. destruct (reachable_poolSized raycast aspect s Hr) as [Ht [Ha Hl]].
  pose proof (liveCount_le_length (bloodParticlePool s)) as Hv.
  unfold BLOOD_TEXTURE_FILES, MAX_BLOOD_PARTICLES in *.
  split; [exact Hv|].
  destruct (Nat.eqb (loadedBloodCount s) 7) eqn:E1;
    destruct (Nat.eqb (assetsBloodCount s) 7) eqn:E2;
    try (apply Nat.eqb_eq in E1); try (apply Nat.eqb_eq in E2);
    split; try lia.
Qed.

(** ** The zombies in the states the program reaches *)

Lemma Rmax_floor_pos (x : R) : 0 < Rmax 0.1 x.
Proof. unfold Rmax. destruct (Rle_dec 0.1 x); lra. Qed.

Lemma moveZombie_sound deltaTime z : zombieSound z -> zombieSound (moveZombie deltaTime z).
Proof.
  intros [Hs [Hb Hx]]. unfold zombieSound, moveZombie; cbn.
  repeat split; try assumption.
  apply Rmult_lt_0_compat; [exact Hb | apply Rmax_floor_pos].
Qed.

Lemma animateFrame_sound deltaTime z :
  zombieSound z -> zombieSound (animateFrame deltaTime z).
Proof.
  intros H. unfold animateFrame. destruct (Rgeb _ _); exact H.
Qed.

Lemma updateMatrixWorld_sound z : zombieSound z -> zombieSound (updateMatrixWorld z).
Proof. intros H. exact H. Qed.

Lemma list_set_Forall {A} (P : A -> Prop) (i : nat) (v : A) (l : list A) :
  P v -> Forall P l -> Forall P (list_set i v l).
Proof.
  intros Hv. revert i. induction l as [|a l IH]; intros [|i] H; cbn; auto.
  - inversion H; subst. constructor; assumption.
  - inversion H; subst. constructor; [assumption|apply IH; assumption].
Qed.

Lemma render_Forall scene h : Forall zombieSound h -> Forall zombieSound (render scene h).
Proof.
  intros H. unfold render. apply Forall_forall. intros z Hin.
  apply in_map_iff in Hin. destruct Hin as [[i z0] [E Hin]]. cbn [fst snd] in E.
  apply in_combine_r in Hin. rewrite Forall_forall in H. specialize (H z0 Hin).
  destruct (existsb _ _); subst; [apply updateMatrixWorld_sound|]; exact H.
Qed.

Lemma spawnZombie_heapSound s rnd :
  validDraws rnd -> heapSound s -> heapSound (spawnZombie s rnd).
Proof.
  intros Hr H. unfold spawnZombie. destruct (gameOver s); [exact H|].
  destruct (allZombieFramesLoaded s); [|exact H].
  destruct (zombieGeometry s) as [[w h]|]; [|exact H].
  unfold heapSound. cbn [heap setWorld]. apply Forall_app. split; [exact H|].
  constructor; [|constructor].
  pose proof (Hr 0%nat) as H0.
  assert (Hb : 0 < 0.8 + rnd 0%nat * 0.7) by lra.
  unfold zombieSound; cbn. repeat split; try assumption.
  apply Rmult_lt_0_compat; [exact Hb | apply Rmax_floor_pos].
Qed.

Lemma animateZombies_heapSound deltaTime i s :
  heapSound s -> heapSound (animateZombies deltaTime i s).
Proof.
  revert s. induction i as [|j IH]; intros s H; cbn [animateZombies]; [exact H|].
  destruct (nth_error (activeZombies s) j) as [id|]; [|apply IH, H].
  destruct (nth_error (heap s) id) as [z|] eqn:Hz; [|apply IH, H].
  assert (Hzs : zombieSound z).
  { unfold heapSound in H. rewrite Forall_forall in H.
    apply H. eapply nth_error_In, Hz. }
  destruct (Rgeb _ _).
  - destruct (loseLife _ _) as [l g]. apply IH. unfold heapSound.
    cbn [heap setWorld]. apply list_set_Forall; [|exact H].
    apply moveZombie_sound, Hzs.
  - apply IH. unfold heapSound. cbn [heap setWorld].
    apply list_set_Forall; [|exact H].
    apply animateFrame_sound, moveZombie_sound, Hzs.
Qed.

Lemma executeSlice_heap s now rnd id z a b :
  heap (executeSlice s now rnd id z a b) = heap s.
Proof. reflexivity. Qed.

Lemma performSlice_heap s now rnd target a b :
  heap (performSlice s now rnd target a b) = heap s.
Proof.
  unfold performSlice. destruct target as [id|]; [|reflexivity].
  destruct (nth_error (heap s) id) as [z|]; [|reflexivity].
  destruct (zisSliced z); [reflexivity|].
  destruct (Rltb _ _); reflexivity.
Qed.

Lemma calculateAndPerformSlice_heap s now rnd target :
  heap (calculateAndPerformSlice s now rnd target) = heap s.
Proof.
  unfold calculateAndPerformSlice. destruct target; [|reflexivity].
  destruct (resolveSliceUV s) as [[a b]|]; [|reflexivity].
  apply performSlice_heap.
Qed.

Lemma calculateAndPerformSliceHand_heap s now rnd target uv p q e :
  heap (calculateAndPerformSliceHand s now rnd target uv p q e) = heap s.
Proof.
  unfold calculateAndPerformSliceHand. destruct target as [id|]; [|reflexivity].
  destruct (nth_error (heap s) id) as [z|]; [|reflexivity].
  destruct (zisSliced z); [reflexivity|].
  destruct (resolveSliceUVHand _ _ _ _ _) as [[a b]|]; [|reflexivity].
  apply performSlice_heap.
Qed.

Lemma handle_heapSound raycast s e :
  enabled s e -> heapSound s -> heapSound (handle raycast s e).
Proof.
  intros He H. destruct e; cbn [handle].
  - unfold bloodTextureLoaded. destruct (Nat.eqb _ _); exact H.
  - unfold zombieFrameLoaded. destruct (Nat.eqb _ ZOMBIE_FRAME_COUNT).
    + destruct l; [|exact H]. apply spawnZombie_heapSound; [apply He|exact H].
    + exact H.
  - apply spawnZombie_heapSound; assumption.
  - exact H.
  - unfold mousedown. destruct (zombieGeometry s); [|exact H].
    destruct (getUVCoords raycast s ndc) as [[uv object]|]; exact H.
  - unfold mousemove. destruct (isSlicing (mouse s)); exact H.
  - unfold mouseup. destruct (isSlicing (mouse s)); [|exact H].
    destruct (zombieToSlice (mouse s)) as [target|]; [|exact H].
    unfold heapSound, resetMouse. cbn [heap setMouse].
    destruct (Rgtb _ _); [rewrite calculateAndPerformSlice_heap|]; exact H.
  - unfold processHandData. destruct (gameOver s); [exact H|].
    destruct results as [|[raw|]]; try exact H.
    unfold heapSound. cbn [heap setPreviousFingerTipNDC]. unfold frameToFrameCheck.
    destruct (previousFingerTipNDC s) as [previous|]; [|exact H].
    destruct (Rgtb _ _); [|exact H].
    destruct (getUVCoordsFromNDC raycast s previous) as [[uv id]|]; [|exact H].
    rewrite calculateAndPerformSliceHand_heap. exact H.
  - unfold heapSound, animate. cbn [heap]. apply render_Forall.
    apply animateZombies_heapSound, H.
Qed.

(** In every state the program can reach no zombie mesh has its
    [isSliced] flag set, so the guards and filters that read the flag never
    fire, and every zombie has a positive scale. *)
Lemma reachable_heapSound raycast aspect s :
  reachable raycast aspect s -> heapSound s.
Proof.
  induction 1 as [|s e Hr IH He].
  - constructor.
  - apply handle_heapSound; assumption.
Qed.

Lemma reachable_target_sound raycast aspect s id z :
  reachable raycast aspect s -> nth_error (heap s) id = Some z ->
  zisSliced z = false /\ 0 < x3 (zscale z).
Proof.
  intros Hr Hz. pose proof (reachable_heapSound raycast aspect s Hr) as H.
  unfold heapSound in H. rewrite Forall_forall in H.
  destruct (H z (nth_error_In _ _ Hz)) as [A [_ B]]. split; assumption.
Qed.

(** ** Frames in which nothing is despawned *)

Lemma nth_error_list_set_same {A} (i : nat) (v : A) (l : list A) :
  (i < List.length l)%nat -> nth_error (list_set i v l) i = Some v.
Proof.
  revert i. induction l as [|a l IH]; intros [|i] H; cbn in *; try lia.
  - reflexivity.
  - apply IH. lia.
Qed.

Lemma nth_error_list_set_other {A} (i j : nat) (v : A) (l : list A) :
  i <> j -> nth_error (list_set i v l) j = nth_error l j.
Proof.
  revert i j. induction l as [|a l IH]; intros [|i] [|j] H; cbn; auto;
    congruence.
Qed.

Lemma moveZombie_far deltaTime B z :
  zombieFar B z ->
  z3 (zposition (moveZombie deltaTime z)) = z3 (zposition z) + ZOMBIE_WALK_SPEED * deltaTime
  /\ zvelocity (moveZombie deltaTime z) = V3 0 0 ZOMBIE_WALK_SPEED.
Proof.
  intros [Hz Hv]. unfold moveZombie; cbn. rewrite Hv. cbn. auto.
Qed.

Lemma animateFrame_far deltaTime z :
  zposition (animateFrame deltaTime z) = zposition z
  /\ zvelocity (animateFrame deltaTime z) = zvelocity z.
Proof. unfold animateFrame. destruct (Rgeb _ _); auto. Qed.

(** The loop over the zombies when none of them reaches the player: only
    the heap changes. *)
Lemma animateZombies_quiet deltaTime B i s :
  0 <= deltaTime -> B + ZOMBIE_WALK_SPEED * deltaTime < ZOMBIE_END_Z ->
  NoDup (activeZombies s) ->
  (forall k id, (k < i)%nat -> nth_error (activeZombies s) k = Some id ->
                exists z, nth_error (heap s) id = Some z /\ zombieFar B z) ->
  (forall k id, (i <= k)%nat -> nth_error (activeZombies s) k = Some id ->
                exists z, nth_error (heap s) id = Some z
                          /\ zombieFar (B + ZOMBIE_WALK_SPEED * deltaTime) z) ->
  exists h,
    animateZombies deltaTime i s
    = setWorld s h (activeZombies s) (sceneZombies s) (lives s) (gameOver s)
    /\ List.length h = List.length (heap s)
    /\ (forall id, In id (activeZombies s) ->
                   exists z, nth_error h id = Some z
                             /\ zombieFar (B + ZOMBIE_WALK_SPEED * deltaTime) z).
Proof.
  intros Hdt HB. revert s. induction i as [|j IH]; intros s Hn Hlo Hhi.
  - exists (heap s). cbn [animateZombies]. split; [destruct s; reflexivity|].
    split; [reflexivity|]. intros id Hin. apply In_nth_error in Hin.
    destruct Hin as [k Hk]. apply (Hhi k id); [lia|exact Hk].
  - cbn [animateZombies].
    destruct (nth_error (activeZombies s) j) as [id|] eqn:Ej.
    2:{ apply IH; try assumption.
        - intros k id Hk Hid. apply (Hlo k id); [lia|exact Hid].
        - intros k id Hk Hid. apply (Hhi k id); [|exact Hid].
          destruct (Nat.eq_dec k j) as [->|]; [congruence|lia]. }
    destruct (Hlo j id ltac:(lia) Ej) as [z [Hz Hfar]]. rewrite Hz.
    destruct (moveZombie_far deltaTime B z Hfar) as [Mz Mv].
    destruct Hfar as [Hzb Hzv].
    assert (Hid : (id < List.length (heap s))%nat).
    { apply nth_error_Some. rewrite Hz. discriminate. }
    rewrite (proj2 (Rgeb_false _ _)) by (rewrite Mz; lra).
    set (z' := animateFrame deltaTime (moveZombie deltaTime z)).
    assert (Hfar' : zombieFar (B + ZOMBIE_WALK_SPEED * deltaTime) z').
    { destruct (animateFrame_far deltaTime (moveZombie deltaTime z)) as [Ap Av].
      unfold zombieFar, z'. rewrite Ap, Av, Mz, Mv. split; [lra|reflexivity]. }
    destruct (IH (setWorld s (list_set id z' (heap s)) (activeZombies s)
                           (sceneZombies s) (lives s) (gameOver s)))
      as [h [E [Hl Hall]]].
    + exact Hn.
    + intros k id' Hk Hk'. cbn [activeZombies heap setWorld] in *.
      assert (Hne : id <> id').
      { intros ->. rewrite <- Ej in Hk'.
        apply (proj1 (NoDup_nth_error (activeZombies s)) Hn) in Hk'; [lia|].
        apply nth_error_Some. rewrite Hk', Ej. discriminate. }
      rewrite nth_error_list_set_other by exact Hne.
      apply (Hlo k id'); [lia|exact Hk'].
    + intros k id' Hk Hk'. cbn [activeZombies heap setWorld] in *.
      destruct (Nat.eq_dec id id') as [->|Hne].
      * exists z'. rewrite nth_error_list_set_same by exact Hid. auto.
      * rewrite nth_error_list_set_other by exact Hne.
        apply (Hhi k id'); [|exact Hk'].
        destruct (Nat.eq_dec k j) as [->|]; [congruence|lia].
    + exists h. cbn [activeZombies heap setWorld sceneZombies lives gameOver] in *.
      rewrite list_set_length in Hl. split; [|split; assumption].
      rewrite E. reflexivity.
Qed.

Lemma combine_seq_nth {A} (h : list A) (a i : nat) (z : A) :
  nth_error h i = Some z ->
  nth_error (combine (seq a (List.length h)) h) i = Some ((a + i)%nat, z).
Proof.
  revert a i. induction h as [|x h IH]; intros a [|i] H; cbn in *; try discriminate.
  - inversion H. rewrite Nat.add_0_r. reflexivity.
  - rewrite (IH (S a) i H). f_equal. f_equal. lia.
Qed.

Lemma render_nth scene h id z :
  nth_error h id = Some z ->
  exists z', nth_error (render scene h) id = Some z'
             /\ zposition z' = zposition z /\ zvelocity z' = zvelocity z.
Proof.
  intros H. unfold render. rewrite nth_error_map.
  rewrite (combine_seq_nth h 0 id z H). cbn [option_map fst snd].
  destruct (existsb _ _); eexists; split; try reflexivity; auto.
Qed.

(** The pieces. *)
Lemma stepPiece_keeps deltaTime T p :
  0 <= deltaTime -> 0 <= T -> pdespawnTimer p <= T -> T + deltaTime < DESPAWN_TIME ->
  exists p', stepPiece deltaTime p = Some p' /\ pdespawnTimer p' <= T + deltaTime.
Proof.
  intros Hdt HT Hp Hlim. unfold stepPiece.
  destruct (pisOnFloor p); cbn [negb].
  - rewrite (proj2 (Rgeb_false _ _)) by lra.
    eexists. split; [reflexivity|]. cbn. lra.
  - destruct (Rleb _ _); eexists; (split; [reflexivity|]); cbn; lra.
Qed.

Lemma stepAllPieces_keeps deltaTime T pieces :
  0 <= deltaTime -> 0 <= T -> T + deltaTime < DESPAWN_TIME ->
  Forall (fun p => pdespawnTimer p <= T) pieces ->
  List.length (stepAllPieces deltaTime pieces) = List.length pieces
  /\ Forall (fun p => pdespawnTimer p <= T + deltaTime)
            (stepAllPieces deltaTime pieces).
Proof.
  intros Hdt HT Hlim H. induction H as [|p l Hp Hl [IHl IHf]]; cbn.
  - split; [reflexivity|constructor].
  - destruct (stepPiece_keeps deltaTime T p Hdt HT Hp Hlim) as [p' [E B]].
    rewrite E. cbn. split; [f_equal; exact IHl|]. constructor; assumption.
Qed.

(** Turns one comparison of the goal into a hypothesis, in both cases. *)
Ltac split_cmp1 :=
  match goal with
  | |- context [Rltb ?a ?b] =>
    let E := fresh "E" in
    destruct (Rltb a b) eqn:E; [apply Rltb_true in E | apply Rltb_false in E]
  | |- context [Rleb ?a ?b] =>
    let E := fresh "E" in
    destruct (Rleb a b) eqn:E; [apply Rleb_true in E | apply Rleb_false in E]
  | |- context [Rgtb ?a ?b] =>
    let E := fresh "E" in
    destruct (Rgtb a b) eqn:E; [apply Rgtb_true in E | apply Rgtb_false in E]
  | |- context [Rgeb ?a ?b] =>
    let E := fresh "E" in
    destruct (Rgeb a b) eqn:E; [apply Rgeb_true in E | apply Rgeb_false in E]
  end.

Ltac particle_fields :=
  cbn [fst snd andb negb visible sposition sscale mapIndex opacity
       materialRotation lifetime velocity rotationSpeed isOnFloor despawnTimer
       isWallBlood stuckToWall x3 y3 z3] in *.

(** The particles. *)
Lemma stepParticle_keeps deltaTime rnd done k p L T :
  0 <= deltaTime -> deltaTime < L -> 0 <= T -> T + deltaTime <= 4.5 ->
  lasting L T p ->
  exists p',
    fst (stepParticle deltaTime rnd (done, k) p) = done ++ [p']
    /\ visible p' = visible p
    /\ lasting (L - deltaTime) (T + deltaTime) p'.
Proof.
  intros Hdt HL HT Hlim Hp. unfold stepParticle, lasting in *.
  destruct (visible p) eqn:Hv; cbn [negb].
  2:{ exists p. cbn [fst]. rewrite Hv. repeat split; discriminate. }
  destruct (Hp eq_refl) as [Hlife [Ht0 Ht]]. clear Hp.
  unfold DESPAWN_TIME, ZOMBIE_START_Z, FLOOR_Y.
  destruct (isWallBlood p); [destruct (stuckToWall p) eqn:Hs|destruct (isOnFloor p)];
    cbn [negb];
    repeat (split_cmp1; particle_fields; rewrite ?Hs in *; particle_fields);
    try lra;
    eexists; (split; [reflexivity|]); particle_fields;
    (split; [reflexivity|]); intros _; lra.
Qed.

Lemma animateParticles_loop_keeps deltaTime rnd L T l done k :
  0 <= deltaTime -> deltaTime < L -> 0 <= T -> T + deltaTime <= 4.5 ->
  Forall (lasting L T) l ->
  exists l',
    fst (fold_left (stepParticle deltaTime rnd) l (done, k)) = done ++ l'
    /\ liveCount l' = liveCount l
    /\ Forall (lasting (L - deltaTime) (T + deltaTime)) l'.
Proof.
  intros Hdt HL HT Hlim H. revert done k.
  induction H as [|p l Hp Hl IH]; intros done k; cbn [fold_left].
  - exists []. cbn. rewrite app_nil_r. repeat split. constructor.
  - destruct (stepParticle_keeps deltaTime rnd done k p L T Hdt HL HT Hlim Hp)
      as [p' [E [V G]]].
    destruct (stepParticle deltaTime rnd (done, k) p) as [done1 k1].
    cbn [fst] in E. subst done1.
    destruct (IH (done ++ [p']) k1) as [l' [E' [C F]]].
    exists (p' :: l'). rewrite E', <- app_assoc. split; [reflexivity|].
    split; [|constructor; assumption].
    unfold liveCount in *. cbn [filter]. rewrite V.
    destruct (visible p); cbn; rewrite C; reflexivity.
Qed.

Lemma animateParticles_keeps deltaTime rnd L T pool :
  0 <= deltaTime -> deltaTime < L -> 0 <= T -> T + deltaTime <= 4.5 ->
  Forall (lasting L T) pool ->
  liveCount (animateParticles deltaTime rnd pool) = liveCount pool
  /\ Forall (lasting (L - deltaTime) (T + deltaTime))
            (animateParticles deltaTime rnd pool).
Proof.
  intros Hdt HL HT Hlim H. unfold animateParticles.
  destruct (animateParticles_loop_keeps deltaTime rnd L T pool [] 0%nat
              Hdt HL HT Hlim H) as [l' [E [C F]]].
  rewrite E. cbn [app]. split; assumption.
Qed.

Lemma lasting_weaken L T L' T' p :
  L' <= L -> T <= T' -> lasting L T p -> lasting L' T' p.
Proof. unfold lasting. intros HL HT H Hv. specialize (H Hv). lra. Qed.

Lemma calm_weaken B T L B' T' L' s :
  B <= B' -> T <= T' -> L' <= L -> calm B T L s -> calm B' T' L' s.
Proof.
  intros HB HT HL [Hz [Hp Hb]]. repeat split.
  - intros id Hin. destruct (Hz id Hin) as [z [E [F V]]].
    exists z. repeat split; try assumption. lra.
  - eapply Forall_impl; [|exact Hp]. cbn. intros p H. lra.
  - eapply Forall_impl; [|exact Hb]. intros p. apply lasting_weaken; assumption.
Qed.

(** A frame in which no zombie reaches the player, no piece and no
    particle is despawned. *)
Lemma animate_quiet s deltaTime rnd B T L :
  NoDup (activeZombies s) ->
  0 <= deltaTime -> 0 <= T ->
  B + ZOMBIE_WALK_SPEED * deltaTime < ZOMBIE_END_Z ->
  T + deltaTime <= 4.5 -> deltaTime < L ->
  calm B T L s ->
  let s' := animate s deltaTime rnd in
  calm (B + ZOMBIE_WALK_SPEED * deltaTime) (T + deltaTime) (L - deltaTime) s'
  /\ activeZombies s' = activeZombies s
  /\ List.length (heap s') = List.length (heap s)
  /\ List.length (slicedPieces s') = List.length (slicedPieces s)
  /\ List.length (bloodParticlePool s') = List.length (bloodParticlePool s)
  /\ liveCount (bloodParticlePool s') = liveCount (bloodParticlePool s)
  /\ controls s' = controls s.
Proof.
  intros Hn Hdt HT HB Hlim HL [Hz [Hp Hb]].
  destruct (animateZombies_quiet deltaTime B (List.length (activeZombies s)) s
              Hdt HB Hn) as [h [E [Hl Hall]]].
  { intros k id _ Hk. apply Hz. eapply nth_error_In, Hk. }
  { intros k id Hk Hid. exfalso.
    assert (nth_error (activeZombies s) k = None) by (apply nth_error_None; lia).
    congruence. }
  cbv zeta. unfold animate. rewrite E.
  cbn [activeZombies heap slicedPieces bloodParticlePool bloodTexturesLoaded
       sceneZombies setWorld].
  rewrite animatePieces_all.
  destruct (stepAllPieces_keeps deltaTime T (slicedPieces s) Hdt HT
              ltac:(unfold DESPAWN_TIME; lra) Hp) as [Pl Pf].
  assert (Pool :
            List.length (if bloodTexturesLoaded s
                         then animateParticles deltaTime rnd (bloodParticlePool s)
                         else bloodParticlePool s)
            = List.length (bloodParticlePool s)
            /\ liveCount (if bloodTexturesLoaded s
                          then animateParticles deltaTime rnd (bloodParticlePool s)
                          else bloodParticlePool s)
               = liveCount (bloodParticlePool s)
            /\ Forall (lasting (L - deltaTime) (T + deltaTime))
                      (if bloodTexturesLoaded s
                       then animateParticles deltaTime rnd (bloodParticlePool s)
                       else bloodParticlePool s)).
  { destruct (bloodTexturesLoaded s).
    - destruct (animateParticles_keeps deltaTime rnd L T (bloodParticlePool s)
                  Hdt HL HT Hlim Hb) as [A B0].
      rewrite animateParticles_length. repeat split; assumption.
    - repeat split. eapply Forall_impl; [|exact Hb].
      intros p. apply lasting_weaken; lra. }
  destruct Pool as [Ql [Qv Qf]].
  unfold calm, controls.
  cbn [activeZombies heap slicedPieces bloodParticlePool zombieGeometry
       lastZombieKillTime bloodTexturesLoaded score sliceLog mouse
       previousFingerTipNDC gameOver cameraAspect setWorld].
  rewrite render_length.
  repeat split; try assumption.
  intros id Hin. destruct (Hall id Hin) as [z [Ez [Fz Vz]]].
  destruct (render_nth (sceneZombies s) h id z Ez) as [z' [Ez' [Pz' Vz']]].
  exists z'. split; [exact Ez'|]. unfold zombieFar. rewrite Pz', Vz'. auto.
Qed.

Lemma executeSlice_calm s now rnd id z a b B T L :
  validDraws rnd -> 0 <= T -> L <= 1 ->
  calm B T L s -> calm B T L (executeSlice s now rnd id z a b).
Proof.
  intros Hr HT HL [Hz [Hp Hb]]. unfold calm.
  cbn [activeZombies heap slicedPieces bloodParticlePool executeSlice].
  repeat split.
  - intros i Hi. apply Hz. eapply removeRef_In, Hi.
  - apply Forall_app. split; [exact Hp|].
    constructor; [cbn; exact HT|]. constructor; [cbn; exact HT|constructor].
  - destruct (bloodTexturesLoaded s); [|exact Hb].
    unfold emitBlood.
    generalize (seq 0 numBloodParticles). generalize 2%nat.
    revert Hb. generalize (bloodParticlePool s).
    intros pool Hpool k l. revert pool k Hpool.
    induction l as [|i l IH]; intros pool k Hpool; cbn [fold_left fst];
      [exact Hpool|].
    unfold emitStep at 2. destruct (findFree pool) as [j|]; [|apply IH, Hpool].
    apply IH. apply list_set_Forall; [|exact Hpool].
    intros _. unfold emitParticle.
    pose proof (Hr (k + 8)%nat) as H8.
    destruct (Nat.ltb _ _); cbn; lra.
Qed.

Lemma setMouse_calm B T L s m : calm B T L s -> calm B T L (setMouse s m).
Proof. intros H. exact H. Qed.

Lemma setPrevious_calm B T L s p :
  calm B T L s -> calm B T L (setPreviousFingerTipNDC s p).
Proof. intros H. exact H. Qed.

(** A zombie that is active in a state the program reaches is in the heap
    and not marked. *)
Lemma reachable_active raycast aspect s id :
  reachable raycast aspect s -> In id (activeZombies s) ->
  exists z, nth_error (heap s) id = Some z /\ zisSliced z = false.
Proof.
  intros Hr Hin. destruct (reachable_sound raycast aspect s Hr) as [_ [Ha _]].
  specialize (Ha id Hin).
  destruct (nth_error (heap s) id) as [z|] eqn:E.
  - exists z. split; [reflexivity|].
    apply (reachable_target_sound raycast aspect s id z Hr E).
  - apply nth_error_None in E. lia.
Qed.

Lemma reachable_logged raycast aspect s id :
  reachable raycast aspect s -> In id (sliceLog s) ->
  exists z, nth_error (heap s) id = Some z /\ zisSliced z = false.
Proof.
  intros Hr Hin. destruct (reachable_sound raycast aspect s Hr) as [_ [_ [Hl _]]].
  specialize (Hl id Hin).
  destruct (nth_error (heap s) id) as [z|] eqn:E.
  - exists z. split; [reflexivity|].
    apply (reachable_target_sound raycast aspect s id z Hr E).
  - apply nth_error_None in E. lia.
Qed.

(** [n] frames of a fortieth of a second in which nothing is despawned. *)
Lemma ticks_quiet raycast aspect (n : nat) :
  forall s B T L,
    reachable raycast aspect s -> calm B T L s -> 0 <= T ->
    B + ZOMBIE_WALK_SPEED * (INR n * 0.025) < ZOMBIE_END_Z ->
    T + INR n * 0.025 <= 4.5 -> INR n * 0.025 < L ->
    let s' := run raycast s (ticks n) in
    reachable raycast aspect s'
    /\ calm (B + ZOMBIE_WALK_SPEED * (INR n * 0.025)) (T + INR n * 0.025)
            (L - INR n * 0.025) s'
    /\ activeZombies s' = activeZombies s
    /\ List.length (heap s') = List.length (heap s)
    /\ List.length (slicedPieces s') = List.length (slicedPieces s)
    /\ List.length (bloodParticlePool s') = List.length (bloodParticlePool s)
    /\ liveCount (bloodParticlePool s') = liveCount (bloodParticlePool s)
    /\ controls s' = controls s.
Proof.
  induction n as [|n IH]; intros s B T L Hr Hc HT HB Hlim HL.
  - cbn [ticks repeat run fold_left]. split; [exact Hr|].
    split; [|repeat split].
    eapply calm_weaken; [| | |exact Hc]; cbn; lra.
  - rewrite S_INR in *. unfold ZOMBIE_WALK_SPEED, ZOMBIE_END_Z in *.
    pose proof (pos_INR n) as Hn.
    change (run raycast s (ticks (S n)))
      with (run raycast (animate s 0.025 rnd0) (ticks n)).
    destruct (reachable_sound raycast aspect s Hr) as [Hnd _].
    destruct (animate_quiet s 0.025 rnd0 B T L Hnd) as [C1 [A1 [H1 [P1 [Q1 [V1 K1]]]]]];
      try assumption; unfold ZOMBIE_WALK_SPEED, ZOMBIE_END_Z; try lra.
    assert (Hr1 : reachable raycast aspect (animate s 0.025 rnd0)).
    { apply (reach_step raycast aspect s (AnimationFrame 0.025 rnd0) Hr).
      cbn. split; [lra|]. intros k. unfold rnd0. lra. }
    unfold ZOMBIE_WALK_SPEED in C1.
    destruct (IH (animate s 0.025 rnd0) (B + 2.2 * 0.025) (T + 0.025) (L - 0.025)
                 Hr1 C1) as [R2 [C2 [A2 [H2 [P2 [Q2 [V2 K2]]]]]]]; try lra.
    cbv zeta in *. split; [exact R2|]. split.
    + eapply calm_weaken; [| | |exact C2]; lra.
    + rewrite A2, H2, P2, Q2, V2, K2. repeat split; assumption.
Qed.

Lemma executeSlice_calm_unloaded s now rnd id z a b B T L :
  bloodTexturesLoaded s = false -> 0 <= T ->
  calm B T L s -> calm B T L (executeSlice s now rnd id z a b).
Proof.
  intros Hl HT [Hz [Hp Hb]]. unfold calm.
  cbn [activeZombies heap slicedPieces bloodParticlePool executeSlice].
  rewrite Hl. repeat split.
  - intros i Hi. apply Hz. eapply removeRef_In, Hi.
  - apply Forall_app. split; [exact Hp|].
    constructor; [cbn; exact HT|]. constructor; [cbn; exact HT|constructor].
  - exact Hb.
Qed.

(** The same, with the state after the frames named and the variables
    that the frames leave alone listed one by one. *)
Lemma ticks_step raycast aspect (n : nat) s B T L :
  reachable raycast aspect s -> calm B T L s -> 0 <= T ->
  B + ZOMBIE_WALK_SPEED * (INR n * 0.025) < ZOMBIE_END_Z ->
  T + INR n * 0.025 <= 4.5 -> INR n * 0.025 < L ->
  exists s',
    run raycast s (ticks n) = s'
    /\ reachable raycast aspect s'
    /\ calm (B + ZOMBIE_WALK_SPEED * (INR n * 0.025)) (T + INR n * 0.025)
            (L - INR n * 0.025) s'
    /\ activeZombies s' = activeZombies s
    /\ List.length (heap s') = List.length (heap s)
    /\ List.length (slicedPieces s') = List.length (slicedPieces s)
    /\ List.length (bloodParticlePool s') = List.length (bloodParticlePool s)
    /\ liveCount (bloodParticlePool s') = liveCount (bloodParticlePool s)
    /\ zombieGeometry s' = zombieGeometry s
    /\ lastZombieKillTime s' = lastZombieKillTime s
    /\ bloodTexturesLoaded s' = bloodTexturesLoaded s
    /\ score s' = score s
    /\ sliceLog s' = sliceLog s
    /\ mouse s' = mouse s
    /\ previousFingerTipNDC s' = previousFingerTipNDC s
    /\ gameOver s' = gameOver s
    /\ cameraAspect s' = cameraAspect s.
Proof.
  intros Hr Hc HT HB Hlim HL.
  destruct (ticks_quiet raycast aspect n s B T L Hr Hc HT HB Hlim HL)
    as [R [C [A [H [P [Q [V K]]]]]]].
  remember (run raycast s (ticks n)) as s' eqn:E. clear E.
  exists s'. split; [reflexivity|].
  unfold controls in K. injection K as K1 K2 K3 K4 K5 K6 K7 K8 K9.
  split; [exact R|]. split; [exact C|]. repeat split; assumption.
Qed.

(** ** Runs of the program *)

Lemma reachable_run raycast aspect s events :
  reachable raycast aspect s -> enabledAll raycast s events ->
  reachable raycast aspect (run raycast s events).
Proof.
  revert s. induction events as [|e rest IH]; intros s Hr He; cbn in *.
  - exact Hr.
  - destruct He as [He Hrest]. apply IH; [|exact Hrest].
    apply reach_step; assumption.
Qed.

Lemma run_app raycast s l1 l2 :
  run raycast s (l1 ++ l2) = run raycast (run raycast s l1) l2.
Proof. unfold run. apply fold_left_app. Qed.

Lemma rnd0_valid : validDraws rnd0.
Proof. intros k. unfold rnd0. lra. Qed.

Lemma raycastFirst_sound : raycastSound raycastFirst.
Proof.
  intros ndc meshes uv id. unfold raycastFirst.
  destruct meshes as [|[i z] rest]; [discriminate|].
  destruct (Rleb (Rabs (x2 ndc)) 0.5) eqn:Ex; [|discriminate].
  destruct (Rleb (Rabs (y2 ndc)) 0.5) eqn:Ey; [|discriminate].
  cbn [andb]. intros E. inversion E; subst. split; [now left|].
  apply Rleb_true in Ex, Ey. unfold inUnitSquare; cbn [x2 y2].
  pose proof (Rabs_def2 (x2 ndc) (0.5 + 1)) as Hx.
  pose proof (Rabs_def2 (y2 ndc) (0.5 + 1)) as Hy.
  assert (Ax : -0.5 <= x2 ndc <= 0.5).
  { unfold Rabs in Ex. destruct (Rcase_abs (x2 ndc)); lra. }
  assert (Ay : -0.5 <= y2 ndc <= 0.5).
  { unfold Rabs in Ey. destruct (Rcase_abs (y2 ndc)); lra. }
  lra.
Qed.

(** Keeps numbers, comparisons and vector operations as they are and
    computes everything else. *)
Ltac crunch :=
  lazy -[Rplus Rmult Rminus Rdiv Rmax Rmin Rinv Ropp IZR Rabs
         Rltb Rleb Rgtb Rgeb Req_dec_T sqrt PI cos sin atan Int_part INR
         Vec.distanceTo Vec.normalize Vec.length Vec.lengthSq Vec.clampScalar
         intersectUVSquare emitBlood atan2 calculatePathWidth calculateFloorY].

Lemma firstZombieSpawned_reachable : reachable raycastFirst 1 firstZombieSpawned.
Proof.
  apply reachable_run; [apply reach_init|].
  crunch. repeat (split || intro); try lia; lra.
Qed.

Lemma firstZombieSpawned_facts :
  exists z,
    heap firstZombieSpawned = [z]
    /\ zisSliced z = false
    /\ activeZombies firstZombieSpawned = [0%nat]
    /\ sceneZombies firstZombieSpawned = [0%nat]
    /\ slicedPieces firstZombieSpawned = []
    /\ sliceLog firstZombieSpawned = []
    /\ score firstZombieSpawned = 0%Z
    /\ lastZombieKillTime firstZombieSpawned = 0
    /\ zombieGeometry firstZombieSpawned = Some (5 * (100 / 200), 5)
    /\ bloodTexturesLoaded firstZombieSpawned = false
    /\ gameOver firstZombieSpawned = false
    /\ cameraAspect firstZombieSpawned = 1.
Proof.
  crunch. eexists. repeat split; reflexivity.
Qed.

(** ** The handlers, step by step *)

Lemma Rgtb_distance_true a b (c : R) :
  0 <= c -> c * c < Vec.lengthSq (Vec.subVectors a b) ->
  Rgtb (Vec.distanceTo a b) c = true.
Proof.
  intros Hc H. apply Rgtb_true. unfold Vec.distanceTo.
  apply Rlt_gt, length_gt_iff; assumption.
Qed.

Lemma Rgtb_distance_false a b (c : R) :
  0 <= c -> Vec.lengthSq (Vec.subVectors a b) <= c * c ->
  Rgtb (Vec.distanceTo a b) c = false.
Proof.
  intros Hc H. apply Rgtb_false. unfold Vec.distanceTo.
  pose proof (length_gt_iff (Vec.subVectors a b) c Hc) as G.
  destruct (Rle_dec (Vec.length (Vec.subVectors a b)) c) as [L|L]; [exact L|].
  exfalso. assert (K : c < Vec.length (Vec.subVectors a b)) by lra.
  apply G in K. lra.
Qed.

Lemma distance_ge a b (c : R) :
  0 <= c -> c * c <= Vec.lengthSq (Vec.subVectors a b) ->
  c <= Vec.distanceTo a b.
Proof. intros Hc H. unfold Vec.distanceTo. apply length_ge_iff; assumption. Qed.

Lemma normalize_horizontal v : 0 < x2 v -> y2 v = 0 -> Vec.normalize v = V2 1 0.
Proof.
  intros Hx Hy. rewrite (normalize_of_square v (x2 v)).
  - rewrite Hy. f_equal; field; lra.
  - exact Hx.
  - unfold Vec.lengthSq. rewrite Hy. ring.
Qed.

Lemma intersect_rightwards (sx sy : R) :
  0 < sx < 1 -> 0 <= sy <= 1 -> 1e-6 <= 1 - sx ->
  intersectUVSquare (V2 sx sy) (V2 1 0)
  = Some (V2 (sx + 1 * ((1 - sx) / 1)) (sy + 0 * ((1 - sx) / 1))).
Proof.
  intros Hx Hy Hm. unfold intersectUVSquare, intersectionTime. cbn [x2 y2].
  rewrite axisPass_sizeable by (try rewrite Rabs_R1; lra).
  rewrite axisPass_zero by lra.
  unfold entryTime, exitTime. cmp.
  repeat (progress (cbn [orb ERmax ERmin ERltR ERgtR ERgeR ERgtb]; cmp)).
  reflexivity.
Qed.

(** The hit tests with [raycastFirst]. *)
Lemma hit_first s id rest z (x y : R) :
  activeZombies s = id :: rest ->
  nth_error (heap s) id = Some z -> zisSliced z = false ->
  -0.5 <= x <= 0.5 -> -0.5 <= y <= 0.5 ->
  getUVCoordsFromNDC raycastFirst s (V2 x y) = Some (V2 (x + 0.5) (y + 0.5), id).
Proof.
  intros Ha Hz Hs Hx Hy. unfold getUVCoordsFromNDC, zombiesToTest.
  rewrite Ha. cbn [flat_map]. rewrite Hz, Hs. cbn [app raycastFirst x2 y2].
  assert (Ax : Rabs x <= 0.5) by (unfold Rabs; destruct (Rcase_abs x); lra).
  assert (Ay : Rabs y <= 0.5) by (unfold Rabs; destruct (Rcase_abs y); lra).
  rewrite (proj2 (Rleb_true _ _) Ax), (proj2 (Rleb_true _ _) Ay). reflexivity.
Qed.

Lemma hit_none_active raycast s ndc :
  activeZombies s = [] -> getUVCoordsFromNDC raycast s ndc = None.
Proof. intros Ha. unfold getUVCoordsFromNDC. rewrite Ha. reflexivity. Qed.

(** The mouse listeners. *)
Lemma mousedown_hit raycast s ndc g uv id :
  zombieGeometry s = Some g ->
  getUVCoords raycast s ndc = Some (uv, id) ->
  mousedown raycast s ndc
  = setMouse s (mkMouse ndc ndc (sliceEndNDC (mouse s)) uv (sliceEndUV (mouse s))
                        true false (Some id) true).
Proof. intros Hg Hh. unfold mousedown. rewrite Hg, Hh. reflexivity. Qed.

Lemma mouseup_short raycast s ndc now rnd :
  Vec.distanceTo (sliceStartNDC (mouse s)) ndc <= 0.02 ->
  exists m, mouseup raycast s ndc now rnd = resetMouse (setMouse s m).
Proof.
  intros Hd. unfold mouseup.
  destruct (isSlicing (mouse s)); [|exists (mouse s); destruct s; reflexivity].
  destruct (zombieToSlice (mouse s)) as [target|];
    [|exists (mouse s); destruct s; reflexivity].
  destruct (getUVCoords raycast s ndc) as [[uv object]|].
  - destruct (Nat.eqb object target); cbn [sliceStartNDC sliceEndNDC];
      rewrite (proj2 (Rgtb_false _ _) Hd); eexists; reflexivity.
  - cbn [sliceStartNDC sliceEndNDC].
    rewrite (proj2 (Rgtb_false _ _) Hd); eexists; reflexivity.
Qed.

Lemma mouseup_resolves raycast s ndc now rnd id hit :
  isSlicing (mouse s) = true -> zombieToSlice (mouse s) = Some id ->
  match getUVCoords raycast s ndc with
  | Some (uv, object) => if Nat.eqb object id then Some uv else None
  | None => None
  end = hit ->
  Vec.distanceTo (sliceStartNDC (mouse s)) ndc > 0.02 ->
  mouseup raycast s ndc now rnd
  = resetMouse (calculateAndPerformSlice
                  (setMouse s (mouseAtRelease (mouse s) ndc hit)) now rnd (Some id)).
Proof.
  intros Hi Ht Hh Hd. unfold mouseup. rewrite Hi, Ht.
  destruct (getUVCoords raycast s ndc) as [[uv object]|].
  - destruct (Nat.eqb object id); subst hit; cbn [mouseAtRelease];
      cbn [sliceStartNDC sliceEndNDC zombieToSlice];
      rewrite (proj2 (Rgtb_true _ _) Hd), ?Hi, ?Ht; reflexivity.
  - subst hit; cbn [mouseAtRelease].
    cbn [sliceStartNDC sliceEndNDC zombieToSlice].
    rewrite (proj2 (Rgtb_true _ _) Hd), ?Hi, ?Ht; reflexivity.
Qed.

(** The hand frames. *)
Lemma hand_first_sample raycast s now rnd raw :
  gameOver s = false -> previousFingerTipNDC s = None ->
  processHandData raycast s now rnd (Hands (Some raw))
  = setPreviousFingerTipNDC s (Some (fingerTipNDC raw)).
Proof.
  intros Hg Hp. unfold processHandData, frameToFrameCheck. rewrite Hg, Hp.
  reflexivity.
Qed.

Lemma hand_short_motion raycast s now rnd raw previous :
  gameOver s = false -> previousFingerTipNDC s = Some previous ->
  Vec.distanceTo (fingerTipNDC raw) previous <= SLICE_GESTURE_THRESHOLD ->
  processHandData raycast s now rnd (Hands (Some raw))
  = setPreviousFingerTipNDC s (Some (fingerTipNDC raw)).
Proof.
  intros Hg Hp Hd. unfold processHandData, frameToFrameCheck. rewrite Hg, Hp.
  fold (fingerTipNDC raw). rewrite (proj2 (Rgtb_false _ _) Hd). reflexivity.
Qed.

Lemma hand_motion_resolves raycast s now rnd raw previous startUV id :
  gameOver s = false -> previousFingerTipNDC s = Some previous ->
  Vec.distanceTo (fingerTipNDC raw) previous > SLICE_GESTURE_THRESHOLD ->
  getUVCoordsFromNDC raycast s previous = Some (startUV, id) ->
  processHandData raycast s now rnd (Hands (Some raw))
  = setPreviousFingerTipNDC
      (calculateAndPerformSliceHand
         s now rnd (Some id) startUV previous (fingerTipNDC raw)
         match getUVCoordsFromNDC raycast s (fingerTipNDC raw) with
         | Some (uv, object) => if Nat.eqb object id then Some uv else None
         | None => None
         end)
      (Some (fingerTipNDC raw)).
Proof.
  intros Hg Hp Hd Hh. unfold processHandData, frameToFrameCheck. rewrite Hg, Hp.
  fold (fingerTipNDC raw). rewrite (proj2 (Rgtb_true _ _) Hd), Hh. reflexivity.
Qed.

(** The resolvers on horizontal gestures. *)
Lemma resolve_hand_horizontal aspect startUV endUV (px py cx cy : R) :
  px < cx -> cy = py ->
  0.001 * 0.001 <= Vec.lengthSq (Vec.subVectors startUV endUV) ->
  resolveSliceUVHand aspect startUV (V2 px py) (V2 cx cy) (Some endUV)
  = Some (Vec.clampScalar startUV 0 1, Vec.clampScalar endUV 0 1).
Proof.
  intros Hx Hy Hd. unfold resolveSliceUVHand, directionNDC, directionUVApprox.
  rewrite (normalize_horizontal (Vec.subVectors (V2 cx cy) (V2 px py)))
    by (cbn [x2 y2 Vec.subVectors]; lra).
  cbn [x2 y2].
  rewrite (normalize_horizontal (V2 1 (0 * aspect))) by (cbn [x2 y2]; lra).
  unfold Vec.lengthSq at 1 2. cbn [x2 y2]. cmp.
  apply checkAndClamp_accepts. apply distance_ge; [lra|exact Hd].
Qed.

Lemma resolve_mouse_extension s (sx sy : R) (ax ay bx by_ : R) :
  sliceStartValid (mouse s) = true -> sliceEndValid (mouse s) = false ->
  sliceStartUV (mouse s) = V2 sx sy ->
  sliceStartNDC (mouse s) = V2 ax ay -> sliceEndNDC (mouse s) = V2 bx by_ ->
  ax < bx -> by_ = ay ->
  0 < sx < 1 -> 0 <= sy <= 1 -> 0.001 <= 1 - sx ->
  resolveSliceUV s
  = Some (Vec.clampScalar (V2 sx sy) 0 1,
          Vec.clampScalar (V2 (sx + 1 * ((1 - sx) / 1)) (sy + 0 * ((1 - sx) / 1))) 0 1).
Proof.
  intros Hsv Hev Hsu Hsn Hen Hx Hy Hsx Hsy Hm.
  unfold resolveSliceUV, directionNDC, directionUVApprox.
  rewrite Hsv, Hev, Hsu, Hsn, Hen. cbn [andb negb].
  rewrite (normalize_horizontal (Vec.subVectors (V2 bx by_) (V2 ax ay)))
    by (cbn [x2 y2 Vec.subVectors]; lra).
  cbn [x2 y2].
  rewrite (normalize_horizontal (V2 1 (0 * cameraAspect s))) by (cbn [x2 y2]; lra).
  rewrite intersect_rightwards by lra.
  apply checkAndClamp_accepts. apply distance_ge; [lra|].
  unfold Vec.lengthSq, Vec.subVectors; cbn [x2 y2]. nra.
Qed.

Lemma resolve_mouse_both s a b :
  sliceStartValid (mouse s) = true -> sliceEndValid (mouse s) = true ->
  sliceStartUV (mouse s) = a -> sliceEndUV (mouse s) = b ->
  0.001 * 0.001 <= Vec.lengthSq (Vec.subVectors a b) ->
  resolveSliceUV s = Some (Vec.clampScalar a 0 1, Vec.clampScalar b 0 1).
Proof.
  intros Hsv Hev Ha Hb Hd. unfold resolveSliceUV. rewrite Hsv, Hev, Ha, Hb.
  cbn [andb]. apply checkAndClamp_accepts, distance_ge; [lra|exact Hd].
Qed.


Lemma INR_small :
  INR 1 = 1 /\ INR 2 = 2 /\ INR 8 = 8 /\ INR 10 = 10 /\ INR 19 = 19
  /\ INR 20 = 20 /\ INR 38 = 38 /\ INR 40 = 40.
Proof. repeat split; rewrite INR_IZR_INZ; reflexivity. Qed.

(** A drag over the first active zombie slices it: the variables the
    later steps read, before and after. *)
Lemma drag_step aspect s id rest g now B T L :
  reachable raycastFirst aspect s ->
  zombieGeometry s = Some g -> activeZombies s = id :: rest ->
  now - lastZombieKillTime s >= ZOMBIE_KILL_COOLDOWN ->
  calm B T L s -> 0 <= T ->
  B + 0.11 < 3 -> T + 0.05 <= 4.5 -> 0.05 < L -> L - 0.05 <= 1 ->
  let s' := run raycastFirst s (drag now) in
  reachable raycastFirst aspect s'
  /\ calm (B + 0.11) (T + 0.05) (L - 0.05) s'
  /\ zombieGeometry s' = Some g /\ activeZombies s' = rest
  /\ lastZombieKillTime s' = now
  /\ bloodTexturesLoaded s' = bloodTexturesLoaded s
  /\ List.length (bloodParticlePool s') = List.length (bloodParticlePool s)
  /\ (bloodTexturesLoaded s = true ->
      liveCount (bloodParticlePool s')
      = (liveCount (bloodParticlePool s)
         + Nat.min numBloodParticles (freeCount (bloodParticlePool s)))%nat)
  /\ sliceLog s' = sliceLog s ++ [id]
  /\ score s' = (score s + 50)%Z
  /\ List.length (slicedPieces s') = (List.length (slicedPieces s) + 2)%nat
  /\ List.length (heap s') = List.length (heap s)
  /\ gameOver s' = gameOver s
  /\ previousFingerTipNDC s' = previousFingerTipNDC s.
Proof.
  intros Hr Hg Ha Hc Hcalm HT HB Hlim HL HL1.
  destruct INR_small as [_ [I2 _]].
  unfold drag. cbv zeta. rewrite !run_app.
  (* the button goes down on the zombie *)
  destruct (reachable_active raycastFirst aspect s id Hr) as [z [Hz Hs]];
    [rewrite Ha; now left|].
  change (run raycastFirst s [MouseDown (V2 0 0)])
    with (mousedown raycastFirst s (V2 0 0)).
  rewrite (mousedown_hit raycastFirst s (V2 0 0) g (V2 (0 + 0.5) (0 + 0.5)) id Hg)
    by (apply (hit_first s id rest z); auto; lra).
  set (s1 := setMouse s _).
  assert (Hr1 : reachable raycastFirst aspect s1).
  { unfold s1.
    rewrite <- (mousedown_hit raycastFirst s (V2 0 0) g (V2 (0 + 0.5) (0 + 0.5)) id Hg)
      by (apply (hit_first s id rest z); auto; lra).
    apply (reach_step raycastFirst aspect s (MouseDown (V2 0 0)) Hr). exact I. }
  (* two frames *)
  destruct (ticks_quiet raycastFirst aspect 2 s1 B T L Hr1 Hcalm HT)
    as [Hr2 [C2 [A2 [H2 [P2 [Q2 [V2' K2]]]]]]];
    try (rewrite I2; unfold ZOMBIE_WALK_SPEED, ZOMBIE_END_Z; lra).
  remember (run raycastFirst s1 (ticks 2)) as s2 eqn:Es2. clear Es2.
  unfold controls in K2.
  injection K2 as K2g K2l K2b K2s K2log K2m K2p K2o K2a.
  rewrite I2 in C2. unfold ZOMBIE_WALK_SPEED in C2.
  (* the button is released on the zombie *)
  destruct (reachable_active raycastFirst aspect s2 id Hr2) as [z2 [Hz2 Hs2]];
    [rewrite A2; cbn [activeZombies s1 setMouse]; rewrite Ha; now left|].
  assert (Ha2 : activeZombies s2 = id :: rest) by (rewrite A2; exact Ha).
  change (run raycastFirst s2 [MouseUp (V2 0.25 0) now rnd0])
    with (mouseup raycastFirst s2 (V2 0.25 0) now rnd0).
  assert (Hr3 : reachable raycastFirst aspect
                          (mouseup raycastFirst s2 (V2 0.25 0) now rnd0)).
  { apply (reach_step raycastFirst aspect s2 (MouseUp (V2 0.25 0) now rnd0) Hr2).
    exact rnd0_valid. }
  revert Hr3.
  erewrite (mouseup_resolves raycastFirst s2 (V2 0.25 0) now rnd0 id
                             (Some (V2 (0.25 + 0.5) (0 + 0.5))));
    [ | rewrite K2m; reflexivity | rewrite K2m; reflexivity
      | unfold getUVCoords;
        rewrite (hit_first s2 id rest z2) by (auto; lra);
        rewrite Nat.eqb_refl; reflexivity
      | rewrite K2m; apply Rgtb_true, Rgtb_distance_true; [lra|];
        unfold Vec.lengthSq, Vec.subVectors; cbn; lra ].
  rewrite K2m. set (s3 := setMouse s2 _).
  erewrite (calculateAndPerformSlice_executes s3 now rnd0 id z2);
    [ | exact Hz2 | exact Hs2
      | change (lastZombieKillTime s3) with (lastZombieKillTime s2);
        rewrite K2l; exact Hc
      | apply (resolve_mouse_both s3 (V2 (0 + 0.5) (0 + 0.5))
                                  (V2 (0.25 + 0.5) (0 + 0.5)));
        try reflexivity;
        unfold Vec.lengthSq, Vec.subVectors; cbn [x2 y2]; lra ].
  intros Hr3. split; [exact Hr3|].
  set (a := Vec.clampScalar _ 0 1). set (b := Vec.clampScalar _ 0 1).
  assert (C3 : calm (B + 0.11) (T + 0.05) (L - 0.05) s3).
  { apply setMouse_calm. eapply calm_weaken; [| | |exact C2]; lra. }
  pose proof (executeSlice_calm s3 now rnd0 id z2 a b
                                (B + 0.11) (T + 0.05) (L - 0.05) rnd0_valid
                                ltac:(lra) HL1 C3) as C4.
  split; [exact C4|].
  cbn [zombieGeometry activeZombies lastZombieKillTime bloodTexturesLoaded
       sliceLog score slicedPieces heap gameOver previousFingerTipNDC
       resetMouse setMouse executeSlice].
  change (bloodParticlePool (resetMouse (executeSlice s3 now rnd0 id z2 a b)))
    with (bloodParticlePool (executeSlice s3 now rnd0 id z2 a b)).
  subst s3. cbn [zombieGeometry activeZombies lastZombieKillTime
                 bloodTexturesLoaded sliceLog score slicedPieces heap gameOver
                 previousFingerTipNDC bloodParticlePool setMouse] in *.
  rewrite ?length_app, ?K2g, ?K2b, ?K2log, ?K2s, ?K2o, ?K2p, ?Ha2, ?P2, ?H2.
  subst s1. cbn [zombieGeometry activeZombies lastZombieKillTime
                 bloodTexturesLoaded sliceLog score slicedPieces heap gameOver
                 previousFingerTipNDC bloodParticlePool setMouse] in *.
  unfold removeRef. cbn [indexOf]. rewrite Nat.eqb_refl. cbn [splice1].
  repeat split; try assumption; try reflexivity.
  - rewrite executeSlice_pool_length. cbn [bloodParticlePool setMouse]. exact Q2.
  - intros El.
    destruct (executeSlice_pool (setMouse s2 (mouseAtRelease
                (mkMouse (V2 0 0) (V2 0 0) (sliceEndNDC (mouse s))
                         (V2 (0 + 0.5) (0 + 0.5)) (sliceEndUV (mouse s))
                         true false (Some id) true)
                (V2 0.25 0) (Some (V2 (0.25 + 0.5) (0 + 0.5)))))
                now rnd0 id z2 a b) as [_ Pv].
    { cbn [bloodTexturesLoaded setMouse]. rewrite K2b. exact El. }
    cbn [bloodParticlePool setMouse] in Pv. rewrite Pv, V2'.
    pose proof (live_free_length (bloodParticlePool s2)) as F2.
    pose proof (live_free_length (bloodParticlePool s)) as F0.
    rewrite Q2, V2' in F2.
    assert (Ef : freeCount (bloodParticlePool s2) = freeCount (bloodParticlePool s))
      by lia.
    rewrite Ef. reflexivity.
Qed.

(** The run [mouseAndHand] from a state with one active zombie: the press
    of the button, the swipe of the hand and the release of the button,
    with the frames between them. *)
Lemma mouse_and_hand_run aspect s id g B :
  reachable raycastFirst aspect s ->
  zombieGeometry s = Some g -> activeZombies s = [id] ->
  gameOver s = false -> previousFingerTipNDC s = None ->
  lastZombieKillTime s <= 0.8 -> bloodTexturesLoaded s = false ->
  calm B 0 3 s -> B + 4.4 < 3 ->
  let s' := run raycastFirst s mouseAndHand in
  reachable raycastFirst aspect s'
  /\ sliceLog s' = sliceLog s ++ [id; id]
  /\ score s' = (score s + 100)%Z
  /\ List.length (slicedPieces s') = (List.length (slicedPieces s) + 4)%nat
  /\ List.length (heap s') = List.length (heap s).
Proof.
  intros Hr Hg Ha Hgo Hp Hl Hb Hc HB.
  destruct INR_small as [I1 [_ [_ [_ [I19 [I20 [_ I40]]]]]]].
  unfold mouseAndHand. cbv zeta. rewrite !run_app.
  unfold ZOMBIE_WALK_SPEED, ZOMBIE_END_Z in *.
  (* half a second of frames *)
  destruct (ticks_step raycastFirst aspect 20 s B 0 3 Hr Hc)
    as [s1 [E1 [R1 [C1 [A1 [H1 [P1 [_ [_ [G1 [L1 [B1 [S1 [Lg1 [M1 [F1 [O1 _]]]]]]]]]]]]]]]]];
    try solve [rewrite ?I20; unfold ZOMBIE_WALK_SPEED, ZOMBIE_END_Z; lra].
  rewrite E1. clear E1. rewrite I20 in C1. unfold ZOMBIE_WALK_SPEED in C1.
  (* the button goes down on the zombie *)
  destruct (reachable_active raycastFirst aspect s1 id R1) as [z1 [Hz1 Hs1]];
    [rewrite A1, Ha; now left|].
  change (run raycastFirst s1 [MouseDown (V2 0 0)])
    with (handle raycastFirst s1 (MouseDown (V2 0 0))).
  assert (R2 : reachable raycastFirst aspect (handle raycastFirst s1 (MouseDown (V2 0 0))))
    by (apply reach_step; [exact R1|exact I]).
  revert R2. cbn [handle].
  rewrite (mousedown_hit raycastFirst s1 (V2 0 0) g (V2 (0 + 0.5) (0 + 0.5)) id)
    by (try (rewrite G1; exact Hg);
        apply (hit_first s1 id [] z1); auto; try lra; rewrite A1; exact Ha).
  set (m2 := mkMouse _ _ _ _ _ _ _ _ _). intros R2.
  (* frames while the button is down *)
  destruct (ticks_step raycastFirst aspect 19 (setMouse s1 m2) (B + 2.2 * (20 * 0.025))
                       (0 + 20 * 0.025) (3 - 20 * 0.025) R2 C1)
    as [s3 [E3 [R3 [C3 [A3 [H3 [P3 [_ [_ [G3 [L3 [B3 [S3 [Lg3 [M3 [F3 [O3 _]]]]]]]]]]]]]]]]];
    try solve [rewrite ?I19; unfold ZOMBIE_WALK_SPEED, ZOMBIE_END_Z; lra].
  rewrite E3. clear E3. rewrite I19 in C3. unfold ZOMBIE_WALK_SPEED in C3.
  cbn [activeZombies heap slicedPieces zombieGeometry lastZombieKillTime
       bloodTexturesLoaded score sliceLog mouse previousFingerTipNDC gameOver
       setMouse] in *.
  (* the hand appears *)
  change (run raycastFirst s3 [HandFrame (Hands (Some (V2 0.5 0.5))) 0.975 rnd0])
    with (handle raycastFirst s3 (HandFrame (Hands (Some (V2 0.5 0.5))) 0.975 rnd0)).
  assert (R4 : reachable raycastFirst aspect
                 (handle raycastFirst s3 (HandFrame (Hands (Some (V2 0.5 0.5))) 0.975 rnd0)))
    by (apply reach_step; [exact R3|exact rnd0_valid]).
  revert R4. cbn [handle].
  rewrite (hand_first_sample raycastFirst s3 0.975 rnd0 (V2 0.5 0.5))
    by congruence.
  intros R4.
  (* one frame *)
  destruct (ticks_step raycastFirst aspect 1
                       (setPreviousFingerTipNDC s3 (Some (fingerTipNDC (V2 0.5 0.5))))
                       _ _ _ R4 C3)
    as [s5 [E5 [R5 [C5 [A5 [H5 [P5 [_ [_ [G5 [L5 [B5 [S5 [Lg5 [M5 [F5 [O5 _]]]]]]]]]]]]]]]]];
    try solve [rewrite ?I1; unfold ZOMBIE_WALK_SPEED, ZOMBIE_END_Z; lra].
  rewrite E5. clear E5. rewrite I1 in C5. unfold ZOMBIE_WALK_SPEED in C5.
  cbn [activeZombies heap slicedPieces zombieGeometry lastZombieKillTime
       bloodTexturesLoaded score sliceLog mouse previousFingerTipNDC gameOver
       setPreviousFingerTipNDC] in *.
  (* the hand swipes over the zombie *)
  destruct (reachable_active raycastFirst aspect s5 id R5) as [z5 [Hz5 Hs5]];
    [rewrite A5, A3, A1, Ha; now left|].
  assert (Ha5 : activeZombies s5 = [id]) by (rewrite A5, A3, A1; exact Ha).
  change (run raycastFirst s5 [HandFrame (Hands (Some (V2 0.4 0.5))) 1 rnd0])
    with (handle raycastFirst s5 (HandFrame (Hands (Some (V2 0.4 0.5))) 1 rnd0)).
  assert (R6 : reachable raycastFirst aspect
                 (handle raycastFirst s5 (HandFrame (Hands (Some (V2 0.4 0.5))) 1 rnd0)))
    by (apply reach_step; [exact R5|exact rnd0_valid]).
  revert R6. cbn [handle].
  rewrite (hand_motion_resolves raycastFirst s5 1 rnd0 (V2 0.4 0.5)
             (fingerTipNDC (V2 0.5 0.5))
             (V2 ((0.5 * 2 - 1) * -1 + 0.5) (0.5 * -2 + 1 + 0.5)) id);
    [ | congruence | exact F5
      | apply Rgtb_true, Rgtb_distance_true;
        [unfold SLICE_GESTURE_THRESHOLD; lra|];
        unfold SLICE_GESTURE_THRESHOLD, Vec.lengthSq, Vec.subVectors, fingerTipNDC;
        cbn [x2 y2]; lra
      | unfold fingerTipNDC; cbn [x2 y2];
        apply (hit_first s5 id [] z5); auto; lra ].
  change (fingerTipNDC (V2 0.4 0.5)) with (V2 ((0.4 * 2 - 1) * -1) (0.5 * -2 + 1)).
  change (fingerTipNDC (V2 0.5 0.5)) with (V2 ((0.5 * 2 - 1) * -1) (0.5 * -2 + 1)).
  rewrite (hit_first s5 id [] z5) by (auto; lra).
  rewrite Nat.eqb_refl.
  erewrite (calculateAndPerformSliceHand_executes s5 1 rnd0 id z5);
    [ | exact Hz5 | exact Hs5
      | rewrite L5, L3, L1; unfold ZOMBIE_KILL_COOLDOWN; lra
      | apply resolve_hand_horizontal; [lra|lra|];
        unfold Vec.lengthSq, Vec.subVectors; cbn [x2 y2]; lra ].
  set (a6 := Vec.clampScalar _ 0 1). set (b6 := Vec.clampScalar _ 0 1).
  set (p6 := Some (V2 _ _)).
  intros R6.
  assert (C6 : calm (B + 2.2) 1 2
                    (setPreviousFingerTipNDC (executeSlice s5 1 rnd0 id z5 a6 b6) p6)).
  { apply setPrevious_calm. apply executeSlice_calm_unloaded; [congruence|lra|].
    eapply calm_weaken; [| | |exact C5]; lra. }
  (* a second of frames *)
  destruct (ticks_step raycastFirst aspect 40 _ _ _ _ R6 C6)
    as [s7 [E7 [R7 [C7 [A7 [H7 [P7 [_ [_ [G7 [L7 [B7 [S7 [Lg7 [M7 [F7 [O7 _]]]]]]]]]]]]]]]]];
    try solve [rewrite ?I40; unfold ZOMBIE_WALK_SPEED, ZOMBIE_END_Z; lra].
  rewrite E7. clear E7.
  cbn [activeZombies heap slicedPieces zombieGeometry lastZombieKillTime
       bloodTexturesLoaded score sliceLog mouse previousFingerTipNDC gameOver
       setPreviousFingerTipNDC executeSlice] in *.
  (* the button is released to the right of where the zombie was *)
  assert (Ha7 : activeZombies s7 = []).
  { rewrite A7, Ha5. unfold removeRef. cbn [indexOf]. rewrite Nat.eqb_refl.
    reflexivity. }
  destruct (reachable_logged raycastFirst aspect s7 id R7) as [z7 [Hz7 Hs7]];
    [rewrite Lg7; apply in_or_app; right; now left|].
  change (run raycastFirst s7 [MouseUp (V2 0.9 0) 2 rnd0])
    with (handle raycastFirst s7 (MouseUp (V2 0.9 0) 2 rnd0)).
  assert (R8 : reachable raycastFirst aspect
                 (handle raycastFirst s7 (MouseUp (V2 0.9 0) 2 rnd0)))
    by (apply reach_step; [exact R7|exact rnd0_valid]).
  revert R8. cbn [handle].
  assert (M7' : mouse s7 = m2) by congruence.
  erewrite (mouseup_resolves raycastFirst s7 (V2 0.9 0) 2 rnd0 id None);
    [ | rewrite M7'; reflexivity | rewrite M7'; reflexivity
      | unfold getUVCoords; rewrite hit_none_active by exact Ha7; reflexivity
      | rewrite M7'; apply Rgtb_true, Rgtb_distance_true; [lra|];
        unfold Vec.lengthSq, Vec.subVectors; cbn; lra ].
  rewrite M7'. set (s8 := setMouse s7 _).
  erewrite (calculateAndPerformSlice_executes s8 2 rnd0 id z7);
    [ | exact Hz7 | exact Hs7
      | change (lastZombieKillTime s8) with (lastZombieKillTime s7);
        rewrite L7; unfold ZOMBIE_KILL_COOLDOWN; lra
      | apply (resolve_mouse_extension s8 (0 + 0.5) (0 + 0.5) 0 0 0.9 0);
        try reflexivity; lra ].
  intros R8. split; [exact R8|].
  cbn [sliceLog slicedPieces score heap resetMouse setMouse executeSlice].
  subst s8. cbn [sliceLog slicedPieces score heap setMouse].
  rewrite length_app in P7. rewrite !length_app, Lg7, S7, P7, H7, Lg5, S5, P5, H5,
    Lg3, S3, P3, H3, Lg1, S1, P1, H1.
  repeat split.
  - rewrite <- app_assoc. reflexivity.
  - lia.
  - cbn [length]. lia.
Qed.

Lemma firstZombieSpawned_calm : calm (-20) 0 3 firstZombieSpawned.
Proof.
  unfold calm. crunch. split; [|split].
  - intros id [E|[]]. subst id. eexists. split; [reflexivity|].
    split; [lra|reflexivity].
  - constructor.
  - constructor.
Qed.

(** Some frames and then a drag over the first active zombie, with both
    blood loaders finished. *)
Lemma slice_round aspect (n : nat) s id rest g now B T L :
  reachable raycastFirst aspect s ->
  zombieGeometry s = Some g -> activeZombies s = id :: rest ->
  now - lastZombieKillTime s >= ZOMBIE_KILL_COOLDOWN ->
  bloodTexturesLoaded s = true ->
  calm B T L s -> 0 <= T ->
  B + 2.2 * (INR n * 0.025) + 0.11 < 3 ->
  T + INR n * 0.025 + 0.05 <= 4.5 ->
  INR n * 0.025 + 0.05 < L -> L - INR n * 0.025 - 0.05 <= 1 ->
  let s' := run raycastFirst (run raycastFirst s (ticks n)) (drag now) in
  reachable raycastFirst aspect s'
  /\ calm (B + 2.2 * (INR n * 0.025) + 0.11) (T + INR n * 0.025 + 0.05)
          (L - INR n * 0.025 - 0.05) s'
  /\ zombieGeometry s' = Some g /\ activeZombies s' = rest
  /\ lastZombieKillTime s' = now /\ bloodTexturesLoaded s' = true
  /\ List.length (bloodParticlePool s') = List.length (bloodParticlePool s)
  /\ liveCount (bloodParticlePool s')
     = (liveCount (bloodParticlePool s)
        + Nat.min numBloodParticles (freeCount (bloodParticlePool s)))%nat.
Proof.
  intros Hr Hg Ha Hc Hl Hcalm HT HB Hlim HL HL1. cbv zeta.
  pose proof (pos_INR n) as Hn.
  destruct (ticks_step raycastFirst aspect n s B T L Hr Hcalm HT)
    as [s1 [E1 [R1 [C1 [A1 [_ [_ [Q1 [V1 [G1 [L1 [B1 _]]]]]]]]]]]];
    try solve [unfold ZOMBIE_WALK_SPEED, ZOMBIE_END_Z; lra].
  rewrite E1. clear E1. unfold ZOMBIE_WALK_SPEED in C1.
  destruct (drag_step aspect s1 id rest g now (B + 2.2 * (INR n * 0.025))
              (T + INR n * 0.025) (L - INR n * 0.025) R1) as
      [R2 [C2 [G2 [A2 [L2 [B2 [Q2 [V2' _]]]]]]]];
    [congruence | congruence | rewrite L1; exact Hc | exact C1 | lra | lra | lra
     | lra | lra | ].
  split; [exact R2|].
  split; [eapply calm_weaken; [| | |exact C2]; lra|].
  split; [exact G2|]. split; [exact A2|]. split; [exact L2|].
  split; [congruence|]. split; [congruence|].
  rewrite V2' by congruence.
  pose proof (live_free_length (bloodParticlePool s1)) as F1.
  pose proof (live_free_length (bloodParticlePool s)) as F0.
  assert (Ef : freeCount (bloodParticlePool s1) = freeCount (bloodParticlePool s))
    by lia.
  rewrite Ef, V1. reflexivity.
Qed.

Lemma threeZombies_reachable : reachable raycastFirst 1 threeZombies.
Proof.
  apply reachable_run; [apply reach_init|].
  crunch. repeat (split || intro); try lia; lra.
Qed.

Lemma threeZombies_facts :
  exists g,
    activeZombies threeZombies = [0; 1; 2]%nat
    /\ zombieGeometry threeZombies = Some g
    /\ lastZombieKillTime threeZombies = 0
    /\ bloodTexturesLoaded threeZombies = true
    /\ bloodParticlePool threeZombies = repeat freshParticle 100.
Proof.
  crunch. eexists. repeat split; reflexivity.
Qed.

Lemma threeZombies_calm : calm (-20) 0 2 threeZombies.
Proof.
  unfold calm. crunch. split; [|split].
  - intros id [E|[E|[E|[]]]]; subst id; (eexists; split; [reflexivity|]);
      (split; [lra|reflexivity]).
  - constructor.
  - repeat constructor; discriminate.
Qed.

(** ** A retired target is sliced again *)

(** C2 on the code. With the first zombie of the game as the target, a
    first call of [performSlice] at time 1 removes it from [activeZombies]
    and from the scene, makes two pieces and scores 50; a second call on
    the same reference at time 2, after the cooldown, is not a no-op: it
    makes a second pair of pieces and scores 50 again.  Nothing ever sets
    [isSliced] on a target. *)
Theorem second_slice_executes :
  let s0 := firstZombieSpawned in
  let s1 := performSlice s0 1 rnd0 (Some 0%nat) (V2 0.2 0.5) (V2 0.8 0.5) in
  let s2 := performSlice s1 2 rnd0 (Some 0%nat) (V2 0.2 0.5) (V2 0.8 0.5) in
  activeZombies s0 = [0%nat]
  /\ (List.length (slicedPieces s1) = 2%nat /\ score s1 = 50%Z
      /\ activeZombies s1 = [] /\ sceneZombies s1 = [])
  /\ (List.length (slicedPieces s2) = 4%nat /\ score s2 = 100%Z
      /\ sliceLog s2 = [0%nat; 0%nat] /\ s2 <> s1).
Proof.
  destruct firstZombieSpawned_facts
    as [z [Hh [Hz [Ha [Hsc [Hp [Hlog [Hscore [Hlast _]]]]]]]]].
  assert (Hz0 : nth_error (heap firstZombieSpawned) 0 = Some z)
    by (rewrite Hh; reflexivity).
  assert (Hc1 : 1 - lastZombieKillTime firstZombieSpawned >= ZOMBIE_KILL_COOLDOWN)
    by (rewrite Hlast; unfold ZOMBIE_KILL_COOLDOWN; lra).
  assert (Hc2 : 2 - 1 >= ZOMBIE_KILL_COOLDOWN)
    by (unfold ZOMBIE_KILL_COOLDOWN; lra).
  cbv zeta. split; [exact Ha|].
  pose proof (performSlice_twice firstZombieSpawned 1 2 rnd0 rnd0 0 z
                (V2 0.2 0.5) (V2 0.8 0.5) (V2 0.2 0.5) (V2 0.8 0.5)
                Hz0 Hz Hc1 Hc2) as T.
  cbv zeta in T. destruct T as [_ [Ts [Tl Tg]]].
  rewrite (performSlice_executes firstZombieSpawned 1 rnd0 0 z _ _ Hz0 Hz Hc1)
    in *.
  split.
  - cbn [slicedPieces score activeZombies sceneZombies executeSlice].
    rewrite Hp, Hscore, Ha, Hsc. repeat split.
  - rewrite Tl, Ts, Tg, Hp, Hscore, Hlog. repeat split.
    intros E. apply (f_equal score) in E. rewrite Ts in E.
    cbn [score executeSlice] in E. lia.
Qed.

(** C9 on the code. The press of the mouse button keeps a reference to
    the zombie under the pointer; when the hand slices that zombie while
    the button is down, the release of the button slices it a second
    time.  The run below is one the input handlers allow, with forty
    frames a second and a raycaster that answers as it must: the only
    zombie of the game ends up twice in the log of executed slices, with
    four pieces and a score of 100. *)
Theorem retired_target_sliced_again :
  let s := run raycastFirst firstZombieSpawned mouseAndHand in
  raycastSound raycastFirst
  /\ reachable raycastFirst 1 s
  /\ List.length (heap s) = 1%nat
  /\ sliceLog s = [0%nat; 0%nat]
  /\ List.length (slicedPieces s) = 4%nat
  /\ score s = 100%Z.
Proof.
  destruct firstZombieSpawned_facts
    as [z [Hh [Hz [Ha [Hsc [Hp [Hlog [Hscore [Hlast [Hg [Hb [Hgo _]]]]]]]]]]]].
  assert (Hprev : previousFingerTipNDC firstZombieSpawned = None) by reflexivity.
  assert (Hl : lastZombieKillTime firstZombieSpawned <= 0.8) by (rewrite Hlast; lra).
  destruct (mouse_and_hand_run 1 firstZombieSpawned 0%nat _ (-20)
              firstZombieSpawned_reachable Hg Ha Hgo Hprev Hl Hb
              firstZombieSpawned_calm)
    as [Tr [Tg [Ts [Tl Th]]]]; [lra|].
  cbv zeta. split; [exact raycastFirst_sound|]. split; [exact Tr|].
  rewrite Th, Tg, Tl, Ts, Hh, Hlog, Hp, Hscore. repeat split.
Qed.

(** ** The pool when both loaders have run *)

(** C7 on the code. The top-level loader and [loadAssets] each push
    [MAX_BLOOD_PARTICLES] entries to the pool when their seventh blood
    texture arrives.  In the run below both have finished, so the pool has
    100 entries, and three slices of 18 particles each, a quarter of a
    second apart with forty frames a second, leave 54 particles live:
    more than [MAX_BLOOD_PARTICLES]. *)
Theorem pool_exceeds_capacity :
  let s := run raycastFirst (initialState 1) threeSlices in
  reachable raycastFirst 1 s
  /\ List.length (bloodParticlePool s) = 100%nat
  /\ liveCount (bloodParticlePool s) = 54%nat
  /\ (MAX_BLOOD_PARTICLES < liveCount (bloodParticlePool s))%nat.
Proof.
  destruct threeZombies_facts as [g [Ha [Hg [Hlast [Hl Hpool]]]]].
  destruct INR_small as [_ [_ [I8 [I10 [_ [_ [I38 _]]]]]]].
  assert (E : run raycastFirst (initialState 1) threeSlices
              = run raycastFirst
                  (run raycastFirst
                     (run raycastFirst
                        (run raycastFirst
                           (run raycastFirst
                              (run raycastFirst
                                 (run raycastFirst threeZombies (ticks 38))
                                 (drag 1))
                              (ticks 8))
                           (drag 1.25))
                        (ticks 8))
                     (drag 1.5))
                  (ticks 10)).
  { unfold threeSlices, threeZombies.
    rewrite !app_assoc, !run_app. reflexivity. }
  cbv zeta. rewrite E. clear E.
  destruct (freeCount_repeat_fresh 100) as [Hfree Hlive].
  assert (Hlen : List.length (bloodParticlePool threeZombies) = 100%nat)
    by (rewrite Hpool; apply repeat_length).
  rewrite <- Hpool in Hfree, Hlive.
  (* first slice *)
  destruct (slice_round 1 38 threeZombies 0%nat [1; 2]%nat g 1 (-20) 0 2
              threeZombies_reachable Hg Ha)
    as [R1 [C1 [G1 [A1 [K1 [B1 [Q1 V1]]]]]]];
    try solve [rewrite ?I38, ?Hlast; unfold ZOMBIE_KILL_COOLDOWN; lra];
    [exact Hl | exact threeZombies_calm | ].
  rewrite I38 in C1. apply (calm_weaken _ _ _ (-17) 1 1) in C1; try lra.
  remember (run raycastFirst (run raycastFirst threeZombies (ticks 38)) (drag 1))
    as s1 eqn:E1. clear E1.
  pose proof (live_free_length (bloodParticlePool s1)) as F1.
  (* second slice *)
  destruct (slice_round 1 8 s1 1%nat [2]%nat g 1.25 (-17) 1 1 R1 G1 A1)
    as [R2 [C2 [G2 [A2 [K2 [B2 [Q2 V2']]]]]]];
    try solve [rewrite ?I8, ?K1; unfold ZOMBIE_KILL_COOLDOWN; lra];
    [exact B1 | exact C1 | ].
  rewrite I8 in C2. apply (calm_weaken _ _ _ (-16) 1.25 0.75) in C2; try lra.
  remember (run raycastFirst (run raycastFirst s1 (ticks 8)) (drag 1.25))
    as s2 eqn:E2. clear E2.
  pose proof (live_free_length (bloodParticlePool s2)) as F2.
  (* third slice *)
  destruct (slice_round 1 8 s2 2%nat []%nat g 1.5 (-16) 1.25 0.75 R2 G2 A2)
    as [R3 [C3 [G3 [A3 [K3 [B3 [Q3 V3]]]]]]];
    try solve [rewrite ?I8, ?K2; unfold ZOMBIE_KILL_COOLDOWN; lra];
    [exact B2 | exact C2 | ].
  rewrite I8 in C3. apply (calm_weaken _ _ _ (-15) 1.5 0.5) in C3; try lra.
  remember (run raycastFirst (run raycastFirst s2 (ticks 8)) (drag 1.5))
    as s3 eqn:E3. clear E3.
  (* the last frames *)
  destruct (ticks_step raycastFirst 1 10 s3 (-15) 1.5 0.5 R3 C3)
    as [s4 [E4 [R4 [_ [_ [_ [_ [Q4 [V4 _]]]]]]]]];
    try solve [rewrite ?I10; unfold ZOMBIE_WALK_SPEED, ZOMBIE_END_Z; lra].
  rewrite E4. clear E4.
  unfold numBloodParticles, MAX_BLOOD_PARTICLES in *.
  assert (V : liveCount (bloodParticlePool s4) = 54%nat) by lia.
  split; [exact R4|]. rewrite V. split; [lia|]. split; [reflexivity|lia].
Qed.

(** ** The gesture thresholds *)

Lemma sameGame_setMouse s m : sameGame s (setMouse s m).
Proof. unfold sameGame. destruct s; reflexivity. Qed.

Lemma sameGame_setPrevious s p : sameGame s (setPreviousFingerTipNDC s p).
Proof. unfold sameGame. destruct s; reflexivity. Qed.

Lemma sameGame_reset s m : sameGame s (resetMouse (setMouse s m)).
Proof. unfold sameGame. destruct s; reflexivity. Qed.

(** C10. The release of the mouse button starts the slice resolution
    only when the button went down on a zombie and the press and the
    release are more than 0.02 apart in normalized device coordinates; a
    hand frame starts it only when the fingertip is more than 0.03 away
    from the one of the frame before.  A shorter gesture resolves nothing
    and leaves the game as it is: it only ends the gesture, the mouse
    listener clearing its drag state and the hand path storing the
    fingertip as the sample that the next frame is measured from. *)
Theorem gesture_thresholds
        (raycast : Vector2 -> list (nat * Zombie) -> option (Vector2 * nat))
        (s : State) :
  (* the mouse: a short drag *)
  (forall ndc now rnd,
      Vec.distanceTo (sliceStartNDC (mouse s)) ndc <= 0.02 ->
      let s' := mouseup raycast s ndc now rnd in
      sameGame s s'
      /\ isSlicing (mouse s') = false /\ zombieToSlice (mouse s') = None
      /\ sliceStartValid (mouse s') = false /\ sliceEndValid (mouse s') = false)
  (* the mouse: no drag in progress *)
  /\ (forall ndc now rnd,
         isSlicing (mouse s) = false \/ zombieToSlice (mouse s) = None ->
         mouseup raycast s ndc now rnd = resetMouse s)
  (* the mouse: a long drag *)
  /\ (forall ndc now rnd id,
         isSlicing (mouse s) = true -> zombieToSlice (mouse s) = Some id ->
         Vec.distanceTo (sliceStartNDC (mouse s)) ndc > 0.02 ->
         exists hit,
           mouseup raycast s ndc now rnd
           = resetMouse (calculateAndPerformSlice
                           (setMouse s (mouseAtRelease (mouse s) ndc hit))
                           now rnd (Some id)))
  (* the hand: a short motion *)
  /\ (forall raw previous now rnd,
         previousFingerTipNDC s = Some previous ->
         Vec.distanceTo (fingerTipNDC raw) previous <= 0.03 ->
         let s' := processHandData raycast s now rnd (Hands (Some raw)) in
         sameGame s s'
         /\ (gameOver s = false ->
             s' = setPreviousFingerTipNDC s (Some (fingerTipNDC raw))))
  (* the hand: a long motion over a zombie *)
  /\ (forall raw previous now rnd startUV id,
         gameOver s = false -> previousFingerTipNDC s = Some previous ->
         Vec.distanceTo (fingerTipNDC raw) previous > 0.03 ->
         getUVCoordsFromNDC raycast s previous = Some (startUV, id) ->
         exists endUVIfValid,
           processHandData raycast s now rnd (Hands (Some raw))
           = setPreviousFingerTipNDC
               (calculateAndPerformSliceHand
                  s now rnd (Some id) startUV previous (fingerTipNDC raw)
                  endUVIfValid)
               (Some (fingerTipNDC raw))).
Proof.
  repeat apply conj.
  - intros ndc now rnd Hd.
    destruct (mouseup_short raycast s ndc now rnd Hd) as [m E].
    cbv zeta. rewrite E. split; [apply sameGame_reset|].
    repeat split.
  - intros ndc now rnd [H|H]; unfold mouseup; rewrite H;
      [|destruct (isSlicing (mouse s))]; reflexivity.
  - intros ndc now rnd id Hi Ht Hd. eexists.
    apply mouseup_resolves; [exact Hi | exact Ht | reflexivity | exact Hd].
  - intros raw previous now rnd Hp Hd. cbv zeta.
    destruct (gameOver s) eqn:Hg.
    + unfold processHandData. rewrite Hg. split; [|discriminate].
      unfold sameGame. destruct s; reflexivity.
    + rewrite (hand_short_motion raycast s now rnd raw previous Hg Hp)
        by (unfold SLICE_GESTURE_THRESHOLD; exact Hd).
      split; [apply sameGame_setPrevious|reflexivity].
  - intros raw previous now rnd startUV id Hg Hp Hd Hh. eexists.
    apply hand_motion_resolves; try assumption.
Qed.

(** The sampling of the hand path: a frame whose fingertip is 0.01 away
    from the one before is below the threshold, and it moves the reference
    point that the next frame is measured from. *)
Lemma short_motion_changes_state :
  let s := run raycastFirst (initialState 1)
               [HandFrame (Hands (Some (V2 0.5 0.5))) 0 rnd0] in
  let s' := handle raycastFirst s (HandFrame (Hands (Some (V2 0.495 0.5))) 0.1 rnd0) in
  previousFingerTipNDC s = Some (fingerTipNDC (V2 0.5 0.5))
  /\ Vec.distanceTo (fingerTipNDC (V2 0.495 0.5)) (fingerTipNDC (V2 0.5 0.5)) <= 0.03
  /\ s' <> s.
Proof.
  cbv zeta.
  assert (D : Vec.distanceTo (fingerTipNDC (V2 0.495 0.5)) (fingerTipNDC (V2 0.5 0.5))
              <= 0.03).
  { apply Rgtb_false, Rgtb_distance_false; [lra|].
    unfold Vec.lengthSq, Vec.subVectors, fingerTipNDC; cbn [x2 y2]. lra. }
  split; [reflexivity|]. split; [exact D|].
  unfold run. cbn [fold_left handle].
  rewrite (hand_first_sample raycastFirst (initialState 1) 0 rnd0 (V2 0.5 0.5))
    by reflexivity.
  rewrite (hand_short_motion raycastFirst _ 0.1 rnd0 (V2 0.495 0.5)
             (fingerTipNDC (V2 0.5 0.5)))
    by (try reflexivity; unfold SLICE_GESTURE_THRESHOLD; exact D).
  intros E. apply (f_equal previousFingerTipNDC) in E.
  cbn [previousFingerTipNDC setPreviousFingerTipNDC] in E.
  unfold fingerTipNDC in E. cbn [x2 y2] in E.
  injection E as Ex. lra.
Qed.

(** ** The theorems at concrete inputs *)

(** The cut of scenario A, from (0.2, 0.5) to (0.8, 0.5), and the point
    (0.5, 0.8) above it. *)
Lemma visibility_partition_witness :
  (inUnitSquare (V2 0.2 0.5) /\ inUnitSquare (V2 0.8 0.5)
   /\ Vec.distanceTo (V2 0.2 0.5) (V2 0.8 0.5) > 0.001
   /\ ~ onLine (V2 0.2 0.5) (V2 0.8 0.5) (V2 0.5 0.8))
  /\ xorb (Shader.sliceKeeps (V2 0.2 0.5) (V2 0.8 0.5) 1 (V2 0.5 0.8))
          (Shader.sliceKeeps (V2 0.2 0.5) (V2 0.8 0.5) (-1) (V2 0.5 0.8)) = true.
Proof.
  assert (H1 : inUnitSquare (V2 0.2 0.5)) by (unfold inUnitSquare; cbn; lra).
  assert (H2 : inUnitSquare (V2 0.8 0.5)) by (unfold inUnitSquare; cbn; lra).
  assert (H3 : Vec.distanceTo (V2 0.2 0.5) (V2 0.8 0.5) > 0.001).
  { apply Rlt_gt, length_gt_iff; [lra|]. unfold Vec.lengthSq; cbn. lra. }
  assert (H4 : ~ onLine (V2 0.2 0.5) (V2 0.8 0.5) (V2 0.5 0.8)).
  { unfold onLine, cross; cbn. lra. }
  split; [repeat split; try assumption; cbn; lra|].
  exact (proj1 (proj2 (proj2
           (visibility_partition (V2 0.2 0.5) (V2 0.8 0.5) (V2 0.5 0.8) H1 H2 H3 H4)))).
Defined.


(** Two slices of the two zombies of [plainState], the first at time 1. *)
Lemma cooldown_serializes_witness :
  (nth_error (heap plainState) 0 = Some plainZombie
   /\ zisSliced plainZombie = false
   /\ 1 - lastZombieKillTime plainState >= ZOMBIE_KILL_COOLDOWN)
  /\ (1.1 - 1 < 0.2 ->
      performSlice
        (performSlice plainState 1 rnd0 (Some 0%nat) (V2 0.2 0.5) (V2 0.8 0.5))
        1.1 rnd0 (Some 1%nat) (V2 0.2 0.5) (V2 0.8 0.5)
      = performSlice plainState 1 rnd0 (Some 0%nat) (V2 0.2 0.5) (V2 0.8 0.5))
  /\ (1.25 - 1 > 0.2 ->
      score (performSlice
               (performSlice plainState 1 rnd0 (Some 0%nat) (V2 0.2 0.5) (V2 0.8 0.5))
               1.25 rnd0 (Some 1%nat) (V2 0.2 0.5) (V2 0.8 0.5))
      = (score plainState + 100)%Z).
Proof.
  assert (H1 : nth_error (heap plainState) 0 = Some plainZombie) by reflexivity.
  assert (H2 : zisSliced plainZombie = false) by reflexivity.
  assert (H3 : 1 - lastZombieKillTime plainState >= ZOMBIE_KILL_COOLDOWN).
  { unfold ZOMBIE_KILL_COOLDOWN; cbn. lra. }
  split; [repeat split; assumption|].
  pose proof (cooldown_serializes plainState 1 rnd0 0 plainZombie
                (V2 0.2 0.5) (V2 0.8 0.5) H1 H2 H3) as C.
  cbv zeta in C. destruct C as [E C]. split.
  - intros Hlt.
    destruct (C 1.1 rnd0 1%nat plainZombie ltac:(discriminate)
                ltac:(rewrite E; reflexivity) H2) as [Near _].
    apply (proj1 (Near Hlt)).
  - intros Hgt.
    destruct (C 1.25 rnd0 1%nat plainZombie ltac:(discriminate)
                ltac:(rewrite E; reflexivity) H2) as [_ Far].
    apply (proj1 (Far Hgt) (V2 0.2 0.5) (V2 0.8 0.5)).
Defined.

(** The cut of scenario A on the first zombie of [plainState]. *)
Lemma pieces_pushed_apart_witness :
  (nth_error (heap plainState) 0 = Some plainZombie
   /\ zisSliced plainZombie = false
   /\ 1 - lastZombieKillTime plainState >= ZOMBIE_KILL_COOLDOWN
   /\ V2 0.2 0.5 <> V2 0.8 0.5
   /\ 0 < x3 (zscale plainZombie))
  /\ exists piece1 piece2 : Piece,
      slicedPieces (performSlice plainState 1 rnd0 (Some 0%nat)
                                 (V2 0.2 0.5) (V2 0.8 0.5))
      = slicedPieces plainState ++ [piece1; piece2]
      /\ puSideToKeep piece1 = 1 /\ puSideToKeep piece2 = -1.
Proof.
  assert (H1 : nth_error (heap plainState) 0 = Some plainZombie) by reflexivity.
  assert (H2 : zisSliced plainZombie = false) by reflexivity.
  assert (H3 : 1 - lastZombieKillTime plainState >= ZOMBIE_KILL_COOLDOWN).
  { unfold ZOMBIE_KILL_COOLDOWN; cbn. lra. }
  assert (H4 : V2 0.2 0.5 <> V2 0.8 0.5).
  { intros E. injection E as E. lra. }
  assert (H5 : 0 < x3 (zscale plainZombie)) by (cbn; lra).
  split; [repeat split; assumption|].
  destruct (pieces_pushed_apart plainState 1 rnd0 0 plainZombie
              (V2 0.2 0.5) (V2 0.8 0.5) H1 H2 H3 H4 H5)
    as [p1 [p2 [E [[K1 K2] _]]]].
  exists p1, p2. repeat split; assumption.
Defined.

(** A tick of a sixtieth of a second for [restingPiece]. *)
Lemma resting_piece_tick_witness :
  pisOnFloor restingPiece = true
  /\ exists p',
      stepPiece (1 / 60) restingPiece = Some p'
      /\ x2 (pvelocity p') = snap (0.02 * 0.95)
      /\ protation p' = snap (0.001 * 0.95)
      /\ pdespawnTimer p' = 1 + 1 / 60.
Proof.
  split; [reflexivity|].
  destruct (resting_piece_tick (1 / 60) restingPiece eq_refl) as [_ [Stay _]].
  destruct Stay as [p' [E [V [W [T _]]]]]; [cbn; lra|].
  exists p'. repeat split; assumption.
Defined.

(** A release of the button where it was pressed, in [draggedState]. *)
Lemma gesture_thresholds_witness :
  Vec.distanceTo (sliceStartNDC (mouse draggedState)) (V2 0 0) <= 0.02
  /\ sameGame draggedState (mouseup raycastFirst draggedState (V2 0 0) 1 rnd0)
  /\ isSlicing (mouse (mouseup raycastFirst draggedState (V2 0 0) 1 rnd0)) = false.
Proof.
  assert (D : Vec.distanceTo (sliceStartNDC (mouse draggedState)) (V2 0 0) <= 0.02).
  { apply Rgtb_false, Rgtb_distance_false; [lra|].
    unfold Vec.lengthSq, Vec.subVectors; cbn. lra. }
  split; [exact D|].
  destruct (proj1 (gesture_thresholds raycastFirst draggedState) (V2 0 0) 1 rnd0 D)
    as [G [I _]].
  split; assumption.
Defined.

(** ** [intersectUVSquare] for any start point *)

Lemma axisPass_inv (s d : R) (tMin tMax a b : ER) :
  axisPass s d tMin tMax = Some (a, b) ->
  (Rabs d < 1e-6 /\ 0 <= s <= 1 /\ a = tMin /\ b = tMax)
  \/ (1e-6 <= Rabs d
      /\ exists lo hi,
          lo <= hi /\ a = ERmax tMin lo /\ b = ERmin tMax hi
          /\ (s + d * lo = 0 \/ s + d * lo = 1)
          /\ (s + d * hi = 0 \/ s + d * hi = 1)
          /\ forall t, lo <= t <= hi -> 0 <= s + d * t <= 1).
Proof.
  unfold axisPass. destruct (Rltb (Rabs d) 1e-6) eqn:Ed.
  - apply Rltb_true in Ed.
    destruct (Rltb s 0) eqn:E0; [discriminate|].
    destruct (Rgtb s 1) eqn:E1; [discriminate|].
    apply Rltb_false in E0. apply Rgtb_false in E1.
    cbn [orb]. intros H. inversion H. left. repeat split; try assumption; lra.
  - apply Rltb_false in Ed. intros H. right. split; [exact Ed|].
    assert (Hd0 : d <> 0).
    { intros E. rewrite E, Rabs_R0 in Ed. lra. }
    assert (E1 : d * ((0 - s) / d) = 0 - s) by (field; exact Hd0).
    assert (E2 : d * ((1 - s) / d) = 1 - s) by (field; exact Hd0).
    destruct (Rgtb ((0 - s) / d) ((1 - s) / d)) eqn:Eg.
    + apply Rgtb_true in Eg. inversion H.
      exists ((1 - s) / d), ((0 - s) / d).
      split; [lra|]. split; [reflexivity|]. split; [reflexivity|].
      split; [right; lra|]. split; [left; lra|].
      intros t Ht.
      assert (Hneg : d < 0).
      { destruct (Rlt_dec d 0) as [N|P]; [exact N|].
        assert (0 < d) by lra.
        assert ((0 - s) / d * d = 0 - s) by (field; lra).
        assert ((1 - s) / d * d = 1 - s) by (field; lra). nra. }
      split; nra.
    + apply Rgtb_false in Eg. inversion H.
      exists ((0 - s) / d), ((1 - s) / d).
      split; [lra|]. split; [reflexivity|]. split; [reflexivity|].
      split; [left; lra|]. split; [right; lra|].
      intros t Ht.
      assert (Hpos : 0 < d).
      { destruct (Rlt_dec 0 d) as [P|N]; [exact P|].
        assert (d < 0) by lra.
        assert ((0 - s) / d * d = 0 - s) by (field; lra).
        assert ((1 - s) / d * d = 1 - s) by (field; lra). nra. }
      split; nra.
Qed.

Lemma select_inv (A B t : R) :
  (if ERgtb (Fin A) (Fin B) || ERltR (Fin B) 1e-6 then None
   else
     let tIntersection := if ERgeR (Fin A) 1e-6 then Fin A else Fin B in
     if ERltR tIntersection 1e-6 || ERgtR tIntersection 1e6 then None
     else match tIntersection with
          | Fin t => Some t
          | _ => None
          end) = Some t ->
  1e-6 <= t <= 1e6 /\ A <= t <= B /\ (t = A \/ t = B).
Proof.
  cbn [ERgtb ERltR ERgeR].
  destruct (Rgtb A B) eqn:E1; [discriminate|].
  destruct (Rltb B 1e-6) eqn:E2; [discriminate|].
  apply Rgtb_false in E1. apply Rltb_false in E2. cbn [orb].
  destruct (Rgeb A 1e-6) eqn:E3; cbv beta iota zeta delta [ERltR ERgtR].
  - apply Rgeb_true in E3.
    destruct (Rltb A 1e-6) eqn:E4; [discriminate|].
    destruct (Rgtb A 1e6) eqn:E5; [discriminate|].
    apply Rgtb_false in E5. cbn [orb]. intros H. inversion H. subst t.
    repeat split; lra.
  - apply Rgeb_false in E3.
    destruct (Rltb B 1e-6) eqn:E4; [discriminate|].
    destruct (Rgtb B 1e6) eqn:E5; [discriminate|].
    apply Rgtb_false in E5. cbn [orb]. intros H. inversion H. subst t.
    repeat split; lra.
Qed.

(** X1. Whatever the start point and the direction, a point that
    [intersectUVSquare] returns is the point of the ray at a time between
    1e-6 and 1e6; it lies on one of the four lines that carry the sides of
    the unit square; along an axis on which the direction is not taken for
    parallel its coordinate is in [[0,1]], and along an axis on which it is
    the start's coordinate is. *)
Theorem intersect_sound (start dir p : Vector2) :
  intersectUVSquare start dir = Some p ->
  exists t : R,
    1e-6 <= t <= 1e6
    /\ p = V2 (x2 start + x2 dir * t) (y2 start + y2 dir * t)
    /\ (x2 p = 0 \/ x2 p = 1 \/ y2 p = 0 \/ y2 p = 1)
    /\ (if Rltb (Rabs (x2 dir)) 1e-6 then 0 <= x2 start <= 1 else 0 <= x2 p <= 1)
    /\ (if Rltb (Rabs (y2 dir)) 1e-6 then 0 <= y2 start <= 1 else 0 <= y2 p <= 1).
Proof.
  unfold intersectUVSquare.
  destruct (intersectionTime start dir) as [t|] eqn:E; [|discriminate].
  intros H. inversion H. subst p. clear H. exists t.
  unfold Vec.addVectors, Vec.multiplyScalar. cbn [x2 y2].
  unfold intersectionTime in E.
  destruct (axisPass (x2 start) (x2 dir) NegInf PosInf) as [[a1 b1]|] eqn:E1;
    [|discriminate].
  destruct (axisPass (y2 start) (y2 dir) a1 b1) as [[a2 b2]|] eqn:E2;
    [|discriminate].
  apply axisPass_inv in E1. apply axisPass_inv in E2.
  destruct E1 as [[Dx [Sx [A1 B1]]]|[Dx [lx [hx [Lx [A1 [B1 [Ox [Px Wx]]]]]]]]];
    destruct E2 as [[Dy [Sy [A2 B2]]]|[Dy [ly [hy [Ly [A2 [B2 [Oy [Py Wy]]]]]]]]];
    subst a1 b1 a2 b2; cbn [ERmax ERmin] in E.
  - (* both parallel *)
    cbn in E. discriminate.
  - (* only y *)
    apply select_inv in E. destruct E as [T [[T1 T2] T3]].
    rewrite (proj2 (Rltb_true _ _) Dx), (proj2 (Rltb_false _ _) Dy).
    split; [exact T|]. split; [reflexivity|].
    split; [destruct T3; subst t; tauto|].
    split; [exact Sx|]. apply Wy. lra.
  - (* only x *)
    apply select_inv in E. destruct E as [T [[T1 T2] T3]].
    rewrite (proj2 (Rltb_false _ _) Dx), (proj2 (Rltb_true _ _) Dy).
    split; [exact T|]. split; [reflexivity|].
    split; [destruct T3; subst t; tauto|].
    split; [apply Wx; lra|exact Sy].
  - (* both *)
    apply select_inv in E. destruct E as [T [[T1 T2] T3]].
    rewrite (proj2 (Rltb_false _ _) Dx), (proj2 (Rltb_false _ _) Dy).
    pose proof (Rmax_l lx ly). pose proof (Rmax_r lx ly).
    pose proof (Rmin_l hx hy). pose proof (Rmin_r hx hy).
    split; [exact T|]. split; [reflexivity|].
    split.
    { destruct T3 as [T3|T3]; subst t.
      - unfold Rmax; destruct (Rle_dec lx ly); tauto.
      - unfold Rmin; destruct (Rle_dec hx hy); tauto. }
    split; [apply Wx; lra|apply Wy; lra].
Qed.

(** ** The loop over the active zombies *)

Lemma arrives_list_set dt h id v id' :
  id <> id' -> arrives dt (list_set id v h) id' = arrives dt h id'.
Proof.
  intros Hne. unfold arrives. rewrite nth_error_list_set_other by exact Hne.
  reflexivity.
Qed.

Lemma loseLives_S k lg :
  loseLives (k + 1) lg = loseLives k (loseLife (fst lg) (snd lg)).
Proof.
  unfold loseLives. rewrite Nat.iter_add. cbn [Nat.iter]. reflexivity.
Qed.

Lemma animateZombies_loop (deltaTime : R) (l1 : list nat) :
  forall (l2 : list nat) (s : State),
    activeZombies s = l1 ++ l2 -> NoDup (l1 ++ l2) ->
    (forall id, In id l1 -> (id < List.length (heap s))%nat) ->
    let s' := animateZombies deltaTime (List.length l1) s in
    let lg := loseLives (List.length (filter (arrives deltaTime (heap s)) l1))
                        (lives s, gameOver s) in
    s' = setWorld s (heap s') (filter (stays deltaTime (heap s)) l1 ++ l2)
                  (sceneZombies s') (fst lg) (snd lg)
    /\ List.length (heap s') = List.length (heap s)
    /\ (forall id, ~ In id l1 -> nth_error (heap s') id = nth_error (heap s) id)
    /\ (forall id z, In id l1 -> nth_error (heap s) id = Some z ->
                     nth_error (heap s') id = Some (walked deltaTime z)).
Proof.
  induction l1 as [|id l IH] using rev_ind; intros l2 s Ha Hn Hh.
  - cbn [List.length animateZombies filter app]. cbv zeta. unfold loseLives.
    cbn [Nat.iter fst snd].
    split; [destruct s; cbn in *; subst; reflexivity|].
    split; [reflexivity|]. split; [reflexivity|]. intros id z [].
  - rewrite length_app. cbn [List.length]. rewrite Nat.add_1_r.
    cbn [animateZombies]. cbv zeta.
    assert (Hj : nth_error (activeZombies s) (List.length l) = Some id).
    { rewrite Ha, <- app_assoc. apply nth_error_middle. }
    rewrite Hj.
    assert (Hid : (id < List.length (heap s))%nat)
      by (apply Hh, in_or_app; right; now left).
    destruct (nth_error (heap s) id) as [z|] eqn:Hz;
      [|apply nth_error_None in Hz; lia].
    assert (Hnl : ~ In id l).
    { rewrite <- app_assoc in Hn. apply NoDup_remove_2 in Hn.
      intros Hi. apply Hn, in_or_app. now left. }
    assert (Hext : forall v f,
               (f = arrives \/ f = stays) ->
               filter (f deltaTime (list_set id v (heap s))) l
               = filter (f deltaTime (heap s)) l).
    { intros v f Hf. apply filter_ext_in. intros a Hin.
      assert (id <> a) by (intros E; subst; contradiction).
      destruct Hf; subst f; unfold stays; rewrite arrives_list_set by assumption;
        reflexivity. }
    assert (Harr : arrives deltaTime (heap s) id
                   = Rgeb (z3 (zposition (moveZombie deltaTime z))) ZOMBIE_END_Z)
      by (unfold arrives; rewrite Hz; reflexivity).
    assert (Hst : stays deltaTime (heap s) id
                  = negb (Rgeb (z3 (zposition (moveZombie deltaTime z))) ZOMBIE_END_Z))
      by (unfold stays; rewrite Harr; reflexivity).
    rewrite !filter_app. cbn [filter]. rewrite Harr, Hst.
    destruct (Rgeb (z3 (zposition (moveZombie deltaTime z))) ZOMBIE_END_Z) eqn:Eg.
    + (* the zombie is removed *)
      destruct (loseLife (lives s) (gameOver s)) as [l' g'] eqn:El.
      set (s1 := setWorld s (list_set id (moveZombie deltaTime z) (heap s))
                          (splice1 (List.length l) (activeZombies s))
                          (removeRef id (sceneZombies s)) l' g').
      assert (Ha1 : activeZombies s1 = l ++ l2).
      { subst s1. cbn [activeZombies setWorld]. rewrite Ha, <- app_assoc.
        apply splice1_middle. }
      assert (Hn1 : NoDup (l ++ l2)).
      { rewrite <- app_assoc in Hn. apply NoDup_remove_1 in Hn. exact Hn. }
      destruct (IH l2 s1 Ha1 Hn1) as [E [L [O I]]].
      { intros a Hin. subst s1. cbn [heap setWorld]. rewrite list_set_length.
        apply Hh, in_or_app. now left. }
      cbv zeta in E. subst s1. cbn [heap lives gameOver setWorld] in *.
      rewrite (Hext _ arrives) in E by now left.
      rewrite (Hext _ stays) in E by now right.
      cbn [negb app List.length]. rewrite length_app. cbn [List.length].
      rewrite loseLives_S. cbn [fst snd]. rewrite El, app_nil_r.
      split; [exact E|]. split; [rewrite L; apply list_set_length|].
      split.
      * intros a Hna. rewrite O by (intros Hi; apply Hna, in_or_app; now left).
        apply nth_error_list_set_other. intros E'. subst a.
        apply Hna, in_or_app. right. now left.
      * intros a za Hin Hza. apply in_app_or in Hin. destruct Hin as [Hin|[E'|[]]].
        -- apply I; [exact Hin|].
           rewrite nth_error_list_set_other; [exact Hza|].
           intros E'. subst a. contradiction.
        -- subst a. rewrite O by exact Hnl.
           rewrite nth_error_list_set_same by exact Hid.
           rewrite Hz in Hza. inversion Hza. subst za.
           unfold walked. rewrite Eg. reflexivity.
    + (* the zombie walks on *)
      set (s1 := setWorld s (list_set id (animateFrame deltaTime
                                            (moveZombie deltaTime z)) (heap s))
                          (activeZombies s) (sceneZombies s) (lives s) (gameOver s)).
      assert (Ha1 : activeZombies s1 = l ++ id :: l2).
      { subst s1. cbn [activeZombies setWorld]. rewrite Ha, <- app_assoc.
        reflexivity. }
      assert (Hn1 : NoDup (l ++ id :: l2)).
      { rewrite <- app_assoc in Hn. exact Hn. }
      destruct (IH (id :: l2) s1 Ha1 Hn1) as [E [L [O I]]].
      { intros a Hin. subst s1. cbn [heap setWorld]. rewrite list_set_length.
        apply Hh, in_or_app. now left. }
      cbv zeta in E. subst s1. cbn [heap lives gameOver setWorld] in *.
      rewrite (Hext _ arrives) in E by now left.
      rewrite (Hext _ stays) in E by now right.
      cbn [negb app List.length]. rewrite app_nil_r, <- app_assoc.
      split; [exact E|]. split; [rewrite L; apply list_set_length|].
      split.
      * intros a Hna. rewrite O by (intros Hi; apply Hna, in_or_app; now left).
        apply nth_error_list_set_other. intros E'. subst a.
        apply Hna, in_or_app. right. now left.
      * intros a za Hin Hza. apply in_app_or in Hin. destruct Hin as [Hin|[E'|[]]].
        -- apply I; [exact Hin|].
           rewrite nth_error_list_set_other; [exact Hza|].
           intros E'. subst a. contradiction.
        -- subst a. rewrite O by exact Hnl.
           rewrite nth_error_list_set_same by exact Hid.
           rewrite Hz in Hza. inversion Hza. subst za.
           unfold walked. rewrite Eg. reflexivity.
Qed.

(** ** Invariants, by the elementary steps of the handlers *)

Section Elementary.

Variable raycast : Vector2 -> list (nat * Zombie) -> option (Vector2 * nat).
Variable aspect : R.
Variable P : State -> Prop.

Hypothesis P_init : P (initialState aspect).
Hypothesis P_mouse : forall s m, P s -> P (setMouse s m).
Hypothesis P_previous : forall s p, P s -> P (setPreviousFingerTipNDC s p).
Hypothesis P_slice :
  forall s now rnd id z a b,
    referencesSound s -> validDraws rnd ->
    nth_error (heap s) id = Some z -> zisSliced z = false ->
    inUnitSquare a -> inUnitSquare b ->
    P s -> P (executeSlice s now rnd id z a b).
Hypothesis P_spawn :
  forall s rnd, referencesSound s -> validDraws rnd -> P s -> P (spawnZombie s rnd).
Hypothesis P_animate :
  forall s deltaTime rnd,
    referencesSound s -> 0 <= deltaTime -> validDraws rnd ->
    P s -> P (animate s deltaTime rnd).
Hypothesis P_blood :
  forall s l, enabled s (BloodTextureLoaded l) -> P s -> P (bloodTextureLoaded s l).
Hypothesis P_frames :
  forall s l index width height,
    enabled s (ZombieFrameLoaded l index width height (fun _ => 0)) ->
    P s ->
    P (setFrames s
         (if Nat.eqb index 0 then Some (5 * (width / height), 5)
          else zombieGeometry s)
         (if Nat.eqb (match l with
                      | TopLevel => S (loadedZombieFrameCount s)
                      | LoadAssets => S (assetsZombieFrameCount s)
                      end) ZOMBIE_FRAME_COUNT
          then true else allZombieFramesLoaded s)
         (match l with
          | TopLevel => S (loadedZombieFrameCount s)
          | LoadAssets => loadedZombieFrameCount s
          end)
         (match l with
          | TopLevel => assetsZombieFrameCount s
          | LoadAssets => S (assetsZombieFrameCount s)
          end)).
Hypothesis P_aspect : forall s a, P s -> P (setCameraAspect s a).

Lemma resolveSliceUV_in s a b :
  resolveSliceUV s = Some (a, b) -> inUnitSquare a /\ inUnitSquare b.
Proof.
  unfold resolveSliceUV. cbv zeta.
  destruct (sliceStartValid (mouse s) && sliceEndValid (mouse s))%bool.
  - intros E. apply checkAndClamp_some in E. unfold acceptedCut in E. tauto.
  - destruct (sliceStartValid (mouse s) && negb (sliceEndValid (mouse s)))%bool;
      [|discriminate].
    destruct (intersectUVSquare _ _); [|discriminate].
    intros E. apply checkAndClamp_some in E. unfold acceptedCut in E. tauto.
Qed.

Lemma resolveSliceUVHand_in aspect0 uv p q e a b :
  resolveSliceUVHand aspect0 uv p q e = Some (a, b) ->
  inUnitSquare a /\ inUnitSquare b.
Proof.
  unfold resolveSliceUVHand. cbv zeta.
  destruct (Rltb _ _); [discriminate|].
  destruct (Rltb _ _); [discriminate|].
  destruct e as [endUV|].
  - intros E. apply checkAndClamp_some in E. unfold acceptedCut in E. tauto.
  - destruct (intersectUVSquare _ _); [|discriminate].
    intros E. apply checkAndClamp_some in E. unfold acceptedCut in E. tauto.
Qed.

Lemma performSlice_elementary s now rnd target a b :
  validDraws rnd -> referencesSound s -> inUnitSquare a -> inUnitSquare b -> P s ->
  P (performSlice s now rnd target a b).
Proof.
  intros Hv Hs Ia Ib H. unfold performSlice. destruct target as [id|]; [|exact H].
  destruct (nth_error (heap s) id) as [z|] eqn:Hz; [|exact H].
  destruct (zisSliced z) eqn:Ez; [exact H|].
  destruct (Rltb _ _); [exact H|].
  apply P_slice; assumption.
Qed.

Lemma handle_elementary s e :
  enabled s e -> referencesSound s -> P s -> P (handle raycast s e).
Proof.
  intros He Hs H. destruct e; cbn [handle].
  - apply P_blood; assumption.
  - unfold zombieFrameLoaded.
    assert (He' : enabled s (ZombieFrameLoaded l index width height (fun _ => 0))).
    { cbn [enabled] in *. destruct l; (split; [tauto|]); intros k; lra. }
    pose proof (P_frames s l index width height He' H) as F.
    destruct l; destruct (Nat.eqb _ ZOMBIE_FRAME_COUNT); try exact F.
    apply P_spawn; [exact Hs | cbn [enabled] in He; tauto | exact F].
  - apply P_spawn; assumption.
  - apply P_aspect, H.
  - unfold mousedown. destruct (zombieGeometry s); [|exact H].
    destruct (getUVCoords raycast s ndc) as [[uv object]|]; apply P_mouse, H.
  - unfold mousemove. destruct (isSlicing (mouse s)); [apply P_mouse|]; exact H.
  - cbn [enabled] in He. unfold mouseup.
    destruct (isSlicing (mouse s)); [|apply P_mouse, H].
    destruct (zombieToSlice (mouse s)) as [target|]; [|apply P_mouse, H].
    unfold resetMouse. apply P_mouse.
    destruct (Rgtb _ _); [|apply P_mouse, H].
    unfold calculateAndPerformSlice.
    destruct (zombieToSlice _); [|apply P_mouse, H].
    destruct (resolveSliceUV _) as [[a b]|] eqn:Er; [|apply P_mouse, H].
    destruct (resolveSliceUV_in _ a b Er) as [Ia Ib].
    apply performSlice_elementary;
      [exact He | exact Hs | exact Ia | exact Ib | apply P_mouse, H].
  - cbn [enabled] in He. unfold processHandData.
    destruct (gameOver s); [exact H|].
    destruct results as [|[raw|]]; try (apply P_previous, H).
    apply P_previous. unfold frameToFrameCheck.
    destruct (previousFingerTipNDC s) as [previous|]; [|exact H].
    destruct (Rgtb _ _); [|exact H].
    destruct (getUVCoordsFromNDC raycast s previous) as [[uv id]|]; [|exact H].
    unfold calculateAndPerformSliceHand.
    destruct (nth_error (heap s) id) as [z|]; [|exact H].
    destruct (zisSliced z); [exact H|].
    destruct (resolveSliceUVHand _ _ _ _ _) as [[a b]|] eqn:Er; [|exact H].
    destruct (resolveSliceUVHand_in _ _ _ _ _ a b Er) as [Ia Ib].
    apply performSlice_elementary; assumption.
  - cbn [enabled] in He. apply P_animate; tauto.
Qed.

Lemma reachable_elementary s : reachable raycast aspect s -> P s.
Proof.
  induction 1 as [|s e Hr IH He].
  - exact P_init.
  - apply handle_elementary; [exact He | eapply reachable_sound, Hr | exact IH].
Qed.

End Elementary.

(** ** Where the zombies are *)

Lemma pathWidth_eq (z : R) :
  calculatePathWidth z
  = Rmax 0.1 ((1 - (z + 20) / 23) * 8 + (z + 20) / 23 * 2).
Proof.
  unfold calculatePathWidth, ZOMBIE_END_Z, ZOMBIE_START_Z, PATH_WIDTH_START,
    PATH_WIDTH_END.
  replace (3 - -20) with 23 by lra.
  rewrite Rabs_right by lra. cmp.
  f_equal. lra.
Qed.

Lemma pathWidth_pos (z : R) : 0.1 <= calculatePathWidth z.
Proof. rewrite pathWidth_eq. apply Rmax_l. Qed.

Lemma clamp_abs (h x : R) : 0 <= h -> Rabs (Rmax (- h) (Rmin h x)) <= h.
Proof.
  intros Hh. unfold Rmax, Rmin, Rabs.
  repeat match goal with
         | |- context [Rle_dec ?a ?b] => destruct (Rle_dec a b)
         | |- context [Rcase_abs ?a] => destruct (Rcase_abs a)
         end; lra.
Qed.

Lemma moveZombie_placed deltaTime z :
  0 <= deltaTime -> zombiePlaced z -> zombiePlaced (moveZombie deltaTime z).
Proof.
  intros Hdt [Hs [Hy [Hx [Hv [Hz [Hb Hh]]]]]].
  unfold zombiePlaced, moveZombie, Vec.addScaledVector. rewrite Hv.
  cbn [zposition zscale zvelocity zbaseScale zheight x3 y3 z3].
  repeat split; try assumption; try lra.
  - apply clamp_abs. pose proof (pathWidth_pos (z3 (zposition z) +
                                                 ZOMBIE_WALK_SPEED * deltaTime)).
    lra.
  - unfold ZOMBIE_WALK_SPEED, ZOMBIE_START_Z in *. nra.
Qed.

Lemma animateFrame_placed deltaTime z :
  zombiePlaced z -> zombiePlaced (animateFrame deltaTime z).
Proof.
  intros H. unfold animateFrame. destruct (Rgeb _ _); exact H.
Qed.

Lemma updateMatrixWorld_placed z : zombiePlaced z -> zombiePlaced (updateMatrixWorld z).
Proof. intros H. exact H. Qed.

Lemma render_Forall_gen (Q : Zombie -> Prop) scene h :
  (forall z, Q z -> Q (updateMatrixWorld z)) ->
  Forall Q h -> Forall Q (render scene h).
Proof.
  intros HQ H. unfold render. rewrite Forall_forall in *.
  intros z Hin. apply in_map_iff in Hin. destruct Hin as [[i z0] [E Hin]].
  apply in_combine_r in Hin. cbn [fst snd] in E.
  destruct (existsb _ _); subst z; [apply HQ|]; apply H, Hin.
Qed.

Lemma animateZombies_Forall (Q : Zombie -> Prop) deltaTime :
  (forall z, Q z -> Q (moveZombie deltaTime z)) ->
  (forall z, Q z -> Q (animateFrame deltaTime z)) ->
  forall i s, Forall Q (heap s) -> Forall Q (heap (animateZombies deltaTime i s)).
Proof.
  intros Hm Hf. induction i as [|j IH]; intros s H; cbn [animateZombies]; [exact H|].
  destruct (nth_error (activeZombies s) j) as [id|]; [|apply IH, H].
  destruct (nth_error (heap s) id) as [z|] eqn:Hz; [|apply IH, H].
  assert (Hq : Q z).
  { rewrite Forall_forall in H. apply H. eapply nth_error_In, Hz. }
  destruct (Rgeb _ _).
  - destruct (loseLife _ _) as [l g]. apply IH. cbn [heap setWorld].
    apply list_set_Forall; [apply Hm, Hq | exact H].
  - apply IH. cbn [heap setWorld].
    apply list_set_Forall; [apply Hf, Hm, Hq | exact H].
Qed.

Lemma animateZombies_geometry deltaTime i s :
  zombieGeometry (animateZombies deltaTime i s) = zombieGeometry s.
Proof.
  revert s. induction i as [|j IH]; intros s; cbn [animateZombies]; [reflexivity|].
  destruct (nth_error (activeZombies s) j) as [id|]; [|apply IH].
  destruct (nth_error (heap s) id) as [z|]; [|apply IH].
  destruct (Rgeb _ _); [destruct (loseLife _ _) as [l g]|]; rewrite IH; reflexivity.
Qed.

Lemma spawnZombie_placed s rnd :
  validDraws rnd -> worldPlaced s -> worldPlaced (spawnZombie s rnd).
Proof.
  intros Hv W. pose proof W as [Hh Hg].
  unfold spawnZombie. destruct (gameOver s); [exact W|].
  destruct (allZombieFramesLoaded s); [|exact W].
  destruct (zombieGeometry s) as [[w h]|] eqn:Eg; [|exact W].
  split; [|exact (proj2 W)].
  cbn [heap setWorld]. apply Forall_app. split; [exact Hh|].
  constructor; [|constructor].
  pose proof (Hv 0%nat) as H0. pose proof (Hv 1%nat) as H1.
  pose proof (pathWidth_pos ZOMBIE_START_Z) as Hw.
  unfold zombiePlaced.
  cbn [zposition zscale zvelocity zbaseScale zheight x3 y3 z3].
  unfold RED_LINE_Y_OFFSET. repeat split; try lra.
  - unfold Rabs. destruct (Rcase_abs _); nra.
  - apply (Hg w h eq_refl).
Qed.

Lemma executeSlice_placed s now rnd id z a b :
  worldPlaced s -> worldPlaced (executeSlice s now rnd id z a b).
Proof. intros H. exact H. Qed.

Lemma animate_placed s deltaTime rnd :
  0 <= deltaTime -> worldPlaced s -> worldPlaced (animate s deltaTime rnd).
Proof.
  intros Hdt [Hh Hg]. split.
  - unfold animate. cbn [heap].
    apply render_Forall_gen; [exact updateMatrixWorld_placed|].
    apply animateZombies_Forall;
      [intros z; apply moveZombie_placed, Hdt | apply animateFrame_placed | exact Hh].
  - unfold animate. cbn [zombieGeometry]. rewrite animateZombies_geometry. exact Hg.
Qed.

Lemma reachable_placed raycast aspect s :
  reachable raycast aspect s -> worldPlaced s.
Proof.
  apply (reachable_elementary raycast aspect worldPlaced).
  - split; [constructor|]. intros w h E. discriminate.
  - intros s0 m H. exact H.
  - intros s0 p H. exact H.
  - intros s0 now rnd id z a b _ _ _ _ _ _ H. exact H.
  - intros s0 rnd _ Hv H. apply spawnZombie_placed; assumption.
  - intros s0 dt rnd _ Hdt _ H. apply animate_placed; assumption.
  - intros s0 l _ H. unfold bloodTextureLoaded. destruct (Nat.eqb _ _); exact H.
  - intros s0 l index w h _ [Hh Hg]. split; [exact Hh|].
    cbn [zombieGeometry setFrames]. destruct (Nat.eqb index 0).
    + intros w' h' E. inversion E. reflexivity.
    + exact Hg.
  - intros s0 a H. exact H.
Qed.

(** ** A frame, for the whole list of active zombies *)

Lemma loseLives_sound k l g :
  (l <= 3)%nat -> (g = true <-> l = 0%nat) ->
  (fst (loseLives k (l, g)) <= 3)%nat
  /\ (snd (loseLives k (l, g)) = true <-> fst (loseLives k (l, g)) = 0%nat).
Proof.
  intros Hl Hg. induction k as [|k [A B]]; [cbn; tauto|].
  unfold loseLives in *. rewrite Nat.iter_succ.
  destruct (Nat.iter k _ (l, g)) as [l1 g1]. cbn [fst snd] in *.
  unfold loseLife.
  destruct g1; [cbn [negb andb fst snd]; split; [exact A|exact B]|].
  destruct l1 as [|[|l1]]; cbn [negb andb Nat.ltb Nat.leb Nat.pred Nat.eqb fst snd];
    intuition (try lia; try discriminate; try congruence).
Qed.

Lemma loseLives_closed k l g :
  loseLives k (l, g)
  = if g then (l, g)
    else ((l - Nat.min l k)%nat, (Nat.ltb 0 l && Nat.leb l k)%bool).
Proof.
  induction k as [|k IH].
  - cbn. destruct g; [reflexivity|]. rewrite Nat.min_0_r, Nat.sub_0_r.
    destruct l; reflexivity.
  - unfold loseLives in *. rewrite Nat.iter_succ, IH.
    destruct g; [reflexivity|]. cbn [fst snd]. unfold loseLife.
    destruct (Nat.ltb 0 l && Nat.leb l k)%bool eqn:E; cbn [negb andb].
    + apply andb_prop in E. destruct E as [E1 E2].
      apply Nat.ltb_lt in E1. apply Nat.leb_le in E2.
      f_equal; [lia|]. symmetry. apply andb_true_intro.
      split; [apply Nat.ltb_lt; lia|apply Nat.leb_le; lia].
    + apply andb_false_iff in E. destruct E as [E|E].
      * apply Nat.ltb_ge in E. assert (l = 0%nat) by lia. subst l.
        reflexivity.
      * apply Nat.leb_gt in E.
        assert (E1 : Nat.ltb 0 (l - Nat.min l k) = true) by (apply Nat.ltb_lt; lia).
        rewrite E1.
        f_equal; [lia|].
        assert (E2 : Nat.ltb 0 l = true) by (apply Nat.ltb_lt; lia).
        rewrite E2. cbn [andb].
        destruct (Nat.eqb (Nat.pred (l - Nat.min l k)) 0) eqn:E3.
        -- apply Nat.eqb_eq in E3. symmetry. apply Nat.leb_le. lia.
        -- apply Nat.eqb_neq in E3. symmetry. apply Nat.leb_gt. lia.
Qed.

(** The loop of a frame over the whole of [activeZombies]. *)
Lemma animateZombies_all (deltaTime : R) (s : State) :
  referencesSound s ->
  let s' := animateZombies deltaTime (List.length (activeZombies s)) s in
  let lg := loseLives
              (List.length (filter (arrives deltaTime (heap s)) (activeZombies s)))
              (lives s, gameOver s) in
  s' = setWorld s (heap s') (filter (stays deltaTime (heap s)) (activeZombies s))
                (sceneZombies s') (fst lg) (snd lg)
  /\ List.length (heap s') = List.length (heap s)
  /\ (forall id z, In id (activeZombies s) -> nth_error (heap s) id = Some z ->
                   nth_error (heap s') id = Some (walked deltaTime z)).
Proof.
  intros [Hn [Ha _]].
  destruct (animateZombies_loop deltaTime (activeZombies s) [] s)
    as [E [L [_ I]]];
    [symmetry; apply app_nil_r | rewrite app_nil_r; exact Hn | exact Ha |].
  cbv zeta in *. rewrite app_nil_r in E. split; [exact E|]. split; assumption.
Qed.

Lemma indexOf_middle (l1 l2 : list nat) (id : nat) :
  ~ In id l1 -> indexOf id (l1 ++ id :: l2) = Some (List.length l1).
Proof.
  induction l1 as [|a l IH]; intros Hn; cbn [indexOf app List.length].
  - rewrite Nat.eqb_refl. reflexivity.
  - destruct (Nat.eqb a id) eqn:Ea.
    + apply Nat.eqb_eq in Ea. subst a. exfalso. apply Hn. now left.
    + rewrite IH; [reflexivity|]. intros Hi. apply Hn. now right.
Qed.

Lemma removeRef_nth (l : list nat) (j id : nat) :
  NoDup l -> nth_error l j = Some id -> removeRef id l = splice1 j l.
Proof.
  intros Hn Hj. apply nth_error_split in Hj. destruct Hj as [l1 [l2 [E Hl]]].
  subst l j. apply NoDup_remove_2 in Hn.
  unfold removeRef. rewrite indexOf_middle; [reflexivity|].
  intros Hi. apply Hn, in_or_app. now left.
Qed.

(** ** Invariants of the game *)

Lemma walked_position deltaTime z :
  zposition (walked deltaTime z) = zposition (moveZombie deltaTime z).
Proof.
  unfold walked. destruct (Rgeb _ _); [reflexivity|].
  apply (proj1 (animateFrame_far deltaTime _)).
Qed.

Lemma animate_active s deltaTime rnd :
  referencesSound s ->
  activeZombies (animate s deltaTime rnd)
  = filter (stays deltaTime (heap s)) (activeZombies s).
Proof.
  intros Hs. destruct (animateZombies_all deltaTime s Hs) as [E _].
  cbv zeta in E. unfold animate. cbn [activeZombies].
  apply (f_equal activeZombies) in E. exact E.
Qed.

Lemma animate_ahead s deltaTime rnd :
  referencesSound s -> activeAhead (animate s deltaTime rnd).
Proof.
  intros Hs id z Hin Hz. rewrite animate_active in Hin by exact Hs.
  apply filter_In in Hin. destruct Hin as [Hin Hst].
  destruct (animateZombies_all deltaTime s Hs) as [_ [_ I]]. cbv zeta in I.
  pose proof Hs as [_ [Ha _]].
  destruct (nth_error (heap s) id) as [z0|] eqn:Hz0;
    [|apply nth_error_None in Hz0; apply Ha in Hin; lia].
  specialize (I id z0 Hin Hz0).
  unfold animate in Hz. cbn [heap] in Hz.
  destruct (render_nth (sceneZombies
                          (animateZombies deltaTime (List.length (activeZombies s)) s))
                       _ id _ I) as [z' [Hz' [Hp _]]].
  rewrite Hz in Hz'. inversion Hz'. subst z'. rewrite Hp, walked_position.
  unfold stays, arrives in Hst. rewrite Hz0 in Hst.
  apply negb_true_iff, Rgeb_false in Hst. exact Hst.
Qed.

Lemma reachable_ahead raycast aspect s :
  reachable raycast aspect s -> activeAhead s.
Proof.
  apply (reachable_elementary raycast aspect activeAhead).
  - intros id z [].
  - intros s0 m H. exact H.
  - intros s0 p H. exact H.
  - intros s0 now rnd id z a b _ _ _ _ _ _ H id' z' Hin Hz.
    cbn [activeZombies heap executeSlice] in *.
    apply (H id' z'); [eapply removeRef_In, Hin | exact Hz].
  - intros s0 rnd [_ [Ha _]] _ H. unfold spawnZombie.
    destruct (gameOver s0); [exact H|].
    destruct (allZombieFramesLoaded s0); [|exact H].
    destruct (zombieGeometry s0) as [[w h]|]; [|exact H].
    intros id z Hin Hz. cbn [activeZombies heap setWorld] in *.
    apply in_app_or in Hin. destruct Hin as [Hin|[E|[]]].
    + rewrite nth_error_app1 in Hz by (apply Ha, Hin). apply (H id z Hin Hz).
    + subst id. rewrite nth_error_app2, Nat.sub_diag in Hz by lia.
      cbn in Hz. inversion Hz. cbn. unfold ZOMBIE_START_Z, ZOMBIE_END_Z. lra.
  - intros s0 dt rnd Hs _ _ _. apply animate_ahead, Hs.
  - intros s0 l _ H. unfold bloodTextureLoaded. destruct (Nat.eqb _ _); exact H.
  - intros s0 l index w h _ H. exact H.
  - intros s0 a H. exact H.
Qed.

(** The scene holds the active zombies. *)
Lemma animateZombies_scene deltaTime i s :
  NoDup (activeZombies s) -> sceneZombies s = activeZombies s ->
  sceneZombies (animateZombies deltaTime i s)
  = activeZombies (animateZombies deltaTime i s).
Proof.
  revert s. induction i as [|j IH]; intros s Hn E; cbn [animateZombies]; [exact E|].
  destruct (nth_error (activeZombies s) j) as [id|] eqn:Hj; [|apply IH; assumption].
  destruct (nth_error (heap s) id) as [z|]; [|apply IH; assumption].
  destruct (Rgeb _ _).
  - destruct (loseLife _ _) as [l g]. apply IH; cbn [activeZombies sceneZombies setWorld].
    + apply splice1_NoDup, Hn.
    + rewrite E. apply removeRef_nth; assumption.
  - apply IH; assumption.
Qed.

Lemma reachable_scene raycast aspect s :
  reachable raycast aspect s -> sceneZombies s = activeZombies s.
Proof.
  apply (reachable_elementary raycast aspect
           (fun s => sceneZombies s = activeZombies s)).
  - reflexivity.
  - intros s0 m H. exact H.
  - intros s0 p H. exact H.
  - intros s0 now rnd id z a b _ _ _ _ _ _ H.
    cbn [activeZombies sceneZombies executeSlice]. rewrite H. reflexivity.
  - intros s0 rnd _ _ H. unfold spawnZombie.
    destruct (gameOver s0); [exact H|].
    destruct (allZombieFramesLoaded s0); [|exact H].
    destruct (zombieGeometry s0) as [[w h]|]; [|exact H].
    cbn [activeZombies sceneZombies setWorld]. rewrite H. reflexivity.
  - intros s0 dt rnd [Hn _] _ _ H. unfold animate.
    cbn [activeZombies sceneZombies]. apply animateZombies_scene; assumption.
  - intros s0 l _ H. unfold bloodTextureLoaded. destruct (Nat.eqb _ _); exact H.
  - intros s0 l index w h _ H. exact H.
  - intros s0 a H. exact H.
Qed.

(** The lives, the score and the pieces. *)
Lemma stepAllPieces_length_le deltaTime pieces :
  (List.length (stepAllPieces deltaTime pieces) <= List.length pieces)%nat.
Proof.
  unfold stepAllPieces. induction pieces as [|p l IH]; cbn [flat_map List.length].
  - lia.
  - rewrite length_app. destruct (stepPiece deltaTime p); cbn [List.length]; lia.
Qed.

Lemma animate_tally s deltaTime rnd :
  referencesSound s ->
  let lg := loseLives
              (List.length (filter (arrives deltaTime (heap s)) (activeZombies s)))
              (lives s, gameOver s) in
  lives (animate s deltaTime rnd) = fst lg
  /\ gameOver (animate s deltaTime rnd) = snd lg
  /\ score (animate s deltaTime rnd) = score s
  /\ sliceLog (animate s deltaTime rnd) = sliceLog s
  /\ List.length (heap (animate s deltaTime rnd)) = List.length (heap s).
Proof.
  intros Hs. destruct (animateZombies_all deltaTime s Hs) as [E [L _]].
  cbv zeta in *. unfold animate. cbn [lives gameOver score sliceLog heap].
  rewrite render_length, L.
  pose proof (f_equal lives E) as E1. pose proof (f_equal gameOver E) as E2.
  pose proof (f_equal score E) as E3. pose proof (f_equal sliceLog E) as E4.
  cbn [lives gameOver score sliceLog setWorld] in E1, E2, E3, E4.
  repeat split; first [assumption | reflexivity].
Qed.

Lemma reachable_tally raycast aspect s :
  reachable raycast aspect s -> tallySound s.
Proof.
  apply (reachable_elementary raycast aspect tallySound).
  - unfold tallySound. cbn. repeat split; try lia; discriminate.
  - intros s0 m H. exact H.
  - intros s0 p H. exact H.
  - intros s0 now rnd id z a b _ _ _ _ _ _ [Hl [Hg [Hsc Hp]]].
    unfold tallySound. cbn [lives gameOver score sliceLog slicedPieces executeSlice].
    rewrite !length_app. cbn [List.length].
    repeat split; try tauto; lia.
  - intros s0 rnd _ _ H. unfold spawnZombie.
    destruct (gameOver s0) eqn:Eg; [exact H|].
    destruct (allZombieFramesLoaded s0); [|exact H].
    destruct (zombieGeometry s0) as [[w h]|]; [|exact H].
    unfold tallySound in *. cbn [lives gameOver score sliceLog slicedPieces setWorld].
    rewrite Eg in H. exact H.
  - intros s0 dt rnd Hs _ _ [Hl [Hg [Hsc Hp]]].
    destruct (animate_tally s0 dt rnd Hs) as [A [B [C [D _]]]]. cbv zeta in *.
    destruct (loseLives_sound
                (List.length (filter (arrives dt (heap s0)) (activeZombies s0)))
                (lives s0) (gameOver s0) Hl Hg) as [Hl' Hg'].
    unfold tallySound. rewrite A, B, C, D, animate_slicedPieces.
    pose proof (stepAllPieces_length_le dt (slicedPieces s0)).
    repeat split; try tauto; lia.
  - intros s0 l _ H. unfold bloodTextureLoaded. destruct (Nat.eqb _ _); exact H.
  - intros s0 l index w h _ H. exact H.
  - intros s0 a H. exact H.
Qed.

(** Nothing goes back. *)
Lemma notBefore_refl s : notBefore s s.
Proof.
  unfold notBefore. repeat split; try lia; try tauto.
  exists []. symmetry. apply app_nil_r.
Qed.

Lemma notBefore_trans s1 s2 s3 :
  notBefore s1 s2 -> notBefore s2 s3 -> notBefore s1 s3.
Proof.
  intros [A1 [B1 [C1 [D1 [l1 E1]]]]] [A2 [B2 [C2 [D2 [l2 E2]]]]].
  unfold notBefore. repeat split; try lia; try tauto.
  exists (l1 ++ l2). rewrite E2, E1, app_assoc. reflexivity.
Qed.

Lemma loseLives_le k l g :
  (fst (loseLives k (l, g)) <= l)%nat
  /\ (g = true -> snd (loseLives k (l, g)) = true).
Proof.
  rewrite loseLives_closed. destruct g; cbn [fst snd]; split;
    try lia; try tauto; discriminate.
Qed.

Lemma handle_notBefore raycast s e :
  enabled s e -> referencesSound s -> notBefore s (handle raycast s e).
Proof.
  intros He Hs.
  apply (handle_elementary raycast (notBefore s)); try assumption;
    try apply notBefore_refl.
  - intros s0 m H. exact H.
  - intros s0 p H. exact H.
  - intros s0 now rnd id z a b _ _ _ _ _ _ H.
    apply (notBefore_trans _ _ _ H). unfold notBefore.
    cbn [lives gameOver score sliceLog heap executeSlice].
    repeat split; try lia; try tauto. exists [id]. reflexivity.
  - intros s0 rnd _ _ H. apply (notBefore_trans _ _ _ H). unfold spawnZombie.
    destruct (gameOver s0) eqn:Eg; [apply notBefore_refl|].
    destruct (allZombieFramesLoaded s0); [|apply notBefore_refl].
    destruct (zombieGeometry s0) as [[w h]|]; [|apply notBefore_refl].
    unfold notBefore. cbn [lives gameOver score sliceLog heap setWorld].
    rewrite length_app. repeat split; try lia; try tauto.
    + rewrite Eg. discriminate.
    + exists []. symmetry. apply app_nil_r.
  - intros s0 dt rnd Hs0 _ _ H. apply (notBefore_trans _ _ _ H).
    destruct (animate_tally s0 dt rnd Hs0) as [A [B [C [D L]]]]. cbv zeta in *.
    destruct (loseLives_le
                (List.length (filter (arrives dt (heap s0)) (activeZombies s0)))
                (lives s0) (gameOver s0)) as [Hl Hg].
    unfold notBefore. rewrite A, B, C, D, L.
    repeat split; try lia; try tauto. exists []. symmetry. apply app_nil_r.
  - intros s0 l _ H. unfold bloodTextureLoaded. destruct (Nat.eqb _ _); exact H.
  - intros s0 l index w h _ H. exact H.
  - intros s0 a H. exact H.
Qed.

(** ** The particles *)

Lemma stepParticle_stepped deltaTime rnd done k p :
  exists p' k',
    stepParticle deltaTime rnd (done, k) p = (done ++ [p'], k')
    /\ particleStepped p p'.
Proof.
  unfold stepParticle, particleStepped.
  destruct (visible p) eqn:Hv; cbn [negb].
  2:{ exists p, k. rewrite Hv. repeat split; try reflexivity. discriminate. }
  destruct (isWallBlood p) eqn:Hw.
  - destruct (stuckToWall p); cbn [negb];
      repeat match goal with
             | |- context [if ?b then _ else _] => destruct b
             end;
      eexists; eexists; (split; [reflexivity|]);
      cbn [mapIndex sscale isWallBlood visible];
      repeat split; try assumption; try reflexivity; discriminate.
  - destruct (isOnFloor p); cbn [negb];
      repeat match goal with
             | |- context [if ?b then _ else _] => destruct b
             end;
      eexists; eexists; (split; [reflexivity|]);
      cbn [mapIndex sscale isWallBlood visible];
      repeat split; try assumption; try reflexivity; discriminate.
Qed.

Lemma animateParticles_loop_stepped deltaTime rnd l :
  forall done k,
  exists l',
    fst (fold_left (stepParticle deltaTime rnd) l (done, k)) = done ++ l'
    /\ Forall2 particleStepped l l'.
Proof.
  induction l as [|p l IH]; intros done k; cbn [fold_left].
  - exists []. cbn [fst]. rewrite app_nil_r. split; [reflexivity|constructor].
  - destruct (stepParticle_stepped deltaTime rnd done k p) as [p' [k' [E S]]].
    rewrite E. destruct (IH (done ++ [p']) k') as [l' [E' F]].
    exists (p' :: l'). rewrite E', <- app_assoc. split; [reflexivity|].
    constructor; assumption.
Qed.

Lemma animateParticles_stepped deltaTime rnd pool :
  Forall2 particleStepped pool (animateParticles deltaTime rnd pool).
Proof.
  unfold animateParticles.
  destruct (animateParticles_loop_stepped deltaTime rnd pool [] 0%nat)
    as [l' [E F]].
  rewrite E. exact F.
Qed.

Lemma stepped_liveCount l l' :
  Forall2 particleStepped l l' -> (liveCount l' <= liveCount l)%nat.
Proof.
  unfold liveCount. induction 1 as [|p p' l l' [_ [_ [_ [_ V]]]] F IH];
    cbn [filter]; [lia|].
  destruct (visible p') eqn:E'.
  - rewrite (V eq_refl). cbn [List.length]. lia.
  - destruct (visible p); cbn [List.length]; lia.
Qed.

(** X2. A frame never brings a particle to life: it leaves every hidden
    entry of the pool exactly as it is, an entry that is shown after the
    frame was shown before it, the pool keeps its size, and the number of
    live particles does not grow. *)
Theorem frame_never_revives (deltaTime : R) (rnd : nat -> R) (pool : list Particle) :
  List.length (animateParticles deltaTime rnd pool) = List.length pool
  /\ (liveCount (animateParticles deltaTime rnd pool) <= liveCount pool)%nat
  /\ (forall j p,
         nth_error pool j = Some p ->
         exists p',
           nth_error (animateParticles deltaTime rnd pool) j = Some p'
           /\ (visible p = false -> p' = p)
           /\ (visible p' = true -> visible p = true)
           /\ mapIndex p' = mapIndex p /\ sscale p' = sscale p).
Proof.
  pose proof (animateParticles_stepped deltaTime rnd pool) as F.
  split; [apply animateParticles_length|].
  split; [apply stepped_liveCount, F|].
  intros j p Hj. revert j Hj.
  induction F as [|q q' l l' S F IH]; intros j Hj.
  - destruct j; discriminate.
  - destruct j as [|j]; cbn [nth_error] in *.
    + inversion Hj. subst q. exists q'. destruct S as [A [B [_ [C D]]]].
      repeat split; assumption.
    + apply IH, Hj.
Qed.

(** The emission loop. *)
Lemma findFree_hidden pool j :
  findFree pool = Some j ->
  exists p, nth_error pool j = Some p /\ visible p = false.
Proof.
  revert j. induction pool as [|q l IH]; intros j; cbn [findFree]; [discriminate|].
  destruct (visible q) eqn:Hv.
  - destruct (findFree l) as [j'|]; [|discriminate]. cbn [option_map].
    intros E. inversion E. subst j. apply (IH j' eq_refl).
  - intros E. inversion E. subst j. exists q. split; [reflexivity|exact Hv].
Qed.

Lemma emitStep_keeps rnd textures pos scaleX sv n pool k i j p :
  nth_error pool j = Some p -> visible p = true ->
  nth_error (fst (emitStep rnd textures pos scaleX sv n (pool, k) i)) j = Some p.
Proof.
  intros Hj Hv. unfold emitStep.
  destruct (findFree pool) as [j'|] eqn:Ef; cbn [fst]; [|exact Hj].
  destruct (findFree_hidden pool j' Ef) as [q [Hq Hh]].
  rewrite nth_error_list_set_other; [exact Hj|].
  intros E. subst j'. rewrite Hj in Hq. inversion Hq. subst q. congruence.
Qed.

Lemma emitStep_Forall (Q : Particle -> Prop) rnd textures pos scaleX sv n pool k i :
  (forall i k, Q (emitParticle i rnd k textures pos scaleX sv n)) ->
  Forall Q pool ->
  Forall Q (fst (emitStep rnd textures pos scaleX sv n (pool, k) i)).
Proof.
  intros HQ H. unfold emitStep. destruct (findFree pool); cbn [fst]; [|exact H].
  apply list_set_Forall; [apply HQ | exact H].
Qed.

Lemma emitLoop_keeps rnd textures pos scaleX sv n (l : list nat) :
  forall pool k j p,
    nth_error pool j = Some p -> visible p = true ->
    nth_error (fst (fold_left (emitStep rnd textures pos scaleX sv n) l (pool, k))) j
    = Some p.
Proof.
  induction l as [|i l IH]; intros pool k j p Hj Hv; cbn [fold_left fst]; [exact Hj|].
  pose proof (emitStep_keeps rnd textures pos scaleX sv n pool k i j p Hj Hv) as H.
  destruct (emitStep rnd textures pos scaleX sv n (pool, k) i) as [pool1 k1].
  cbn [fst] in H. apply IH; assumption.
Qed.

Lemma emitLoop_Forall (Q : Particle -> Prop) rnd textures pos scaleX sv n (l : list nat) :
  (forall i k, Q (emitParticle i rnd k textures pos scaleX sv n)) ->
  forall pool k,
    Forall Q pool ->
    Forall Q (fst (fold_left (emitStep rnd textures pos scaleX sv n) l (pool, k))).
Proof.
  intros HQ. induction l as [|i l IH]; intros pool k H; cbn [fold_left fst]; [exact H|].
  pose proof (emitStep_Forall Q rnd textures pos scaleX sv n pool k i HQ H) as H1.
  destruct (emitStep rnd textures pos scaleX sv n (pool, k) i) as [pool1 k1].
  cbn [fst] in H1. apply IH, H1.
Qed.

(** X3. An emission of blood writes only entries of the pool that were
    hidden: it keeps the size of the pool, shows as many new particles as
    there are hidden entries, up to 18, and leaves every live particle
    exactly as it is. *)
Theorem emission_spares_live_particles
        rnd textures pos scaleX sv n (pool : list Particle) (k : nat) :
  let pool' := fst (emitBlood rnd textures pos scaleX sv n pool k) in
  List.length pool' = List.length pool
  /\ liveCount pool'
     = (liveCount pool + Nat.min numBloodParticles (freeCount pool))%nat
  /\ (forall j p, nth_error pool j = Some p -> visible p = true ->
                  nth_error pool' j = Some p).
Proof.
  cbv zeta.
  destruct (emitBlood_counts rnd textures pos scaleX sv n pool k) as [A [B _]].
  split; [exact A|]. split; [exact B|].
  intros j p Hj Hv. unfold emitBlood. apply emitLoop_keeps; assumption.
Qed.

(** ** The loaders and the textures of the particles *)

Lemma floor_draw (r : R) (n : nat) :
  0 <= r < 1 -> (0 < n)%nat ->
  (0 <= Int_part (r * INR n) < Z.of_nat n)%Z.
Proof.
  intros Hr Hn. destruct (base_Int_part (r * INR n)) as [A B].
  assert (Hp : 0 < INR n) by (apply lt_0_INR, Hn).
  rewrite INR_IZR_INZ in *.
  split.
  - assert (H : -1 < IZR (Int_part (r * IZR (Z.of_nat n)))) by nra.
    apply lt_IZR in H. lia.
  - apply lt_IZR. nra.
Qed.

Lemma emitParticle_map i rnd k textures pos scaleX sv n :
  mapIndex (emitParticle i rnd k textures pos scaleX sv n)
  = Int_part (rnd k * INR textures).
Proof. unfold emitParticle. destruct (Nat.ltb _ _); reflexivity. Qed.

Lemma animateZombies_loaders deltaTime i s :
  let s' := animateZombies deltaTime i s in
  loadedBloodCount s' = loadedBloodCount s
  /\ assetsBloodCount s' = assetsBloodCount s
  /\ bloodTextures s' = bloodTextures s
  /\ bloodTexturesLoaded s' = bloodTexturesLoaded s
  /\ loadedZombieFrameCount s' = loadedZombieFrameCount s
  /\ assetsZombieFrameCount s' = assetsZombieFrameCount s
  /\ allZombieFramesLoaded s' = allZombieFramesLoaded s
  /\ zombieGeometry s' = zombieGeometry s
  /\ bloodParticlePool s' = bloodParticlePool s
  /\ List.length (heap s') = List.length (heap s).
Proof.
  revert s. induction i as [|j IH]; intros s; cbn [animateZombies].
  - cbv zeta. repeat split.
  - destruct (nth_error (activeZombies s) j) as [id|]; [|apply IH].
    destruct (nth_error (heap s) id) as [z|]; [|apply IH].
    destruct (Rgeb _ _); [destruct (loseLife _ _) as [l g]|];
      match goal with
      | |- context [animateZombies _ _ ?x] => specialize (IH x)
      end;
      cbv zeta in *;
      cbn [loadedBloodCount assetsBloodCount bloodTextures bloodTexturesLoaded
           loadedZombieFrameCount assetsZombieFrameCount allZombieFramesLoaded
           zombieGeometry bloodParticlePool heap setWorld] in IH;
      rewrite list_set_length in IH; exact IH.
Qed.

Lemma stepped_Forall_map (Q : Z -> Prop) l l' :
  Forall2 particleStepped l l' ->
  Forall (fun p => Q (mapIndex p)) l -> Forall (fun p => Q (mapIndex p)) l'.
Proof.
  induction 1 as [|p p' l l' [M _] S IH]; intros H; [constructor|].
  inversion H; subst. constructor; [rewrite M; assumption|apply IH; assumption].
Qed.

Lemma reachable_loaders raycast aspect s :
  reachable raycast aspect s -> loadersSound s.
Proof.
  apply (reachable_elementary raycast aspect loadersSound).
  - unfold loadersSound, BLOOD_TEXTURE_FILES, ZOMBIE_FRAME_COUNT. cbn.
    repeat split; try lia; try discriminate; try (intros [E|E]; discriminate);
      try congruence; constructor.
  - intros s0 m H. exact H.
  - intros s0 p H. exact H.
  - intros s0 now rnd id z a b _ Hv _ _ _ _ H.
    destruct H as [A [B [C [D [E [F [G [I J]]]]]]]].
    unfold loadersSound.
    cbn [loadedBloodCount assetsBloodCount bloodTextures bloodTexturesLoaded
         loadedZombieFrameCount assetsZombieFrameCount allZombieFramesLoaded
         zombieGeometry bloodParticlePool heap executeSlice].
    repeat split; try tauto.
    destruct (bloodTexturesLoaded s0) eqn:El; [|exact J].
    assert (Hn : (0 < bloodTextures s0)%nat).
    { unfold BLOOD_TEXTURE_FILES in *. destruct (proj1 D eq_refl); lia. }
    unfold emitBlood. apply emitLoop_Forall; [|exact J].
    intros i k. rewrite emitParticle_map. apply floor_draw; [apply Hv|exact Hn].
  - intros s0 rnd _ _ H. unfold spawnZombie.
    destruct (gameOver s0); [exact H|].
    destruct (allZombieFramesLoaded s0) eqn:Ea; [|exact H].
    destruct (zombieGeometry s0) as [[w h]|] eqn:Eg; [|exact H].
    destruct H as [A [B [C [D [E [F [G [I J]]]]]]]].
    unfold loadersSound.
    cbn [loadedBloodCount assetsBloodCount bloodTextures bloodTexturesLoaded
         loadedZombieFrameCount assetsZombieFrameCount allZombieFramesLoaded
         zombieGeometry bloodParticlePool heap setWorld].
    rewrite Ea in *. rewrite Eg.
    repeat split; try tauto. discriminate.
  - intros s0 dt rnd _ _ _ H.
    destruct H as [A [B [C [D [E [F [G [I J]]]]]]]].
    destruct (animateZombies_loaders dt (List.length (activeZombies s0)) s0)
      as [A' [B' [C' [D' [E' [F' [G' [I' [J' L']]]]]]]]].
    cbv zeta in *. unfold loadersSound, animate.
    cbn [loadedBloodCount assetsBloodCount bloodTextures bloodTexturesLoaded
         loadedZombieFrameCount assetsZombieFrameCount allZombieFramesLoaded
         zombieGeometry bloodParticlePool heap].
    rewrite A', B', C', D', E', F', G', I', J'.
    repeat split; try tauto.
    + apply I. intros Eh. apply H. apply length_zero_iff_nil.
      rewrite render_length, L', Eh. reflexivity.
    + apply I. intros Eh. apply H. apply length_zero_iff_nil.
      rewrite render_length, L', Eh. reflexivity.
    + destruct (bloodTexturesLoaded s0); [|exact J].
      apply (stepped_Forall_map
               (fun m => (0 <= m < Z.of_nat (bloodTextures s0))%Z)
               (bloodParticlePool s0));
        [apply animateParticles_stepped | exact J].
  - intros s0 l He H. cbn [enabled] in He.
    destruct H as [A [B [C [D [E [F [G [I J]]]]]]]].
    unfold bloodTextureLoaded, BLOOD_TEXTURE_FILES, MAX_BLOOD_PARTICLES in *.
    assert (J' : Forall (fun p => (0 <= mapIndex p < Z.of_nat (S (bloodTextures s0)))%Z)
                        (bloodParticlePool s0)).
    { eapply Forall_impl; [|exact J]. cbn. intros p Hp. lia. }
    destruct l;
      match goal with
      | |- context [Nat.eqb ?a ?b] =>
        destruct (Nat.eqb a b) eqn:Ec;
        [apply Nat.eqb_eq in Ec | apply Nat.eqb_neq in Ec]
      end;
      unfold loadersSound, BLOOD_TEXTURE_FILES;
      cbn [loadedBloodCount assetsBloodCount bloodTextures bloodTexturesLoaded
           loadedZombieFrameCount assetsZombieFrameCount allZombieFramesLoaded
           zombieGeometry bloodParticlePool heap setBlood];
      repeat split; try tauto; try lia.
    all: try exact J'.
    all: try (apply Forall_app; split; [exact J'|]; apply Forall_forall;
              intros p Hp; apply repeat_spec in Hp; subst p; cbn; lia).
    all: try (intros Hl; apply D in Hl; lia).
    all: try (intros [Hl|Hl]; apply D; lia).
  - intros s0 l index w h He H. cbn [enabled] in He.
    destruct H as [A [B [C [D [E [F [G [I J]]]]]]]].
    unfold ZOMBIE_FRAME_COUNT in *.
    unfold loadersSound, ZOMBIE_FRAME_COUNT.
    cbn [loadedBloodCount assetsBloodCount bloodTextures bloodTexturesLoaded
         loadedZombieFrameCount assetsZombieFrameCount allZombieFramesLoaded
         zombieGeometry bloodParticlePool heap setFrames].
    assert (Hg : heap s0 <> [] ->
                 (if Nat.eqb index 0 then Some (5 * (w / h), 5) else zombieGeometry s0)
                 <> None).
    { intros Hh. destruct (Nat.eqb index 0); [discriminate|]. apply I, Hh. }
    destruct l;
      match goal with
      | |- context [Nat.eqb ?a 16] =>
        destruct (Nat.eqb a 16) eqn:Ec;
        [apply Nat.eqb_eq in Ec | apply Nat.eqb_neq in Ec]
      end;
      repeat split; try tauto; try lia.
    all: try (intros Hl; apply G in Hl; lia).
    all: try (intros [Hl|Hl]; apply G; lia).
    all: try (intros Hh; apply I, Hh).
  - intros s0 a H. exact H.
Qed.

(** ** The meshes and the particles on the screen *)

Lemma moveZombie_animated deltaTime z :
  zombieAnimated z -> zombieAnimated (moveZombie deltaTime z).
Proof.
  intros [A [B [C D]]]. split; [apply moveZombie_sound, A|]. repeat split; assumption.
Qed.

Lemma animateFrame_animated deltaTime z :
  0 <= deltaTime -> zombieAnimated z -> zombieAnimated (animateFrame deltaTime z).
Proof.
  intros Hdt [A [B [C D]]].
  split; [apply animateFrame_sound, A|].
  unfold animateFrame, ZOMBIE_ANIM_FPS, ZOMBIE_FRAME_COUNT in *.
  destruct (Rgeb (zanimTimer z + deltaTime) (1 / 10)) eqn:E;
    cbn [zuTexture zanimFrame zanimTimer].
  - apply Rgeb_true in E. repeat split; try lra.
    apply Nat.mod_upper_bound. lia.
  - repeat split; try assumption. lra.
Qed.

Lemma stepPiece_sound deltaTime p :
  0 <= deltaTime -> pieceSound p ->
  match stepPiece deltaTime p with
  | Some p' => pieceSound p'
  | None => True
  end.
Proof.
  intros Hdt [A [B [C [D [E [F [G H]]]]]]].
  unfold inUnitSquare in B, C.
  unfold stepPiece, DESPAWN_TIME, DAMPING in *.
  destruct (pisOnFloor p) eqn:Ef; cbn [negb].
  - destruct (Rgeb (pdespawnTimer p + deltaTime) 10.0) eqn:Et; [exact I|].
    apply Rgeb_false in Et. destruct (G eq_refl) as [G1 G2].
    unfold pieceSound, DESPAWN_TIME.
    cbn [puSideToKeep puSliceStart puSliceEnd puTexture pscale pdespawnTimer
         pisOnFloor pposition pvelocity x2 y2 x3 y3].
    rewrite ?Ef. repeat split; try assumption; try lra; try discriminate.
  - specialize (H eq_refl).
    destruct (Rleb (y3 (pposition p) + y2 (pvelocity p)) FLOOR_Y) eqn:El;
      unfold pieceSound, DESPAWN_TIME;
      cbn [puSideToKeep puSliceStart puSliceEnd puTexture pscale pdespawnTimer
           pisOnFloor pposition pvelocity x2 y2 x3 y3];
      rewrite ?Ef; repeat split; try assumption; try lra; try discriminate.
Qed.

Lemma stepAllPieces_sound deltaTime pieces :
  0 <= deltaTime -> Forall pieceSound pieces ->
  Forall pieceSound (stepAllPieces deltaTime pieces).
Proof.
  intros Hdt H. unfold stepAllPieces. induction H as [|p l Hp Hl IH]; cbn [flat_map].
  - constructor.
  - pose proof (stepPiece_sound deltaTime p Hdt Hp) as S.
    destruct (stepPiece deltaTime p); cbn [app]; [constructor|]; assumption.
Qed.

Lemma makePiece_sound z a b (side sign draw : R) :
  zombieAnimated z -> inUnitSquare a -> inUnitSquare b ->
  side = 1 \/ side = -1 ->
  pieceSound (makePiece z a b side sign draw).
Proof.
  intros [[_ [_ Hs]] [Ht [Hf _]]] Ia Ib Hside.
  unfold inUnitSquare in Ia, Ib.
  unfold pieceSound, makePiece, DESPAWN_TIME.
  cbn [puSideToKeep puSliceStart puSliceEnd puTexture pscale pdespawnTimer
       pisOnFloor pposition pvelocity x2 y2 x3 y3].
  rewrite Ht. repeat split; try assumption; try lra; try discriminate.
Qed.

Ltac particle_cases :=
  repeat match goal with
         | |- context [if ?b then _ else _] =>
           first [ is_var b; destruct b
                 | match b with
                   | Rltb ?x ?y => destruct (Rltb x y) eqn:?
                   | Rleb ?x ?y => destruct (Rleb x y) eqn:?
                   | Rgtb ?x ?y => destruct (Rgtb x y) eqn:?
                   | Rgeb ?x ?y => destruct (Rgeb x y) eqn:?
                   | (_ && _)%bool => fail
                   end ]
         end.

Ltac cmp_hyps :=
  repeat match goal with
         | H : Rltb _ _ = true |- _ => apply Rltb_true in H
         | H : Rltb _ _ = false |- _ => apply Rltb_false in H
         | H : Rleb _ _ = true |- _ => apply Rleb_true in H
         | H : Rleb _ _ = false |- _ => apply Rleb_false in H
         | H : Rgtb _ _ = true |- _ => apply Rgtb_true in H
         | H : Rgtb _ _ = false |- _ => apply Rgtb_false in H
         | H : Rgeb _ _ = true |- _ => apply Rgeb_true in H
         | H : Rgeb _ _ = false |- _ => apply Rgeb_false in H
         end.

Ltac particle_done :=
  eexists; eexists; (split; [reflexivity|]);
  cbn [lifetime stuckToWall visible opacity isOnFloor sposition velocity
       despawnTimer isWallBlood materialRotation rotationSpeed x3 y3 z3];
  repeat split; intros; try discriminate; try assumption; try reflexivity;
  try congruence; try lra.

Lemma stepParticle_sound deltaTime rnd done k p :
  0 <= deltaTime -> validDraws rnd -> particleSound p ->
  exists p' k',
    stepParticle deltaTime rnd (done, k) p = (done ++ [p'], k')
    /\ particleSound p'.
Proof.
  intros Hdt Hv [Ho [Hh [Hl [Hf Hs]]]].
  pose proof (Hv k) as D0. pose proof (Hv (k + 1)%nat) as D1.
  unfold stepParticle, particleSound, DESPAWN_TIME, ZOMBIE_START_Z, FLOOR_Y, zero3 in *.
  destruct (visible p) eqn:Ev; cbn [negb].
  2:{ exists p, k. split; [reflexivity|]. destruct (Hh eq_refl) as [H1 [H2 H3]].
      rewrite Ev, H2, H3.
      repeat split; intros; try discriminate; try assumption; try lra. }
  clear Hh.
  destruct (isWallBlood p) eqn:Ew.
  - (* wall blood *)
    assert (Hnf : isOnFloor p = false).
    { destruct (isOnFloor p) eqn:X; [|reflexivity].
      destruct (Hf eq_refl) as [Y _]. discriminate. }
    rewrite Hnf in *. clear Hf.
    destruct (stuckToWall p) eqn:Es; cbn [negb].
    + destruct (Hs eq_refl) as [_ [S2 [S3 [S4 S5]]]]. clear Hs Hl.
      destruct (Rgtb (despawnTimer p + deltaTime) 4.5) eqn:Et;
        cmp_hyps;
        cbn [lifetime stuckToWall visible opacity isOnFloor sposition velocity
             despawnTimer isWallBlood materialRotation rotationSpeed negb andb];
        rewrite ?andb_false_r, ?andb_true_r, ?Es, ?Ew, ?Hnf, ?Ev;
        particle_cases; cmp_hyps; particle_done.
    + specialize (Hl eq_refl eq_refl eq_refl). clear Hs.
      destruct (Rleb (z3 (sposition p) + z3 (velocity p)) (-20)) eqn:Ez;
        cmp_hyps;
        cbn [lifetime stuckToWall visible opacity isOnFloor sposition velocity
             despawnTimer isWallBlood materialRotation rotationSpeed negb andb];
        rewrite ?andb_false_r, ?andb_true_r, ?Es, ?Ew, ?Hnf, ?Ev;
        particle_cases; cmp_hyps; particle_done.
  - (* floor blood *)
    assert (Hns : stuckToWall p = false).
    { destruct (stuckToWall p) eqn:X; [|reflexivity].
      destruct (Hs eq_refl) as [Y _]. discriminate. }
    rewrite Hns in *. clear Hs.
    destruct (isOnFloor p) eqn:Ef; cbn [negb].
    + destruct (Hf eq_refl) as [_ [F2 [F3 [F4 [F5 [F6 [F7 F8]]]]]]]. clear Hf Hl.
      rewrite ?Es, ?Ew, ?Hns, ?Ev, ?Ef.
      particle_cases; cmp_hyps; particle_done.
    + specialize (Hl eq_refl eq_refl eq_refl). clear Hf.
      rewrite ?Es, ?Ew, ?Hns, ?Ev, ?Ef.
      particle_cases; cmp_hyps; particle_done.
Qed.

Lemma animateParticles_loop_sound deltaTime rnd l :
  0 <= deltaTime -> validDraws rnd -> Forall particleSound l ->
  forall done k,
    Forall particleSound done ->
    Forall particleSound (fst (fold_left (stepParticle deltaTime rnd) l (done, k))).
Proof.
  intros Hdt Hv H. induction H as [|p l Hp Hl IH]; intros done k Hd; cbn [fold_left].
  - exact Hd.
  - destruct (stepParticle_sound deltaTime rnd done k p Hdt Hv Hp) as [p' [k' [E S]]].
    rewrite E. apply IH. apply Forall_app. split; [exact Hd|].
    constructor; [exact S|constructor].
Qed.

Lemma emitParticle_sound i rnd k textures pos scaleX sv n :
  validDraws rnd -> particleSound (emitParticle i rnd k textures pos scaleX sv n).
Proof.
  intros Hv. pose proof (Hv (k + 8)%nat) as D.
  unfold emitParticle. cbv zeta.
  destruct (Nat.ltb i (Nat.div numBloodParticles 3));
    unfold particleSound;
    cbn [lifetime stuckToWall visible opacity isOnFloor sposition velocity
         despawnTimer isWallBlood materialRotation rotationSpeed x3 y3 z3];
    repeat split; intros; try discriminate; try lra.
Qed.

Lemma freshParticle_sound : particleSound freshParticle.
Proof.
  unfold particleSound, freshParticle.
  cbn [lifetime stuckToWall visible opacity isOnFloor sposition velocity
       despawnTimer isWallBlood materialRotation rotationSpeed x3 y3 z3].
  repeat split; intros; try discriminate; try lra.
Qed.

Lemma reachable_screen raycast aspect s :
  reachable raycast aspect s -> screenSound s.
Proof.
  apply (reachable_elementary raycast aspect screenSound).
  - repeat split; constructor.
  - intros s0 m H. exact H.
  - intros s0 p H. exact H.
  - intros s0 now rnd id z a b _ Hv Hz _ Ia Ib [A [B C]].
    assert (Az : zombieAnimated z).
    { rewrite Forall_forall in A. apply A. eapply nth_error_In, Hz. }
    split; [exact A|]. split; cbn [slicedPieces bloodParticlePool executeSlice].
    + apply Forall_app. split; [exact B|].
      constructor; [|constructor; [|constructor]];
        apply makePiece_sound; try assumption; [left|right]; lra.
    + destruct (bloodTexturesLoaded s0); [|exact C].
      unfold emitBlood. apply emitLoop_Forall; [|exact C].
      intros i k. apply emitParticle_sound, Hv.
  - intros s0 rnd _ Hv [A [B C]]. unfold spawnZombie.
    destruct (gameOver s0); [repeat split; assumption|].
    destruct (allZombieFramesLoaded s0); [|repeat split; assumption].
    destruct (zombieGeometry s0) as [[w h]|]; [|repeat split; assumption].
    split; [|split; assumption].
    cbn [heap setWorld]. apply Forall_app. split; [exact A|].
    constructor; [|constructor].
    pose proof (Hv 0%nat) as D.
    assert (F : 0 < Rmax 0.1 (CAMERA_Z / (CAMERA_Z - ZOMBIE_START_Z)))
      by apply Rmax_floor_pos.
    unfold zombieAnimated, zombieSound, ZOMBIE_FRAME_COUNT.
    cbn [zisSliced zbaseScale zscale zuTexture zanimFrame zanimTimer x3].
    repeat split; try lra; try lia.
    apply Rmult_lt_0_compat; [lra|exact F].
  - intros s0 dt rnd _ Hdt Hv [A [B C]]. unfold screenSound, animate.
    cbn [heap slicedPieces bloodParticlePool].
    destruct (animateZombies_loaders dt (List.length (activeZombies s0)) s0)
      as [_ [_ [_ [L1 [_ [_ [_ [_ [L2 _]]]]]]]]].
    rewrite animatePieces_all, animateZombies_slicedPieces, L1, L2.
    repeat split.
    + apply render_Forall_gen.
      * intros z [Z1 Z2]. split; [apply updateMatrixWorld_sound, Z1|exact Z2].
      * apply animateZombies_Forall;
          [intros z; apply moveZombie_animated
          |intros z; apply animateFrame_animated, Hdt | exact A].
    + apply stepAllPieces_sound; assumption.
    + destruct (bloodTexturesLoaded s0); [|exact C].
      unfold animateParticles. apply animateParticles_loop_sound; try assumption.
      constructor.
  - intros s0 l _ [A [B C]]. unfold bloodTextureLoaded.
    destruct (Nat.eqb _ _); (split; [exact A|]; split; [exact B|]);
      cbn [bloodParticlePool setBlood]; [|exact C].
    apply Forall_app. split; [exact C|].
    apply Forall_forall. intros p Hp. apply repeat_spec in Hp. subst p.
    apply freshParticle_sound.
  - intros s0 l index w h _ H. exact H.
  - intros s0 a H. exact H.
Qed.

(** ** The mouse gesture *)

Lemma animateZombies_gesture deltaTime i s :
  mouse (animateZombies deltaTime i s) = mouse s
  /\ previousFingerTipNDC (animateZombies deltaTime i s) = previousFingerTipNDC s.
Proof.
  revert s. induction i as [|j IH]; intros s; cbn [animateZombies]; [auto|].
  destruct (nth_error (activeZombies s) j) as [id|]; [|apply IH].
  destruct (nth_error (heap s) id) as [z|]; [|apply IH].
  destruct (Rgeb _ _); [destruct (loseLife _ _) as [l g]|];
    match goal with
    | |- context [animateZombies _ _ ?x] => destruct (IH x) as [A B]
    end; rewrite A, B; auto.
Qed.

Lemma performSlice_mouse s now rnd target a b :
  mouse (performSlice s now rnd target a b) = mouse s.
Proof.
  unfold performSlice. destruct target as [id|]; [|reflexivity].
  destruct (nth_error (heap s) id) as [z|]; [|reflexivity].
  destruct (zisSliced z); [reflexivity|].
  destruct (Rltb _ _); reflexivity.
Qed.

(** The events that are not mouse events leave the mouse variables. *)
Lemma handle_mouse_kept raycast s e :
  match e with
  | MouseDown _ | MouseMove _ | MouseUp _ _ _ => True
  | _ => mouse (handle raycast s e) = mouse s
  end.
Proof.
  destruct e; cbn [handle]; try exact I.
  - unfold bloodTextureLoaded. destruct (Nat.eqb _ _); reflexivity.
  - unfold zombieFrameLoaded.
    destruct (Nat.eqb _ ZOMBIE_FRAME_COUNT); [|reflexivity].
    destruct l; [|reflexivity]. unfold spawnZombie.
    cbn [gameOver allZombieFramesLoaded zombieGeometry setFrames].
    destruct (gameOver s); [reflexivity|].
    match goal with |- context [if ?b then _ else _] => destruct b end;
      try reflexivity.
    all: destruct (zombieGeometry s) as [[w0 h0]|]; reflexivity.
  - unfold spawnZombie. destruct (gameOver s); [reflexivity|].
    destruct (allZombieFramesLoaded s); [|reflexivity].
    destruct (zombieGeometry s) as [[w h]|]; reflexivity.
  - reflexivity.
  - unfold processHandData. destruct (gameOver s); [reflexivity|].
    destruct results as [|[raw|]]; try reflexivity.
    cbn [mouse setPreviousFingerTipNDC]. unfold frameToFrameCheck.
    destruct (previousFingerTipNDC s) as [previous|]; [|reflexivity].
    destruct (Rgtb _ _); [|reflexivity].
    destruct (getUVCoordsFromNDC raycast s previous) as [[uv id]|]; [|reflexivity].
    unfold calculateAndPerformSliceHand.
    destruct (nth_error (heap s) id) as [z|]; [|reflexivity].
    destruct (zisSliced z); [reflexivity|].
    destruct (resolveSliceUVHand _ _ _ _ _) as [[a b]|]; [|reflexivity].
    apply performSlice_mouse.
  - unfold animate. cbn [mouse]. apply animateZombies_gesture.
Qed.

Lemma mouseSound_reset s : mouseSound (resetMouse s).
Proof.
  unfold mouseSound, resetMouse.
  cbn [mouse setMouse sliceStartValid sliceEndValid isSlicing zombieToSlice].
  repeat split; try reflexivity. discriminate.
Qed.

Lemma mouseSound_kept s s' :
  mouse s' = mouse s -> (List.length (heap s) <= List.length (heap s'))%nat ->
  mouseSound s -> mouseSound s'.
Proof.
  intros Em Hl [A [B [C D]]]. unfold mouseSound. cbv zeta in *. rewrite Em.
  split; [exact A|]. split; [exact B|]. split; [|exact D].
  intros Hi. destruct (C Hi) as [id [E [L U]]]. exists id.
  split; [exact E|]. split; [lia|exact U].
Qed.

Lemma handle_mouseSound raycast s e :
  raycastSound raycast -> enabled s e -> referencesSound s ->
  mouseSound s -> mouseSound (handle raycast s e).
Proof.
  intros Hray He Hs H.
  pose proof (handle_notBefore raycast s e He Hs) as [_ [_ [_ [Hl _]]]].
  pose proof (handle_mouse_kept raycast s e) as K.
  destruct e; try (apply (mouseSound_kept s); assumption); cbn [handle] in *.
  - (* mousedown *)
    unfold mousedown. destruct (zombieGeometry s); [|exact H].
    destruct (getUVCoords raycast s ndc) as [[uv object]|] eqn:Eh.
    + unfold mouseSound.
      cbn [mouse setMouse sliceStartValid sliceEndValid isSlicing zombieToSlice
           sliceStartUV heap].
      repeat split; try reflexivity; try discriminate.
      intros _. exists object. split; [reflexivity|].
      unfold getUVCoords, getUVCoordsFromNDC in Eh.
      destruct (activeZombies s) eqn:Ea; [discriminate|].
      destruct (Hray _ _ _ _ Eh) as [Hin Huv].
      apply zombiesToTest_active in Hin.
      destruct Hs as [_ [Ha _]]. split; [apply Ha, Hin|exact Huv].
    + unfold mouseSound.
      cbn [mouse setMouse sliceStartValid sliceEndValid isSlicing zombieToSlice].
      repeat split; try reflexivity. discriminate.
  - (* mousemove *)
    unfold mousemove. destruct (isSlicing (mouse s)) eqn:Ei; [|exact H].
    destruct H as [A [B [C D]]]. unfold mouseSound.
    cbn [mouse setMouse sliceStartValid sliceEndValid isSlicing zombieToSlice
         sliceStartUV heap].
    rewrite Ei in *. repeat split; try assumption; try discriminate.
  - (* mouseup *)
    unfold mouseup. destruct (isSlicing (mouse s)); [|apply mouseSound_reset].
    destruct (zombieToSlice (mouse s)); apply mouseSound_reset.
Qed.

Lemma reachable_mouseSound raycast aspect s :
  raycastSound raycast -> reachable raycast aspect s -> mouseSound s.
Proof.
  intros Hray. induction 1 as [|s e Hr IH He].
  - unfold mouseSound. cbn. repeat split; try reflexivity; discriminate.
  - apply handle_mouseSound; try assumption. eapply reachable_sound, Hr.
Qed.

(** ** The two resolvers on the same gesture *)

Lemma normalize_lengthSq v :
  (x2 v <> 0 \/ y2 v <> 0) -> Vec.lengthSq (Vec.normalize v) = 1.
Proof.
  intros Hv. pose proof (length_pos v Hv) as Hp.
  assert (Hl : Vec.length (Vec.normalize v) = 1)
    by (apply normalize_length; lra).
  rewrite <- length_sq, Hl. lra.
Qed.

Lemma normalize_not_zero v :
  (x2 v <> 0 \/ y2 v <> 0) ->
  x2 (Vec.normalize v) <> 0 \/ y2 (Vec.normalize v) <> 0.
Proof.
  intros Hv. pose proof (normalize_lengthSq v Hv) as H.
  unfold Vec.lengthSq in H.
  destruct (Req_dec (x2 (Vec.normalize v)) 0) as [E|E]; [|now left].
  right. intros E'. rewrite E, E' in H. lra.
Qed.

Lemma hand_guards_pass aspect startNDC endNDC :
  startNDC <> endNDC -> aspect <> 0 ->
  Rltb (Vec.lengthSq (directionNDC startNDC endNDC)) 1e-6 = false
  /\ Rltb (Vec.lengthSq (directionUVApprox aspect (directionNDC startNDC endNDC)))
          1e-6 = false.
Proof.
  intros Hne Ha. unfold directionNDC, directionUVApprox.
  pose proof (sub_nonzero startNDC endNDC Hne) as Hv.
  pose proof (normalize_not_zero _ Hv) as Hd.
  rewrite normalize_lengthSq by exact Hv.
  rewrite normalize_lengthSq.
  - split; apply Rltb_false; lra.
  - cbn [x2 y2]. destruct Hd as [Hd|Hd]; [now left|right].
    apply Rmult_integral_contrapositive_currified; assumption.
Qed.

(** ** The flight of a piece *)

(** A piece in the air whose height after [m] more frames of free fall
    would be at or below the floor lands within [m] frames. *)
Lemma lands_within (m : nat) :
  forall p : Piece,
    pisOnFloor p = false ->
    y3 (pposition p) + INR (S m) * y2 (pvelocity p)
    - 0.0005 * INR (S m) * INR m <= FLOOR_Y ->
    exists n : nat,
      (1 <= n <= S m)%nat
      /\ forall deltaTimes,
          List.length deltaTimes = n ->
          exists p',
            stepsPiece deltaTimes p = Some p'
            /\ pisOnFloor p' = true
            /\ y3 (pposition p') = FLOOR_Y
            /\ y2 (pvelocity p') = 0
            /\ pdespawnTimer p' = 0
            /\ x2 (pvelocity p') = x2 (pvelocity p)
            /\ protation p' = protation p
            /\ x3 (pposition p') = x3 (pposition p) + INR n * x2 (pvelocity p)
            /\ protationZ p' = protationZ p + INR n * protation p.
Proof.
  induction m as [|m IH]; intros p Hf Hy.
  - exists 1%nat. split; [lia|]. intros [|dt [|]]; try discriminate. intros _.
    cbn [stepsPiece]. unfold stepPiece. rewrite Hf. cbn [negb].
    cbn [INR] in Hy. cmp. eexists. split; [reflexivity|].
    cbn [pisOnFloor pposition pvelocity pdespawnTimer protation protationZ
         x2 y2 x3 y3 INR].
    repeat split; lra.
  - destruct (Rle_dec (y3 (pposition p) + y2 (pvelocity p)) FLOOR_Y) as [Hl|Hl].
    + exists 1%nat. split; [lia|]. intros [|dt [|]]; try discriminate. intros _.
      cbn [stepsPiece]. unfold stepPiece. rewrite Hf. cbn [negb].
      cmp. eexists. split; [reflexivity|].
      cbn [pisOnFloor pposition pvelocity pdespawnTimer protation protationZ
           x2 y2 x3 y3 INR].
      repeat split; lra.
    + set (p1 := {| pposition := V3 (x3 (pposition p) + x2 (pvelocity p))
                                    (y3 (pposition p) + y2 (pvelocity p))
                                    (z3 (pposition p));
                    protationZ := protationZ p + protation p;
                    pscale := pscale p;
                    puTexture := puTexture p;
                    puSliceStart := puSliceStart p;
                    puSliceEnd := puSliceEnd p;
                    puSideToKeep := puSideToKeep p;
                    pvelocity := V2 (x2 (pvelocity p)) (y2 (pvelocity p) - 0.001);
                    protation := protation p;
                    pisOnFloor := false;
                    pdespawnTimer := pdespawnTimer p |}).
      assert (Hs : forall dt, stepPiece dt p = Some p1).
      { intros dt. unfold stepPiece. rewrite Hf. cbn [negb]. cmp. reflexivity. }
      destruct (IH p1) as [n [Hn Hp]].
      * reflexivity.
      * subst p1. cbn [pposition pvelocity x2 y2 x3 y3].
        rewrite !S_INR in *. nra.
      * exists (S n). split; [lia|]. intros [|dt rest]; [discriminate|].
        intros Hlen. cbn [List.length] in Hlen. injection Hlen as Hlen.
        cbn [stepsPiece]. rewrite Hs.
        destruct (Hp rest Hlen) as [p' [E [A [B [C [D [F [G [H I]]]]]]]]].
        exists p'. split; [exact E|].
        subst p1. cbn [pposition pvelocity protation protationZ x2 y2 x3 y3] in *.
        rewrite S_INR. repeat split; try assumption; lra.
Qed.

(** X4. Gravity always wins: a piece in the air, whatever its position
    and its velocity, is on the floor after a number [n], at least 1, of
    frames that does not depend on their elapsed times.  It then lies at
    [FLOOR_Y] with no vertical velocity and with its despawn timer at 0;
    in the air it has kept its horizontal velocity and its rotation speed,
    so it has moved [n] times the one and turned [n] times the other. *)
Theorem piece_lands (p : Piece) :
  pisOnFloor p = false ->
  exists n : nat,
    (1 <= n)%nat
    /\ forall deltaTimes,
        List.length deltaTimes = n ->
        exists p',
          stepsPiece deltaTimes p = Some p'
          /\ pisOnFloor p' = true
          /\ y3 (pposition p') = FLOOR_Y
          /\ y2 (pvelocity p') = 0
          /\ pdespawnTimer p' = 0
          /\ x2 (pvelocity p') = x2 (pvelocity p)
          /\ protation p' = protation p
          /\ x3 (pposition p') = x3 (pposition p) + INR n * x2 (pvelocity p)
          /\ protationZ p' = protationZ p + INR n * protation p.
Proof.
  intros Hf.
  set (a := Rabs (y3 (pposition p) - FLOOR_Y) + Rabs (y2 (pvelocity p)) + 1).
  assert (Ha : 1 <= a).
  { subst a. pose proof (Rabs_pos (y3 (pposition p) - FLOOR_Y)).
    pose proof (Rabs_pos (y2 (pvelocity p))). lra. }
  destruct (archimed (2000 * a)) as [Hup _].
  set (m := Z.to_nat (up (2000 * a))).
  assert (Hm : 2000 * a < INR m).
  { subst m. rewrite INR_IZR_INZ, Z2Nat.id; [lra|].
    apply le_IZR. lra. }
  destruct (lands_within m p Hf) as [n [Hn Hp]].
  - rewrite S_INR.
    pose proof (Rle_abs (y3 (pposition p) - FLOOR_Y)).
    pose proof (Rle_abs (y2 (pvelocity p))).
    pose proof (Rabs_pos (y3 (pposition p) - FLOOR_Y)).
    pose proof (Rabs_pos (y2 (pvelocity p))).
    assert (H3 : (INR m + 1) * y2 (pvelocity p)
                 <= (INR m + 1) * Rabs (y2 (pvelocity p))) by nra.
    assert (H4 : (INR m + 1) * a <= 0.0005 * (INR m + 1) * INR m) by nra.
    subst a. nra.
  - exists n. split; [lia|exact Hp].
Qed.

Lemma piece_lands_witness :
  exists n : nat,
    (1 <= n)%nat
    /\ forall deltaTimes,
        List.length deltaTimes = n ->
        exists p',
          stepsPiece deltaTimes
                     (makePiece plainZombie (V2 0.2 0.5) (V2 0.8 0.5) 1.0 1 0)
          = Some p'
          /\ pisOnFloor p' = true
          /\ y3 (pposition p') = FLOOR_Y.
Proof.
  destruct (piece_lands (makePiece plainZombie (V2 0.2 0.5) (V2 0.8 0.5) 1.0 1 0)
                        eq_refl) as [n [Hn H]].
  exists n. split; [exact Hn|]. intros dts Hl.
  destruct (H dts Hl) as [p' [E [A [B _]]]]. exists p'. repeat split; assumption.
Defined.

(** ** The spawn timer *)

Lemma spawnZombie_guarded s rnd :
  (spawnReady s = false -> spawnZombie s rnd = s)
  /\ (spawnReady s = true ->
      List.length (heap (spawnZombie s rnd)) = S (List.length (heap s))
      /\ activeZombies (spawnZombie s rnd)
         = activeZombies s ++ [List.length (heap s)]).
Proof.
  unfold spawnReady, spawnZombie.
  destruct (gameOver s); cbn [negb andb]; [split; [reflexivity|discriminate]|].
  destruct (allZombieFramesLoaded s); cbn [andb];
    [|split; [reflexivity|discriminate]].
  destruct (zombieGeometry s) as [[w h]|]; [|split; [reflexivity|discriminate]].
  split; [discriminate|]. intros _. cbn [heap activeZombies setWorld].
  rewrite length_app. cbn [List.length]. split; [lia|reflexivity].
Qed.

Lemma accelerate_interval (n : nat) (c : R) :
  MIN_SPAWN_INTERVAL <= c ->
  Nat.iter n (fun x => Rmax MIN_SPAWN_INTERVAL (x * SPAWN_ACCELERATION)) c
  = Rmax MIN_SPAWN_INTERVAL (c * SPAWN_ACCELERATION ^ n).
Proof.
  unfold MIN_SPAWN_INTERVAL, SPAWN_ACCELERATION. intros Hc.
  induction n as [|n IH].
  - cbn [Nat.iter pow]. rewrite Rmult_1_r, Rmax_right by lra. reflexivity.
  - rewrite Nat.iter_succ, IH. cbn [pow].
    replace (c * (0.995 * 0.995 ^ n)) with (c * 0.995 ^ n * 0.995) by ring.
    generalize (c * 0.995 ^ n). intros x.
    unfold Rmax. destruct (Rle_dec 700 x);
      repeat match goal with
             | |- context [Rle_dec ?a ?b] => destruct (Rle_dec a b)
             end; lra.
Qed.

Lemma accelerateSpawner_interval t :
  currentSpawnInterval (accelerateSpawner t)
  = Rmax MIN_SPAWN_INTERVAL (currentSpawnInterval t * SPAWN_ACCELERATION).
Proof.
  unfold accelerateSpawner. cbv zeta. cbn [spawnIntervalId].
  destruct (spawnIntervalId t); reflexivity.
Qed.

Lemma accelerateSpawner_iter (n : nat) t :
  currentSpawnInterval (Nat.iter n accelerateSpawner t)
  = Nat.iter n (fun x => Rmax MIN_SPAWN_INTERVAL (x * SPAWN_ACCELERATION))
             (currentSpawnInterval t).
Proof.
  induction n as [|n IH]; [reflexivity|].
  rewrite !Nat.iter_succ, accelerateSpawner_interval, IH. reflexivity.
Qed.

(** X5. Each zombie that [spawnZombie] makes shortens the spawn interval
    by the factor 0.995, down to 700 ms and no further: after [n] zombies
    from an interval [c] of at least 700 ms the interval is
    [max (700, c * 0.995^n)]; it is between 700 and [c], it never grows
    again, and a call of [spawnZombie] that is stopped by one of its guards
    leaves it as it is. *)
Theorem spawn_interval_sequence (n : nat) (t : Spawner) :
  MIN_SPAWN_INTERVAL <= currentSpawnInterval t ->
  let after := fun k => currentSpawnInterval (Nat.iter k accelerateSpawner t) in
  after n = Rmax MIN_SPAWN_INTERVAL
                 (currentSpawnInterval t * SPAWN_ACCELERATION ^ n)
  /\ MIN_SPAWN_INTERVAL <= after n <= currentSpawnInterval t
  /\ after (S n) <= after n
  /\ (forall s, spawnReady s = false -> spawnZombieTimer s t = t).
Proof.
  intros Hc. cbv beta zeta.
  rewrite !accelerateSpawner_iter, !accelerate_interval by exact Hc.
  unfold MIN_SPAWN_INTERVAL, SPAWN_ACCELERATION in *.
  assert (Hq : 0 < 0.995 ^ n <= 1).
  { split; [apply pow_lt; lra|].
    rewrite <- (pow1 n). apply pow_incr. lra. }
  cbn [pow].
  split; [reflexivity|]. split; [|split].
  - split; [apply Rmax_l|]. apply Rmax_lub; [lra|nra].
  - apply Rmax_lub; [apply Rmax_l|].
    eapply Rle_trans; [|apply Rmax_r]. nra.
  - intros s Hs. unfold spawnZombieTimer. rewrite Hs. reflexivity.
Qed.

Lemma spawn_interval_sequence_witness :
  currentSpawnInterval (Nat.iter 2 accelerateSpawner initialSpawner)
  = Rmax MIN_SPAWN_INTERVAL (INITIAL_SPAWN_INTERVAL * SPAWN_ACCELERATION ^ 2).
Proof.
  apply (spawn_interval_sequence 2 initialSpawner).
  unfold MIN_SPAWN_INTERVAL, initialSpawner, INITIAL_SPAWN_INTERVAL.
  cbn [currentSpawnInterval]. lra.
Defined.

(** The timers. *)
Lemma filter_fresh (l : list (nat * R)) (id : nat) :
  Forall (fun x => (fst x < id)%nat) l ->
  filter (fun x => negb (Nat.eqb (fst x) id)) l = l.
Proof.
  induction 1 as [|x l Hx H IH]; cbn [filter]; [reflexivity|].
  assert (E : Nat.eqb (fst x) id = false) by (apply Nat.eqb_neq; lia).
  rewrite E, IH. reflexivity.
Qed.

(** X6. A start of the spawner while it is running, the frames and the
    geometry being loaded and the game not over, leaves a timer behind:
    [spawnZombie], called before the new identifier is stored, makes a
    timer of its own under the old, truthy identifier, and the timer that
    [startZombieSpawner] then makes takes its place in [spawnIntervalId].
    After the start there are two more timers than those it did not
    clear, both with the period 2189 ms, and [stopZombieSpawner] clears
    only the second: the first keeps calling [spawnZombie]. *)
Theorem restart_leaves_a_timer (s : State) (t : Spawner) (id : nat) :
  spawnIntervalId t = Some id -> spawnReady s = true -> timersFresh t ->
  let others := filter (fun x => negb (Nat.eqb (fst x) id)) (timers t) in
  let a := nextTimerId t in
  let b := S (nextTimerId t) in
  let c := Rmax MIN_SPAWN_INTERVAL (INITIAL_SPAWN_INTERVAL * SPAWN_ACCELERATION) in
  let t' := startZombieSpawner s t in
  timers t' = others ++ [(a, c); (b, c)]
  /\ spawnIntervalId t' = Some b
  /\ c = 2189
  /\ timers (stopZombieSpawner t') = others ++ [(a, c)]
  /\ spawnIntervalId (stopZombieSpawner t') = None.
Proof.
  intros Hid Hr Hf. cbv zeta.
  unfold startZombieSpawner, clearSpawnInterval, spawnZombieTimer. rewrite Hid, Hr.
  unfold accelerateSpawner. cbv zeta.
  cbn [spawnIntervalId clearInterval currentSpawnInterval timers nextTimerId
       setSpawnInterval].
  rewrite Hid.
  cbn [spawnIntervalId clearInterval currentSpawnInterval timers nextTimerId
       setSpawnInterval].
  set (others := filter (fun x => negb (Nat.eqb (fst x) id)) (timers t)).
  assert (Ho : filter (fun x => negb (Nat.eqb (fst x) id)) others = others).
  { subst others. clear. induction (timers t) as [|x l IH]; [reflexivity|].
    cbn [filter]. destruct (negb (Nat.eqb (fst x) id)) eqn:E; [|exact IH].
    cbn [filter]. rewrite E, IH. reflexivity. }
  assert (Hfo : Forall (fun x => (fst x < nextTimerId t)%nat) others).
  { subst others. unfold timersFresh in Hf. rewrite Forall_forall in *.
    intros x Hx. apply filter_In in Hx. apply Hf, Hx. }
  rewrite Ho. rewrite <- app_assoc. cbn [app].
  split; [reflexivity|]. split; [reflexivity|].
  split.
  { unfold MIN_SPAWN_INTERVAL, INITIAL_SPAWN_INTERVAL, SPAWN_ACCELERATION.
    rewrite Rmax_right; lra. }
  split; [|reflexivity].
  unfold stopZombieSpawner, clearSpawnInterval, setSpawnInterval, clearInterval.
  cbn [spawnIntervalId currentSpawnInterval timers nextTimerId].
  rewrite Ho, <- app_assoc, filter_app. cbn [app filter fst].
  assert (E1 : Nat.eqb (nextTimerId t) (S (nextTimerId t)) = false)
    by (apply Nat.eqb_neq; lia).
  rewrite E1, Nat.eqb_refl. cbn [negb]. f_equal.
  apply filter_fresh. eapply Forall_impl; [|exact Hfo]. cbn. intros x Hx. lia.
Qed.

(** ** More of what the program keeps *)

(** X7. In every state the program can reach, [activeZombies] holds no
    mesh twice, the meshes it holds and the targets of the executed slices
    exist, no target of an executed slice is active, and the scene holds
    exactly the active zombies, in the same order. *)
Theorem references_and_scene raycast aspect s :
  reachable raycast aspect s ->
  NoDup (activeZombies s)
  /\ (forall id, In id (activeZombies s) -> id < List.length (heap s))%nat
  /\ (forall id, In id (sliceLog s) -> id < List.length (heap s))%nat
  /\ (forall id, In id (sliceLog s) -> ~ In id (activeZombies s))
  /\ sceneZombies s = activeZombies s.
Proof.
  intros Hr. destruct (reachable_sound raycast aspect s Hr) as [A [B [C D]]].
  repeat split; try assumption. apply (reachable_scene raycast aspect s Hr).
Qed.

Lemma references_and_scene_witness :
  NoDup (activeZombies firstZombieSpawned)
  /\ sceneZombies firstZombieSpawned = activeZombies firstZombieSpawned.
Proof.
  destruct (references_and_scene raycastFirst 1 firstZombieSpawned
                                 firstZombieSpawned_reachable) as [A [_ [_ [_ E]]]].
  split; assumption.
Defined.

(** X8. In every state the program can reach, an active zombie is between
    the start line and the end line, short of the end line; its scale is
    its base scale times 5 / (5 - z), between 0.16 and 3.75, so that the
    lower bound 0.1 of the perspective factor never applies; it is 5 units
    high and its feet are on the perspective floor of its depth; and it is
    within the path, whose width at its depth is 8 - 6 (z + 20) / 23, above
    the lower bound 0.1 of [calculatePathWidth]. *)
Theorem active_zombie_in_play raycast aspect s id :
  reachable raycast aspect s -> In id (activeZombies s) ->
  exists z,
    nth_error (heap s) id = Some z
    /\ ZOMBIE_START_Z <= z3 (zposition z) < ZOMBIE_END_Z
    /\ zscale z = V3 (zbaseScale z * (5 / (5 - z3 (zposition z))))
                     (zbaseScale z * (5 / (5 - z3 (zposition z)))) 1
    /\ 0.16 <= x3 (zscale z) < 3.75
    /\ y3 (zposition z) - 5 * x3 (zscale z) / 2
       = calculateFloorY (z3 (zposition z))
    /\ calculatePathWidth (z3 (zposition z))
       = 8 - 6 * (z3 (zposition z) + 20) / 23
    /\ Rabs (x3 (zposition z)) <= calculatePathWidth (z3 (zposition z)) / 2
    /\ zvelocity z = V3 0 0 ZOMBIE_WALK_SPEED.
Proof.
  intros Hr Hin.
  destruct (reachable_sound raycast aspect s Hr) as [_ [Ha _]].
  destruct (nth_error (heap s) id) as [z|] eqn:Hz;
    [|apply nth_error_None in Hz; apply Ha in Hin; lia].
  exists z. split; [reflexivity|].
  pose proof (reachable_ahead raycast aspect s Hr id z Hin Hz) as He.
  destruct (reachable_placed raycast aspect s Hr) as [Hp _].
  rewrite Forall_forall in Hp.
  destruct (Hp z (nth_error_In _ _ Hz)) as [Hs [Hy [Hx [Hv [Hst [Hb Hh]]]]]].
  unfold ZOMBIE_START_Z, ZOMBIE_END_Z, CAMERA_Z in *.
  set (d := z3 (zposition z)) in *.
  assert (Hf : 5 / (5 - d) = / (5 - d) * 5) by (unfold Rdiv; ring).
  assert (Hi : 0 < / (5 - d)) by (apply Rinv_0_lt_compat; lra).
  assert (Hi1 : / (5 - d) * (5 - d) = 1) by (field; lra).
  assert (Hlo : 0.2 <= 5 / (5 - d)) by (rewrite Hf; nra).
  assert (Hhi : 5 / (5 - d) < 2.5) by (rewrite Hf; nra).
  assert (Hm : Rmax 0.1 (5 / (5 - d)) = 5 / (5 - d)) by (apply Rmax_right; lra).
  rewrite Hm in *.
  assert (Hw : calculatePathWidth d = 8 - 6 * (d + 20) / 23).
  { rewrite pathWidth_eq. rewrite Rmax_right; lra. }
  split; [lra|]. split; [exact Hs|].
  rewrite Hs, Hh in *. cbn [x3].
  split; [nra|]. split; [lra|]. split; [exact Hw|]. split; assumption.
Qed.

Lemma active_zombie_in_play_witness :
  exists z,
    nth_error (heap firstZombieSpawned) 0 = Some z
    /\ ZOMBIE_START_Z <= z3 (zposition z) < ZOMBIE_END_Z.
Proof.
  destruct (active_zombie_in_play raycastFirst 1 firstZombieSpawned 0%nat
                                  firstZombieSpawned_reachable)
    as [z [A [B _]]].
  - destruct firstZombieSpawned_facts as [z [_ [_ [Ha _]]]]. rewrite Ha. now left.
  - exists z. split; assumption.
Defined.

(** X9. What a frame does to the zombies and to the lives, in a state the
    program can reach.  An active zombie gets to the end line in the frame
    exactly when its depth plus 2.2 times the elapsed time is at least 3;
    the frame removes exactly these zombies from [activeZombies] and from
    the scene and keeps the others in their order; each removed zombie
    costs a life as long as there is one, and the game is over when the
    last life goes; the score is not touched. *)
Theorem frame_removes_arrived raycast aspect s deltaTime rnd :
  reachable raycast aspect s ->
  let s' := animate s deltaTime rnd in
  let gone := filter (arrives deltaTime (heap s)) (activeZombies s) in
  (forall id z,
      In id (activeZombies s) -> nth_error (heap s) id = Some z ->
      (arrives deltaTime (heap s) id = true
       <-> z3 (zposition z) + ZOMBIE_WALK_SPEED * deltaTime >= ZOMBIE_END_Z))
  /\ activeZombies s' = filter (stays deltaTime (heap s)) (activeZombies s)
  /\ sceneZombies s' = activeZombies s'
  /\ lives s' = (lives s - Nat.min (lives s) (List.length gone))%nat
  /\ gameOver s'
     = (gameOver s
        || (Nat.ltb 0 (lives s) && Nat.leb (lives s) (List.length gone)))%bool
  /\ score s' = score s.
Proof.
  intros Hr. cbv zeta.
  pose proof (reachable_sound raycast aspect s Hr) as Hs.
  destruct (reachable_tally raycast aspect s Hr) as [_ [Hg _]].
  destruct (animate_tally s deltaTime rnd Hs) as [A [B [C _]]]. cbv zeta in *.
  rewrite loseLives_closed in A, B.
  split; [|split; [|split; [|split; [|split]]]].
  - intros id z Hin Hz. unfold arrives. rewrite Hz.
    destruct (reachable_placed raycast aspect s Hr) as [Hp _].
    rewrite Forall_forall in Hp.
    destruct (Hp z (nth_error_In _ _ Hz)) as [_ [_ [_ [Hv _]]]].
    destruct (moveZombie_far deltaTime (z3 (zposition z)) z) as [E _];
      [split; [lra|exact Hv]|].
    rewrite E. apply Rgeb_true.
  - apply animate_active, Hs.
  - unfold animate. cbn [sceneZombies activeZombies].
    apply animateZombies_scene; [apply Hs|].
    apply (reachable_scene raycast aspect s Hr).
  - rewrite A. destruct (gameOver s); cbn [fst]; [|reflexivity].
    rewrite (proj1 Hg eq_refl). reflexivity.
  - rewrite B. destruct (gameOver s); reflexivity.
  - exact C.
Qed.

Lemma frame_removes_arrived_witness :
  activeZombies (animate firstZombieSpawned 0.025 rnd0)
  = filter (stays 0.025 (heap firstZombieSpawned)) (activeZombies firstZombieSpawned).
Proof.
  exact (proj1 (proj2 (frame_removes_arrived raycastFirst 1 firstZombieSpawned
                                             0.025 rnd0
                                             firstZombieSpawned_reachable))).
Defined.

(** X10. In every state the program can reach there are at most three
    lives, the game is over exactly when there is none, the score is 50
    times the number of slices executed so far, and [slicedPieces] holds at
    most two pieces for each of them. *)
Theorem lives_and_score raycast aspect s :
  reachable raycast aspect s ->
  (lives s <= 3)%nat
  /\ (gameOver s = true <-> lives s = 0%nat)
  /\ score s = (50 * Z.of_nat (List.length (sliceLog s)))%Z
  /\ (List.length (slicedPieces s) <= 2 * List.length (sliceLog s))%nat.
Proof. intros Hr. exact (reachable_tally raycast aspect s Hr). Qed.

Lemma lives_and_score_witness :
  (lives firstZombieSpawned <= 3)%nat
  /\ (gameOver firstZombieSpawned = true <-> lives firstZombieSpawned = 0%nat).
Proof.
  destruct (lives_and_score raycastFirst 1 firstZombieSpawned
                            firstZombieSpawned_reachable) as [A [B _]].
  split; assumption.
Defined.

(** X11. Along every run of the program from a state it can reach no life
    comes back, a game that is over stays over, the score does not go down,
    no mesh is freed and the executed slices are only added to. *)
Theorem nothing_goes_back raycast aspect s events :
  reachable raycast aspect s -> enabledAll raycast s events ->
  let s' := run raycast s events in
  (lives s' <= lives s)%nat
  /\ (gameOver s = true -> gameOver s' = true)
  /\ (score s <= score s')%Z
  /\ (List.length (heap s) <= List.length (heap s'))%nat
  /\ (exists l, sliceLog s' = sliceLog s ++ l).
Proof.
  cbv zeta. change (reachable raycast aspect s -> enabledAll raycast s events ->
                    notBefore s (run raycast s events)).
  revert s. induction events as [|e rest IH]; intros s Hr He.
  - apply notBefore_refl.
  - cbn [enabledAll] in He. destruct He as [He Hrest].
    change (run raycast s (e :: rest)) with (run raycast (handle raycast s e) rest).
    apply (notBefore_trans _ (handle raycast s e)).
    + apply handle_notBefore; [exact He|]. eapply reachable_sound, Hr.
    + apply IH; [apply reach_step; assumption | exact Hrest].
Qed.

Lemma nothing_goes_back_witness :
  (lives (run raycastFirst firstZombieSpawned
              [MouseDown (V2 0 0); AnimationFrame 0.025 rnd0])
   <= lives firstZombieSpawned)%nat.
Proof.
  refine (proj1 (nothing_goes_back raycastFirst 1 firstZombieSpawned
                   [MouseDown (V2 0 0); AnimationFrame 0.025 rnd0]
                   firstZombieSpawned_reachable _)).
  cbn [enabledAll enabled]. split; [exact I|]. split; [|exact I].
  split; [lra|exact rnd0_valid].
Defined.

(** X12. In every state the program can reach the pool has 50 entries for
    each of the two loaders that has had its seventh blood texture, hence
    0, 50 or 100; the live particles are among them; and as long as one
    loader has not finished there are at most 50 live particles. *)
Theorem pool_size_and_live_bound raycast aspect s :
  reachable raycast aspect s ->
  List.length (bloodParticlePool s)
  = ((if Nat.eqb (loadedBloodCount s) BLOOD_TEXTURE_FILES
      then MAX_BLOOD_PARTICLES else 0)
     + (if Nat.eqb (assetsBloodCount s) BLOOD_TEXTURE_FILES
        then MAX_BLOOD_PARTICLES else 0))%nat
  /\ (liveCount (bloodParticlePool s) <= List.length (bloodParticlePool s))%nat
  /\ (List.length (bloodParticlePool s) <= 2 * MAX_BLOOD_PARTICLES)%nat
  /\ ((loadedBloodCount s < BLOOD_TEXTURE_FILES
       \/ assetsBloodCount s < BLOOD_TEXTURE_FILES)%nat ->
      (liveCount (bloodParticlePool s) <= MAX_BLOOD_PARTICLES)%nat).
Proof.
  intros Hr.
  destruct (reachable_poolSized raycast aspect s Hr) as [_ [_ E]].
  destruct (live_particles_bound raycast aspect s Hr) as [A [B C]].
  repeat split; assumption.
Qed.

Lemma pool_size_and_live_bound_witness :
  (liveCount (bloodParticlePool threeZombies)
   <= List.length (bloodParticlePool threeZombies))%nat
  /\ (List.length (bloodParticlePool threeZombies) <= 2 * MAX_BLOOD_PARTICLES)%nat.
Proof.
  destruct (pool_size_and_live_bound raycastFirst 1 threeZombies
                                     threeZombies_reachable) as [_ [A [B _]]].
  split; assumption.
Defined.

(** X13. In every state the program can reach, each loader has counted at
    most its 7 blood textures and its 16 frames; [bloodTextures] holds one
    texture for each callback of either loader; [bloodTexturesLoaded] and
    [allZombieFramesLoaded] are set exactly when one of the loaders has
    counted all of its files; there is no zombie before the frames and the
    geometry are loaded; and the texture of every entry of the pool is one
    of [bloodTextures]. *)
Theorem loaders_and_textures raycast aspect s :
  reachable raycast aspect s ->
  (loadedBloodCount s <= BLOOD_TEXTURE_FILES)%nat
  /\ (assetsBloodCount s <= BLOOD_TEXTURE_FILES)%nat
  /\ bloodTextures s = (loadedBloodCount s + assetsBloodCount s)%nat
  /\ (bloodTexturesLoaded s = true
      <-> loadedBloodCount s = BLOOD_TEXTURE_FILES
          \/ assetsBloodCount s = BLOOD_TEXTURE_FILES)
  /\ (loadedZombieFrameCount s <= ZOMBIE_FRAME_COUNT)%nat
  /\ (assetsZombieFrameCount s <= ZOMBIE_FRAME_COUNT)%nat
  /\ (allZombieFramesLoaded s = true
      <-> loadedZombieFrameCount s = ZOMBIE_FRAME_COUNT
          \/ assetsZombieFrameCount s = ZOMBIE_FRAME_COUNT)
  /\ (heap s <> [] ->
      allZombieFramesLoaded s = true /\ zombieGeometry s <> None)
  /\ Forall (fun p => (0 <= mapIndex p < Z.of_nat (bloodTextures s))%Z)
            (bloodParticlePool s).
Proof. intros Hr. exact (reachable_loaders raycast aspect s Hr). Qed.

Lemma loaders_and_textures_witness :
  bloodTextures threeZombies
  = (loadedBloodCount threeZombies + assetsBloodCount threeZombies)%nat.
Proof.
  exact (proj1 (proj2 (proj2 (loaders_and_textures raycastFirst 1 threeZombies
                                                   threeZombies_reachable)))).
Defined.

(** X14. In every state the program can reach, with a raycaster that
    answers with one of the meshes it is given, a hit test of either input
    path answers with an active zombie that no slice has been executed on,
    whose [isSliced] flag is not set, and with a point of its texture
    square. *)
Theorem hit_test_answers_active_zombie raycast aspect s ndc uv id :
  raycastSound raycast -> reachable raycast aspect s ->
  getUVCoordsFromNDC raycast s ndc = Some (uv, id)
  \/ getUVCoords raycast s ndc = Some (uv, id) ->
  In id (activeZombies s) /\ ~ In id (sliceLog s) /\ inUnitSquare uv
  /\ exists z, nth_error (heap s) id = Some z /\ zisSliced z = false.
Proof.
  intros Hray Hr Hh.
  destruct (hit_test_never_returns_sliced raycast aspect s ndc uv id Hray Hr Hh)
    as [A [B C]].
  split; [exact A|]. split; [exact B|]. split; [exact C|].
  apply (reachable_active raycast aspect s id Hr A).
Qed.

Lemma hit_test_answers_active_zombie_witness :
  In 0%nat (activeZombies firstZombieSpawned)
  /\ inUnitSquare (V2 (0 + 0.5) (0 + 0.5)).
Proof.
  destruct firstZombieSpawned_facts as [z [Hh [Hz [Ha _]]]].
  destruct (hit_test_answers_active_zombie
              raycastFirst 1 firstZombieSpawned (V2 0 0) (V2 (0 + 0.5) (0 + 0.5)) 0%nat
              raycastFirst_sound firstZombieSpawned_reachable)
    as [A [_ [B _]]].
  - left. apply (hit_first firstZombieSpawned 0%nat [] z); try assumption; try lra.
    rewrite Hh. reflexivity.
  - split; assumption.
Defined.

(** X15. Between two events, in every state the program can reach with a
    raycaster that answers with one of the meshes it is given: a drag is in
    progress exactly when its start point is valid, so the resolver that
    the [mouseup] listener calls never finds an invalid start; the end
    point is not valid; during a drag [zombieToSlice] is a mesh of the heap
    and [sliceStartUV] is a point of the texture square, which the clamp of
    the resolver leaves as it is; and without a drag there is no target. *)
Theorem mouse_gesture_consistent raycast aspect s :
  raycastSound raycast -> reachable raycast aspect s ->
  sliceStartValid (mouse s) = isSlicing (mouse s)
  /\ sliceEndValid (mouse s) = false
  /\ (isSlicing (mouse s) = true ->
      (exists id, zombieToSlice (mouse s) = Some id
                  /\ (id < List.length (heap s))%nat)
      /\ inUnitSquare (sliceStartUV (mouse s))
      /\ Vec.clampScalar (sliceStartUV (mouse s)) 0 1 = sliceStartUV (mouse s))
  /\ (isSlicing (mouse s) = false -> zombieToSlice (mouse s) = None).
Proof.
  intros Hray Hr.
  destruct (reachable_mouseSound raycast aspect s Hray Hr) as [A [B [C D]]].
  split; [exact A|]. split; [exact B|]. split; [|exact D].
  intros Hi. destruct (C Hi) as [id [E [L U]]].
  split; [exists id; split; assumption|]. split; [exact U|].
  apply clampScalar_id, U.
Qed.

Lemma mouse_gesture_consistent_witness :
  sliceStartValid (mouse (handle raycastFirst firstZombieSpawned (MouseDown (V2 0 0))))
  = isSlicing (mouse (handle raycastFirst firstZombieSpawned (MouseDown (V2 0 0)))).
Proof.
  refine (proj1 (mouse_gesture_consistent
                   raycastFirst 1
                   (handle raycastFirst firstZombieSpawned (MouseDown (V2 0 0)))
                   raycastFirst_sound _)).
  apply reach_step; [exact firstZombieSpawned_reachable|exact I].
Defined.

(** X16. The two resolvers agree.  For a gesture whose two points in
    normalized device coordinates differ, in a window whose aspect ratio
    is not zero, the zero-vector guards of the hand resolver do not fire,
    and the hand resolver makes of the start point, the two points of the
    gesture and the end point, if the end hit the target, the cut line that
    the mouse resolver makes of the same data in the mouse variables. *)
Theorem resolvers_agree (s : State) :
  sliceStartValid (mouse s) = true ->
  sliceStartNDC (mouse s) <> sliceEndNDC (mouse s) ->
  cameraAspect s <> 0 ->
  resolveSliceUVHand (cameraAspect s) (sliceStartUV (mouse s))
                     (sliceStartNDC (mouse s)) (sliceEndNDC (mouse s))
                     (if sliceEndValid (mouse s) then Some (sliceEndUV (mouse s))
                      else None)
  = resolveSliceUV s.
Proof.
  intros Hv Hne Ha. unfold resolveSliceUVHand, resolveSliceUV. cbv zeta.
  destruct (hand_guards_pass (cameraAspect s) _ _ Hne Ha) as [G1 G2].
  rewrite G1, G2, Hv. cbn [andb].
  destruct (sliceEndValid (mouse s)); reflexivity.
Qed.

Lemma resolvers_agree_witness :
  resolveSliceUVHand (cameraAspect draggedState) (V2 0.2 0.5) (V2 0 0) (V2 0.25 0)
                     (Some (V2 0.8 0.5))
  = resolveSliceUV draggedState.
Proof.
  apply (resolvers_agree draggedState).
  - reflexivity.
  - cbn. intros E. inversion E. lra.
  - cbn. lra.
Defined.

(** ** The intersection routine from outside the square *)

Lemma intersect_sound_witness :
  exists t : R,
    1e-6 <= t <= 1e6
    /\ V2 0 0.5 = V2 (-0.5 + 1 * t) (0.5 + 0 * t).
Proof.
  destruct (intersect_sound (V2 (-0.5) 0.5) (V2 1 0) (V2 0 0.5)) as [t [A [B _]]].
  - unfold intersectUVSquare, intersectionTime, axisPass. cbn [x2 y2].
    rewrite Rabs_R1, Rabs_R0. cmp. cbn [orb].
    replace ((0 - -0.5) / 1) with 0.5 by lra.
    replace ((1 - -0.5) / 1) with 1.5 by lra.
    cmp. cbn [ERmax ERmin ERgtb ERltR ERgeR ERgtR orb]. cmp.
    cbn [orb ERltR ERgtR]. cmp. cbn [orb].
    unfold Vec.addVectors, Vec.multiplyScalar. cbn [x2 y2]. f_equal. f_equal; lra.
  - exists t. split; [exact A|exact B].
Defined.

(** ** The hand gesture *)

Lemma fingerTip_distance (a b : Vector2) :
  Vec.distanceTo (fingerTipNDC a) (fingerTipNDC b) = 2 * Vec.distanceTo a b.
Proof.
  unfold Vec.distanceTo. symmetry. rewrite Rmult_comm.
  rewrite <- (length_scaled (Vec.subVectors a b) 2) by lra.
  unfold Vec.length, Vec.lengthSq, Vec.subVectors, fingerTipNDC. cbn [x2 y2].
  f_equal. ring.
Qed.

(** X17. The hand path measures a gesture from one sample of the fingertip
    to the next.  The conversion of a landmark to normalized device
    coordinates mirrors it and doubles distances, so that the threshold of
    0.03 is one of 0.015 in the coordinates of the video: a fingertip that
    has moved by at most 0.015 since the sample before only becomes the
    new reference point.  And a frame without a hand, or without the tip
    of the index finger, forgets the reference point: the sample after it
    never slices, however far the fingertip has moved. *)
Theorem hand_gesture_samples raycast s now rnd :
  gameOver s = false ->
  (forall a b, Vec.distanceTo (fingerTipNDC a) (fingerTipNDC b)
               = 2 * Vec.distanceTo a b)
  /\ (forall raw previousRaw,
         previousFingerTipNDC s = Some (fingerTipNDC previousRaw) ->
         Vec.distanceTo raw previousRaw <= 0.015 ->
         processHandData raycast s now rnd (Hands (Some raw))
         = setPreviousFingerTipNDC s (Some (fingerTipNDC raw)))
  /\ (forall lost raw now' rnd',
         lost = NoHands \/ lost = Hands None ->
         processHandData raycast (processHandData raycast s now rnd lost)
                         now' rnd' (Hands (Some raw))
         = setPreviousFingerTipNDC s (Some (fingerTipNDC raw))).
Proof.
  intros Hg. split; [exact fingerTip_distance|]. split.
  - intros raw previousRaw Hp Hd.
    apply (hand_short_motion raycast s now rnd raw (fingerTipNDC previousRaw) Hg Hp).
    rewrite fingerTip_distance. unfold SLICE_GESTURE_THRESHOLD. lra.
  - intros lost raw now' rnd' Hl.
    assert (E : processHandData raycast s now rnd lost
                = setPreviousFingerTipNDC s None).
    { unfold processHandData. rewrite Hg. destruct Hl; subst lost; reflexivity. }
    rewrite E. rewrite hand_first_sample; [reflexivity | exact Hg | reflexivity].
Qed.

Lemma hand_gesture_samples_witness :
  processHandData raycastFirst
                  (processHandData raycastFirst (initialState 1) 0 rnd0 NoHands)
                  1 rnd0 (Hands (Some (V2 0.5 0.5)))
  = setPreviousFingerTipNDC (initialState 1) (Some (fingerTipNDC (V2 0.5 0.5))).
Proof.
  refine (proj2 (proj2 (hand_gesture_samples raycastFirst (initialState 1) 0 rnd0
                                             eq_refl))
                NoHands (V2 0.5 0.5) 1 rnd0 _).
  left. reflexivity.
Defined.

(** ** The perspective helpers *)

(** X18. [calculatePathWidth] is the linear interpolation between 8 at the
    start line and 2 at the end line, cut off below at 0.1: its guard
    against a division by zero never fires, it is never below 0.1, and the
    path does not get wider towards the camera.  [calculateFloorY] puts the
    floor at -2.425 - 0.015 z, lower towards the camera. *)
Theorem perspective_helpers (z z' : R) :
  calculatePathWidth z = Rmax 0.1 (8 - 6 * (z + 20) / 23)
  /\ 0.1 <= calculatePathWidth z
  /\ calculatePathWidth ZOMBIE_START_Z = 8
  /\ calculatePathWidth ZOMBIE_END_Z = 2
  /\ (z <= z' -> calculatePathWidth z' <= calculatePathWidth z)
  /\ calculateFloorY z = -2.425 - 0.015 * z
  /\ (z <= z' -> calculateFloorY z' <= calculateFloorY z).
Proof.
  assert (E : forall u, calculatePathWidth u = Rmax 0.1 (8 - 6 * (u + 20) / 23)).
  { intros u. rewrite pathWidth_eq. f_equal. lra. }
  assert (F : forall u, calculateFloorY u = -2.425 - 0.015 * u).
  { intros u. unfold calculateFloorY, FLOOR_Y, CAMERA_Z, PERSPECTIVE_FLOOR_FACTOR.
    lra. }
  split; [apply E|]. split; [apply pathWidth_pos|].
  split; [rewrite E; unfold ZOMBIE_START_Z; rewrite Rmax_right; lra|].
  split; [rewrite E; unfold ZOMBIE_END_Z; rewrite Rmax_right; lra|].
  split.
  - intros H. rewrite !E. apply Rmax_lub; [apply Rmax_l|].
    eapply Rle_trans; [|apply Rmax_r]. lra.
  - split; [apply F|]. intros H. rewrite !F. lra.
Qed.

(** ** The hearts *)

Lemma hearts_of (l : nat) :
  (l <= 3)%nat -> heartsDisplay l = repeat false (3 - l) ++ repeat true l.
Proof.
  intros H. destruct l as [|[|[|[|l]]]]; try reflexivity. lia.
Qed.

(** X19. The hearts show the lives: in every state the program can reach,
    [updateHeartsDisplay] makes of the three hearts, from the top, as many
    empty hearts as lives are lost and then as many full hearts as lives
    are left. *)
Theorem hearts_show_lives raycast aspect s :
  reachable raycast aspect s ->
  heartsDisplay (lives s) = repeat false (3 - lives s) ++ repeat true (lives s)
  /\ List.length (filter (fun full => full) (heartsDisplay (lives s))) = lives s.
Proof.
  intros Hr. destruct (reachable_tally raycast aspect s Hr) as [Hl _].
  split; [apply hearts_of, Hl|].
  destruct (lives s) as [|[|[|[|l]]]]; try reflexivity. lia.
Qed.

Lemma hearts_show_lives_witness :
  heartsDisplay (lives firstZombieSpawned)
  = repeat false (3 - lives firstZombieSpawned)
    ++ repeat true (lives firstZombieSpawned).
Proof.
  exact (proj1 (hearts_show_lives raycastFirst 1 firstZombieSpawned
                                  firstZombieSpawned_reachable)).
Defined.

(** ** The timers of the spawner *)

(** X20. A spawner that is started when it is stopped has one timer, the
    one that [spawnIntervalId] names, with the current interval as its
    period; every call of [spawnZombie] by that timer keeps it so, with a
    new timer of the new interval in place of the old one; and
    [stopZombieSpawner] then leaves no timer. *)
Theorem spawner_keeps_one_timer (s s' : State) (t : Spawner) :
  (spawnIntervalId t = None -> timers t = [] ->
   oneTimer (startZombieSpawner s t))
  /\ (oneTimer t -> oneTimer (spawnZombieTimer s' t))
  /\ (oneTimer t ->
      timers (stopZombieSpawner t) = []
      /\ spawnIntervalId (stopZombieSpawner t) = None).
Proof.
  split; [|split].
  - intros Hi Ht. unfold startZombieSpawner, clearSpawnInterval, spawnZombieTimer.
    rewrite Hi. cbv zeta.
    destruct (spawnReady s); unfold accelerateSpawner; cbv zeta;
      cbn [spawnIntervalId]; rewrite ?Hi;
      unfold oneTimer, setSpawnInterval;
      cbn [spawnIntervalId timers currentSpawnInterval nextTimerId];
      rewrite Ht; eexists; (split; [reflexivity|]); (split; [reflexivity|lia]).
  - intros [id [Hi [Ht Hn]]]. unfold spawnZombieTimer.
    destruct (spawnReady s'); [|exists id; repeat split; assumption].
    unfold accelerateSpawner. cbv zeta. cbn [spawnIntervalId]. rewrite Hi.
    unfold oneTimer, setSpawnInterval, clearInterval.
    cbn [spawnIntervalId timers currentSpawnInterval nextTimerId].
    rewrite Ht. cbn [filter fst]. rewrite Nat.eqb_refl. cbn [negb app].
    eexists. split; [reflexivity|]. split; [reflexivity|lia].
  - intros [id [Hi [Ht Hn]]]. unfold stopZombieSpawner, clearSpawnInterval.
    rewrite Hi. cbv zeta. unfold clearInterval.
    cbn [spawnIntervalId timers currentSpawnInterval nextTimerId].
    rewrite Ht. cbn [filter fst]. rewrite Nat.eqb_refl. split; reflexivity.
Qed.

(** The click on ENABLE WEBCAM once the top-level loader has started the
    spawner. *)
Lemma restart_leaves_a_timer_witness :
  let t := startZombieSpawner framesReady initialSpawner in
  let t' := snd (enableCam framesReady false t) in
  timers t = [(1%nat, 2189)]
  /\ timers t' = [(2%nat, 2189); (3%nat, 2189)]
  /\ timers (snd (enableCam framesReady true t')) = [(2%nat, 2189)].
Proof.
  cbv zeta.
  set (t := startZombieSpawner framesReady initialSpawner).
  assert (Ei : spawnIntervalId t = Some 1%nat) by reflexivity.
  assert (En : nextTimerId t = 2%nat) by reflexivity.
  assert (E2189 : Rmax MIN_SPAWN_INTERVAL (INITIAL_SPAWN_INTERVAL * SPAWN_ACCELERATION)
                  = 2189).
  { unfold MIN_SPAWN_INTERVAL, INITIAL_SPAWN_INTERVAL, SPAWN_ACCELERATION.
    rewrite Rmax_right; lra. }
  assert (Et : timers t = [(1%nat, 2189)]).
  { subst t. unfold startZombieSpawner, spawnZombieTimer, accelerateSpawner,
               setSpawnInterval, clearSpawnInterval.
    cbn [spawnReady framesReady setFrames gameOver allZombieFramesLoaded
         zombieGeometry initialState negb andb initialSpawner spawnIntervalId
         timers currentSpawnInterval nextTimerId app].
    rewrite E2189. reflexivity. }
  assert (Hf : timersFresh t).
  { unfold timersFresh. rewrite Et, En. repeat constructor. }
  destruct (restart_leaves_a_timer framesReady t 1%nat Ei eq_refl Hf)
    as [A [B [_ [C D]]]].
  cbv zeta in *. rewrite Et, En, E2189 in *. cbn [filter fst Nat.eqb negb app] in *.
  split; [reflexivity|].
  unfold enableCam. cbn [framesReady setFrames allZombieFramesLoaded zombieGeometry
                         andb snd].
  rewrite A. split; [reflexivity|]. rewrite B. exact C.
Defined.

(** ** What is on the screen in a reachable state *)

(** X21. Every zombie mesh the program has made shows the animation frame
    that its [animFrame] counts, which is one of the 16 frames of
    [zombieFrames]; its animation timer is not negative, its scale is
    positive and its [isSliced] flag is false. *)
Theorem zombie_shows_its_frame raycast aspect s :
  reachable raycast aspect s ->
  Forall (fun z =>
            zuTexture z = zanimFrame z
            /\ (zanimFrame z < ZOMBIE_FRAME_COUNT)%nat
            /\ 0 <= zanimTimer z
            /\ 0 < x3 (zscale z)
            /\ zisSliced z = false)
         (heap s).
Proof.
  intros Hr. destruct (reachable_screen raycast aspect s Hr) as [A _].
  eapply Forall_impl; [|exact A].
  intros z [[Z1 [_ Z3]] [Z4 [Z5 Z6]]]. repeat split; assumption.
Qed.

Lemma zombie_shows_its_frame_witness :
  Forall (fun z =>
            zuTexture z = zanimFrame z
            /\ (zanimFrame z < ZOMBIE_FRAME_COUNT)%nat
            /\ 0 <= zanimTimer z
            /\ 0 < x3 (zscale z)
            /\ zisSliced z = false)
         (heap firstZombieSpawned).
Proof.
  exact (zombie_shows_its_frame raycastFirst 1 firstZombieSpawned
                                firstZombieSpawned_reachable).
Defined.

(** X22. Every piece of a sliced zombie keeps the side +1 or the side -1
    of a cut line whose two points lie in the texture square, and shows one
    of the 16 frames at a positive scale.  Its despawn timer is 0 while it
    falls and stays below [DESPAWN_TIME] on the floor, where the piece lies
    at [FLOOR_Y] and has no vertical velocity. *)
Theorem piece_keeps_its_cut raycast aspect s :
  reachable raycast aspect s ->
  Forall (fun p =>
            (puSideToKeep p = 1 \/ puSideToKeep p = -1)
            /\ inUnitSquare (puSliceStart p) /\ inUnitSquare (puSliceEnd p)
            /\ (puTexture p < ZOMBIE_FRAME_COUNT)%nat
            /\ 0 < x3 (pscale p)
            /\ 0 <= pdespawnTimer p < DESPAWN_TIME
            /\ (pisOnFloor p = true ->
                y3 (pposition p) = FLOOR_Y /\ y2 (pvelocity p) = 0)
            /\ (pisOnFloor p = false -> pdespawnTimer p = 0))
         (slicedPieces s).
Proof.
  intros Hr. destruct (reachable_screen raycast aspect s Hr) as [_ [B _]].
  exact B.
Qed.

Lemma sliced_reachable :
  reachable raycastFirst 1 (run raycastFirst firstZombieSpawned (drag 1)).
Proof.
  apply reachable_run; [exact firstZombieSpawned_reachable|].
  cbn [enabledAll drag ticks repeat app enabled].
  repeat first [exact I | exact rnd0_valid | lra | split].
Qed.

Lemma piece_keeps_its_cut_witness :
  Forall (fun p =>
            (puSideToKeep p = 1 \/ puSideToKeep p = -1)
            /\ inUnitSquare (puSliceStart p) /\ inUnitSquare (puSliceEnd p)
            /\ (puTexture p < ZOMBIE_FRAME_COUNT)%nat
            /\ 0 < x3 (pscale p)
            /\ 0 <= pdespawnTimer p < DESPAWN_TIME
            /\ (pisOnFloor p = true ->
                y3 (pposition p) = FLOOR_Y /\ y2 (pvelocity p) = 0)
            /\ (pisOnFloor p = false -> pdespawnTimer p = 0))
         (slicedPieces (run raycastFirst firstZombieSpawned (drag 1))).
Proof.
  exact (piece_keeps_its_cut raycastFirst 1 _ sliced_reachable).
Defined.

(** X23. Every entry of the particle pool is in one of four states, with
    an opacity between 0 and 1: hidden, with opacity 0 and neither on the
    floor nor on the wall; in the air, with time left to live; a puddle of
    floor blood, less than a hundredth above [FLOOR_Y], at rest, with an
    opacity from 0.6 to 0.8 and younger than [DESPAWN_TIME]; or wall blood
    stuck within 0.005 of the back wall, at rest, with an opacity from 0.7
    to 0.9, for at most 4.5 seconds. *)
Theorem particle_states raycast aspect s :
  reachable raycast aspect s ->
  Forall (fun p =>
            0 <= opacity p <= 1
            /\ (visible p = false ->
                opacity p = 0 /\ isOnFloor p = false /\ stuckToWall p = false)
            /\ (visible p = true -> isOnFloor p = false -> stuckToWall p = false ->
                0 < lifetime p)
            /\ (isOnFloor p = true ->
                isWallBlood p = false
                /\ FLOOR_Y <= y3 (sposition p) < FLOOR_Y + 0.01
                /\ x3 (velocity p) = 0 /\ y3 (velocity p) = 0
                /\ materialRotation p = 0 /\ rotationSpeed p = 0
                /\ 0.6 <= opacity p < 0.8
                /\ 0 <= despawnTimer p < DESPAWN_TIME)
            /\ (stuckToWall p = true ->
                isWallBlood p = true
                /\ ZOMBIE_START_Z - 0.005 <= z3 (sposition p) < ZOMBIE_START_Z + 0.005
                /\ velocity p = zero3
                /\ 0.7 <= opacity p < 0.9
                /\ 0 <= despawnTimer p <= 4.5))
         (bloodParticlePool s).
Proof.
  intros Hr. destruct (reachable_screen raycast aspect s Hr) as [_ [_ C]].
  exact C.
Qed.

Lemma particle_states_witness :
  Forall (fun p => 0 <= opacity p <= 1) (bloodParticlePool threeZombies).
Proof.
  eapply Forall_impl;
    [|exact (particle_states raycastFirst 1 threeZombies threeZombies_reachable)].
  intros p H. exact (proj1 H).
Defined.

(** ** The score on the screen *)

Lemma numeral_length (d : Decimal.uint) :
  String.length (DecimalString.NilEmpty.string_of_uint d) = Decimal.nb_digits d.
Proof. induction d; cbn; congruence. Qed.

Lemma zeros_numeral k (d : Decimal.uint) :
  zeros k (DecimalString.NilEmpty.string_of_uint d)
  = DecimalString.NilEmpty.string_of_uint (Nat.iter k Decimal.D0 d).
Proof. induction k as [|k IH]; cbn [zeros]; [reflexivity|]. rewrite IH. reflexivity. Qed.

Lemma zeros_length k text :
  String.length (zeros k text) = (k + String.length text)%nat.
Proof. induction k as [|k IH]; cbn [zeros String.length Nat.add]; [reflexivity|]. rewrite IH. reflexivity. Qed.

Lemma zeros_value k (d : Decimal.uint) :
  Z.of_uint (Nat.iter k Decimal.D0 d) = Z.of_uint d.
Proof. induction k as [|k IH]; [reflexivity|exact IH]. Qed.

Lemma read_numeral (d : Decimal.uint) :
  d <> Decimal.Nil ->
  DecimalString.NilZero.int_of_string (DecimalString.NilEmpty.string_of_uint d)
  = Some (Decimal.Pos d).
Proof.
  intros Hd.
  assert (E : DecimalString.NilEmpty.uint_of_string
                (DecimalString.NilEmpty.string_of_uint d) = Some d)
    by apply DecimalString.NilEmpty.usu.
  destruct d; try congruence; cbn in E |- *; rewrite ?E; cbn;
    destruct (DecimalString.NilEmpty.uint_of_string _); cbn in *; congruence.
Qed.

Lemma usize_digits (d : Decimal.uint) :
  Z.of_N (DecimalPos.Unsigned.usize d) = Z.of_nat (Decimal.nb_digits d).
Proof.
  induction d; cbn [DecimalPos.Unsigned.usize Decimal.nb_digits];
    rewrite ?N2Z.inj_succ, ?Nat2Z.inj_succ, ?IHd; reflexivity.
Qed.

Lemma leading_digit (l : Decimal.uint) (acc : positive) :
  (10 ^ Z.of_nat (Decimal.nb_digits l) <= Z.pos (Pos.of_uint_acc l acc))%Z.
Proof.
  pose proof (DecimalPos.Unsigned.of_uint_acc_rev l acc) as E.
  apply (f_equal Z.of_N) in E. rewrite N2Z.inj_add, N2Z.inj_mul, N2Z.inj_pow in E.
  rewrite usize_digits in E. cbn [Z.of_N] in E. rewrite E.
  pose proof (N2Z.is_nonneg (DecimalPos.Unsigned.of_lu (Decimal.rev l))).
  assert (0 < 10 ^ Z.of_nat (Decimal.nb_digits l))%Z
    by (apply Z.pow_pos_nonneg; lia).
  nia.
Qed.

Lemma digits_of_positive (p : positive) :
  Pos.to_uint p <> Decimal.Nil
  /\ (10 ^ Z.of_nat (Decimal.nb_digits (Pos.to_uint p) - 1) <= Z.pos p)%Z.
Proof.
  pose proof (DecimalPos.Unsigned.of_to p) as E.
  pose proof (DecimalPos.Unsigned.to_of (Pos.to_uint p)) as U.
  rewrite E in U. cbn [N.to_uint] in U.
  assert (L : forall l acc, Pos.of_uint (Pos.to_uint p) = N.pos (Pos.of_uint_acc l acc) ->
                            (10 ^ Z.of_nat (Decimal.nb_digits l) <= Z.pos p)%Z).
  { intros l acc El. rewrite E in El. inversion El. apply leading_digit. }
  destruct (Pos.to_uint p) as [|l|l|l|l|l|l|l|l|l|l] eqn:Ed.
  - cbn in E. discriminate.
  - split; [discriminate|].
    unfold Decimal.unorm in U. cbn [Decimal.nzhead] in U.
    destruct (Decimal.nzhead l) eqn:En; try discriminate U.
    + inversion U; subst. cbn in E. discriminate.
    + exfalso. exact (DecimalFacts.nzhead_nonzero _ _ En).
  - split; [discriminate|]. cbn [Decimal.nb_digits]. rewrite Nat.sub_succ, Nat.sub_0_r.
    apply (L l 1%positive). reflexivity.
  - split; [discriminate|]. cbn [Decimal.nb_digits]. rewrite Nat.sub_succ, Nat.sub_0_r.
    apply (L l 2%positive). reflexivity.
  - split; [discriminate|]. cbn [Decimal.nb_digits]. rewrite Nat.sub_succ, Nat.sub_0_r.
    apply (L l 3%positive). reflexivity.
  - split; [discriminate|]. cbn [Decimal.nb_digits]. rewrite Nat.sub_succ, Nat.sub_0_r.
    apply (L l 4%positive). reflexivity.
  - split; [discriminate|]. cbn [Decimal.nb_digits]. rewrite Nat.sub_succ, Nat.sub_0_r.
    apply (L l 5%positive). reflexivity.
  - split; [discriminate|]. cbn [Decimal.nb_digits]. rewrite Nat.sub_succ, Nat.sub_0_r.
    apply (L l 6%positive). reflexivity.
  - split; [discriminate|]. cbn [Decimal.nb_digits]. rewrite Nat.sub_succ, Nat.sub_0_r.
    apply (L l 7%positive). reflexivity.
  - split; [discriminate|]. cbn [Decimal.nb_digits]. rewrite Nat.sub_succ, Nat.sub_0_r.
    apply (L l 8%positive). reflexivity.
  - split; [discriminate|]. cbn [Decimal.nb_digits]. rewrite Nat.sub_succ, Nat.sub_0_r.
    apply (L l 9%positive). reflexivity.
Qed.

Lemma iter_D0_nonnil k (d : Decimal.uint) :
  d <> Decimal.Nil -> Nat.iter k Decimal.D0 d <> Decimal.Nil.
Proof. destruct k; [trivial|]. intros _. cbn. discriminate. Qed.

Lemma scoreText_numeral (n : Z) :
  (0 <= n)%Z ->
  exists d,
    d <> Decimal.Nil
    /\ toString n = DecimalString.NilEmpty.string_of_uint d
    /\ Z.of_uint d = n
    /\ ((n < 1000000)%Z -> (Decimal.nb_digits d <= 6)%nat).
Proof.
  intros Hn. destruct n as [|p|p]; [| |lia].
  - exists (Decimal.D0 Decimal.Nil). repeat split; [discriminate|]. intros _. cbn. lia.
  - destruct (digits_of_positive p) as [Hd Hp]. exists (Pos.to_uint p).
    split; [exact Hd|]. split; [|split].
    + unfold toString. cbn [Z.to_int DecimalString.NilZero.string_of_int].
      destruct (Pos.to_uint p); [congruence|reflexivity..].
    + unfold Z.of_uint. rewrite DecimalPos.Unsigned.of_to. reflexivity.
    + intros Hlt.
      destruct (le_lt_dec (Decimal.nb_digits (Pos.to_uint p)) 6) as [Hle|Hgt];
        [exact Hle|exfalso].
      assert (10 ^ 6 <= 10 ^ Z.of_nat (Decimal.nb_digits (Pos.to_uint p) - 1))%Z
        by (apply Z.pow_le_mono_r; lia).
      change (10 ^ 6)%Z with 1000000%Z in *. lia.
Qed.

Lemma scoreText_spec (n : Z) :
  (0 <= n)%Z ->
  String.length (scoreText n) = Nat.max 6 (String.length (toString n))
  /\ ((n < 1000000)%Z -> String.length (scoreText n) = 6%nat)
  /\ exists d, DecimalString.NilZero.int_of_string (scoreText n) = Some d
               /\ Z.of_int d = n.
Proof.
  intros Hn. destruct (scoreText_numeral n Hn) as [d [Hd [Et [Ev Hl]]]].
  unfold scoreText, padStart. rewrite Et, numeral_length.
  split; [rewrite zeros_length, numeral_length; lia|].
  split; [intros Hlt; specialize (Hl Hlt); rewrite zeros_length, numeral_length; lia|].
  exists (Decimal.Pos (Nat.iter (6 - Decimal.nb_digits d) Decimal.D0 d)).
  rewrite zeros_numeral. split.
  - apply read_numeral, iter_D0_nonnil, Hd.
  - cbn [Z.of_int]. rewrite zeros_value. exact Ev.
Qed.

(** X24. The score on the screen.  In every state the program can reach
    the text of the score display is the decimal numeral of the score with
    zeros put before it up to six characters: read as a decimal integer it
    is the score, it is as long as the numeral or six characters long,
    whichever is more, and it has exactly six characters as long as the
    score is below one million. *)
Theorem score_text_reads_as_score raycast aspect s :
  reachable raycast aspect s ->
  let text := scoreText (score s) in
  (exists d, DecimalString.NilZero.int_of_string text = Some d
             /\ Z.of_int d = score s)
  /\ String.length text = Nat.max 6 (String.length (toString (score s)))
  /\ ((score s < 1000000)%Z -> String.length text = 6%nat).
Proof.
  intros Hr. cbv zeta.
  destruct (reachable_tally raycast aspect s Hr) as [_ [_ [Es _]]].
  assert (Hn : (0 <= score s)%Z) by lia.
  destruct (scoreText_spec (score s) Hn) as [A [B C]].
  split; [exact C|]. split; [exact A|].
  exact B.
Qed.

Lemma score_text_reads_as_score_witness :
  String.length (scoreText (score firstZombieSpawned))
  = Nat.max 6 (String.length (toString (score firstZombieSpawned))).
Proof.
  exact (proj1 (proj2 (score_text_reads_as_score
                         raycastFirst 1 firstZombieSpawned
                         firstZombieSpawned_reachable))).
Defined.

(** ** The length of the executed cut lines *)

Lemma minExecutedCut_square : minExecutedCut * minExecutedCut = 1e-6 * (1 - 1e-12).
Proof.
  unfold minExecutedCut.
  replace (0.001 * sqrt (1 - 1e-12) * (0.001 * sqrt (1 - 1e-12)))
    with (1e-6 * (sqrt (1 - 1e-12) * sqrt (1 - 1e-12))) by lra.
  rewrite sqrt_sqrt by lra. reflexivity.
Qed.

Lemma minExecutedCut_bounds : 0.001 * (1 - 1e-12) < minExecutedCut < 0.001.
Proof.
  pose proof minExecutedCut_square as E.
  assert (P : 0 <= minExecutedCut).
  { unfold minExecutedCut. apply Rmult_le_pos; [lra|apply sqrt_pos]. }
  split; nra.
Qed.

Lemma extension_inv (st d e : Vector2) :
  intersectUVSquare st d = Some e ->
  exists t : R,
    1e-6 <= t
    /\ e = V2 (x2 st + x2 d * t) (y2 st + y2 d * t)
    /\ (1e-6 <= Rabs (x2 d) -> 0 <= x2 e <= 1)
    /\ (1e-6 <= Rabs (y2 d) -> 0 <= y2 e <= 1).
Proof.
  unfold intersectUVSquare.
  destruct (intersectionTime st d) as [t|] eqn:E; [|discriminate].
  intros H. inversion H. subst e. clear H. exists t.
  unfold Vec.addVectors, Vec.multiplyScalar. cbn [x2 y2].
  unfold intersectionTime in E.
  destruct (axisPass (x2 st) (x2 d) NegInf PosInf) as [[a1 b1]|] eqn:E1;
    [|discriminate].
  destruct (axisPass (y2 st) (y2 d) a1 b1) as [[a2 b2]|] eqn:E2;
    [|discriminate].
  apply axisPass_inv in E1. apply axisPass_inv in E2.
  destruct E1 as [[Dx [Sx [A1 B1]]]|[Dx [lx [hx [Lx [A1 [B1 [Ox [Px Wx]]]]]]]]];
    destruct E2 as [[Dy [Sy [A2 B2]]]|[Dy [ly [hy [Ly [A2 [B2 [Oy [Py Wy]]]]]]]]];
    subst a1 b1 a2 b2; cbn [ERmax ERmin] in E.
  - cbn in E. discriminate.
  - apply select_inv in E. destruct E as [T [[T1 T2] T3]].
    split; [lra|]. split; [reflexivity|]. split; [intros; lra|].
    intros _. apply Wy. lra.
  - apply select_inv in E. destruct E as [T [[T1 T2] T3]].
    split; [lra|]. split; [reflexivity|]. split; [|intros; lra].
    intros _. apply Wx. lra.
  - apply select_inv in E. destruct E as [T [[T1 T2] T3]].
    pose proof (Rmax_l lx ly). pose proof (Rmax_r lx ly).
    pose proof (Rmin_l hx hy). pose proof (Rmin_r hx hy).
    split; [lra|]. split; [reflexivity|].
    split; intros _; [apply Wx|apply Wy]; lra.
Qed.

Lemma normalize_zero_or_unit v :
  (x2 (Vec.normalize v) = 0 /\ y2 (Vec.normalize v) = 0)
  \/ Vec.lengthSq (Vec.normalize v) = 1.
Proof.
  destruct (Req_dec (x2 v) 0) as [Ex|Ex]; [|right; apply normalize_lengthSq; now left].
  destruct (Req_dec (y2 v) 0) as [Ey|Ey]; [|right; apply normalize_lengthSq; now right].
  left. unfold Vec.normalize.
  destruct (Req_dec_T (Vec.length v) 0); unfold Vec.multiplyScalar; cbn [x2 y2];
    rewrite Ex, Ey; split; lra.
Qed.

(** The clamp of a boundary extension from a start in the square. *)
Lemma extension_long (x d y : Vector2) :
  inUnitSquare x ->
  (x2 d = 0 /\ y2 d = 0) \/ Vec.lengthSq d = 1 ->
  intersectUVSquare x d = Some y ->
  0.001 <= Vec.distanceTo x y ->
  minExecutedCut < Vec.distanceTo x (Vec.clampScalar y 0 1).
Proof.
  intros [Hx1 Hx2] Hd Hi Hc.
  destruct (extension_inv x d y Hi) as [t [Ht [Ey [Wx Wy]]]].
  pose proof minExecutedCut_bounds as [Bl Bu].
  pose proof minExecutedCut_square as Sq.
  apply length_ge_iff in Hc; [|lra].
  unfold Vec.distanceTo.
  assert (L : Vec.lengthSq (Vec.subVectors x y)
              = (x2 d * x2 d + y2 d * y2 d) * (t * t)).
  { rewrite Ey. unfold Vec.lengthSq, Vec.subVectors. cbn [x2 y2]. ring. }
  destruct Hd as [[Z1 Z2]|U].
  { rewrite L, Z1, Z2 in Hc. lra. }
  unfold Vec.lengthSq in U. rewrite L, U in Hc.
  assert (Ht2 : 1e-6 <= t * t) by lra.
  apply length_gt_iff; [lra|]. rewrite Sq.
  unfold Vec.lengthSq, Vec.subVectors, Vec.clampScalar. cbn [x2 y2].
  destruct (Rlt_dec (Rabs (x2 d)) 1e-6) as [Px|Px];
    destruct (Rlt_dec (Rabs (y2 d)) 1e-6) as [Py|Py].
  - apply Rabs_def2 in Px. apply Rabs_def2 in Py. nra.
  - (* only the y axis is cut *)
    assert (Iy : 0 <= y2 y <= 1) by (apply Wy; lra).
    rewrite (clamp_id (y2 y)) by exact Iy.
    apply Rabs_def2 in Px.
    assert (Dy : 1 - 1e-12 < y2 d * y2 d) by nra.
    assert (Ey2 : x2 x - y2 x = x2 x - y2 x) by reflexivity.
    assert (Ed : (y2 x - y2 y) * (y2 x - y2 y) = y2 d * y2 d * (t * t)).
    { rewrite Ey. cbn [y2]. ring. }
    assert (Pos : 0 <= (x2 x - Vec.clamp 0 1 (x2 y)) * (x2 x - Vec.clamp 0 1 (x2 y)))
      by apply Rle_0_sqr.
    rewrite Ed. nra.
  - assert (Ix : 0 <= x2 y <= 1) by (apply Wx; lra).
    rewrite (clamp_id (x2 y)) by exact Ix.
    apply Rabs_def2 in Py.
    assert (Dx : 1 - 1e-12 < x2 d * x2 d) by nra.
    assert (Ed : (x2 x - x2 y) * (x2 x - x2 y) = x2 d * x2 d * (t * t)).
    { rewrite Ey. cbn [x2]. ring. }
    assert (Pos : 0 <= (y2 x - Vec.clamp 0 1 (y2 y)) * (y2 x - Vec.clamp 0 1 (y2 y)))
      by apply Rle_0_sqr.
    rewrite Ed. nra.
  - assert (Ix : 0 <= x2 y <= 1) by (apply Wx; lra).
    assert (Iy : 0 <= y2 y <= 1) by (apply Wy; lra).
    rewrite (clamp_id (x2 y)), (clamp_id (y2 y)) by assumption.
    fold (Vec.lengthSq (Vec.subVectors x y)) in L.
    unfold Vec.lengthSq, Vec.subVectors in L. cbn [x2 y2] in L.
    rewrite L, U. nra.
Qed.

(** What the two last steps of a resolver make of resolved points of
    which the first is in the square and the second is in the square or a
    boundary extension along a normalized direction. *)
Lemma checkAndClamp_long (x y a b : Vector2) (v : Vector2) :
  inUnitSquare x ->
  inUnitSquare y \/ intersectUVSquare x (Vec.normalize v) = Some y ->
  checkAndClamp x y = Some (a, b) ->
  a = x /\ inUnitSquare b /\ minExecutedCut < Vec.distanceTo a b
  /\ (inUnitSquare y -> b = y /\ 0.001 <= Vec.distanceTo a b).
Proof.
  intros Hx Hy E. apply checkAndClamp_some in E.
  destruct E as [D [Ea [Eb [Ia [Ib F]]]]].
  pose proof minExecutedCut_bounds as [_ Bu].
  assert (Eax : a = x) by (rewrite Ea; apply clampScalar_id, Hx).
  split; [exact Eax|]. split; [exact Ib|]. split.
  - destruct Hy as [Hy|Hi].
    + destruct (F Hx Hy) as [_ [_ G]]. lra.
    + rewrite Eax, Eb.
      apply (extension_long x (Vec.normalize v) y);
        [exact Hx | apply normalize_zero_or_unit | exact Hi | exact D].
  - intros Iy. destruct (F Hx Iy) as [_ [G1 G2]]. split; assumption.
Qed.

Lemma resolveSliceUV_long s a b :
  resolveSliceUV s = Some (a, b) ->
  inUnitSquare (sliceStartUV (mouse s)) ->
  (sliceEndValid (mouse s) = true -> inUnitSquare (sliceEndUV (mouse s))) ->
  a = sliceStartUV (mouse s) /\ inUnitSquare b
  /\ minExecutedCut < Vec.distanceTo a b
  /\ (sliceEndValid (mouse s) = true ->
      b = sliceEndUV (mouse s) /\ 0.001 <= Vec.distanceTo a b).
Proof.
  unfold resolveSliceUV, directionUVApprox. cbv zeta.
  destruct (sliceStartValid (mouse s)); [|cbn; discriminate].
  destruct (sliceEndValid (mouse s)); cbn [andb negb].
  - intros E Hx Hy. specialize (Hy eq_refl).
    destruct (checkAndClamp_long _ _ a b (V2 0 0) Hx (or_introl Hy) E)
      as [A [B [C D]]].
    split; [exact A|]. split; [exact B|]. split; [exact C|].
    intros _. apply D, Hy.
  - destruct (intersectUVSquare _ _) as [e|] eqn:Ei; [|discriminate].
    intros E Hx _.
    destruct (checkAndClamp_long _ _ a b _ Hx (or_intror Ei) E) as [A [B [C _]]].
    split; [exact A|]. split; [exact B|]. split; [exact C|]. discriminate.
Qed.

Lemma resolveSliceUVHand_long aspect0 startUV startNDC endNDC endUVIfValid a b :
  resolveSliceUVHand aspect0 startUV startNDC endNDC endUVIfValid = Some (a, b) ->
  inUnitSquare startUV ->
  (forall e, endUVIfValid = Some e -> inUnitSquare e) ->
  a = startUV /\ inUnitSquare b
  /\ minExecutedCut < Vec.distanceTo a b
  /\ (forall e, endUVIfValid = Some e -> b = e /\ 0.001 <= Vec.distanceTo a b).
Proof.
  unfold resolveSliceUVHand, directionUVApprox. cbv zeta.
  destruct (Rltb _ _); [discriminate|].
  destruct (Rltb _ _); [discriminate|].
  destruct endUVIfValid as [e|].
  - intros E Hx Hy. specialize (Hy e eq_refl).
    destruct (checkAndClamp_long _ _ a b (V2 0 0) Hx (or_introl Hy) E)
      as [A [B [C D]]].
    split; [exact A|]. split; [exact B|]. split; [exact C|].
    intros e' Ee. inversion Ee; subst e'. apply D, Hy.
  - destruct (intersectUVSquare _ _) as [e|] eqn:Ei; [|discriminate].
    intros E Hx _.
    destruct (checkAndClamp_long _ _ a b _ Hx (or_intror Ei) E) as [A [B [C _]]].
    split; [exact A|]. split; [exact B|]. split; [exact C|]. discriminate.
Qed.

(** ** The cut lines of the pieces of a reachable state *)

Lemma hit_in_square raycast s ndc uv id :
  raycastSound raycast ->
  getUVCoordsFromNDC raycast s ndc = Some (uv, id) -> inUnitSquare uv.
Proof.
  intros Hray. unfold getUVCoordsFromNDC.
  destruct (activeZombies s); [discriminate|].
  intros E. apply Hray in E. tauto.
Qed.

Lemma stepPiece_cut deltaTime p p' :
  stepPiece deltaTime p = Some p' ->
  puSliceStart p' = puSliceStart p /\ puSliceEnd p' = puSliceEnd p.
Proof.
  unfold stepPiece.
  destruct (negb (pisOnFloor p)); cbv zeta.
  - destruct (Rleb _ _); intros E; inversion E; split; reflexivity.
  - destruct (Rgeb _ _); [discriminate|].
    intros E; inversion E; split; reflexivity.
Qed.

Lemma stepAllPieces_cut deltaTime pieces :
  Forall cutSound pieces -> Forall cutSound (stepAllPieces deltaTime pieces).
Proof.
  intros H. unfold stepAllPieces. induction H as [|p l Hp Hl IH]; cbn [flat_map].
  - constructor.
  - destruct (stepPiece deltaTime p) as [p'|] eqn:E; cbn [app]; [|exact IH].
    constructor; [|exact IH].
    destruct (stepPiece_cut deltaTime p p' E) as [E1 E2].
    unfold cutSound. rewrite E1, E2. exact Hp.
Qed.

Lemma spawnZombie_pieces s rnd : slicedPieces (spawnZombie s rnd) = slicedPieces s.
Proof.
  unfold spawnZombie. destruct (gameOver s); [reflexivity|].
  destruct (allZombieFramesLoaded s); [|reflexivity].
  destruct (zombieGeometry s) as [[w h]|]; reflexivity.
Qed.

Lemma performSlice_cutSound s now rnd target a b :
  inUnitSquare a -> inUnitSquare b -> minExecutedCut < Vec.distanceTo a b ->
  Forall cutSound (slicedPieces s) ->
  Forall cutSound (slicedPieces (performSlice s now rnd target a b)).
Proof.
  intros Ia Ib Hl H. unfold performSlice. destruct target as [id|]; [|exact H].
  destruct (nth_error (heap s) id) as [z|]; [|exact H].
  destruct (zisSliced z); [exact H|].
  destruct (Rltb _ _); [exact H|].
  cbn [slicedPieces executeSlice]. apply Forall_app. split; [exact H|].
  constructor; [|constructor; [|constructor]];
    unfold cutSound, makePiece; cbn [puSliceStart puSliceEnd];
    (split; [exact Ia|]); (split; [exact Ib|exact Hl]).
Qed.

Lemma handle_cutSound raycast s e :
  raycastSound raycast -> mouseSound s ->
  Forall cutSound (slicedPieces s) ->
  Forall cutSound (slicedPieces (handle raycast s e)).
Proof.
  intros Hray Hm H. destruct e; cbn [handle].
  - unfold bloodTextureLoaded. destruct (Nat.eqb _ _); exact H.
  - unfold zombieFrameLoaded. cbv zeta.
    destruct l; destruct (Nat.eqb _ ZOMBIE_FRAME_COUNT);
      rewrite ?spawnZombie_pieces; exact H.
  - rewrite spawnZombie_pieces. exact H.
  - exact H.
  - unfold mousedown. destruct (zombieGeometry s); [|exact H].
    destruct (getUVCoords raycast s ndc) as [[uv object]|]; exact H.
  - unfold mousemove. destruct (isSlicing (mouse s)); exact H.
  - destruct Hm as [M1 [M2 [M3 M4]]]. unfold mouseup.
    destruct (isSlicing (mouse s)) eqn:Ei; [|exact H].
    destruct (M3 eq_refl) as [id [Et [_ Iu]]]. rewrite Et. cbv zeta.
    unfold resetMouse. cbn [slicedPieces setMouse].
    destruct (Rgtb _ _); [|exact H].
    assert (Ez : forall m, calculateAndPerformSlice (setMouse s m) now rnd
                             (zombieToSlice m)
                           = match zombieToSlice m with
                             | None => setMouse s m
                             | Some _ =>
                               match resolveSliceUV (setMouse s m) with
                               | None => setMouse s m
                               | Some (a, b) =>
                                 performSlice (setMouse s m) now rnd
                                              (zombieToSlice m) a b
                               end
                             end) by reflexivity.
    rewrite Ez. clear Ez.
    match goal with
    | |- context [setMouse s ?m] => set (m1 := m)
    end.
    assert (I1 : inUnitSquare (sliceStartUV m1)).
    { subst m1. destruct (getUVCoords raycast s ndc) as [[uv object]|];
        [destruct (Nat.eqb object id)|]; exact Iu. }
    assert (I2 : sliceEndValid m1 = true -> inUnitSquare (sliceEndUV m1)).
    { subst m1. destruct (getUVCoords raycast s ndc) as [[uv object]|] eqn:Eh;
        [destruct (Nat.eqb object id)|]; cbn [sliceEndValid sliceEndUV];
        try discriminate.
      intros _. exact (hit_in_square raycast s ndc uv object Hray Eh). }
    clearbody m1.
    destruct (zombieToSlice m1); [|exact H].
    destruct (resolveSliceUV (setMouse s m1)) as [[a b]|] eqn:Er; [|exact H].
    apply resolveSliceUV_long in Er; [|exact I1|exact I2].
    destruct Er as [Ea [Ib [Hl _]]].
    apply performSlice_cutSound; [|exact Ib|exact Hl|exact H].
    rewrite Ea. exact I1.
  - unfold processHandData.
    destruct (gameOver s); [exact H|].
    destruct results as [|[raw|]]; try exact H.
    cbn [slicedPieces setPreviousFingerTipNDC]. unfold frameToFrameCheck.
    destruct (previousFingerTipNDC s) as [previous|]; [|exact H].
    destruct (Rgtb _ _); [|exact H].
    destruct (getUVCoordsFromNDC raycast s previous) as [[uv id]|] eqn:Eh; [|exact H].
    unfold calculateAndPerformSliceHand.
    destruct (nth_error (heap s) id) as [z|]; [|exact H].
    destruct (zisSliced z); [exact H|].
    destruct (resolveSliceUVHand _ _ _ _ _) as [[a b]|] eqn:Er; [|exact H].
    apply resolveSliceUVHand_long in Er.
    + destruct Er as [Ea [Ib [Hl _]]].
      apply performSlice_cutSound; [|exact Ib|exact Hl|exact H].
      rewrite Ea. exact (hit_in_square raycast s previous uv id Hray Eh).
    + exact (hit_in_square raycast s previous uv id Hray Eh).
    + intros e0 Ee.
      match type of Ee with
      | context [getUVCoordsFromNDC raycast s ?c] =>
        destruct (getUVCoordsFromNDC raycast s c) as [[uv' object]|] eqn:Eh'
      end; [destruct (Nat.eqb object id)|]; try discriminate.
      injection Ee as Ee. rewrite <- Ee.
      exact (hit_in_square raycast s _ uv' object Hray Eh').
  - rewrite animate_slicedPieces. apply stepAllPieces_cut, H.
Qed.

Lemma reachable_cutSound raycast aspect s :
  raycastSound raycast -> reachable raycast aspect s ->
  Forall cutSound (slicedPieces s).
Proof.
  intros Hray. induction 1 as [|s e Hr IH He].
  - constructor.
  - apply handle_cutSound;
      [exact Hray | apply (reachable_mouseSound raycast aspect s Hray Hr) | exact IH].
Qed.

(** C5, as the code has it. A cut line that either resolver hands to the
    executor comes from a start point on the target and from an end point
    that is the hit of the end of the gesture or the boundary extension;
    these two are at least 0.001 apart (exactly 0.001 is accepted), the
    cut line is their clamp to the unit square and lies in it, and when
    they are in the unit square already the cut line is these two points,
    at least 0.001 apart.  A start off the target, a failed extension and a
    distance below 0.001 make the resolver return before the executor, and
    the state is then as it was; otherwise the resolver calls the executor
    with the cut line.

    The executed cut line is never degenerate.  With the start point in
    the texture square, where every hit of the target is, and with an end
    point that is such a hit or the boundary extension, the cut line
    starts at the start point and is longer than [minExecutedCut], which
    is 0.001 * sqrt (1 - 1e-12), less than 0.001 by less than a part in
    1e12; it is at least 0.001 long when the end point is a hit.  So, with
    a raycaster that answers with points of the texture square, the cut
    line of every piece of every state the program can reach lies in the
    square and is longer than [minExecutedCut]. *)
Theorem cut_line_resolution (s : State) :
  (* the mouse resolver *)
  (forall a b,
      resolveSliceUV s = Some (a, b) ->
      sliceStartValid (mouse s) = true
      /\ exists e,
          ((sliceEndValid (mouse s) = true /\ e = sliceEndUV (mouse s))
           \/ (sliceEndValid (mouse s) = false
               /\ intersectUVSquare
                    (sliceStartUV (mouse s))
                    (directionUVApprox (cameraAspect s)
                       (directionNDC (sliceStartNDC (mouse s))
                                     (sliceEndNDC (mouse s)))) = Some e))
          /\ acceptedCut (sliceStartUV (mouse s)) e a b)
  /\ (sliceStartValid (mouse s) = false -> resolveSliceUV s = None)
  /\ (sliceEndValid (mouse s) = false ->
      intersectUVSquare
        (sliceStartUV (mouse s))
        (directionUVApprox (cameraAspect s)
           (directionNDC (sliceStartNDC (mouse s)) (sliceEndNDC (mouse s))))
      = None ->
      resolveSliceUV s = None)
  /\ (sliceEndValid (mouse s) = true ->
      Vec.distanceTo (sliceStartUV (mouse s)) (sliceEndUV (mouse s)) < 0.001 ->
      resolveSliceUV s = None)
  /\ (forall e,
         sliceEndValid (mouse s) = false ->
         intersectUVSquare
           (sliceStartUV (mouse s))
           (directionUVApprox (cameraAspect s)
              (directionNDC (sliceStartNDC (mouse s)) (sliceEndNDC (mouse s))))
         = Some e ->
         Vec.distanceTo (sliceStartUV (mouse s)) e < 0.001 ->
         resolveSliceUV s = None)
  /\ (forall now rnd target,
         resolveSliceUV s = None ->
         calculateAndPerformSlice s now rnd target = s)
  /\ (forall now rnd id a b,
         resolveSliceUV s = Some (a, b) ->
         calculateAndPerformSlice s now rnd (Some id)
         = performSlice s now rnd (Some id) a b)
  (* the hand resolver *)
  /\ (forall startUV startNDC endNDC endUVIfValid a b,
         resolveSliceUVHand (cameraAspect s) startUV startNDC endNDC endUVIfValid
         = Some (a, b) ->
         exists e,
           (endUVIfValid = Some e
            \/ (endUVIfValid = None
                /\ intersectUVSquare
                     startUV
                     (directionUVApprox (cameraAspect s)
                        (directionNDC startNDC endNDC)) = Some e))
           /\ acceptedCut startUV e a b)
  /\ (forall startUV startNDC endNDC,
         intersectUVSquare
           startUV
           (directionUVApprox (cameraAspect s) (directionNDC startNDC endNDC))
         = None ->
         resolveSliceUVHand (cameraAspect s) startUV startNDC endNDC None = None)
  /\ (forall startUV startNDC endNDC e,
         Vec.distanceTo startUV e < 0.001 ->
         resolveSliceUVHand (cameraAspect s) startUV startNDC endNDC (Some e) = None)
  /\ (forall startUV startNDC endNDC e,
         intersectUVSquare
           startUV
           (directionUVApprox (cameraAspect s) (directionNDC startNDC endNDC))
         = Some e ->
         Vec.distanceTo startUV e < 0.001 ->
         resolveSliceUVHand (cameraAspect s) startUV startNDC endNDC None = None)
  /\ (forall now rnd target startUV startNDC endNDC endUVIfValid,
         resolveSliceUVHand (cameraAspect s) startUV startNDC endNDC endUVIfValid
         = None ->
         calculateAndPerformSliceHand s now rnd target startUV startNDC endNDC
                                      endUVIfValid = s)
  /\ (forall now rnd id z startUV startNDC endNDC endUVIfValid a b,
         nth_error (heap s) id = Some z -> zisSliced z = false ->
         resolveSliceUVHand (cameraAspect s) startUV startNDC endNDC endUVIfValid
         = Some (a, b) ->
         calculateAndPerformSliceHand s now rnd (Some id) startUV startNDC endNDC
                                      endUVIfValid
         = performSlice s now rnd (Some id) a b)
  /\ (forall raycast now rnd previous currentFingerTipNDC,
         previousFingerTipNDC s = Some previous ->
         getUVCoordsFromNDC raycast s previous = None ->
         frameToFrameCheck raycast s now rnd currentFingerTipNDC = s)
  (* the length of the cut line that is executed: the mouse resolver *)
  /\ (forall a b,
         resolveSliceUV s = Some (a, b) ->
         inUnitSquare (sliceStartUV (mouse s)) ->
         (sliceEndValid (mouse s) = true -> inUnitSquare (sliceEndUV (mouse s))) ->
         a = sliceStartUV (mouse s) /\ inUnitSquare b
         /\ minExecutedCut < Vec.distanceTo a b
         /\ (sliceEndValid (mouse s) = true ->
             b = sliceEndUV (mouse s) /\ 0.001 <= Vec.distanceTo a b))
  (* the hand resolver *)
  /\ (forall startUV startNDC endNDC endUVIfValid a b,
         resolveSliceUVHand (cameraAspect s) startUV startNDC endNDC endUVIfValid
         = Some (a, b) ->
         inUnitSquare startUV ->
         (forall e, endUVIfValid = Some e -> inUnitSquare e) ->
         a = startUV /\ inUnitSquare b
         /\ minExecutedCut < Vec.distanceTo a b
         /\ (forall e, endUVIfValid = Some e ->
                       b = e /\ 0.001 <= Vec.distanceTo a b))
  /\ 0.001 * (1 - 1e-12) < minExecutedCut < 0.001
  (* the cut lines of the pieces *)
  /\ (forall raycast aspect s',
         raycastSound raycast -> reachable raycast aspect s' ->
         Forall (fun p =>
                   inUnitSquare (puSliceStart p) /\ inUnitSquare (puSliceEnd p)
                   /\ minExecutedCut
                      < Vec.distanceTo (puSliceStart p) (puSliceEnd p))
                (slicedPieces s')).
Proof.
  destruct (resolver_outcomes s)
    as [O1 [O2 [O3 [O4 [O5 [O6 [O7 [O8 [O9 [O10 [O11 [O12 [O13 O14]]]]]]]]]]]]].
  split; [exact O1|]. split; [exact O2|]. split; [exact O3|].
  split; [exact O4|]. split; [exact O5|]. split; [exact O6|].
  split; [exact O7|]. split; [exact O8|]. split; [exact O9|].
  split; [exact O10|]. split; [exact O11|]. split; [exact O12|].
  split; [exact O13|]. split; [exact O14|].
  split; [|split; [|split]].
  - intros a b. apply resolveSliceUV_long.
  - intros startUV startNDC endNDC endUVIfValid a b.
    apply resolveSliceUVHand_long.
  - exact minExecutedCut_bounds.
  - intros raycast aspect s' Hray Hr.
    exact (reachable_cutSound raycast aspect s' Hray Hr).
Qed.

(** The mouse drag of [draggedState] resolves to the cut of scenario A,
    which is 0.6 long. *)
Lemma cut_line_resolution_witness :
  resolveSliceUV draggedState
  = Some (Vec.clampScalar (V2 0.2 0.5) 0 1, Vec.clampScalar (V2 0.8 0.5) 0 1)
  /\ (exists e,
         acceptedCut (sliceStartUV (mouse draggedState)) e
                     (Vec.clampScalar (V2 0.2 0.5) 0 1)
                     (Vec.clampScalar (V2 0.8 0.5) 0 1))
  /\ minExecutedCut
     < Vec.distanceTo (Vec.clampScalar (V2 0.2 0.5) 0 1)
                      (Vec.clampScalar (V2 0.8 0.5) 0 1).
Proof.
  assert (R : resolveSliceUV draggedState
              = Some (Vec.clampScalar (V2 0.2 0.5) 0 1,
                      Vec.clampScalar (V2 0.8 0.5) 0 1)).
  { apply resolve_mouse_both; try reflexivity.
    unfold Vec.lengthSq, Vec.subVectors; cbn [x2 y2]. lra. }
  split; [exact R|].
  destruct (cut_line_resolution draggedState)
    as [C1 [_ [_ [_ [_ [_ [_ [_ [_ [_ [_ [_ [_ [_ [C15 _]]]]]]]]]]]]]]].
  split.
  - destruct (C1 _ _ R) as [_ [e [_ A]]]. exists e. exact A.
  - assert (I1 : inUnitSquare (V2 0.2 0.5)) by (unfold inUnitSquare; cbn; lra).
    assert (I2 : inUnitSquare (V2 0.8 0.5)) by (unfold inUnitSquare; cbn; lra).
    exact (proj1 (proj2 (proj2 (C15 _ _ R I1 (fun _ => I2))))).
Defined.
